(** * simple_ini_reader.h: a shallow embedding and its properties

    The single-header INI reader works on one NUL-terminated character buffer
    that it mutates in place: comments are blanked, and names and values are
    carved out by writing NUL over the character that ends them.  Every name
    and value of a parsed document is a pointer into that buffer (or to a
    string literal).  The embedding keeps this shape: the buffer is a
    [list ascii], a [char *] is an offset into it, and the strings a document
    holds are read back from the buffer as it is when they are read.

    Conventions.
    - [char] is the signed 8-bit type of the x86 targets the README names
      (Windows, Ubuntu): [char_val] gives the value the comparisons see.
    - [int] values are unbounded [Z]; the indices involved never exceed the
      length of the text, so no wrap-around is reachable for texts below 2GB.
    - An access outside an allocated object is the outcome [Fault]; a loop
      of the model that runs out of fuel is the outcome [Fuel].
    - The document carries one ghost field, [error_writes], which counts
      the calls of [sir__set_error] that wrote the error buffer.  No code
      reads it; it is there to state how often an operation writes. *)

From Stdlib Require Import String Ascii ZArith List Bool Lia.
Import ListNotations.

#[local] Open Scope string_scope.
#[local] Open Scope list_scope.
#[local] Open Scope Z_scope.

(** ** Outcomes *)

Inductive outcome (A : Type) : Type :=
| Ok (a : A)
| Fault
| Fuel.

Arguments Ok {A} a.
Arguments Fault {A}.
Arguments Fuel {A}.

Definition bind {A B : Type} (m : outcome A) (k : A -> outcome B) : outcome B :=
  match m with
  | Ok a => k a
  | Fault => Fault
  | Fuel => Fuel
  end.

Notation "'do' x <- m ; k" := (bind m (fun x => k))
  (at level 10, x pattern, m at level 100, k at level 200).

(** ** Characters and the text buffer *)

Definition NUL : ascii := "000"%char.
Definition LF : ascii := "010"%char.
Definition DQUOTE : ascii := "034"%char.  (* the double quote *)

(** The value of a (signed) [char]. *)
Definition char_val (c : ascii) : Z :=
  let n := Z.of_N (N_of_ascii c) in
  if 128 <=? n then n - 256 else n.

(** [*s <= ' '], the whitespace test used all over the source. *)
Definition le_space (c : ascii) : bool := char_val c <=? 32.

Definition is_nul (c : ascii) : bool := Ascii.eqb c NUL.

(** A buffer of [n] characters stands for the [n + 1] bytes of a C string:
    the byte at offset [n] is the terminator, which [load] returns for
    every offset from [n] on.  The source writes nothing but NUL there. *)
Definition load (buf : list ascii) (p : Z) : ascii := nth (Z.to_nat p) buf NUL.

Definition tail_at (buf : list ascii) (p : Z) : list ascii := skipn (Z.to_nat p) buf.

Definition store (buf : list ascii) (p : Z) (c : ascii) : list ascii :=
  firstn (Z.to_nat p) buf ++
  match skipn (Z.to_nat p) buf with
  | [] => []
  | _ :: t => c :: t
  end.

(** The C string that starts a list: everything before the first NUL. *)
Fixpoint c_string (s : list ascii) : list ascii :=
  match s with
  | [] => []
  | c :: t => if is_nul c then [] else c :: c_string t
  end.

Fixpoint strlen (s : list ascii) : Z :=
  match s with
  | [] => 0
  | c :: t => if is_nul c then 0 else 1 + strlen t
  end.

(** ** Options *)

Definition SirOptions := Z.

Definition SIR_OPTION_NONE : SirOptions := 0x000.
Definition SIR_OPTION_IGNORE_EMPTY_VALUES : SirOptions := 0x001.
Definition SIR_OPTION_OVERRIDE_DUPLICATE_KEYS : SirOptions := 0x002.
Definition SIR_OPTION_DISABLE_QUOTES : SirOptions := 0x004.
Definition SIR_OPTION_DISABLE_HASH_COMMENTS : SirOptions := 0x008.
Definition SIR_OPTION_DISABLE_COLON_ASSIGNMENT : SirOptions := 0x010.
Definition SIR_OPTION_DISABLE_COMMENT_ANYWHERE : SirOptions := 0x020.
Definition SIR_OPTION_DISABLE_CASE_SENSITIVITY : SirOptions := 0x040.
Definition SIR_OPTION_DISABLE_ERRORS : SirOptions := 0x080.
Definition SIR_OPTION_DISABLE_WARNINGS : SirOptions := 0x100.

(** [options & flag] as a truth value. *)
Definition has_option (options flag : SirOptions) : bool :=
  negb (Z.land options flag =? 0).

Definition SIR_COMMENT_CHAR : ascii := ";"%char.
Definition SIR_COMMENT_CHAR_ALT : ascii := "#"%char.
Definition SIR_KEY_ASSIGNMENT_CHAR : ascii := "="%char.
Definition SIR_KEY_ASSIGNMENT_CHAR_ALT : ascii := ":"%char.
Definition SIR__SECTION_NAME_OPEN_CHAR : ascii := "["%char.
Definition SIR__SECTION_NAME_CLOSE_CHAR : ascii := "]"%char.
Definition SIR__KEY_END_CHAR : ascii := LF.
Definition SIR_GLOBAL_SECTION_NAME : list ascii := list_ascii_of_string "global".
Definition SIR__BOOL_TRUE_STRING : list ascii := list_ascii_of_string "true".
Definition SIR__BOOL_FALSE_STRING : list ascii := list_ascii_of_string "false".
Definition SIR_ERROR_STRING_SIZE : Z := 512.

(** ** String helpers of the source *)

(** Despite its name the source maps 'a'..'z' to 'A'..'Z'. *)
Definition sir__to_lowercase (c : ascii) : ascii :=
  if (char_val "a"%char <=? char_val c) && (char_val c <=? char_val "z"%char)
  then ascii_of_N (N_of_ascii c - (N_of_ascii "a"%char - N_of_ascii "A"%char))
  else c.

(** The comparison loop of [sir__str_equal_case] on two non-null strings.
    A list that ends stands for a string whose terminator is reached. *)
Fixpoint str_equal_loop (s1 s2 : list ascii) (case_insensitive : bool) : bool :=
  match s1, s2 with
  | c1 :: t1, c2 :: t2 =>
      if is_nul c1 || is_nul c2 then Ascii.eqb c1 c2
      else
        let c1' := if case_insensitive then sir__to_lowercase c1 else c1 in
        let c2' := if case_insensitive then sir__to_lowercase c2 else c2 in
        if Ascii.eqb c1' c2' then str_equal_loop t1 t2 case_insensitive else false
  | [], c2 :: _ => is_nul c2
  | c1 :: _, [] => is_nul c1
  | [], [] => true
  end.

(** A [const char *] argument: [None] is the null pointer. *)
Definition sir__str_equal_case (s1 s2 : option (list ascii)) (case_insensitive : bool) : bool :=
  match s1, s2 with
  | None, None => true
  | Some a, Some b => str_equal_loop a b case_insensitive
  | _, _ => false
  end.

Definition sir__is_comment_char (options : SirOptions) (c : ascii) : bool :=
  Ascii.eqb c SIR_COMMENT_CHAR ||
  (negb (has_option options SIR_OPTION_DISABLE_HASH_COMMENTS) &&
   Ascii.eqb c SIR_COMMENT_CHAR_ALT).

Definition sir__is_assignment_char (options : SirOptions) (c : ascii) : bool :=
  Ascii.eqb c SIR_KEY_ASSIGNMENT_CHAR ||
  (negb (has_option options SIR_OPTION_DISABLE_COLON_ASSIGNMENT) &&
   Ascii.eqb c SIR_KEY_ASSIGNMENT_CHAR_ALT).

(** [while ( *str && *str <= ' ') ++n]. *)
Fixpoint skip_whitespace (s : list ascii) : Z :=
  match s with
  | [] => 0
  | c :: t => if negb (is_nul c) && le_space c then 1 + skip_whitespace t else 0
  end.

Definition sir__skip_whitespace (buf : list ascii) (str : Z) : Z :=
  skip_whitespace (tail_at buf str).

(** [while ( *str && *str != c) ++n]. *)
Fixpoint skip_to_char (s : list ascii) (c : ascii) : Z :=
  match s with
  | [] => 0
  | x :: t => if negb (is_nul x) && negb (Ascii.eqb x c) then 1 + skip_to_char t c else 0
  end.

Definition sir__skip_to_char (buf : list ascii) (str : Z) (c : ascii) : Z :=
  skip_to_char (tail_at buf str) c.

(** The backward loop [while (str[i] <= ' ') --i] of [sir__trim_whitespace],
    from offset [q] of the buffer down: the offset of the first character
    above ' ' it meets, or nothing when it runs off the front of the buffer. *)
Fixpoint trim_back (buf : list ascii) (q : nat) : option nat :=
  if le_space (nth q buf NUL)
  then match q with
       | O => None
       | S q' => trim_back buf q'
       end
  else Some q.

(** [sir__trim_whitespace]: returns the buffer with the NUL written and the
    new start of the string.  [strlen(str) - 1] is computed in [size_t]; for
    an empty string it wraps, and [str[i]] then reads the byte before [str]:
    the loop walks backwards through whatever precedes the string.  Leaving
    the buffer at its front is a [Fault]. *)
Definition sir__trim_whitespace (buf : list ascii) (str : Z) : outcome (list ascii * Z) :=
  let str := str + sir__skip_whitespace buf str in
  let last := str + strlen (tail_at buf str) - 1 in
  if last <? 0 then Fault
  else match trim_back buf (Z.to_nat last) with
       | None => Fault
       | Some i => Ok (store buf (Z.of_nat i + 1) NUL, str)
       end.

(** [sir__parse_to_char]: the count (or -1) and the buffer; the string it
    hands back through [parsed_str_ret] always starts at [str]. *)
Definition sir__parse_to_char (buf : list ascii) (str : Z) (c : ascii) : Z * list ascii :=
  let n := sir__skip_to_char buf str c in
  if is_nul (load buf (str + n)) then (-1, buf)
  else (n, store buf (str + n) NUL).

Definition sir__parse_to_assignment_char (options : SirOptions) (buf : list ascii) (str : Z)
  : Z * list ascii :=
  if has_option options SIR_OPTION_DISABLE_COLON_ASSIGNMENT
  then sir__parse_to_char buf str SIR_KEY_ASSIGNMENT_CHAR
  else
    let a := sir__skip_to_char buf str SIR_KEY_ASSIGNMENT_CHAR in
    let b := sir__skip_to_char buf str SIR_KEY_ASSIGNMENT_CHAR_ALT in
    if a <? b
    then sir__parse_to_char buf str SIR_KEY_ASSIGNMENT_CHAR
    else sir__parse_to_char buf str SIR_KEY_ASSIGNMENT_CHAR_ALT.

(** ** The document *)

(** A [const char *] held by a document: null, an offset into [data], or a
    string literal of the program. *)
Inductive cptr : Type :=
| NullPtr
| InData (p : Z)
| Literal (s : list ascii).

Record SirSectionRange : Type := mkRange { start : Z; end_ : Z }.

(** [ranges_count] is the length of [ranges]. *)
Record SirSection : Type := mkSection { ranges : list SirSectionRange }.

Definition ranges_count (s : SirSection) : Z := Z.of_nat (length (ranges s)).

Record SirIniStruct : Type := mkIni {
  data : list ascii;
  sections : list SirSection;
  section_names : list cptr;
  key_names : list cptr;
  key_values : list cptr;
  error : list ascii;          (* the C string held in the error buffer *)
  section_count : Z;
  key_count : Z;
  options : SirOptions;
  error_size : Z;
  error_writes : Z             (* ghost: how often [sir__set_error] wrote the buffer *)
}.

Definition SirIni := SirIniStruct.

(** The string a pointer denotes in a buffer. *)
Definition string_at (buf : list ascii) (p : cptr) : option (list ascii) :=
  match p with
  | NullPtr => None
  | InData q => Some (c_string (tail_at buf q))
  | Literal s => Some s
  end.

Definition is_null (p : cptr) : bool :=
  match p with NullPtr => true | _ => false end.

(** Array accesses: an index outside the allocation is a [Fault]. *)
Definition aget {A : Type} (l : list A) (i : Z) : outcome A :=
  if i <? 0 then Fault
  else match nth_error l (Z.to_nat i) with
       | Some x => Ok x
       | None => Fault
       end.

Fixpoint replace_nth {A : Type} (l : list A) (n : nat) (x : A) : option (list A) :=
  match l, n with
  | [], _ => None
  | _ :: t, O => Some (x :: t)
  | h :: t, S n' => option_map (cons h) (replace_nth t n' x)
  end.

Definition aset {A : Type} (l : list A) (i : Z) (x : A) : outcome (list A) :=
  if i <? 0 then Fault
  else match replace_nth l (Z.to_nat i) x with
       | Some l' => Ok l'
       | None => Fault
       end.

Definition sir__str_equal (options : SirOptions) (s1 s2 : option (list ascii)) : bool :=
  sir__str_equal_case s1 s2 (has_option options SIR_OPTION_DISABLE_CASE_SENSITIVITY).

(** ** The error slot

    [sir__set_error] formats its message into the buffer and counts the
    write in the ghost field; [sir__clear_error_str] empties the buffer. *)

Definition sir__errors_enabled (ini : SirIni) : bool :=
  negb (has_option (options ini) SIR_OPTION_DISABLE_ERRORS).

Definition with_error (ini : SirIni) (e : list ascii) : SirIni :=
  mkIni (data ini) (sections ini) (section_names ini) (key_names ini) (key_values ini)
        e (section_count ini) (key_count ini) (options ini) (error_size ini)
        (error_writes ini).

(** The ghost count of the writes, set to [n]. *)
Definition with_error_writes (ini : SirIni) (n : Z) : SirIni :=
  mkIni (data ini) (sections ini) (section_names ini) (key_names ini) (key_values ini)
        (error ini) (section_count ini) (key_count ini) (options ini) (error_size ini) n.

(** The inner copy loop [while ( *s && n < size - 1)] of [sir__set_error]:
    the characters written and the new [n]. *)
Fixpoint copy_arg (s : list ascii) (n size : Z) : list ascii * Z :=
  match s with
  | [] => ([], n)
  | c :: t =>
      if negb (is_nul c) && (n <? size - 1)
      then let '(w, n') := copy_arg t (n + 1) size in (c :: w, n')
      else ([], n)
  end.

(** The outer loop of [sir__set_error]: the characters written for [format]
    from the counters [n] and [i] on. *)
Fixpoint format_error (format : list ascii) (s1 s2 : option (list ascii))
         (i n size : Z) : list ascii :=
  match format with
  | [] => []
  | c :: rest =>
      if negb (is_nul c) && (n <? size - 1)
      then if Ascii.eqb c "%"%char
           then match (if i =? 0 then s1 else if i =? 1 then s2 else None) with
                | Some s =>
                    let '(w, n') := copy_arg s n size in
                    w ++ format_error rest s1 s2 (i + 1) n' size
                | None => format_error rest s1 s2 i n size
                end
           else c :: format_error rest s1 s2 i (n + 1) size
      else []
  end.

Definition sir__set_error (ini : SirIni) (format : string)
           (s1 s2 : option (list ascii)) : SirIni :=
  if negb (sir__errors_enabled ini) then ini
  else with_error_writes
         (with_error ini
            (format_error (list_ascii_of_string format) s1 s2 0 0 (error_size ini)))
         (error_writes ini + 1).

Definition sir__clear_error_str (ini : SirIni) : SirIni :=
  if sir__errors_enabled ini then with_error ini [] else ini.

Definition sir_has_error (ini : SirIni) : bool :=
  sir__errors_enabled ini &&
  match error ini with
  | [] => false
  | c :: _ => negb (is_nul c)
  end.

(** ** sir_load_from_str *)

Definition with_data (ini : SirIni) (d : list ascii) : SirIni :=
  mkIni d (sections ini) (section_names ini) (key_names ini) (key_values ini)
        (error ini) (section_count ini) (key_count ini) (options ini) (error_size ini)
        (error_writes ini).

Definition with_sections (ini : SirIni) (s : list SirSection) : SirIni :=
  mkIni (data ini) s (section_names ini) (key_names ini) (key_values ini)
        (error ini) (section_count ini) (key_count ini) (options ini) (error_size ini)
        (error_writes ini).

Definition with_section_names (ini : SirIni) (l : list cptr) : SirIni :=
  mkIni (data ini) (sections ini) l (key_names ini) (key_values ini)
        (error ini) (section_count ini) (key_count ini) (options ini) (error_size ini)
        (error_writes ini).

Definition with_key_names (ini : SirIni) (l : list cptr) : SirIni :=
  mkIni (data ini) (sections ini) (section_names ini) l (key_values ini)
        (error ini) (section_count ini) (key_count ini) (options ini) (error_size ini)
        (error_writes ini).

Definition with_key_values (ini : SirIni) (l : list cptr) : SirIni :=
  mkIni (data ini) (sections ini) (section_names ini) (key_names ini) l
        (error ini) (section_count ini) (key_count ini) (options ini) (error_size ini)
        (error_writes ini).

(** *** First pass: blank the comments, count sections and keys *)

(** [while ( *str && *str != '\n') { *str = ' '; ++str; }]: the blanked text
    and the number of characters passed. *)
Fixpoint blank_comment (s : list ascii) : list ascii * Z :=
  match s with
  | [] => ([], 0)
  | c :: t =>
      if negb (is_nul c) && negb (Ascii.eqb c LF)
      then let '(t', n) := blank_comment t in (" "%char :: t', n + 1)
      else (s, 0)
  end.

(** The counting loop.  After a comment that runs to the end of the text the
    trailing [++str] steps over the terminator, and the loop test then reads
    outside the string: a [Fault]. *)
Fixpoint strip_and_count (fuel : nat) (options : SirOptions) (buf : list ascii)
         (str sc kc : Z) : outcome (list ascii * Z * Z) :=
  match fuel with
  | O => Fuel
  | S fuel' =>
      if Z.of_nat (length buf) <? str then Fault
      else if is_nul (load buf str) then Ok (buf, sc, kc)
      else
        let '(buf1, str1) :=
          if sir__is_comment_char options (load buf str) &&
             (negb (has_option options SIR_OPTION_DISABLE_COMMENT_ANYWHERE) ||
              (has_option options SIR_OPTION_DISABLE_COMMENT_ANYWHERE &&
               ((str =? 0) || ((0 <? str) && Ascii.eqb (load buf (str - 1)) LF))))
          then let '(t, n) := blank_comment (tail_at buf str) in
               (firstn (Z.to_nat str) buf ++ t, str + n)
          else (buf, str) in
        let c := load buf1 str1 in
        let sc1 := if Ascii.eqb c SIR__SECTION_NAME_OPEN_CHAR then sc + 1 else sc in
        let kc1 := if Ascii.eqb c SIR__SECTION_NAME_OPEN_CHAR then kc
                   else if sir__is_assignment_char options c then kc + 1 else kc in
        strip_and_count fuel' options buf1 (str1 + 1) sc1 kc1
  end.

(** *** The diagnostic pass ("Check for Warnings")

    The warnings it collects are not modelled: no operation modelled here
    consults them.  The pass is kept for the way it walks the text.  Each of
    its inner scans is followed by an unconditional [++str]; a scan that
    stopped at the terminator leaves [str] behind the terminator, and the
    loop test that follows reads outside the string.  The scans are written
    out in the source; they are the loops of [sir__skip_whitespace] and
    [sir__skip_to_char]. *)

(** [while ( *str && !sir__is_assignment_char(ini, *str)) ++str]: the number
    of characters stepped over. *)
Fixpoint skip_to_assignment_char (options : SirOptions) (s : list ascii) : Z :=
  match s with
  | [] => 0
  | c :: t =>
      if negb (is_nul c) && negb (sir__is_assignment_char options c)
      then 1 + skip_to_assignment_char options t
      else 0
  end.

Fixpoint check_warnings (fuel : nat) (options : SirOptions) (buf : list ascii) (str : Z)
  : outcome unit :=
  match fuel with
  | O => Fuel
  | S fuel' =>
      if Z.of_nat (length buf) <? str then Fault
      else if is_nul (load buf str) then Ok tt
      else
        let str := str + sir__skip_whitespace buf str in
        if Ascii.eqb (load buf str) SIR__SECTION_NAME_OPEN_CHAR
        then
          let str := str + sir__skip_to_char buf str SIR__SECTION_NAME_CLOSE_CHAR in
          check_warnings fuel' options buf (str + 1)
        else
          let str := str + skip_to_assignment_char options (tail_at buf str) in
          let str := str + 1 in
          if Z.of_nat (length buf) <? str then Fault
          else
            let str := str + sir__skip_to_char buf str SIR__KEY_END_CHAR in
            check_warnings fuel' options buf (str + 1)
  end.

(** *** Second pass: the parser *)

(** The locals of the parsing loop next to the document they fill. *)
Record loader : Type := mkLoader {
  l_ini : SirIni;
  l_str : Z;
  prev_index : Z;
  section_index : Z;
  key_index : Z
}.

Inductive step : Type :=
| Continue (st : loader)
| Break (st : loader).

(** A range as [malloc]/[realloc] hands it out; the source writes [start] at
    once and [end] before it ever reads it. *)
Definition fresh_range : SirSectionRange := mkRange 0 0.

Definition set_start (r : SirSectionRange) (v : Z) : SirSectionRange := mkRange v (end_ r).
Definition set_end (r : SirSectionRange) (v : Z) : SirSectionRange := mkRange (start r) v.

(** [sections[i].ranges[sections[i].ranges_count - 1].end = v]. *)
Definition close_last_range (secs : list SirSection) (i v : Z) : outcome (list SirSection) :=
  do s <- aget secs i;
  let k := ranges_count s - 1 in
  do r <- aget (ranges s) k;
  do rs <- aset (ranges s) k (set_end r v);
  aset secs i (mkSection rs).

(** [for (i = 0; i < section_index + 1; ++i) if (sir__str_equal(...)) { duplicate = i; break; }],
    with [count] iterations left from index [i]. *)
Fixpoint find_duplicate_section (options : SirOptions) (buf : list ascii)
         (names : list cptr) (name : option (list ascii)) (i : Z) (count : nat) : outcome Z :=
  match count with
  | O => Ok (-1)
  | S count' =>
      do p <- aget names i;
      if sir__str_equal options (string_at buf p) name then Ok i
      else find_duplicate_section options buf names name (i + 1) count'
  end.

(** The branch of the loop for a section header ([*str == '[']), in two
    halves.  First the previous range is closed and the name is carved out
    and trimmed: the sections, the count from [sir__parse_to_char], the
    buffer and the start of the name. *)
Definition read_section_name (st : loader)
  : outcome (list SirSection * Z * list ascii * Z) :=
  let ini := l_ini st in
  do secs <- close_last_range (sections ini) (prev_index st) (key_index st);
  let str := l_str st + 1 in
  let '(n, buf) := sir__parse_to_char (data ini) str SIR__SECTION_NAME_CLOSE_CHAR in
  do (buf, section_name) <- sir__trim_whitespace buf str;
  Ok (secs, n, buf, section_name).

(** Then the name is looked up among the sections seen so far and the
    section is reopened or created. *)
Definition enter_section (st : loader) (secs : list SirSection) (n : Z)
           (buf : list ascii) (section_name : Z) : outcome step :=
  let ini := l_ini st in
  let str := l_str st + 1 in
  do duplicate <- find_duplicate_section (options ini) buf (section_names ini)
                    (string_at buf (InData section_name)) 0
                    (Z.to_nat (section_index st + 1));
  do (secs, names, prev, sidx) <-
     (if negb (duplicate =? -1)
      then
        do secs <-
           (if negb (duplicate =? prev_index st)
            then do s <- aget secs duplicate;
                 aset secs duplicate
                      (mkSection (ranges s ++ [set_start fresh_range (key_index st)]))
            else Ok secs);
        Ok (secs, section_names ini, duplicate, section_index st)
      else
        let sidx := section_index st + 1 in
        do s <- aget secs sidx;
        do r <- aget (ranges s) 0;
        do rs <- aset (ranges s) 0 (set_start r (key_index st));
        do secs <- aset secs sidx (mkSection rs);
        do names <- aset (section_names ini) sidx (InData section_name);
        Ok (secs, names, sidx, sidx));
  let ini := with_section_names (with_sections (with_data ini buf) secs) names in
  if n =? -1
  then Ok (Break (mkLoader ini str prev sidx (key_index st)))
  else Ok (Continue (mkLoader ini (str + (n + 1)) prev sidx (key_index st))).

Definition load_section (st : loader) : outcome step :=
  do (secs, n, buf, section_name) <- read_section_name st;
  enter_section st secs n buf section_name.

(** The inner loop of the duplicate-name check: [count] indices from [j]. *)
Fixpoint scan_keys (options : SirOptions) (buf : list ascii) (names : list cptr)
         (key_name : option (list ascii)) (j : Z) (count : nat) (duplicate : Z) : outcome Z :=
  match count with
  | O => Ok duplicate
  | S count' =>
      do p <- aget names j;
      if sir__str_equal options (string_at buf p) key_name then Ok j
      else scan_keys options buf names key_name (j + 1) count' duplicate
  end.

(** The outer loop: every range of the section, the last one read up to
    [key_index].  The [break] leaves the inner loop only. *)
Fixpoint scan_ranges (options : SirOptions) (buf : list ascii) (names : list cptr)
         (key_name : option (list ascii)) (rs : list SirSectionRange)
         (key_index duplicate : Z) : outcome Z :=
  match rs with
  | [] => Ok duplicate
  | r :: rest =>
      let e := match rest with [] => key_index | _ => end_ r end in
      do d <- scan_keys options buf names key_name (start r)
                (Z.to_nat (e - start r)) duplicate;
      scan_ranges options buf names key_name rest key_index d
  end.

(** [while ( *quoted_str && *quoted_str != '\n')]: is there a double quote
    before the end of the line? *)
Fixpoint quote_on_line (s : list ascii) : bool :=
  match s with
  | [] => false
  | c :: t =>
      if negb (is_nul c) && negb (Ascii.eqb c SIR__KEY_END_CHAR)
      then if Ascii.eqb c DQUOTE then true else quote_on_line t
      else false
  end.

(** The branch of the loop for a key line, in its four parts.  First the
    check for a duplicate name (-1 means no duplicate): the ranges scanned
    are those of [sections[section_index]]. *)
Definition find_duplicate_key (st : loader) (buf : list ascii) (key_name : Z) : outcome Z :=
  let ini := l_ini st in
  do section <- aget (sections ini) (section_index st);
  scan_ranges (options ini) buf (key_names ini)
              (string_at buf (InData key_name)) (ranges section)
              (key_index st) (-1).

(** Parse the value: the buffer, [str] after the value and the value.  [n]
    is the count [sir__parse_to_assignment_char] returned for the name. *)
Definition read_value (opts : SirOptions) (buf : list ascii) (str n : Z)
  : outcome (list ascii * Z * cptr) :=
  if negb (n =? -1)
  then
    let str := str + (n + 1) in
    let quoted := negb (has_option opts SIR_OPTION_DISABLE_QUOTES) &&
                  quote_on_line (tail_at buf str) in
    if quoted
    then
      let str := str + (sir__skip_to_char buf str DQUOTE + 1) in
      let '(m, buf) := sir__parse_to_char buf str DQUOTE in
      Ok (buf, str + (m + 1), InData str)
    else
      let '(m, buf) := sir__parse_to_char buf str SIR__KEY_END_CHAR in
      do (buf, key_value) <- sir__trim_whitespace buf str;
      Ok (buf, str + (m + 1), InData key_value)
  else Ok (buf, str, Literal []).

(** Apply the value to the name: the two key arrays and the key index. *)
Definition apply_value (ini : SirIni) (buf : list ascii) (key_name : Z) (key_value : cptr)
           (duplicate key_index : Z) : outcome (list cptr * list cptr * Z) :=
  let empty := match string_at buf key_value with
               | Some (_ :: _) => false
               | _ => true
               end in
  if negb (empty && has_option (options ini) SIR_OPTION_IGNORE_EMPTY_VALUES)
  then
    if negb (duplicate =? -1)
    then
      if has_option (options ini) SIR_OPTION_OVERRIDE_DUPLICATE_KEYS
      then do values <- aset (key_values ini) duplicate key_value;
           Ok (key_names ini, values, key_index)
      else Ok (key_names ini, key_values ini, key_index)
    else
      do names <- aset (key_names ini) key_index (InData key_name);
      do values <- aset (key_values ini) key_index key_value;
      Ok (names, values, key_index + 1)
  else Ok (key_names ini, key_values ini, key_index).

Definition load_key (st : loader) : outcome step :=
  let ini := l_ini st in
  let str := l_str st in
  let '(n, buf) := sir__parse_to_assignment_char (options ini) (data ini) str in
  do (buf, key_name) <- sir__trim_whitespace buf str;
  do duplicate <- find_duplicate_key st buf key_name;
  do (buf, str, key_value) <- read_value (options ini) buf str n;
  do (names, values, kidx) <-
     apply_value ini buf key_name key_value duplicate (key_index st);
  let ini := with_key_values (with_key_names (with_data ini buf) names) values in
  let st' := mkLoader ini str (prev_index st) (section_index st) kidx in
  if n =? -1 then Ok (Break st') else Ok (Continue st').

(** [while ( *str)]: one iteration skips the whitespace and takes the section
    branch, the key branch, or neither at the end of the text. *)
Fixpoint load_loop (fuel : nat) (st : loader) : outcome loader :=
  match fuel with
  | O => Fuel
  | S fuel' =>
      let buf := data (l_ini st) in
      if is_nul (load buf (l_str st)) then Ok st
      else
        let str := l_str st + sir__skip_whitespace buf (l_str st) in
        let st1 := mkLoader (l_ini st) str (prev_index st) (section_index st) (key_index st) in
        if Ascii.eqb (load buf str) SIR__SECTION_NAME_OPEN_CHAR
        then do r <- load_section st1;
             match r with
             | Continue st2 => load_loop fuel' st2
             | Break st2 => Ok st2
             end
        else if negb (is_nul (load buf str))
        then do r <- load_key st1;
             match r with
             | Continue st2 => load_loop fuel' st2
             | Break st2 => Ok st2
             end
        else load_loop fuel' st1
  end.

(** "Shrink if necessary": the arrays are cut to the sections and keys
    that were materialised. *)
Definition shrink_sections (ini : SirIni) (n : Z) : SirIni :=
  if n <? section_count ini
  then mkIni (data ini) (firstn (Z.to_nat n) (sections ini))
             (firstn (Z.to_nat n) (section_names ini))
             (key_names ini) (key_values ini) (error ini)
             n (key_count ini) (options ini) (error_size ini) (error_writes ini)
  else ini.

Definition shrink_keys (ini : SirIni) (n : Z) : SirIni :=
  if n <? key_count ini
  then mkIni (data ini) (sections ini) (section_names ini)
             (firstn (Z.to_nat n) (key_names ini))
             (firstn (Z.to_nat n) (key_values ini)) (error ini)
             (section_count ini) n (options ini) (error_size ini) (error_writes ini)
  else ini.

(** The document as it is allocated before the parsing loop: the counts of
    the first pass size the arrays, every section holds one range, and
    section 0 is the global one. *)
Definition initial_ini (buf : list ascii) (sc kc : Z) (opts : SirOptions) : outcome SirIni :=
  let secs := repeat (mkSection [fresh_range]) (Z.to_nat sc) in
  let names := repeat NullPtr (Z.to_nat sc) in
  do s0 <- aget secs 0;
  do r0 <- aget (ranges s0) 0;
  do rs0 <- aset (ranges s0) 0 (set_start r0 0);
  do secs <- aset secs 0 (mkSection rs0);
  do names <- aset names 0 (Literal SIR_GLOBAL_SECTION_NAME);
  Ok (mkIni buf secs names (repeat NullPtr (Z.to_nat kc)) (repeat NullPtr (Z.to_nat kc))
            [] sc kc opts
            (if has_option opts SIR_OPTION_DISABLE_ERRORS
             then 0 else SIR_ERROR_STRING_SIZE)
            0).

(** [sir_load_from_str(s, options, name, mem_ctx)].  The display name and the
    allocation context play no part in what is modelled; allocations are
    taken to succeed. *)
Definition sir_load_from_str (s : list ascii) (opts : SirOptions) : outcome SirIni :=
  do (buf, sc, kc) <- strip_and_count (S (S (length s))) opts s 0 1 0;
  do _ <- (if has_option opts SIR_OPTION_DISABLE_WARNINGS then Ok tt
           else check_warnings (S (length buf)) opts buf 0);
  do ini <- initial_ini buf sc kc opts;
  do st <- load_loop (S (length buf)) (mkLoader ini 0 0 0 0);
  let ini := l_ini st in
  do secs <- close_last_range (sections ini) (prev_index st) (key_index st);
  let ini := with_sections ini secs in
  let ini := shrink_sections ini (section_index st + 1) in
  let ini := shrink_keys ini (key_index st) in
  Ok (sir__clear_error_str ini).

(** ** Lookups *)

(** [sir__get_section]: the index of the section found (the source returns
    [&ini->sections[i]]), or nothing for the null pointer. *)
Fixpoint get_section_loop (ini : SirIni) (section_name : list ascii) (i : Z) (count : nat)
  : outcome (option Z) :=
  match count with
  | O => Ok None
  | S count' =>
      do p <- aget (section_names ini) i;
      if negb (is_null p) &&
         sir__str_equal (options ini) (string_at (data ini) p) (Some section_name)
      then Ok (Some i)
      else get_section_loop ini section_name (i + 1) count'
  end.

Definition sir__get_section (ini : SirIni) (section_name : option (list ascii))
  : outcome (option Z * SirIni) :=
  match section_name with
  | None =>
      Ok (None, sir__set_error ini "the parameter 'section_name' is not optional" None None)
  | Some name =>
      do found <- get_section_loop ini name 0 (Z.to_nat (section_count ini));
      match found with
      | Some i => Ok (Some i, sir__clear_error_str ini)
      | None => Ok (None, sir__set_error ini "section '%' not found" (Some name) None)
      end
  end.

(** The inner loop of the scoped lookup: the first index from [j] whose name
    matches, among [count] indices. *)
Fixpoint find_key (ini : SirIni) (key_name : list ascii) (j : Z) (count : nat)
  : outcome (option Z) :=
  match count with
  | O => Ok None
  | S count' =>
      do p <- aget (key_names ini) j;
      if negb (is_null p) &&
         sir__str_equal (options ini) (string_at (data ini) p) (Some key_name)
      then Ok (Some j)
      else find_key ini key_name (j + 1) count'
  end.

Fixpoint find_key_in_ranges (ini : SirIni) (key_name : list ascii)
         (rs : list SirSectionRange) : outcome (option Z) :=
  match rs with
  | [] => Ok None
  | r :: rest =>
      do found <- find_key ini key_name (start r) (Z.to_nat (end_ r - start r));
      match found with
      | Some j => Ok (Some j)
      | None => find_key_in_ranges ini key_name rest
      end
  end.

(** The section-less scan over the whole flat array: under the default
    policy the first match returns at once ([inl]); under the override
    policy [key_value] keeps the latest match and the loop runs on. *)
Fixpoint global_scan (ini : SirIni) (key_name : list ascii) (i : Z) (count : nat)
         (key_value : cptr) : outcome (cptr + cptr) :=
  match count with
  | O => Ok (inr key_value)
  | S count' =>
      do p <- aget (key_names ini) i;
      if negb (is_null p) &&
         sir__str_equal (options ini) (string_at (data ini) p) (Some key_name)
      then
        do v <- aget (key_values ini) i;
        if has_option (options ini) SIR_OPTION_OVERRIDE_DUPLICATE_KEYS
        then global_scan ini key_name (i + 1) count' v
        else Ok (inl v)
      else global_scan ini key_name (i + 1) count' key_value
  end.

Definition sir_section_str (ini : SirIni) (section_name key_name : option (list ascii))
  : outcome (cptr * SirIni) :=
  match key_name with
  | None =>
      Ok (NullPtr, sir__set_error ini "the parameter 'key_name' is not optional" None None)
  | Some key =>
      do (section, ini) <-
         (match section_name with
          | Some _ => sir__get_section ini section_name
          | None => Ok (None, ini)
          end);
      if (match section_name with Some _ => sir_has_error ini | None => false end)
      then Ok (NullPtr, ini)
      else
        match section with
        | Some i =>
            do s <- aget (sections ini) i;
            do found <- find_key_in_ranges ini key (ranges s);
            match found with
            | Some j =>
                do v <- aget (key_values ini) j;
                Ok (v, sir__clear_error_str ini)
            | None =>
                Ok (NullPtr, sir__set_error ini "key '%' not found in section '%'"
                                            (Some key) section_name)
            end
        | None =>
            do r <- global_scan ini key 0 (Z.to_nat (key_count ini)) NullPtr;
            match r with
            | inl v => Ok (v, sir__clear_error_str ini)
            | inr v =>
                if negb (is_null v) then Ok (v, sir__clear_error_str ini)
                else Ok (NullPtr, sir__set_error ini "key '%' not found" (Some key) None)
            end
        end
  end.

(** [sir__section_key_array]: the fresh array (or null) and the size stored
    through [size_ret].  The array is allocated for the sum of the range
    lengths; copying more than that writes outside it. *)
Fixpoint copy_range (key_array : list cptr) (j : Z) (count : nat) : outcome (list cptr) :=
  match count with
  | O => Ok []
  | S count' =>
      do p <- aget key_array j;
      do rest <- copy_range key_array (j + 1) count';
      Ok (p :: rest)
  end.

Fixpoint copy_ranges (key_array : list cptr) (rs : list SirSectionRange)
  : outcome (list cptr) :=
  match rs with
  | [] => Ok []
  | r :: rest =>
      do a <- copy_range key_array (start r) (Z.to_nat (end_ r - start r));
      do b <- copy_ranges key_array rest;
      Ok (a ++ b)
  end.

Definition sir__section_key_array (ini : SirIni) (section_name : option (list ascii))
           (key_array : list cptr) : outcome (option (list cptr * Z) * SirIni) :=
  match section_name with
  | None =>
      Ok (None, sir__set_error ini "the parameter 'section_name' is not optional" None None)
  | Some _ =>
      do (section, ini) <- sir__get_section ini section_name;
      if sir_has_error ini then Ok (None, ini)
      else
        match section with
        | None => Fault                      (* section->ranges_count on a null pointer *)
        | Some i =>
            do s <- aget (sections ini) i;
            let key_count :=
              fold_left (fun acc r => acc + (end_ r - start r)) (ranges s) 0 in
            do array <- copy_ranges key_array (ranges s);
            if key_count <? Z.of_nat (length array) then Fault
            else Ok (Some (array, key_count), sir__clear_error_str ini)
        end
  end.

Definition sir_section_key_names (ini : SirIni) (section_name : option (list ascii)) :=
  sir__section_key_array ini section_name (key_names ini).

Definition sir_section_key_values (ini : SirIni) (section_name : option (list ascii)) :=
  sir__section_key_array ini section_name (key_values ini).

(** ** Conversions *)

(** *** The C library's [strtol] and [strtoul] with base 0

    These are the standard functions, not code of the reader; they are
    written out after the C standard so that the conversions compute.
    [long] is the 64-bit type of the LP64 targets. *)

Definition LONG_MAX : Z := 2 ^ 63 - 1.
Definition LONG_MIN : Z := - 2 ^ 63.
Definition ULONG_MAX : Z := 2 ^ 64 - 1.

Definition isspace (c : ascii) : bool :=
  let n := Z.of_N (N_of_ascii c) in
  (n =? 32) || ((9 <=? n) && (n <=? 13)).

Definition digit_value (c : ascii) : option Z :=
  let n := Z.of_N (N_of_ascii c) in
  if (48 <=? n) && (n <=? 57) then Some (n - 48)
  else if (97 <=? n) && (n <=? 122) then Some (n - 97 + 10)
  else if (65 <=? n) && (n <=? 90) then Some (n - 65 + 10)
  else None.

Definition is_digit_in (base : Z) (c : ascii) : bool :=
  match digit_value c with
  | Some d => d <? base
  | None => false
  end.

Fixpoint skip_isspace (s : list ascii) : list ascii :=
  match s with
  | c :: t => if isspace c then skip_isspace t else s
  | [] => []
  end.

(** The digits of the subject sequence: the value and whether any was read. *)
Fixpoint read_digits (s : list ascii) (base acc : Z) (any : bool) : Z * bool :=
  match s with
  | c :: t =>
      match digit_value c with
      | Some d => if d <? base then read_digits t base (acc * base + d) true else (acc, any)
      | None => (acc, any)
      end
  | [] => (acc, any)
  end.

(** Sign, base prefix and digits: negative?, magnitude, any digit read? *)
Definition subject_sequence (s : list ascii) : bool * Z * bool :=
  let s1 := skip_isspace s in
  let '(neg, s2) :=
    match s1 with
    | c :: t => if Ascii.eqb c "-"%char then (true, t)
                else if Ascii.eqb c "+"%char then (false, t) else (false, s1)
    | [] => (false, s1)
    end in
  let '(base, s3) :=
    match s2 with
    | z :: x :: h :: t =>
        if Ascii.eqb z "0"%char
        then if (Ascii.eqb x "x"%char || Ascii.eqb x "X"%char) && is_digit_in 16 h
             then (16, h :: t) else (8, s2)
        else (10, s2)
    | z :: _ => if Ascii.eqb z "0"%char then (8, s2) else (10, s2)
    | [] => (10, s2)
    end in
  let '(v, any) := read_digits s3 base 0 false in
  (neg, v, any).

Record strto_result : Type := mkStrto {
  converted : Z;            (* the value returned *)
  erange : bool;            (* errno == ERANGE afterwards *)
  endptr_is_str : bool      (* no conversion was performed *)
}.

Definition strtol (s : list ascii) : strto_result :=
  let '(neg, v, any) := subject_sequence s in
  if negb any then mkStrto 0 false true
  else
    let r := if neg then - v else v in
    if LONG_MAX <? r then mkStrto LONG_MAX true false
    else if r <? LONG_MIN then mkStrto LONG_MIN true false
    else mkStrto r false false.

Definition strtoul (s : list ascii) : strto_result :=
  let '(neg, v, any) := subject_sequence s in
  if negb any then mkStrto 0 false true
  else if ULONG_MAX <? v then mkStrto ULONG_MAX true false
  else mkStrto (if neg then (- v) mod 2 ^ 64 else v) false false.

(** [unsigned long] returned through the [long] return type. *)
Definition ulong_to_long (u : Z) : Z := if LONG_MAX <? u then u - 2 ^ 64 else u.

(** *** The conversions of the reader *)

Definition sir_section_long (ini : SirIni) (section_name key_name : option (list ascii))
  : outcome (Z * SirIni) :=
  do (str, ini) <- sir_section_str ini section_name key_name;
  match (if sir_has_error ini then None else string_at (data ini) str) with
  | None => Ok (0, ini)
  | Some s =>
      let r := strtol s in
      if erange r
      then
        if converted r =? LONG_MAX
        then Ok (0, sir__set_error ini
                      "'%' is more than the maximum value of a long interger." (Some s) None)
        else if converted r =? LONG_MIN
        then Ok (0, sir__set_error ini
                      "'%' is less than the minimum value of a long interger." (Some s) None)
        else Ok (0, sir__set_error ini
                      "'%' is outside the range of values of a long integer." (Some s) None)
      else if endptr_is_str r
      then Ok (0, sir__set_error ini
                    "'%' could not be converted to a long integer." (Some s) None)
      else Ok (converted r, ini)
  end.

Definition sir_section_unsigned_long (ini : SirIni)
           (section_name key_name : option (list ascii)) : outcome (Z * SirIni) :=
  do (str, ini) <- sir_section_str ini section_name key_name;
  match (if sir_has_error ini then None else string_at (data ini) str) with
  | None => Ok (0, ini)
  | Some s =>
      let r := strtoul s in
      if erange r
      then Ok (0, sir__set_error ini
                    "'%' is outside the range of values of an unsigned long integer."
                    (Some s) None)
      else if endptr_is_str r
      then Ok (0, sir__set_error ini
                    "'%' could not be converted to an unsigned long integer."
                    (Some s) None)
      else Ok (ulong_to_long (converted r), ini)
  end.

(** [sir_section_bool]; the [char] it returns is 1, 0 or -1.  [strncpy] of
    [len] characters followed by [s[len] = 0] leaves in [s] the first [len]
    characters of the string (fewer when it is shorter). *)
Definition strncpy_terminated (str : list ascii) (len : nat) : list ascii :=
  firstn len (c_string str).

(** The two literal comparisons at the end of [sir_section_bool], on the
    string after its leading whitespace: both pass 1 for [case_insensitive]. *)
Definition match_bool_literal (s : list ascii) : option Z :=
  if sir__str_equal_case
       (Some (strncpy_terminated s (length SIR__BOOL_TRUE_STRING)))
       (Some SIR__BOOL_TRUE_STRING) true
  then Some 1
  else if sir__str_equal_case
            (Some (strncpy_terminated s (length SIR__BOOL_FALSE_STRING)))
            (Some SIR__BOOL_FALSE_STRING) true
  then Some 0
  else None.

(** [str += sir__skip_whitespace(str)] on a string value. *)
Definition after_whitespace (s : list ascii) : list ascii :=
  skipn (Z.to_nat (skip_whitespace s)) s.

Definition sir_section_bool (ini : SirIni) (section_name key_name : option (list ascii))
  : outcome (Z * SirIni) :=
  do (l, ini) <- sir_section_long ini section_name key_name;
  if negb (sir_has_error ini)
  then Ok ((if l =? 0 then 0 else 1), ini)
  else
    do (str, ini) <- sir_section_str ini section_name key_name;
    match (if sir_has_error ini then None else string_at (data ini) str) with
    | None => Ok (-1, ini)
    | Some s0 =>
        let s := after_whitespace s0 in
        match match_bool_literal s with
        | Some b => Ok (b, ini)
        | None => Ok (-1, sir__set_error ini "could not parse '%' as a bool" (Some s) None)
        end
    end.

(** [sir_section_csv].  The value is copied into a fresh buffer [s], which
    is trimmed and then cut at the commas in place; the fields are pointers
    into it.  The result is the fields as they read in the final buffer,
    with the size stored through [csv_size_ret]. *)
Fixpoint count_commas (s : list ascii) : Z :=
  match s with
  | [] => 0
  | c :: t => if is_nul c then 0
              else (if Ascii.eqb c ","%char then 1 else 0) + count_commas t
  end.

(** [while (i < csv_size)], with [count] iterations left: the field
    pointers and the buffer. *)
Fixpoint csv_loop (count : nat) (buf : list ascii) (start end' : Z)
  : list Z * list ascii :=
  match count with
  | O => ([], buf)
  | S count' =>
      let start := start + sir__skip_whitespace buf start in
      let e := end' + sir__skip_to_char buf end' ","%char in
      let buf := store buf e NUL in
      let '(fields, buf') := csv_loop count' buf (e + 1) (e + 1) in
      (start :: fields, buf')
  end.

(** The part of [sir_section_csv] after the lookup, on the value found. *)
Definition csv_split (s0 : list ascii) : outcome (list (list ascii) * Z) :=
  let s := c_string (after_whitespace s0) in
  do (buf, s) <- sir__trim_whitespace s 0;
  let csv_size := 1 + count_commas (tail_at buf s) in
  let '(fields, buf) := csv_loop (Z.to_nat csv_size) buf s s in
  Ok (map (fun p => c_string (tail_at buf p)) fields, csv_size).

Definition sir_section_csv (ini : SirIni) (section_name key_name : option (list ascii))
  : outcome (option (list (list ascii) * Z) * SirIni) :=
  do (str, ini) <- sir_section_str ini section_name key_name;
  match (if sir_has_error ini then None else string_at (data ini) str) with
  | None => Ok (None, ini)
  | Some s0 => do r <- csv_split s0; Ok (Some r, ini)
  end.

(** *** [sir_section_double]

    [strtod] and the [double] values are left abstract: what the reader
    does with them is compare the result with [HUGE_VAL] and [-HUGE_VAL]. *)
Section Double.

Variable double : Type.
Variable zero : double.
Variable strtod : list ascii -> double * bool * bool.  (* value, ERANGE?, endptr == str? *)
Variable is_HUGE_VAL : double -> bool.
Variable is_neg_HUGE_VAL : double -> bool.

Definition sir_section_double (ini : SirIni) (section_name key_name : option (list ascii))
  : outcome (double * SirIni) :=
  do (str, ini) <- sir_section_str ini section_name key_name;
  match (if sir_has_error ini then None else string_at (data ini) str) with
  | None => Ok (zero, ini)
  | Some s =>
      let '(d, range_error, no_conversion) := strtod s in
      if range_error
      then
        if is_HUGE_VAL d
        then Ok (zero, sir__set_error ini
                         "'%' is more than the maximum value of a double." (Some s) None)
        else if is_neg_HUGE_VAL d
        then Ok (zero, sir__set_error ini
                         "'%' is less than the minimum value of a double." (Some s) None)
        else Ok (zero, sir__set_error ini
                         "'%' is outside the range of values of a double." (Some s) None)
      else if no_conversion
      then Ok (zero, sir__set_error ini
                       "'%' could not be converted to a double." (Some s) None)
      else Ok (d, ini)
  end.

(** Does [strtod] reject the string? *)
Definition strtod_rejects (s : list ascii) : bool :=
  let '(_, range_error, no_conversion) := strtod s in range_error || no_conversion.

End Double.

(** ** Texts for the examples *)

(** The text made of the given lines, each ended by a line feed. *)
Definition lines (l : list string) : list ascii :=
  concat (map (fun s => list_ascii_of_string s ++ [LF]) l).

(** A non-null string argument. *)
Definition arg (s : string) : option (list ascii) := Some (list_ascii_of_string s).

(** The strings an array of pointers denotes in a document. *)
Definition strings_of (ini : SirIni) (l : list cptr) : list (option string) :=
  map (fun p => option_map string_of_list_ascii (string_at (data ini) p)) l.

(** * Vocabulary of the properties

    Predicates and reference functions in which the properties of the
    reader are stated. *)

(** The character compared when [case_insensitive] is [ci]. *)
Definition folded (ci : bool) (c : ascii) : ascii :=
  if ci then sir__to_lowercase c else c.

(** Every message of the source starts with an ordinary character, so a
    slot of more than one byte is non-empty after [sir__set_error]. *)
Definition plain_start (f : string) : bool :=
  match f with
  | String c _ => negb (is_nul c) && negb (Ascii.eqb c "%"%char)
  | EmptyString => false
  end.


(** The document a text parses to, for the worked examples. *)
Definition parsed (s : list ascii) (opts : SirOptions) : SirIni :=
  match sir_load_from_str s opts with
  | Ok ini => ini
  | _ => mkIni [] [] [] [] [] [] 0 0 opts 0 0
  end.

(** The value without its trailing whitespace, as the specification words
    it. *)
Fixpoint trimmed_right (s : list ascii) : list ascii :=
  match s with
  | [] => []
  | c :: t =>
      match trimmed_right t with
      | [] => if le_space c then [] else [c]
      | r => c :: r
      end
  end.

(** The fields between the commas of a string, as the specification words
    it. *)
Fixpoint comma_fields (s : list ascii) : list (list ascii) :=
  match s with
  | [] => [[]]
  | c :: t =>
      if Ascii.eqb c ","%char then [] :: comma_fields t
      else match comma_fields t with
           | f :: fs => (c :: f) :: fs
           | [] => [[c]]
           end
  end.

(** A string without a terminator inside. *)
Definition nul_free (s : list ascii) : Prop := forall x, In x s -> x <> NUL.

(** A range that has been closed at key index [ki], and one that is open. *)
Definition closed_range (ki : Z) (r : SirSectionRange) : Prop :=
  0 <= start r <= end_ r /\ end_ r <= ki.

Definition open_range (ki : Z) (r : SirSectionRange) : Prop :=
  0 <= start r <= ki.

(** The ranges while section [prev] is open and [sidx] sections beyond the
    global one have been created: the open section ends with its open range,
    every other section seen holds closed ranges, and the sections not yet
    used hold the one range they were allocated with. *)
Definition sections_inv (secs : list SirSection) (prev sidx : nat) (ki : Z) : Prop :=
  forall i s, nth_error secs i = Some s ->
    (i = prev -> exists rs r, ranges s = rs ++ [r] /\
                              Forall (closed_range ki) rs /\ open_range ki r) /\
    (i <> prev -> (i <= sidx)%nat -> Forall (closed_range ki) (ranges s)) /\
    ((sidx < i)%nat -> ranges s = [fresh_range]).

(** The ranges right after the open range of section [prev] has been
    closed. *)
Definition sections_closed (secs : list SirSection) (prev sidx : nat) (ki : Z) : Prop :=
  forall i s, nth_error secs i = Some s ->
    (i = prev -> ranges s <> []) /\
    ((i <= sidx)%nat -> Forall (closed_range ki) (ranges s)) /\
    ((sidx < i)%nat -> ranges s = [fresh_range]).

(** The loader state a line leaves behind. *)
Definition step_state (r : step) : loader :=
  match r with
  | Continue st => st
  | Break st => st
  end.

(** What holds of the loader between two lines. *)
Record loader_inv (st : loader) : Prop := mkLoaderInv {
  li_section_count :
    section_count (l_ini st) = Z.of_nat (length (sections (l_ini st)));
  li_names_length :
    length (section_names (l_ini st)) = length (sections (l_ini st));
  li_prev : 0 <= prev_index st <= section_index st;
  li_sidx : section_index st < section_count (l_ini st);
  li_global :
    nth_error (section_names (l_ini st)) 0 = Some (Literal SIR_GLOBAL_SECTION_NAME);
  li_names :
    forall i p, (i <= Z.to_nat (section_index st))%nat ->
                nth_error (section_names (l_ini st)) i = Some p -> is_null p = false;
  li_sections :
    sections_inv (sections (l_ini st)) (Z.to_nat (prev_index st))
                 (Z.to_nat (section_index st)) (key_index st);
  li_key_count : key_count (l_ini st) = Z.of_nat (length (key_names (l_ini st)));
  li_values_length : length (key_values (l_ini st)) = length (key_names (l_ini st));
  li_key_index : 0 <= key_index st <= key_count (l_ini st);
  li_keys :
    forall i, (i < Z.to_nat (key_index st))%nat ->
              exists p v, nth_error (key_names (l_ini st)) i = Some p /\
                          nth_error (key_values (l_ini st)) i = Some v /\
                          is_null p = false /\ is_null v = false;
  li_error_size :
    error_size (l_ini st) =
    if has_option (options (l_ini st)) SIR_OPTION_DISABLE_ERRORS
    then 0 else SIR_ERROR_STRING_SIZE
}.

(** What holds of every document the loader returns. *)
Record well_formed (ini : SirIni) : Prop := mkWellFormed {
  wf_section_count : section_count ini = Z.of_nat (length (sections ini));
  wf_names_length : length (section_names ini) = length (sections ini);
  wf_global : nth_error (section_names ini) 0 = Some (Literal SIR_GLOBAL_SECTION_NAME);
  wf_section_names : Forall (fun p => is_null p = false) (section_names ini);
  wf_ranges :
    Forall (fun s => Forall (closed_range (key_count ini)) (ranges s)) (sections ini);
  wf_key_count : key_count ini = Z.of_nat (length (key_names ini));
  wf_values_length : length (key_values ini) = length (key_names ini);
  wf_key_names : Forall (fun p => is_null p = false) (key_names ini);
  wf_key_values : Forall (fun p => is_null p = false) (key_values ini);
  wf_error_size :
    error_size ini =
    if has_option (options ini) SIR_OPTION_DISABLE_ERRORS then 0 else SIR_ERROR_STRING_SIZE
}.

(** Does the key at index [i] of the flat array match the name? *)
Definition key_matches (ini : SirIni) (key : list ascii) (i : nat) : bool :=
  match nth_error (key_names ini) i with
  | Some p => negb (is_null p) &&
              sir__str_equal (options ini) (string_at (data ini) p) (Some key)
  | None => false
  end.

(** [ini'] is [ini] with another content of the error slot (and another
    count of the writes). *)
Definition slot_only (ini ini' : SirIni) : Prop :=
  ini' = with_error_writes (with_error ini (error ini')) (error_writes ini').

(** The document with [d] more writes counted, and the outcome of an
    operation with [d] more writes counted. *)
Definition add_error_writes (ini : SirIni) (d : Z) : SirIni :=
  with_error_writes ini (error_writes ini + d).

Definition shifted {A : Type} (d : Z) (m : outcome (A * SirIni)) : outcome (A * SirIni) :=
  match m with
  | Ok (a, ini) => Ok (a, add_error_writes ini d)
  | Fault => Fault
  | Fuel => Fuel
  end.

(** Does the numeric conversion of the value looked up fail?  [bad] tells
    whether the C library function rejects a string. *)
Definition conversion_fails (bad : list ascii -> bool) (ini : SirIni)
           (section_name key_name : option (list ascii)) : Prop :=
  match sir_section_str ini section_name key_name with
  | Ok (v, ini1) =>
      match string_at (data ini1) v with
      | None => True
      | Some s => bad s = true
      end
  | _ => False
  end.

(** Do [strtol] and [strtoul] reject the string? *)
Definition strtol_rejects (s : list ascii) : bool :=
  erange (strtol s) || endptr_is_str (strtol s).

Definition strtoul_rejects (s : list ascii) : bool :=
  erange (strtoul s) || endptr_is_str (strtoul s).

(** What is proved of an operation [op] on a document [ini]: started with
    any content [e] of the error slot it behaves as started with the slot of
    [ini] (the slot is as good as cleared on entry); it changes nothing but
    the slot; the slot is set afterwards exactly when the operation failed;
    and [sir__set_error] has written the slot at most [writes] times. *)
Definition error_discipline {R : Type} (op : SirIni -> outcome (R * SirIni))
           (failed : R -> Prop) (writes : Z) (ini : SirIni) : Prop :=
  forall (e : list ascii) (r : R) (ini' : SirIni),
    op (with_error ini e) = Ok (r, ini') ->
    op (with_error ini e) = op ini /\
    slot_only ini ini' /\
    (sir_has_error ini' = true <-> failed r) /\
    error_writes ini <= error_writes ini' <= error_writes ini + writes.

(** The documents the operations are proved on: error tracking on, a slot
    of more than one byte, no null value. *)
Record tracked (ini : SirIni) : Prop := mkTracked {
  tr_enabled : sir__errors_enabled ini = true;
  tr_size : 1 < error_size ini;
  tr_values : Forall (fun p => is_null p = false) (key_values ini)
}.

(** The computation is not cut short by the bound on its steps. *)
Definition no_fuel {A : Type} (m : outcome A) : Prop := m <> Fuel.

(** ** Reference functions for the further properties *)


(** What follows a string in the buffer: the end of the buffer or a NUL. *)
Definition ends_string (post : list ascii) : Prop := hd NUL post = NUL.

(** Characters [sir__skip_whitespace] steps over. *)
Definition whitespace (w : list ascii) : Prop :=
  Forall (fun c => is_nul c = false /\ le_space c = true) w.

(** Does the section at index [i] carry the name? *)
Definition section_matches (ini : SirIni) (name : list ascii) (i : nat) : bool :=
  match nth_error (section_names ini) i with
  | Some p => negb (is_null p) &&
              sir__str_equal (options ini) (string_at (data ini) p) (Some name)
  | None => false
  end.

(** The key indices of a range and of a section, in the order the loops of
    the lookups visit them: range after range, each from [start] up to
    [end]. *)
Definition range_indices (r : SirSectionRange) : list nat :=
  seq (Z.to_nat (start r)) (Z.to_nat (end_ r - start r)).

Definition section_indices (s : SirSection) : list nat :=
  flat_map range_indices (ranges s).

(** *** Texts of key lines

    The text of a list of key lines: a pair holds the characters before and
    after the '=' of one line, and every line ends with a line feed. *)
Fixpoint key_lines (kvs : list (list ascii * list ascii)) : list ascii :=
  match kvs with
  | [] => []
  | (k, v) :: rest => k ++ SIR_KEY_ASSIGNMENT_CHAR :: v ++ LF :: key_lines rest
  end.

(** A field without the whitespace around it. *)
Definition trimmed (s : list ascii) : list ascii := trimmed_right (after_whitespace s).

(** The characters before the '=': no terminator, no comment character and
    no assignment character; something is left when the whitespace around
    it is taken away, and that does not start a section header. *)
Definition name_field (opts : SirOptions) (k : list ascii) : bool :=
  forallb (fun c => negb (is_nul c) && negb (sir__is_comment_char opts c) &&
                    negb (sir__is_assignment_char opts c)) k &&
  match trimmed k with
  | [] => false
  | c :: _ => negb (Ascii.eqb c SIR__SECTION_NAME_OPEN_CHAR)
  end.

(** The characters after the '=': no terminator, no comment character, no
    line feed and, unless quoting is disabled, no double quote; something
    is left when the whitespace around it is taken away. *)
Definition value_field (opts : SirOptions) (v : list ascii) : bool :=
  forallb (fun c => negb (is_nul c) && negb (sir__is_comment_char opts c) &&
                    negb (Ascii.eqb c LF) &&
                    (has_option opts SIR_OPTION_DISABLE_QUOTES || negb (Ascii.eqb c DQUOTE))) v &&
  match trimmed v with
  | [] => false
  | _ :: _ => true
  end.

(** Every line of the text is a key line the reader takes whole. *)
Definition key_fields (opts : SirOptions) (kvs : list (list ascii * list ascii)) : bool :=
  forallb (fun kv => name_field opts (fst kv) && value_field opts (snd kv)) kvs.

(** No name equals a later one under the comparison of the options. *)
Fixpoint distinct_names (opts : SirOptions) (names : list (list ascii)) : bool :=
  match names with
  | [] => true
  | k :: rest =>
      forallb (fun k' => negb (sir__str_equal opts (Some k) (Some k'))) rest &&
      distinct_names opts rest
  end.

(** *** Texts with sections

    A section of a text: the whitespace in front of its header, the
    characters between '[' and ']', and the key lines under it. *)
Definition section_source : Type :=
  (list ascii * list ascii * list (list ascii * list ascii))%type.

Definition section_pad (s : section_source) : list ascii := fst (fst s).
Definition section_header (s : section_source) : list ascii := snd (fst s).
Definition section_keys (s : section_source) : list (list ascii * list ascii) := snd s.

Definition section_text (s : section_source) : list ascii :=
  section_pad s ++ SIR__SECTION_NAME_OPEN_CHAR :: section_header s ++
  SIR__SECTION_NAME_CLOSE_CHAR :: key_lines (section_keys s).

(** The key lines in front of the first header, then the sections. *)
Definition ini_text (g : list (list ascii * list ascii)) (secs : list section_source)
  : list ascii :=
  key_lines g ++ flat_map section_text secs.

(** The characters between '[' and ']': no terminator, no comment character
    and no ']'; something is left when the whitespace around it is taken
    away. *)
Definition header_field (opts : SirOptions) (h : list ascii) : bool :=
  forallb (fun c => negb (is_nul c) && negb (sir__is_comment_char opts c) &&
                    negb (Ascii.eqb c SIR__SECTION_NAME_CLOSE_CHAR)) h &&
  match trimmed h with
  | [] => false
  | _ :: _ => true
  end.

(** The names of the key lines differ. *)
Definition unique_keys (opts : SirOptions) (kvs : list (list ascii * list ascii)) : bool :=
  distinct_names opts (map (fun kv => trimmed (fst kv)) kvs).

Definition section_fields (opts : SirOptions) (s : section_source) : bool :=
  forallb (fun c => negb (is_nul c) && le_space c) (section_pad s) &&
  header_field opts (section_header s) &&
  key_fields opts (section_keys s) && unique_keys opts (section_keys s).

(** Sections of one range each, laid out one after the other in the key
    array: the first one starts at [first] and the counts give the number
    of keys of each. *)
Fixpoint layout (first : Z) (counts : list nat) : list SirSection :=
  match counts with
  | [] => []
  | n :: rest =>
      mkSection [mkRange first (first + Z.of_nat n)] :: layout (first + Z.of_nat n) rest
  end.

(** The text as it reads once every comment is replaced by spaces.  A
    comment starts at a comment character, anywhere or (with
    SIR_OPTION_DISABLE_COMMENT_ANYWHERE) at the start of a line only, and
    runs up to the line feed, which is kept.  [inside]: the character lies
    in a comment; [start]: it is the first of its line. *)
Fixpoint blanked_from (opts : SirOptions) (inside start : bool) (s : list ascii)
  : list ascii :=
  match s with
  | [] => []
  | c :: t =>
      if inside
      then if Ascii.eqb c LF then c :: blanked_from opts false true t
           else " "%char :: blanked_from opts true false t
      else if sir__is_comment_char opts c &&
              (negb (has_option opts SIR_OPTION_DISABLE_COMMENT_ANYWHERE) || start)
           then " "%char :: blanked_from opts true false t
           else c :: blanked_from opts false (Ascii.eqb c LF) t
  end.

Definition blanked (opts : SirOptions) (s : list ascii) : list ascii :=
  blanked_from opts false true s.

(** Every comment of the text is ended by a line feed. *)
Fixpoint comments_closed_from (opts : SirOptions) (inside start : bool) (s : list ascii)
  : bool :=
  match s with
  | [] => negb inside
  | c :: t =>
      if inside
      then if Ascii.eqb c LF then comments_closed_from opts false true t
           else comments_closed_from opts true false t
      else if sir__is_comment_char opts c &&
              (negb (has_option opts SIR_OPTION_DISABLE_COMMENT_ANYWHERE) || start)
           then comments_closed_from opts true false t
           else comments_closed_from opts false (Ascii.eqb c LF) t
  end.

Definition comments_closed (opts : SirOptions) (s : list ascii) : bool :=
  comments_closed_from opts false true s.

(** The keys of a section as the key lines read so far leave them.  A
    line whose name (without the whitespace around it) equals, under the
    comparison of the options, the name of an earlier line adds no key:
    the earlier key keeps its value, or takes the value of the line with
    SIR_OPTION_OVERRIDE_DUPLICATE_KEYS.  Any other line adds a key at the
    end. *)
Fixpoint replace_value (opts : SirOptions) (k v : list ascii)
         (acc : list (list ascii * list ascii)) : option (list (list ascii * list ascii)) :=
  match acc with
  | [] => None
  | (k0, v0) :: rest =>
      if sir__str_equal opts (Some (trimmed k0)) (Some (trimmed k))
      then Some ((k0, if has_option opts SIR_OPTION_OVERRIDE_DUPLICATE_KEYS then v else v0)
                   :: rest)
      else option_map (cons (k0, v0)) (replace_value opts k v rest)
  end.

Definition put_key (opts : SirOptions) (acc : list (list ascii * list ascii))
           (kv : list ascii * list ascii) : list (list ascii * list ascii) :=
  match replace_value opts (fst kv) (snd kv) acc with
  | Some acc' => acc'
  | None => acc ++ [kv]
  end.

Definition resolved_keys (opts : SirOptions) (kvs : list (list ascii * list ascii))
  : list (list ascii * list ascii) :=
  fold_left (put_key opts) kvs [].

(** The characters between the assignment character and the line feed of
    a key line, whatever the reader makes of them: no terminator, no
    comment character and no line feed. *)
Definition raw_value (opts : SirOptions) (v : list ascii) : bool :=
  forallb (fun c => negb (is_nul c) && negb (sir__is_comment_char opts c) &&
                    negb (Ascii.eqb c LF)) v.

Definition line_fields (opts : SirOptions) (kvs : list (list ascii * list ascii)) : bool :=
  forallb (fun kv => name_field opts (fst kv) && raw_value opts (snd kv)) kvs.

(** The value of a key line as it is written: plain, or between double
    quotes, with the characters [pad] before the opening quote and the
    whitespace [tail] after the closing one. *)
Inductive value_source : Type :=
| Plain (v : list ascii)
| Quoted (pad q tail : list ascii).

Definition value_text (s : value_source) : list ascii :=
  match s with
  | Plain v => v
  | Quoted pad q tail => pad ++ DQUOTE :: q ++ DQUOTE :: tail
  end.

(** What the reader is to make of it: a plain value without the whitespace
    around it, a quoted one as it stands between the quotes. *)
Definition value_read (s : value_source) : list ascii :=
  match s with
  | Plain v => trimmed v
  | Quoted _ q _ => q
  end.

(** A plain value is a [value_field].  A quoted one needs quoting enabled;
    no terminator, comment character or line feed on the line; no double
    quote before the closing one; whitespace only after it; and, as
    SIR_OPTION_IGNORE_EMPTY_VALUES drops empty values, something between
    the quotes when that option is set. *)
Definition source_field (opts : SirOptions) (s : value_source) : bool :=
  match s with
  | Plain v => value_field opts v
  | Quoted pad q tail =>
      negb (has_option opts SIR_OPTION_DISABLE_QUOTES) &&
      raw_value opts (pad ++ q ++ tail) &&
      forallb (fun c => negb (Ascii.eqb c DQUOTE)) (pad ++ q) &&
      forallb le_space tail &&
      match q with
      | [] => negb (has_option opts SIR_OPTION_IGNORE_EMPTY_VALUES)
      | _ :: _ => true
      end
  end.

Definition source_fields (opts : SirOptions) (kss : list (list ascii * value_source)) : bool :=
  forallb (fun ks => name_field opts (fst ks) && source_field opts (snd ks)) kss.

Definition source_lines (kss : list (list ascii * value_source)) : list ascii :=
  key_lines (map (fun ks => (fst ks, value_text (snd ks))) kss).

(** *** Names under the case option *)







(** * Properties *)

(** ** Buffers and scanning *)

Lemma is_nul_true (c : ascii) : is_nul c = true <-> c = NUL.
Proof. unfold is_nul. apply Ascii.eqb_eq. Qed.

Lemma is_nul_false (c : ascii) : is_nul c = false <-> c <> NUL.
Proof. unfold is_nul. apply Ascii.eqb_neq. Qed.

Lemma skip_to_char_nonneg (s : list ascii) (c : ascii) : 0 <= skip_to_char s c.
Proof.
  induction s as [|x t IH]; cbn [skip_to_char]; [lia|].
  destruct (negb (is_nul x) && negb (Ascii.eqb x c)); lia.
Qed.

Lemma skip_whitespace_nonneg (s : list ascii) : 0 <= skip_whitespace s.
Proof.
  induction s as [|x t IH]; cbn [skip_whitespace]; [lia|].
  destruct (negb (is_nul x) && le_space x); lia.
Qed.

Lemma strlen_nonneg (s : list ascii) : 0 <= strlen s.
Proof.
  induction s as [|x t IH]; cbn [strlen]; [lia|].
  destruct (is_nul x); lia.
Qed.

Lemma strlen_c_string (s : list ascii) : strlen s = Z.of_nat (length (c_string s)).
Proof.
  induction s as [|x t IH]; cbn [strlen c_string]; [reflexivity|].
  destruct (is_nul x); cbn [length]; lia.
Qed.

Lemma to_nat_succ (k : Z) : 0 <= k -> Z.to_nat (1 + k) = S (Z.to_nat k).
Proof. intros. lia. Qed.

Lemma tail_at_add (buf : list ascii) (p n : Z) :
  0 <= p -> 0 <= n -> tail_at buf (p + n) = tail_at (tail_at buf p) n.
Proof.
  intros Hp Hn. unfold tail_at.
  rewrite skipn_skipn. f_equal. lia.
Qed.

Lemma load_tail (buf : list ascii) (p n : Z) :
  0 <= p -> 0 <= n -> load buf (p + n) = load (tail_at buf p) n.
Proof.
  intros Hp Hn. unfold load, tail_at.
  rewrite nth_skipn.
  replace (Z.to_nat (p + n)) with (Z.to_nat p + Z.to_nat n)%nat by lia.
  reflexivity.
Qed.

Lemma load_head (s : list ascii) : load s 0 = hd NUL s.
Proof. destruct s; reflexivity. Qed.

Lemma store_nil (p : Z) (c : ascii) : store [] p c = [].
Proof. unfold store. rewrite firstn_nil, skipn_nil. reflexivity. Qed.

Lemma store_zero (x : ascii) (t : list ascii) (c : ascii) : store (x :: t) 0 c = c :: t.
Proof. reflexivity. Qed.

Lemma store_cons (x : ascii) (t : list ascii) (n : Z) (c : ascii) :
  0 <= n -> store (x :: t) (1 + n) c = x :: store t n c.
Proof.
  intros Hn. unfold store. rewrite to_nat_succ by assumption. reflexivity.
Qed.

Lemma store_length (buf : list ascii) (p : Z) (c : ascii) :
  length (store buf p c) = length buf.
Proof.
  unfold store.
  rewrite <- (firstn_skipn (Z.to_nat p) buf) at 3.
  rewrite !length_app. f_equal.
  destruct (skipn (Z.to_nat p) buf); reflexivity.
Qed.

Lemma skipn_store_nat (p n : nat) (buf : list ascii) (c : ascii) :
  skipn p (store buf (Z.of_nat (p + n)) c) = store (skipn p buf) (Z.of_nat n) c.
Proof.
  revert buf. induction p as [|p IH]; intros buf.
  - reflexivity.
  - destruct buf as [|x t].
    + rewrite !store_nil. reflexivity.
    + replace (Z.of_nat (S p + n)) with (1 + Z.of_nat (p + n)) by lia.
      rewrite store_cons by lia. simpl. apply IH.
Qed.

Lemma tail_at_store (buf : list ascii) (p n : Z) (c : ascii) :
  0 <= p -> 0 <= n -> tail_at (store buf (p + n) c) p = store (tail_at buf p) n c.
Proof.
  intros Hp Hn. unfold tail_at.
  replace (p + n) with (Z.of_nat (Z.to_nat p + Z.to_nat n)) by lia.
  rewrite skipn_store_nat. f_equal. lia.
Qed.

Lemma load_cons (x : ascii) (t : list ascii) (n : Z) :
  0 <= n -> load (x :: t) (1 + n) = load t n.
Proof. intros Hn. unfold load. rewrite to_nat_succ by assumption. reflexivity. Qed.

(** What [sir__skip_to_char] finds: either the string ends first, or the
    string splits at the first occurrence of the character. *)
Lemma skip_to_char_split (s : list ascii) (c : ascii) :
  c <> NUL ->
  (load s (skip_to_char s c) = NUL /\ ~ In c (c_string s) /\
   skip_to_char s c = Z.of_nat (length (c_string s)))
  \/
  (exists name rest,
      c_string s = name ++ c :: rest /\ ~ In c name /\
      skip_to_char s c = Z.of_nat (length name) /\
      load s (skip_to_char s c) = c /\
      c_string (store s (skip_to_char s c) NUL) = name).
Proof.
  intros Hc. induction s as [|x t IH].
  - left. cbn. auto.
  - cbn [skip_to_char c_string].
    destruct (is_nul x) eqn:Hx.
    + left. cbn [negb andb]. rewrite load_head. cbn.
      apply is_nul_true in Hx. auto.
    + cbn [negb andb]. destruct (Ascii.eqb x c) eqn:Hxc; cbn [negb].
      * apply Ascii.eqb_eq in Hxc. subst x. right.
        exists [], (c_string t). rewrite store_zero, load_head. cbn. auto.
      * apply Ascii.eqb_neq in Hxc.
        pose proof (skip_to_char_nonneg t c) as Hn.
        rewrite load_cons, store_cons by assumption.
        destruct IH as [(Hl & Hin & Hlen) | (name & rest & Hs & Hin & Hlen & Hl & Hst)].
        -- left. repeat split; [assumption| |cbn [length]; lia].
           intros [H|H]; [congruence|contradiction].
        -- right. exists (x :: name), rest. cbn [c_string]. rewrite Hx, Hs, Hst.
           repeat split; [|cbn [length]; lia|assumption].
           intros [H|H]; [congruence|contradiction].
Qed.

Lemma sir__parse_to_char_spec (buf : list ascii) (str : Z) (c : ascii) (n : Z)
      (buf' : list ascii) :
  0 <= str -> c <> NUL ->
  sir__parse_to_char buf str c = (n, buf') ->
  (n = -1 /\ buf' = buf /\ ~ In c (c_string (tail_at buf str)) /\
   sir__skip_to_char buf str c = Z.of_nat (length (c_string (tail_at buf str))))
  \/
  (exists name rest,
      c_string (tail_at buf str) = name ++ c :: rest /\ ~ In c name /\
      n = Z.of_nat (length name) /\ sir__skip_to_char buf str c = n /\
      buf' = store buf (str + n) NUL /\
      c_string (tail_at buf' str) = name).
Proof.
  intros Hstr Hc. unfold sir__parse_to_char, sir__skip_to_char.
  pose proof (skip_to_char_nonneg (tail_at buf str) c) as Hn.
  rewrite load_tail by assumption.
  destruct (skip_to_char_split (tail_at buf str) c Hc)
    as [(Hl & Hin & Hlen) | (name & rest & Hs & Hin & Hlen & Hl & Hst)].
  - rewrite Hl. cbn. intros H. inversion H; subst n buf'. left. auto.
  - rewrite Hl. destruct (is_nul c) eqn:Hnul; [apply is_nul_true in Hnul; contradiction|].
    intros H. inversion H; subst n buf'. right. exists name, rest.
    rewrite tail_at_store by assumption. auto 10.
Qed.

Lemma app_eq_shorter {A : Type} (l1 r1 l2 r2 : list A) :
  l1 ++ r1 = l2 ++ r2 -> (length l1 <= length l2)%nat -> exists m, l2 = l1 ++ m.
Proof.
  revert l2. induction l1 as [|x l1 IH]; intros l2 Heq Hlen.
  - exists l2. reflexivity.
  - destruct l2 as [|y l2]; [cbn in Hlen; lia|].
    cbn in Heq. inversion Heq; subst.
    destruct (IH l2 H1) as [m Hm]; [cbn in Hlen; lia|].
    exists m. cbn. congruence.
Qed.

Lemma app_eq_same_length {A : Type} (l1 r1 l2 r2 : list A) :
  l1 ++ r1 = l2 ++ r2 -> length l1 = length l2 -> l1 = l2 /\ r1 = r2.
Proof.
  revert l2. induction l1 as [|x l1 IH]; intros l2 Heq Hlen.
  - destruct l2; [auto|discriminate].
  - destruct l2 as [|y l2]; [discriminate|].
    cbn in Heq. inversion Heq; subst.
    destruct (IH l2 H1) as [-> ->]; [cbn in Hlen; lia|]. auto.
Qed.

Lemma is_assignment_char_cases (opts : SirOptions) (c : ascii) :
  sir__is_assignment_char opts c = true <->
  c = "="%char \/
  (has_option opts SIR_OPTION_DISABLE_COLON_ASSIGNMENT = false /\ c = ":"%char).
Proof.
  unfold sir__is_assignment_char, SIR_KEY_ASSIGNMENT_CHAR, SIR_KEY_ASSIGNMENT_CHAR_ALT.
  rewrite orb_true_iff, andb_true_iff, negb_true_iff, !Ascii.eqb_eq. tauto.
Qed.

(** C6.  The key name that [sir__parse_to_assignment_char] carves out ends
    at the earliest assignment character of the remaining text: either the
    text holds no assignment character, the result is -1 and the buffer is
    untouched; or the text is [name ++ c :: rest] where [c] is an assignment
    character and [name] holds none, the result is the length of [name], NUL
    replaces [c], and the string at [str] now reads [name].  With colon
    assignment disabled [c] is '=' (a ':' may then sit inside [name]); with
    both enabled it is whichever of '=' and ':' comes first.  Two different
    characters never share an offset, so the only tie of the two scans is
    the text without any delimiter, where the result is -1 either way. *)
Theorem C6_key_name_ends_at_earliest_assignment_char
        (opts : SirOptions) (buf : list ascii) (str n : Z) (buf' : list ascii) :
  0 <= str ->
  sir__parse_to_assignment_char opts buf str = (n, buf') ->
  (n = -1 /\ buf' = buf /\
   forall x, In x (c_string (tail_at buf str)) -> sir__is_assignment_char opts x = false)
  \/
  (exists name c rest,
      c_string (tail_at buf str) = name ++ c :: rest /\
      sir__is_assignment_char opts c = true /\
      (forall x, In x name -> sir__is_assignment_char opts x = false) /\
      (has_option opts SIR_OPTION_DISABLE_COLON_ASSIGNMENT = true -> c = "="%char) /\
      n = Z.of_nat (length name) /\
      buf' = store buf (str + n) NUL /\
      c_string (tail_at buf' str) = name).
Proof.
  intros Hstr. unfold sir__parse_to_assignment_char.
  assert (Heq : "="%char <> NUL) by discriminate.
  assert (Hco : ":"%char <> NUL) by discriminate.
  assert (Hno : forall l : list ascii,
             ~ In "="%char l ->
             (has_option opts SIR_OPTION_DISABLE_COLON_ASSIGNMENT = true \/ ~ In ":"%char l) ->
             forall x, In x l -> sir__is_assignment_char opts x = false).
  { intros l H1 H2 x Hx.
    destruct (sir__is_assignment_char opts x) eqn:E; [|reflexivity].
    apply is_assignment_char_cases in E.
    destruct E as [->|[Hd ->]]; [contradiction|].
    destruct H2 as [H2|H2]; [congruence|contradiction]. }
  assert (Hyes : forall c, c = "="%char \/ c = ":"%char ->
             has_option opts SIR_OPTION_DISABLE_COLON_ASSIGNMENT = false \/ c = "="%char ->
             sir__is_assignment_char opts c = true).
  { intros c H1 H2. apply is_assignment_char_cases.
    destruct H2 as [H2| ->]; [|auto]. destruct H1 as [->| ->]; auto. }
  destruct (has_option opts SIR_OPTION_DISABLE_COLON_ASSIGNMENT) eqn:Hopt.
  - intros H.
    destruct (sir__parse_to_char_spec _ _ _ _ _ Hstr Heq H)
      as [(-> & -> & Hin & _) | (name & rest & Hs & Hin & Hn & _ & Hb & Hst)].
    + left. split; [reflexivity|]. split; [reflexivity|]. apply Hno; auto.
    + right. exists name, "="%char, rest.
      split; [exact Hs|]. split; [apply Hyes; auto|].
      split; [apply Hno; auto|]. auto.
  - unfold SIR_KEY_ASSIGNMENT_CHAR, SIR_KEY_ASSIGNMENT_CHAR_ALT.
    destruct (sir__parse_to_char buf str "="%char) as [n1 b1] eqn:P1.
    destruct (sir__parse_to_char buf str ":"%char) as [n2 b2] eqn:P2.
    destruct (sir__parse_to_char_spec _ _ _ _ _ Hstr Heq P1)
      as [(-> & -> & Hin1 & Hk1) | (name1 & rest1 & Hs1 & Hin1 & Hn1 & Hk1 & Hb1 & Hst1)];
    destruct (sir__parse_to_char_spec _ _ _ _ _ Hstr Hco P2)
      as [(-> & -> & Hin2 & Hk2) | (name2 & rest2 & Hs2 & Hin2 & Hn2 & Hk2 & Hb2 & Hst2)];
    rewrite Hk1, Hk2.
    + rewrite Z.ltb_irrefl. intros H; injection H as <- <-.
      left. split; [reflexivity|]. split; [reflexivity|]. apply Hno; auto.
    + assert (Hlen : (length name2 < length (c_string (tail_at buf str)))%nat).
      { rewrite Hs2, length_app. cbn. lia. }
      destruct (Z.ltb_spec (Z.of_nat (length (c_string (tail_at buf str)))) n2); [lia|].
      intros H'; injection H' as <- <-.
      right. exists name2, ":"%char, rest2.
      split; [exact Hs2|]. split; [apply Hyes; auto|].
      split; [|split; [discriminate|auto]].
      apply Hno; [|auto]. intros Hi. apply Hin1. rewrite Hs2. apply in_or_app. auto.
    + assert (Hlen : (length name1 < length (c_string (tail_at buf str)))%nat).
      { rewrite Hs1, length_app. cbn. lia. }
      destruct (Z.ltb_spec n1 (Z.of_nat (length (c_string (tail_at buf str))))); [|lia].
      intros H'; injection H' as <- <-.
      right. exists name1, "="%char, rest1.
      split; [exact Hs1|]. split; [apply Hyes; auto|].
      split; [|auto].
      apply Hno; [assumption|]. right. intros Hi. apply Hin2. rewrite Hs1.
      apply in_or_app. auto.
    + destruct (Z.ltb_spec n1 n2) as [Hlt|Hge]; intros H'; injection H' as <- <-.
      * right. exists name1, "="%char, rest1.
        split; [exact Hs1|]. split; [apply Hyes; auto|].
        split; [|auto].
        apply Hno; [assumption|]. right. intros Hi. apply Hin2.
        destruct (app_eq_shorter name1 ("="%char :: rest1) name2 (":"%char :: rest2))
          as [m Hm]; [congruence|lia|].
        rewrite Hm. apply in_or_app. auto.
      * right. exists name2, ":"%char, rest2.
        split; [exact Hs2|]. split; [apply Hyes; auto|].
        split; [|split; [discriminate|auto]].
        apply Hno; [|auto]. intros Hi. apply Hin1.
        assert (Hne : n1 <> n2).
        { intros E.
          destruct (app_eq_same_length name1 ("="%char :: rest1) name2 (":"%char :: rest2))
            as [_ Hr]; [congruence|lia|]. discriminate. }
        destruct (app_eq_shorter name2 (":"%char :: rest2) name1 ("="%char :: rest1))
          as [m Hm]; [congruence|lia|].
        rewrite Hm. apply in_or_app. auto.
Qed.

Lemma C6_witness :
  exists name c rest,
    c_string (tail_at (list_ascii_of_string "k:v=w") 0) = name ++ c :: rest /\
    sir__is_assignment_char SIR_OPTION_NONE c = true /\
    name = list_ascii_of_string "k" /\ c = ":"%char.
Proof.
  assert (H0 : 0 <= 0) by lia.
  assert (H1 : sir__parse_to_assignment_char SIR_OPTION_NONE
                 (list_ascii_of_string "k:v=w") 0
               = (1, store (list_ascii_of_string "k:v=w") 1 NUL)) by reflexivity.
  destruct (C6_key_name_ends_at_earliest_assignment_char _ _ _ _ _ H0 H1)
    as [(H & _) | (name & c & rest & Hs & Hc & _ & _ & Hn & _ & _)].
  - discriminate H.
  - exists name, c, rest.
    destruct name as [|a [|b name]]; cbn in Hn; try lia.
    cbn in Hs. injection Hs as <- <- <-. auto.
Defined.

(** ** The duplicate-key scan of the loader: worked texts *)

(** C1.  The duplicate scan of a key line reads the ranges of
    [sections[section_index]], the section created last, not those of the
    section that is open ([prev_index]).  In the first text the key [j] under
    the reopened [a] is taken for a duplicate of the [j] of section [b] and
    dropped, although [a] holds no [j]: two keys are stored and the scoped
    lookup of [j] in [a] fails.  In the second text the second [k] of [a] is
    not recognised as a duplicate of the first and is stored again. *)
Theorem C1_duplicate_scan_reads_newest_section :
  (exists ini ini',
      sir_load_from_str (lines ["[a]"; "k=1"; "[b]"; "j=2"; "[a]"; "j=3"]) SIR_OPTION_NONE
      = Ok ini /\
      strings_of ini (section_names ini) = [Some "global"; Some "a"; Some "b"] /\
      strings_of ini (key_names ini) = [Some "k"; Some "j"] /\
      strings_of ini (key_values ini) = [Some "1"; Some "2"] /\
      map ranges (sections ini) =
        [[mkRange 0 0]; [mkRange 0 1; mkRange 2 2]; [mkRange 1 2]] /\
      sir_section_str ini (arg "a") (arg "j") = Ok (NullPtr, ini') /\
      sir_has_error ini' = true)
  /\
  (exists ini,
      sir_load_from_str (lines ["[a]"; "k=1"; "[b]"; "x=2"; "[a]"; "k=3"]) SIR_OPTION_NONE
      = Ok ini /\
      strings_of ini (key_names ini) = [Some "k"; Some "x"; Some "k"] /\
      strings_of ini (key_values ini) = [Some "1"; Some "2"; Some "3"] /\
      map ranges (sections ini) =
        [[mkRange 0 0]; [mkRange 0 1; mkRange 2 3]; [mkRange 1 2]]).
Proof.
  split.
  - eexists. eexists. split; [vm_compute; reflexivity|].
    repeat split; vm_compute; reflexivity.
  - eexists. split; [vm_compute; reflexivity|].
    repeat split; vm_compute; reflexivity.
Qed.

(** C3.  The headers [a], [b], [a] give one section [a] with two ranges, but
    the key [j] written under the second [a] is not returned by the scoped
    lookup in [a]: the duplicate scan took it for the [j] of [b].  Under the
    override policy it is the value of [b]'s key that is overwritten. *)
Theorem C3_key_under_reopened_section_lost :
  (exists ini ini',
      sir_load_from_str (lines ["[a]"; "k=1"; "[b]"; "j=2"; "[a]"; "j=3"]) SIR_OPTION_NONE
      = Ok ini /\
      strings_of ini (section_names ini) = [Some "global"; Some "a"; Some "b"] /\
      map ranges (sections ini) =
        [[mkRange 0 0]; [mkRange 0 1; mkRange 2 2]; [mkRange 1 2]] /\
      sir_section_str ini (arg "a") (arg "j") = Ok (NullPtr, ini') /\
      sir_has_error ini' = true)
  /\
  (exists ini ini1 ini2 v,
      sir_load_from_str (lines ["[a]"; "k=1"; "[b]"; "j=2"; "[a]"; "j=3"])
                        SIR_OPTION_OVERRIDE_DUPLICATE_KEYS
      = Ok ini /\
      sir_section_str ini (arg "a") (arg "j") = Ok (NullPtr, ini1) /\
      sir_section_str ini (arg "b") (arg "j") = Ok (v, ini2) /\
      strings_of ini [v] = [Some "3"]).
Proof.
  split.
  - eexists. eexists. split; [vm_compute; reflexivity|].
    repeat split; vm_compute; reflexivity.
  - eexists. eexists. eexists. eexists. split; [vm_compute; reflexivity|].
    repeat split; vm_compute; reflexivity.
Qed.

(** C4.  [key=foo] directly followed by [key=bar] under the reopened header
    of section [a], after a section [b] that holds a key of that name: the
    scan for duplicates reads the range of [b], so both lines are taken for
    duplicates of [b]'s key.  Under the default policy neither is stored and
    the scoped lookup in [a] finds nothing; under the override policy it is
    the value of [b]'s key that becomes [bar], and the lookup in [a] still
    finds nothing.  In the second text [key=foo] and [key=bar] sit in two
    occurrences of [a]: both are stored and counted under either policy and
    the override lookup returns [foo]. *)
Theorem C4_duplicate_in_reopened_section_not_resolved :
  (exists ini ini',
      sir_load_from_str (lines ["[a]"; "[b]"; "key=zzz"; "[a]"; "key=foo"; "key=bar"])
                        SIR_OPTION_NONE
      = Ok ini /\
      strings_of ini (key_names ini) = [Some "key"] /\
      strings_of ini (key_values ini) = [Some "zzz"] /\
      sir_section_str ini (arg "a") (arg "key") = Ok (NullPtr, ini') /\
      sir_has_error ini' = true)
  /\
  (exists ini ini' ini'' v,
      sir_load_from_str (lines ["[a]"; "[b]"; "key=zzz"; "[a]"; "key=foo"; "key=bar"])
                        SIR_OPTION_OVERRIDE_DUPLICATE_KEYS
      = Ok ini /\
      sir_section_str ini (arg "a") (arg "key") = Ok (NullPtr, ini') /\
      sir_section_str ini (arg "b") (arg "key") = Ok (v, ini'') /\
      strings_of ini [v] = [Some "bar"])
  /\
  (exists ini ini' v,
      sir_load_from_str (lines ["[a]"; "key=foo"; "[b]"; "[a]"; "key=bar"])
                        SIR_OPTION_OVERRIDE_DUPLICATE_KEYS
      = Ok ini /\
      key_count ini = 2 /\
      strings_of ini (key_values ini) = [Some "foo"; Some "bar"] /\
      sir_section_str ini (arg "a") (arg "key") = Ok (v, ini') /\
      strings_of ini [v] = [Some "foo"])
  /\
  (exists ini,
      sir_load_from_str (lines ["[a]"; "key=foo"; "[b]"; "[a]"; "key=bar"]) SIR_OPTION_NONE
      = Ok ini /\
      key_count ini = 2 /\
      strings_of ini (key_names ini) = [Some "key"; Some "key"]).
Proof.
  split; [|split; [|split]].
  - eexists. eexists. split; [vm_compute; reflexivity|].
    repeat split; vm_compute; reflexivity.
  - eexists. eexists. eexists. eexists. split; [vm_compute; reflexivity|].
    repeat split; vm_compute; reflexivity.
  - eexists. eexists. eexists. split; [vm_compute; reflexivity|].
    repeat split; vm_compute; reflexivity.
  - eexists. split; [vm_compute; reflexivity|].
    repeat split; vm_compute; reflexivity.
Qed.

(** In a section that is the one created last the two policies do what
    they are meant to: the default keeps [foo] and drops the later line, the
    override writes [bar] over [foo] at index 0. *)
Lemma duplicate_key_in_newest_section :
  (exists ini ini' v,
      sir_load_from_str (lines ["[a]"; "key=foo"; "key=bar"]) SIR_OPTION_NONE = Ok ini /\
      key_count ini = 1 /\
      sir_section_str ini (arg "a") (arg "key") = Ok (v, ini') /\
      strings_of ini [v] = [Some "foo"])
  /\
  (exists ini ini' v,
      sir_load_from_str (lines ["[a]"; "key=foo"; "key=bar"])
                        SIR_OPTION_OVERRIDE_DUPLICATE_KEYS = Ok ini /\
      key_count ini = 1 /\
      strings_of ini (key_values ini) = [Some "bar"] /\
      sir_section_str ini (arg "a") (arg "key") = Ok (v, ini') /\
      strings_of ini [v] = [Some "bar"]).
Proof.
  split; eexists; eexists; eexists;
    repeat match goal with
           | |- _ /\ _ => split; [vm_compute; reflexivity|]
           end;
    vm_compute; reflexivity.
Qed.

(** C9.  With error tracking disabled [sir_has_error] is constantly false,
    so [sir_section_bool] takes the 0 that the failed numeric conversion
    returned for a parsed number: the values [true] and [TrueXYZ] yield 0,
    and a value that is neither a number nor a literal yields 0, not -1. *)
Theorem C9_bool_with_errors_disabled :
  exists ini,
    sir_load_from_str (lines ["k=true"; "t=TrueXYZ"; "n=neither"]) SIR_OPTION_DISABLE_ERRORS
    = Ok ini /\
    sir_section_bool ini None (arg "k") = Ok (0, ini) /\
    sir_section_bool ini None (arg "t") = Ok (0, ini) /\
    sir_section_bool ini None (arg "n") = Ok (0, ini).
Proof.
  eexists. split; [vm_compute; reflexivity|].
  repeat split; vm_compute; reflexivity.
Qed.

(** ** String comparison and the case option *)

Lemma str_equal_loop_spec (ci : bool) (s1 s2 : list ascii) :
  str_equal_loop s1 s2 ci = true <->
  map (folded ci) (c_string s1) = map (folded ci) (c_string s2).
Proof.
  revert s2. induction s1 as [|c1 t1 IH]; intros [|c2 t2]; cbn [str_equal_loop c_string].
  - cbn. tauto.
  - destruct (is_nul c2); cbn; split; intros; try reflexivity; discriminate.
  - destruct (is_nul c1); cbn; split; intros; try reflexivity; discriminate.
  - destruct (is_nul c1) eqn:H1, (is_nul c2) eqn:H2; cbn [orb map].
    + apply is_nul_true in H1, H2. subst. cbn. tauto.
    + apply is_nul_true in H1. apply is_nul_false in H2. subst c1.
      split; [|discriminate]. intros H. apply Ascii.eqb_eq in H. congruence.
    + apply is_nul_true in H2. apply is_nul_false in H1. subst c2.
      split; [|discriminate]. intros H. apply Ascii.eqb_eq in H. congruence.
    + fold (folded ci c1). fold (folded ci c2).
      destruct (Ascii.eqb (folded ci c1) (folded ci c2)) eqn:E.
      * apply Ascii.eqb_eq in E. rewrite IH, E. split; intros H; [congruence|].
        injection H as H. exact H.
      * apply Ascii.eqb_neq in E. split; [discriminate|].
        intros H. injection H as H _. contradiction.
Qed.

Lemma map_id_folded (s : list ascii) : map (folded false) s = s.
Proof. unfold folded. apply map_id. Qed.

Lemma c_string_idempotent (s : list ascii) : c_string (c_string s) = c_string s.
Proof.
  induction s as [|c t IH]; cbn [c_string]; [reflexivity|].
  destruct (is_nul c) eqn:E; cbn [c_string]; [reflexivity|].
  rewrite E, IH. reflexivity.
Qed.


Lemma str_equal_reflexive (opts : SirOptions) (s : list ascii) :
  sir__str_equal opts (Some s) (Some s) = true.
Proof.
  unfold sir__str_equal, sir__str_equal_case. apply str_equal_loop_spec. reflexivity.
Qed.


(** ** The error slot across the operations *)

Lemma bind_ok {A B : Type} (m : outcome A) (k : A -> outcome B) (b : B) :
  bind m k = Ok b -> exists a, m = Ok a /\ k a = Ok b.
Proof. destruct m; cbn; intros H; try discriminate. eauto. Qed.

Lemma with_error_with_error (ini : SirIni) (e1 e2 : list ascii) :
  with_error (with_error ini e1) e2 = with_error ini e2.
Proof. reflexivity. Qed.

Lemma with_error_error (ini : SirIni) : with_error ini (error ini) = ini.
Proof. destruct ini; reflexivity. Qed.

Lemma errors_enabled_with_error (ini : SirIni) (e : list ascii) :
  sir__errors_enabled (with_error ini e) = sir__errors_enabled ini.
Proof. reflexivity. Qed.

Lemma errors_enabled_with_error_writes (ini : SirIni) (n : Z) :
  sir__errors_enabled (with_error_writes ini n) = sir__errors_enabled ini.
Proof. reflexivity. Qed.

Lemma set_error_with_error (ini : SirIni) (e : list ascii) (f : string)
      (a b : option (list ascii)) :
  sir__errors_enabled ini = true ->
  sir__set_error (with_error ini e) f a b = sir__set_error ini f a b.
Proof.
  intros H. unfold sir__set_error. rewrite errors_enabled_with_error, H. reflexivity.
Qed.

Lemma clear_error_with_error (ini : SirIni) (e : list ascii) :
  sir__errors_enabled ini = true ->
  sir__clear_error_str (with_error ini e) = sir__clear_error_str ini.
Proof.
  intros H. unfold sir__clear_error_str. rewrite errors_enabled_with_error, H. reflexivity.
Qed.

Lemma with_slot_self (ini : SirIni) :
  with_error_writes (with_error ini (error ini)) (error_writes ini) = ini.
Proof. destruct ini; reflexivity. Qed.

Lemma set_error_shape (ini : SirIni) (f : string) (a b : option (list ascii)) :
  sir__set_error ini f a b =
  with_error_writes (with_error ini (error (sir__set_error ini f a b)))
                    (error_writes (sir__set_error ini f a b)).
Proof.
  unfold sir__set_error. destruct (negb (sir__errors_enabled ini)).
  - symmetry. apply with_slot_self.
  - reflexivity.
Qed.

Lemma clear_error_shape (ini : SirIni) :
  sir__clear_error_str ini =
  with_error_writes (with_error ini (error (sir__clear_error_str ini)))
                    (error_writes (sir__clear_error_str ini)).
Proof.
  unfold sir__clear_error_str. destruct (sir__errors_enabled ini).
  - destruct ini; reflexivity.
  - symmetry. apply with_slot_self.
Qed.

Lemma error_writes_clear (ini : SirIni) :
  error_writes (sir__clear_error_str ini) = error_writes ini.
Proof. unfold sir__clear_error_str. destruct (sir__errors_enabled ini); reflexivity. Qed.

Lemma error_writes_set (ini : SirIni) (f : string) (a b : option (list ascii)) :
  sir__errors_enabled ini = true ->
  error_writes (sir__set_error ini f a b) = error_writes ini + 1.
Proof. intros H. unfold sir__set_error. rewrite H. reflexivity. Qed.

Lemma has_error_clear (ini : SirIni) : sir_has_error (sir__clear_error_str ini) = false.
Proof.
  unfold sir_has_error, sir__clear_error_str.
  destruct (sir__errors_enabled ini) eqn:E.
  - rewrite errors_enabled_with_error, E. reflexivity.
  - rewrite E. reflexivity.
Qed.

Lemma has_error_set (ini : SirIni) (f : string) (a b : option (list ascii)) :
  sir__errors_enabled ini = true -> 1 < error_size ini -> plain_start f = true ->
  sir_has_error (sir__set_error ini f a b) = true.
Proof.
  intros He Hs Hf. unfold sir__set_error, sir_has_error. rewrite He. cbn [negb].
  rewrite errors_enabled_with_error_writes, errors_enabled_with_error, He.
  cbn [andb with_error with_error_writes error].
  destruct f as [|c f]; [discriminate|]. cbn [plain_start] in Hf.
  apply andb_true_iff in Hf. destruct Hf as [Hn Hp].
  cbn [list_ascii_of_string format_error]. rewrite Hn. cbn [andb].
  destruct (Z.ltb_spec 0 (error_size ini - 1)); [|lia].
  apply negb_true_iff in Hp. rewrite Hp. exact Hn.
Qed.

Lemma has_error_disabled (ini : SirIni) :
  sir__errors_enabled ini = false -> sir_has_error ini = false.
Proof. intros H. unfold sir_has_error. rewrite H. reflexivity. Qed.

(** The scans read the names, the values, the text and the options of a
    document, never its error slot. *)
Lemma get_section_loop_with_error (ini : SirIni) (e : list ascii) (name : list ascii)
      (i : Z) (count : nat) :
  get_section_loop (with_error ini e) name i count = get_section_loop ini name i count.
Proof.
  revert i. induction count as [|count IH]; intros i; cbn [get_section_loop]; [reflexivity|].
  cbn [with_error section_names options data].
  destruct (aget (section_names ini) i) as [p| |]; cbn [bind]; try reflexivity.
  rewrite IH. reflexivity.
Qed.

Lemma find_key_with_error (ini : SirIni) (e : list ascii) (key : list ascii)
      (j : Z) (count : nat) :
  find_key (with_error ini e) key j count = find_key ini key j count.
Proof.
  revert j. induction count as [|count IH]; intros j; cbn [find_key]; [reflexivity|].
  cbn [with_error key_names options data].
  destruct (aget (key_names ini) j) as [p| |]; cbn [bind]; try reflexivity.
  rewrite IH. reflexivity.
Qed.

Lemma find_key_in_ranges_with_error (ini : SirIni) (e : list ascii) (key : list ascii)
      (rs : list SirSectionRange) :
  find_key_in_ranges (with_error ini e) key rs = find_key_in_ranges ini key rs.
Proof.
  induction rs as [|r rs IH]; cbn [find_key_in_ranges]; [reflexivity|].
  rewrite find_key_with_error.
  destruct (find_key ini key (start r) (Z.to_nat (end_ r - start r))) as [[j|]| |];
    cbn [bind]; try reflexivity.
  apply IH.
Qed.

Lemma global_scan_with_error (ini : SirIni) (e : list ascii) (key : list ascii)
      (i : Z) (count : nat) (v : cptr) :
  global_scan (with_error ini e) key i count v = global_scan ini key i count v.
Proof.
  revert i v. induction count as [|count IH]; intros i v; cbn [global_scan]; [reflexivity|].
  cbn [with_error key_names key_values options data].
  destruct (aget (key_names ini) i) as [p| |]; cbn [bind]; try reflexivity.
  destruct (negb (is_null p) &&
            sir__str_equal (options ini) (string_at (data ini) p) (Some key)).
  - destruct (aget (key_values ini) i) as [w| |]; cbn [bind]; try reflexivity.
    destruct (has_option (options ini) SIR_OPTION_OVERRIDE_DUPLICATE_KEYS);
      [apply IH|reflexivity].
  - apply IH.
Qed.

Lemma sir__get_section_with_error (ini : SirIni) (e : list ascii)
      (section_name : option (list ascii)) :
  sir__errors_enabled ini = true ->
  sir__get_section (with_error ini e) section_name = sir__get_section ini section_name.
Proof.
  intros He. unfold sir__get_section. destruct section_name as [name|].
  - rewrite get_section_loop_with_error. cbn [with_error section_count].
    destruct (get_section_loop ini name 0 (Z.to_nat (section_count ini))) as [[i|]| |];
      cbn [bind]; try reflexivity.
    + rewrite clear_error_with_error by assumption. reflexivity.
    + rewrite set_error_with_error by assumption. reflexivity.
  - rewrite set_error_with_error by assumption. reflexivity.
Qed.

Lemma slot_only_refl (ini : SirIni) : slot_only ini ini.
Proof. unfold slot_only. symmetry. apply with_slot_self. Qed.

Lemma slot_only_trans (a b c : SirIni) : slot_only a b -> slot_only b c -> slot_only a c.
Proof. unfold slot_only. intros Hab Hbc. rewrite Hbc at 1. rewrite Hab. reflexivity. Qed.

Lemma slot_only_set (ini : SirIni) (f : string) (a b : option (list ascii)) :
  slot_only ini (sir__set_error ini f a b).
Proof. apply set_error_shape. Qed.

Lemma slot_only_clear (ini : SirIni) : slot_only ini (sir__clear_error_str ini).
Proof. apply clear_error_shape. Qed.

Lemma slot_only_enabled (ini ini' : SirIni) :
  slot_only ini ini' -> sir__errors_enabled ini' = sir__errors_enabled ini.
Proof. intros H. rewrite H. reflexivity. Qed.

Lemma slot_only_error_size (ini ini' : SirIni) :
  slot_only ini ini' -> error_size ini' = error_size ini.
Proof. intros H. rewrite H. reflexivity. Qed.

Lemma slot_only_key_values (ini ini' : SirIni) :
  slot_only ini ini' -> key_values ini' = key_values ini.
Proof. intros H. rewrite H. reflexivity. Qed.

(** A lookup leaves everything but the error slot as it was. *)
Lemma sir__get_section_shape (ini ini' : SirIni) (section_name : option (list ascii))
      (r : option Z) :
  sir__get_section ini section_name = Ok (r, ini') -> slot_only ini ini'.
Proof.
  unfold sir__get_section. destruct section_name as [name|].
  - intros H. apply bind_ok in H. destruct H as ([i|] & _ & H); injection H as _ <-.
    + apply slot_only_clear.
    + apply slot_only_set.
  - intros H. injection H as _ <-. apply slot_only_set.
Qed.

Lemma aget_In {A : Type} (l : list A) (i : Z) (x : A) : aget l i = Ok x -> In x l.
Proof.
  unfold aget. destruct (i <? 0); [discriminate|].
  destruct (nth_error l (Z.to_nat i)) eqn:E; [|discriminate].
  intros H. injection H as <-. eapply nth_error_In. exact E.
Qed.

Lemma aget_nth_error {A : Type} (l : list A) (i : Z) (x : A) :
  aget l i = Ok x <-> 0 <= i /\ nth_error l (Z.to_nat i) = Some x.
Proof.
  unfold aget. destruct (Z.ltb_spec i 0).
  - split; [discriminate|]. intros [H1 _]. lia.
  - destruct (nth_error l (Z.to_nat i)) eqn:E.
    + split; [intros H'; injection H' as <-; auto|]. intros [_ H']. congruence.
    + split; [discriminate|]. intros [_ H']. discriminate.
Qed.

Lemma global_scan_inl_In (ini : SirIni) (key : list ascii) (i : Z) (count : nat)
      (kv v : cptr) :
  global_scan ini key i count kv = Ok (inl v) -> In v (key_values ini).
Proof.
  revert i kv. induction count as [|count IH]; intros i kv; cbn [global_scan];
    [discriminate|].
  intros H. apply bind_ok in H. destruct H as (p & _ & H).
  destruct (negb (is_null p) &&
            sir__str_equal (options ini) (string_at (data ini) p) (Some key)).
  - apply bind_ok in H. destruct H as (w & Hw & H).
    destruct (has_option (options ini) SIR_OPTION_OVERRIDE_DUPLICATE_KEYS).
    + eapply IH. exact H.
    + injection H as <-. eapply aget_In. exact Hw.
  - eapply IH. exact H.
Qed.

Lemma sir_section_str_with_error (ini : SirIni) (e : list ascii)
      (section_name key_name : option (list ascii)) :
  sir__errors_enabled ini = true ->
  sir_section_str (with_error ini e) section_name key_name =
  sir_section_str ini section_name key_name.
Proof.
  intros He. unfold sir_section_str. destruct key_name as [key|].
  - destruct section_name as [name|].
    + rewrite sir__get_section_with_error by assumption. reflexivity.
    + cbn [bind]. rewrite global_scan_with_error. cbn [with_error key_count].
      destruct (global_scan ini key 0 (Z.to_nat (key_count ini)) NullPtr) as [[v|v]| |];
        cbn [bind]; try reflexivity.
      * rewrite clear_error_with_error by assumption. reflexivity.
      * rewrite clear_error_with_error, set_error_with_error by assumption. reflexivity.
  - rewrite set_error_with_error by assumption. reflexivity.
Qed.

Lemma sir_section_str_shape (ini ini' : SirIni)
      (section_name key_name : option (list ascii)) (v : cptr) :
  sir_section_str ini section_name key_name = Ok (v, ini') ->
  slot_only ini ini'.
Proof.
  unfold sir_section_str. destruct key_name as [key|].
  - intros H. apply bind_ok in H. destruct H as ((section & ini1) & H1 & H).
    assert (Hs : slot_only ini ini1).
    { destruct section_name as [name|].
      - eapply sir__get_section_shape. exact H1.
      - injection H1 as _ <-. apply slot_only_refl. }
    assert (Hshape : forall x, slot_only ini1 x -> slot_only ini x).
    { intros x Hx. eapply slot_only_trans; eassumption. }
    destruct (match section_name with
              | Some _ => sir_has_error ini1
              | None => false
              end).
    + injection H as _ <-. exact Hs.
    + destruct section as [i|].
      * apply bind_ok in H. destruct H as (s & _ & H).
        apply bind_ok in H. destruct H as ([j|] & _ & H).
        -- apply bind_ok in H. destruct H as (w & _ & H). injection H as _ <-.
           apply Hshape, slot_only_clear.
        -- injection H as _ <-. apply Hshape, slot_only_set.
      * apply bind_ok in H. destruct H as ([w|w] & _ & H).
        -- injection H as _ <-. apply Hshape, slot_only_clear.
        -- destruct (negb (is_null w)); injection H as _ <-.
           ++ apply Hshape, slot_only_clear.
           ++ apply Hshape, slot_only_set.
  - intros H. injection H as _ <-. apply slot_only_set.
Qed.

(** After a lookup the slot is set exactly when the null pointer is
    returned, whatever it held before. *)
Lemma sir_section_str_error_iff (ini ini' : SirIni)
      (section_name key_name : option (list ascii)) (v : cptr) :
  sir__errors_enabled ini = true -> 1 < error_size ini ->
  Forall (fun p => is_null p = false) (key_values ini) ->
  sir_section_str ini section_name key_name = Ok (v, ini') ->
  (sir_has_error ini' = true <-> v = NullPtr).
Proof.
  intros He Hs Hv. unfold sir_section_str.
  rewrite Forall_forall in Hv.
  assert (Hnn : forall w, In w (key_values ini) -> w <> NullPtr).
  { intros w Hw E. subst w. specialize (Hv _ Hw). discriminate. }
  destruct key_name as [key|].
  2:{ intros H. injection H as <- <-. rewrite has_error_set by auto. tauto. }
  intros H. apply bind_ok in H. destruct H as ((section & ini1) & H1 & H).
  assert (Hshape : slot_only ini ini1).
  { destruct section_name as [name|].
    - eapply sir__get_section_shape. exact H1.
    - injection H1 as _ <-. apply slot_only_refl. }
  assert (He1 : sir__errors_enabled ini1 = true)
    by (rewrite (slot_only_enabled _ _ Hshape); exact He).
  assert (Hs1 : 1 < error_size ini1)
    by (rewrite (slot_only_error_size _ _ Hshape); exact Hs).
  assert (Hkv : key_values ini1 = key_values ini) by (apply slot_only_key_values, Hshape).
  destruct section_name as [name|].
  - destruct (sir_has_error ini1) eqn:Herr.
    + injection H as <- <-. tauto.
    + destruct section as [i|].
      * apply bind_ok in H. destruct H as (s & _ & H).
        apply bind_ok in H. destruct H as ([j|] & _ & H).
        -- apply bind_ok in H. destruct H as (w & Hw & H). injection H as <- <-.
           rewrite has_error_clear. apply aget_In in Hw. rewrite Hkv in Hw.
           split; [discriminate|]. intros E. exfalso. eapply Hnn; eauto.
        -- injection H as <- <-. rewrite has_error_set by auto. tauto.
      * exfalso. unfold sir__get_section in H1.
        apply bind_ok in H1. destruct H1 as ([i|] & _ & H1); [discriminate|].
        injection H1 as <-. rewrite has_error_set in Herr by auto. discriminate.
  - injection H1 as <- <-.
    apply bind_ok in H. destruct H as ([w|w] & Hw & H).
    + injection H as <- <-. rewrite has_error_clear.
      apply global_scan_inl_In in Hw.
      split; [discriminate|]. intros E. exfalso. eapply Hnn; eauto.
    + destruct w; cbn [is_null negb] in H; injection H as <- <-;
        rewrite ?has_error_clear, ?has_error_set by auto;
        split; intros; try reflexivity; discriminate.
Qed.

(** ** Numbers and boolean literals *)





Lemma after_whitespace_cons (c : ascii) (t : list ascii) :
  negb (is_nul c) && le_space c = true ->
  after_whitespace (c :: t) = after_whitespace t.
Proof.
  intros H. unfold after_whitespace. cbn [skip_whitespace]. rewrite H.
  rewrite to_nat_succ by apply skip_whitespace_nonneg. reflexivity.
Qed.

Lemma after_whitespace_stop (c : ascii) (t : list ascii) :
  negb (is_nul c) && le_space c = false -> after_whitespace (c :: t) = c :: t.
Proof.
  intros H. unfold after_whitespace. cbn [skip_whitespace]. rewrite H. reflexivity.
Qed.


(** ** The count of the writes *)

Lemma has_error_add_writes (ini : SirIni) (d : Z) :
  sir_has_error (add_error_writes ini d) = sir_has_error ini.
Proof. reflexivity. Qed.

Lemma set_error_add_writes (ini : SirIni) (d : Z) (f : string)
      (a b : option (list ascii)) :
  sir__set_error (add_error_writes ini d) f a b = add_error_writes (sir__set_error ini f a b) d.
Proof.
  unfold sir__set_error, add_error_writes.
  rewrite errors_enabled_with_error_writes.
  destruct (negb (sir__errors_enabled ini)); [reflexivity|].
  unfold with_error_writes, with_error.
  cbn [error_writes error_size data sections section_names key_names key_values error
       section_count key_count options].
  f_equal. lia.
Qed.

Lemma clear_error_add_writes (ini : SirIni) (d : Z) :
  sir__clear_error_str (add_error_writes ini d) = add_error_writes (sir__clear_error_str ini) d.
Proof.
  unfold sir__clear_error_str, add_error_writes.
  rewrite errors_enabled_with_error_writes.
  destruct (sir__errors_enabled ini); reflexivity.
Qed.

Lemma get_section_loop_add_writes (ini : SirIni) (d : Z) (name : list ascii)
      (i : Z) (count : nat) :
  get_section_loop (add_error_writes ini d) name i count = get_section_loop ini name i count.
Proof.
  revert i. induction count as [|count IH]; intros i; cbn [get_section_loop]; [reflexivity|].
  cbn [add_error_writes with_error_writes section_names options data].
  destruct (aget (section_names ini) i) as [p| |]; cbn [bind]; try reflexivity.
  rewrite IH. reflexivity.
Qed.

Lemma find_key_add_writes (ini : SirIni) (d : Z) (key : list ascii) (j : Z) (count : nat) :
  find_key (add_error_writes ini d) key j count = find_key ini key j count.
Proof.
  revert j. induction count as [|count IH]; intros j; cbn [find_key]; [reflexivity|].
  cbn [add_error_writes with_error_writes key_names options data].
  destruct (aget (key_names ini) j) as [p| |]; cbn [bind]; try reflexivity.
  rewrite IH. reflexivity.
Qed.

Lemma find_key_in_ranges_add_writes (ini : SirIni) (d : Z) (key : list ascii)
      (rs : list SirSectionRange) :
  find_key_in_ranges (add_error_writes ini d) key rs = find_key_in_ranges ini key rs.
Proof.
  induction rs as [|r rs IH]; cbn [find_key_in_ranges]; [reflexivity|].
  rewrite find_key_add_writes.
  destruct (find_key ini key (start r) (Z.to_nat (end_ r - start r))) as [[j|]| |];
    cbn [bind]; try reflexivity.
  apply IH.
Qed.

Lemma global_scan_add_writes (ini : SirIni) (d : Z) (key : list ascii)
      (i : Z) (count : nat) (v : cptr) :
  global_scan (add_error_writes ini d) key i count v = global_scan ini key i count v.
Proof.
  revert i v. induction count as [|count IH]; intros i v; cbn [global_scan]; [reflexivity|].
  cbn [add_error_writes with_error_writes key_names key_values options data].
  destruct (aget (key_names ini) i) as [p| |]; cbn [bind]; try reflexivity.
  destruct (negb (is_null p) &&
            sir__str_equal (options ini) (string_at (data ini) p) (Some key)).
  - destruct (aget (key_values ini) i) as [w| |]; cbn [bind]; try reflexivity.
    destruct (has_option (options ini) SIR_OPTION_OVERRIDE_DUPLICATE_KEYS);
      [apply IH|reflexivity].
  - apply IH.
Qed.

Lemma sir__get_section_add_writes (ini : SirIni) (d : Z)
      (section_name : option (list ascii)) :
  sir__get_section (add_error_writes ini d) section_name =
  shifted d (sir__get_section ini section_name).
Proof.
  unfold sir__get_section. destruct section_name as [name|].
  - rewrite get_section_loop_add_writes.
    change (section_count (add_error_writes ini d)) with (section_count ini).
    destruct (get_section_loop ini name 0 (Z.to_nat (section_count ini))) as [[i|]| |];
      cbn [bind shifted]; try reflexivity.
    + rewrite clear_error_add_writes. reflexivity.
    + rewrite set_error_add_writes. reflexivity.
  - cbn [shifted]. rewrite set_error_add_writes. reflexivity.
Qed.

(** The count of the writes plays no part in a lookup. *)
Lemma sir_section_str_add_writes (ini : SirIni) (d : Z)
      (section_name key_name : option (list ascii)) :
  sir_section_str (add_error_writes ini d) section_name key_name =
  shifted d (sir_section_str ini section_name key_name).
Proof.
  unfold sir_section_str. destruct key_name as [key|].
  2:{ cbn [shifted]. rewrite set_error_add_writes. reflexivity. }
  assert (Hleaf : forall (i1 : SirIni) (section : option Z),
    (match section with
     | Some i =>
         do s <- aget (sections (add_error_writes i1 d)) i;
         do found <- find_key_in_ranges (add_error_writes i1 d) key (ranges s);
         match found with
         | Some j =>
             do v <- aget (key_values (add_error_writes i1 d)) j;
             Ok (v, sir__clear_error_str (add_error_writes i1 d))
         | None =>
             Ok (NullPtr, sir__set_error (add_error_writes i1 d)
                            "key '%' not found in section '%'" (Some key) section_name)
         end
     | None =>
         do r <- global_scan (add_error_writes i1 d) key 0
                             (Z.to_nat (key_count (add_error_writes i1 d))) NullPtr;
         match r with
         | inl v => Ok (v, sir__clear_error_str (add_error_writes i1 d))
         | inr v =>
             if negb (is_null v) then Ok (v, sir__clear_error_str (add_error_writes i1 d))
             else Ok (NullPtr, sir__set_error (add_error_writes i1 d)
                                 "key '%' not found" (Some key) None)
         end
     end) =
    shifted d
    (match section with
     | Some i =>
         do s <- aget (sections i1) i;
         do found <- find_key_in_ranges i1 key (ranges s);
         match found with
         | Some j =>
             do v <- aget (key_values i1) j;
             Ok (v, sir__clear_error_str i1)
         | None =>
             Ok (NullPtr, sir__set_error i1
                            "key '%' not found in section '%'" (Some key) section_name)
         end
     | None =>
         do r <- global_scan i1 key 0 (Z.to_nat (key_count i1)) NullPtr;
         match r with
         | inl v => Ok (v, sir__clear_error_str i1)
         | inr v =>
             if negb (is_null v) then Ok (v, sir__clear_error_str i1)
             else Ok (NullPtr, sir__set_error i1 "key '%' not found" (Some key) None)
         end
     end)).
  { intros i1 [i|].
    - change (sections (add_error_writes i1 d)) with (sections i1).
      change (key_values (add_error_writes i1 d)) with (key_values i1).
      destruct (aget (sections i1) i) as [s0| |]; cbn [bind shifted]; try reflexivity.
      rewrite find_key_in_ranges_add_writes.
      destruct (find_key_in_ranges i1 key (ranges s0)) as [[j|]| |];
        cbn [bind shifted]; try reflexivity.
      + destruct (aget (key_values i1) j) as [w| |]; cbn [bind shifted]; try reflexivity.
        rewrite clear_error_add_writes. reflexivity.
      + rewrite set_error_add_writes. reflexivity.
    - change (key_count (add_error_writes i1 d)) with (key_count i1).
      rewrite global_scan_add_writes.
      destruct (global_scan i1 key 0 (Z.to_nat (key_count i1)) NullPtr) as [[w|w]| |];
        cbn [bind shifted]; try reflexivity.
      + rewrite clear_error_add_writes. reflexivity.
      + destruct (negb (is_null w)); cbn [shifted];
          rewrite ?clear_error_add_writes, ?set_error_add_writes; reflexivity. }
  destruct section_name as [name|].
  - rewrite sir__get_section_add_writes.
    destruct (sir__get_section ini (Some name)) as [[section i1]| |];
      cbn [bind shifted]; try reflexivity.
    rewrite has_error_add_writes.
    destruct (sir_has_error i1); [reflexivity|]. apply Hleaf.
  - cbn [bind]. apply (Hleaf ini None).
Qed.

(** A lookup writes the slot once when it fails and never when it
    succeeds. *)
Lemma sir_section_str_writes (ini ini' : SirIni)
      (section_name key_name : option (list ascii)) (v : cptr) :
  sir__errors_enabled ini = true -> 1 < error_size ini ->
  sir_section_str ini section_name key_name = Ok (v, ini') ->
  error_writes ini' = error_writes ini + (if sir_has_error ini' then 1 else 0).
Proof.
  intros He Hs.
  assert (Hset : forall i f a b, slot_only ini i -> error_writes i = error_writes ini ->
             plain_start f = true ->
             error_writes (sir__set_error i f a b) =
             error_writes ini + (if sir_has_error (sir__set_error i f a b) then 1 else 0)).
  { intros i f a b Hso Hw Hf.
    assert (He1 : sir__errors_enabled i = true)
      by (rewrite (slot_only_enabled _ _ Hso); exact He).
    assert (Hs1 : 1 < error_size i)
      by (rewrite (slot_only_error_size _ _ Hso); exact Hs).
    rewrite has_error_set by assumption. rewrite error_writes_set by assumption. lia. }
  assert (Hclear : forall i, error_writes i = error_writes ini ->
             error_writes (sir__clear_error_str i) =
             error_writes ini + (if sir_has_error (sir__clear_error_str i) then 1 else 0)).
  { intros i Hw. rewrite has_error_clear, error_writes_clear. lia. }
  unfold sir_section_str. destruct key_name as [key|].
  2:{ intros H. injection H as _ <-. apply Hset; auto using slot_only_refl. }
  intros H. apply bind_ok in H. destruct H as ((section & ini1) & H1 & H).
  destruct section_name as [name|].
  - unfold sir__get_section in H1.
    apply bind_ok in H1. destruct H1 as ([i|] & _ & H1); injection H1 as <- <-.
    + rewrite has_error_clear in H.
      apply bind_ok in H. destruct H as (s0 & _ & H).
      apply bind_ok in H. destruct H as ([j|] & _ & H).
      * apply bind_ok in H. destruct H as (w & _ & H). injection H as _ <-.
        apply Hclear, error_writes_clear.
      * injection H as _ <-.
        apply Hset; [apply slot_only_clear|apply error_writes_clear|reflexivity].
    + rewrite has_error_set in H by auto. injection H as _ <-.
      apply Hset; auto using slot_only_refl.
  - injection H1 as <- <-.
    apply bind_ok in H. destruct H as ([w|w] & _ & H).
    + injection H as _ <-. apply Hclear. reflexivity.
    + destruct (negb (is_null w)); injection H as _ <-.
      * apply Hclear. reflexivity.
      * apply Hset; auto using slot_only_refl.
Qed.

(** A successful lookup gives the same result when it is repeated on the
    document it returned. *)
Lemma sir_section_str_success_shape (ini ini1 : SirIni)
      (section_name key_name : option (list ascii)) (v : cptr) :
  sir__errors_enabled ini = true -> 1 < error_size ini ->
  sir_section_str ini section_name key_name = Ok (v, ini1) ->
  sir_has_error ini1 = false ->
  ini1 = with_error ini (error ini1).
Proof.
  intros He Hs Hstr Herr.
  pose proof (sir_section_str_shape _ _ _ _ _ Hstr) as Hso.
  pose proof (sir_section_str_writes _ _ _ _ _ He Hs Hstr) as Hw.
  rewrite Herr in Hw. unfold slot_only in Hso. rewrite Hso at 1.
  replace (error_writes ini1) with (error_writes ini) by lia.
  destruct ini; reflexivity.
Qed.

(** When the numeric conversion of the value fails, [sir_section_long]
    returns 0 with the slot set: one write. *)
Lemma sir_section_long_failure (ini ini1 : SirIni)
      (section_name key_name : option (list ascii)) (v : cptr) (s0 : list ascii) :
  sir__errors_enabled ini = true -> 1 < error_size ini ->
  sir_section_str ini section_name key_name = Ok (v, ini1) ->
  sir_has_error ini1 = false ->
  string_at (data ini1) v = Some s0 ->
  erange (strtol s0) = true \/ endptr_is_str (strtol s0) = true ->
  exists m, sir_section_long ini section_name key_name =
            Ok (0, add_error_writes (with_error ini m) 1) /\
            sir_has_error (with_error ini m) = true.
Proof.
  intros He Hs Hstr Herr Hv Hfail.
  pose proof (sir_section_str_success_shape _ _ _ _ _ He Hs Hstr Herr) as Hshape.
  assert (He1 : sir__errors_enabled ini1 = true) by (rewrite Hshape; exact He).
  assert (Hs1 : 1 < error_size ini1) by (rewrite Hshape; exact Hs).
  assert (Hset : forall f, plain_start f = true ->
             exists m, sir__set_error ini1 f (Some s0) None =
                       add_error_writes (with_error ini m) 1 /\
                       sir_has_error (with_error ini m) = true).
  { intros f Hf. exists (error (sir__set_error ini1 f (Some s0) None)).
    assert (E : sir__set_error ini1 f (Some s0) None =
                add_error_writes
                  (with_error ini (error (sir__set_error ini1 f (Some s0) None))) 1).
    { unfold sir__set_error at 1. rewrite He1. cbn [negb].
      rewrite Hshape at 1 3. unfold sir__set_error. rewrite He1. reflexivity. }
    split; [exact E|].
    rewrite <- (has_error_add_writes _ 1), <- E. apply has_error_set; assumption. }
  unfold sir_section_long. rewrite Hstr. cbn [bind]. rewrite Herr, Hv.
  destruct (erange (strtol s0)) eqn:Er.
  - destruct (converted (strtol s0) =? LONG_MAX);
      [|destruct (converted (strtol s0) =? LONG_MIN)];
      match goal with
      | |- context [sir__set_error ini1 ?f _ _] =>
          destruct (Hset f eq_refl) as (m & -> & Hm); exists m; auto
      end.
  - destruct Hfail as [Hf|Hf]; [discriminate|]. rewrite Hf.
    match goal with
    | |- context [sir__set_error ini1 ?f _ _] =>
        destruct (Hset f eq_refl) as (m & -> & Hm); exists m; auto
    end.
Qed.

(** With error tracking enabled, a value that holds no number is matched
    against the two literals after its leading whitespace; the failed
    numeric conversion has written the slot once by then. *)
Lemma sir_section_bool_non_numeric (ini ini1 : SirIni)
      (section_name key_name : option (list ascii)) (v : cptr) (s0 : list ascii) :
  sir__errors_enabled ini = true -> 1 < error_size ini ->
  sir_section_str ini section_name key_name = Ok (v, ini1) ->
  sir_has_error ini1 = false ->
  string_at (data ini1) v = Some s0 ->
  erange (strtol s0) = true \/ endptr_is_str (strtol s0) = true ->
  sir_section_bool ini section_name key_name =
  match match_bool_literal (after_whitespace s0) with
  | Some b => Ok (b, add_error_writes ini1 1)
  | None => Ok (-1, sir__set_error (add_error_writes ini1 1) "could not parse '%' as a bool"
                                   (Some (after_whitespace s0)) None)
  end.
Proof.
  intros He Hs Hstr Herr Hv Hfail.
  destruct (sir_section_long_failure _ _ _ _ _ _ He Hs Hstr Herr Hv Hfail)
    as (m & Hlong & Hm).
  unfold sir_section_bool. rewrite Hlong. cbn [bind].
  rewrite has_error_add_writes, Hm. cbn [negb].
  rewrite sir_section_str_add_writes.
  rewrite sir_section_str_with_error by assumption.
  rewrite Hstr. cbn [shifted bind]. rewrite has_error_add_writes, Herr.
  change (data (add_error_writes ini1 1)) with (data ini1). rewrite Hv. reflexivity.
Qed.

(** A value that holds neither a number nor one of the two literals makes
    [sir_section_bool] return -1 with the slot set. *)
Lemma sir_section_bool_neither (ini ini1 : SirIni)
      (section_name key_name : option (list ascii)) (v : cptr) (s0 : list ascii) :
  sir__errors_enabled ini = true -> 1 < error_size ini ->
  sir_section_str ini section_name key_name = Ok (v, ini1) ->
  sir_has_error ini1 = false ->
  string_at (data ini1) v = Some s0 ->
  erange (strtol s0) = true \/ endptr_is_str (strtol s0) = true ->
  match_bool_literal (after_whitespace s0) = None ->
  exists ini', sir_section_bool ini section_name key_name = Ok (-1, ini') /\
               sir_has_error ini' = true.
Proof.
  intros He Hs Hstr Herr Hv Hfail Hnone.
  rewrite (sir_section_bool_non_numeric _ _ _ _ _ _ He Hs Hstr Herr Hv Hfail), Hnone.
  eexists. split; [reflexivity|].
  pose proof (sir_section_str_shape _ _ _ _ _ Hstr) as Hso.
  apply has_error_set; [| |reflexivity].
  - change (sir__errors_enabled (add_error_writes ini1 1)) with (sir__errors_enabled ini1).
    rewrite (slot_only_enabled _ _ Hso). exact He.
  - change (error_size (add_error_writes ini1 1)) with (error_size ini1).
    rewrite (slot_only_error_size _ _ Hso). exact Hs.
Qed.

Lemma sir__str_equal_spec (opts : SirOptions) (s1 s2 : list ascii) :
  sir__str_equal opts (Some s1) (Some s2) = true <->
  if has_option opts SIR_OPTION_DISABLE_CASE_SENSITIVITY
  then map sir__to_lowercase (c_string s1) = map sir__to_lowercase (c_string s2)
  else c_string s1 = c_string s2.
Proof.
  unfold sir__str_equal, sir__str_equal_case. rewrite str_equal_loop_spec.
  destruct (has_option opts SIR_OPTION_DISABLE_CASE_SENSITIVITY).
  - reflexivity.
  - rewrite !map_id_folded. reflexivity.
Qed.



(** ** Splitting a value at its commas *)

Lemma c_string_nul_free (s : list ascii) : nul_free (c_string s).
Proof.
  induction s as [|c t IH]; cbn [c_string]; [intros x []|].
  destruct (is_nul c) eqn:E; [intros x []|].
  intros x [<-|H]; [apply is_nul_false; exact E|apply IH; exact H].
Qed.

Lemma nul_free_c_string (s : list ascii) : nul_free s -> c_string s = s.
Proof.
  induction s as [|c t IH]; intros H; cbn [c_string]; [reflexivity|].
  assert (is_nul c = false) as -> by (apply is_nul_false, H; left; reflexivity).
  rewrite IH; [reflexivity|]. intros x Hx. apply H. right. exact Hx.
Qed.

Lemma nul_free_app_l (a b : list ascii) : nul_free (a ++ b) -> nul_free a.
Proof. intros H x Hx. apply H, in_or_app. auto. Qed.

Lemma c_string_store (t : list ascii) (n : nat) :
  (n <= length (c_string t))%nat ->
  c_string (store t (Z.of_nat n) NUL) = firstn n (c_string t).
Proof.
  revert n. induction t as [|c t IH]; intros n Hn.
  - rewrite store_nil. cbn. rewrite firstn_nil. reflexivity.
  - destruct n as [|n].
    + rewrite store_zero. reflexivity.
    + replace (Z.of_nat (S n)) with (1 + Z.of_nat n) by lia.
      rewrite store_cons by lia. cbn [c_string] in *.
      destruct (is_nul c); [cbn in Hn; lia|].
      cbn [firstn]. rewrite IH; [reflexivity|]. cbn in Hn. lia.
Qed.

Lemma c_string_skipn (t : list ascii) (k : nat) :
  (k <= length (c_string t))%nat -> c_string (skipn k t) = skipn k (c_string t).
Proof.
  revert k. induction t as [|c t IH]; intros k Hk.
  - rewrite skipn_nil. cbn. rewrite skipn_nil. reflexivity.
  - destruct k as [|k]; [reflexivity|].
    cbn [c_string] in *. destruct (is_nul c); [cbn in Hk; lia|].
    cbn [skipn]. apply IH. cbn in Hk. lia.
Qed.

Lemma skip_whitespace_c_string (t : list ascii) :
  skip_whitespace (c_string t) = skip_whitespace t.
Proof.
  induction t as [|c t IH]; cbn [c_string skip_whitespace]; [reflexivity|].
  destruct (is_nul c) eqn:E; cbn [negb andb skip_whitespace]; [reflexivity|].
  rewrite E, IH. reflexivity.
Qed.

Lemma skip_whitespace_le (t : list ascii) :
  skip_whitespace t <= Z.of_nat (length (c_string t)).
Proof.
  induction t as [|c t IH]; cbn [c_string skip_whitespace length]; [lia|].
  destruct (is_nul c); cbn [negb andb length]; [lia|].
  destruct (le_space c); lia.
Qed.

Lemma skip_whitespace_app (name rest : list ascii) (c : ascii) :
  nul_free name -> le_space c = false ->
  skip_whitespace (name ++ c :: rest) = skip_whitespace name.
Proof.
  intros Hn Hc. induction name as [|x name IH]; cbn [app skip_whitespace].
  - rewrite Hc, andb_false_r. reflexivity.
  - rewrite IH; [reflexivity|]. intros y Hy. apply Hn. right. exact Hy.
Qed.

Lemma count_commas_c_string (t : list ascii) : count_commas (c_string t) = count_commas t.
Proof.
  induction t as [|c t IH]; cbn [c_string count_commas]; [reflexivity|].
  destruct (is_nul c) eqn:E; cbn [count_commas]; [reflexivity|].
  rewrite E, IH. reflexivity.
Qed.

Lemma count_commas_none (s : list ascii) :
  nul_free s -> ~ In ","%char s -> count_commas s = 0.
Proof.
  induction s as [|c t IH]; intros Hn Hc; cbn [count_commas]; [reflexivity|].
  assert (is_nul c = false) as -> by (apply is_nul_false, Hn; left; reflexivity).
  destruct (Ascii.eqb c ","%char) eqn:E.
  - apply Ascii.eqb_eq in E. exfalso. apply Hc. left. exact E.
  - rewrite IH; [reflexivity| |].
    + intros y Hy. apply Hn. right. exact Hy.
    + intros Hy. apply Hc. right. exact Hy.
Qed.

Lemma count_commas_app (name rest : list ascii) :
  nul_free name -> ~ In ","%char name ->
  count_commas (name ++ ","%char :: rest) = 1 + count_commas rest.
Proof.
  intros Hn Hc. induction name as [|c t IH]; cbn [app count_commas].
  - reflexivity.
  - assert (is_nul c = false) as -> by (apply is_nul_false, Hn; left; reflexivity).
    destruct (Ascii.eqb c ","%char) eqn:E.
    + apply Ascii.eqb_eq in E. exfalso. apply Hc. left. exact E.
    + rewrite IH; [lia| |].
      * intros y Hy. apply Hn. right. exact Hy.
      * intros Hy. apply Hc. right. exact Hy.
Qed.

Lemma count_commas_nonneg (s : list ascii) : 0 <= count_commas s.
Proof.
  induction s as [|c t IH]; cbn [count_commas]; [lia|].
  destruct (is_nul c); [lia|]. destruct (Ascii.eqb c ","%char); lia.
Qed.

Lemma comma_fields_none (s : list ascii) :
  ~ In ","%char s -> comma_fields s = [s].
Proof.
  induction s as [|c t IH]; intros Hc; cbn [comma_fields]; [reflexivity|].
  destruct (Ascii.eqb c ","%char) eqn:E.
  - apply Ascii.eqb_eq in E. exfalso. apply Hc. left. exact E.
  - rewrite IH; [reflexivity|]. intros Hy. apply Hc. right. exact Hy.
Qed.

Lemma comma_fields_app (name rest : list ascii) :
  ~ In ","%char name ->
  comma_fields (name ++ ","%char :: rest) = name :: comma_fields rest.
Proof.
  intros Hc. induction name as [|c t IH]; cbn [app comma_fields].
  - reflexivity.
  - destruct (Ascii.eqb c ","%char) eqn:E.
    + apply Ascii.eqb_eq in E. exfalso. apply Hc. left. exact E.
    + rewrite IH; [reflexivity|]. intros Hy. apply Hc. right. exact Hy.
Qed.

Lemma comma_fields_length (s : list ascii) :
  nul_free s -> Z.of_nat (length (comma_fields s)) = 1 + count_commas s.
Proof.
  induction s as [|c t IH]; intros Hn; cbn [comma_fields count_commas]; [reflexivity|].
  assert (is_nul c = false) as -> by (apply is_nul_false, Hn; left; reflexivity).
  assert (Ht : nul_free t) by (intros y Hy; apply Hn; right; exact Hy).
  specialize (IH Ht). pose proof (count_commas_nonneg t) as Hc.
  destruct (Ascii.eqb c ","%char).
  - cbn [length]. lia.
  - destruct (comma_fields t) as [|f fs]; cbn [length] in *; lia.
Qed.

Lemma trim_back_spec (s : list ascii) (q : nat) :
  (exists k, (k <= q)%nat /\ le_space (nth k s NUL) = false) ->
  exists i, trim_back s q = Some i /\ (i <= q)%nat /\
            le_space (nth i s NUL) = false /\
            forall k, (i < k <= q)%nat -> le_space (nth k s NUL) = true.
Proof.
  induction q as [|q IH]; intros (k & Hk & Hnk); cbn [trim_back].
  - assert (k = 0%nat) by lia. subst k. rewrite Hnk.
    exists 0%nat. repeat split; auto. intros j Hj. lia.
  - destruct (le_space (nth (S q) s NUL)) eqn:E.
    + destruct IH as (i & Hi & Hle & Hn & Hall).
      { exists k. split; [|exact Hnk].
        destruct (Nat.eq_dec k (S q)) as [->|]; [congruence|lia]. }
      exists i. repeat split; auto.
      intros j Hj. destruct (Nat.eq_dec j (S q)) as [->|]; [exact E|].
      apply Hall. lia.
    + exists (S q). repeat split; auto. intros j Hj. lia.
Qed.

Lemma trimmed_right_all_space (s : list ascii) :
  (forall k, (k < length s)%nat -> le_space (nth k s NUL) = true) ->
  trimmed_right s = [].
Proof.
  induction s as [|c t IH]; intros H; cbn [trimmed_right]; [reflexivity|].
  rewrite IH.
  - assert (H0 : le_space c = true) by (apply (H 0%nat); cbn; lia).
    rewrite H0. reflexivity.
  - intros k Hk. apply (H (S k)). cbn. lia.
Qed.

Lemma trimmed_right_firstn (s : list ascii) (i : nat) :
  (i < length s)%nat -> le_space (nth i s NUL) = false ->
  (forall k, (i < k < length s)%nat -> le_space (nth k s NUL) = true) ->
  trimmed_right s = firstn (S i) s.
Proof.
  revert i. induction s as [|c t IH]; intros i Hi Hn Hall; [cbn in Hi; lia|].
  cbn [trimmed_right]. destruct i as [|i].
  - rewrite trimmed_right_all_space.
    + cbn in Hn. rewrite Hn. reflexivity.
    + intros k Hk. apply (Hall (S k)). cbn. lia.
  - rewrite (IH i).
    + destruct t as [|x t]; [cbn in Hi; lia|]. reflexivity.
    + cbn in Hi. lia.
    + exact Hn.
    + intros k Hk. apply (Hall (S k)). cbn. lia.
Qed.

(** [sir__trim_whitespace] on a fresh copy of a value that starts with a
    character above ' ': the string left is the value without its trailing
    whitespace. *)
Lemma sir__trim_whitespace_value (c : ascii) (t : list ascii) :
  nul_free (c :: t) -> le_space c = false ->
  exists buf, sir__trim_whitespace (c :: t) 0 = Ok (buf, 0) /\
              c_string buf = trimmed_right (c :: t) /\
              trimmed_right (c :: t) <> [].
Proof.
  intros Hn Hc. unfold sir__trim_whitespace, sir__skip_whitespace.
  change (tail_at (c :: t) 0) with (c :: t). cbn [skip_whitespace].
  rewrite Hc, andb_false_r. change (0 + 0) with 0.
  change (tail_at (c :: t) 0) with (c :: t).
  rewrite strlen_c_string, nul_free_c_string by assumption.
  destruct (Z.ltb_spec (0 + Z.of_nat (length (c :: t)) - 1) 0) as [Hlt|Hge];
    [cbn [length] in Hlt; lia|].
  destruct (trim_back_spec (c :: t) (Z.to_nat (0 + Z.of_nat (length (c :: t)) - 1)))
    as (i & Hi & Hle & Hni & Hall).
  { exists 0%nat. split; [lia|exact Hc]. }
  rewrite Hi. eexists. split; [reflexivity|].
  assert (Hlen : (i < length (c :: t))%nat) by (cbn [length] in *; lia).
  assert (Htr : trimmed_right (c :: t) = firstn (S i) (c :: t)).
  { apply trimmed_right_firstn; auto. intros k Hk. apply Hall. cbn [length] in *. lia. }
  split.
  - replace (Z.of_nat i + 1) with (Z.of_nat (S i)) by lia.
    rewrite c_string_store; rewrite nul_free_c_string by assumption; [auto|lia].
  - rewrite Htr. discriminate.
Qed.

Lemma firstn_store_nat (p k : nat) (buf : list ascii) (c : ascii) :
  firstn p (store buf (Z.of_nat (p + k)) c) = firstn p buf.
Proof.
  revert buf. induction p as [|p IH]; intros buf; [reflexivity|].
  destruct buf as [|x t]; [rewrite store_nil; reflexivity|].
  replace (Z.of_nat (S p + k)) with (1 + Z.of_nat (p + k)) by lia.
  rewrite store_cons by lia. cbn [firstn]. f_equal. apply IH.
Qed.

Lemma firstn_store (buf : list ascii) (p q : Z) (c : ascii) :
  0 <= p <= q -> firstn (Z.to_nat p) (store buf q c) = firstn (Z.to_nat p) buf.
Proof.
  intros H.
  remember (Z.to_nat p) as pn eqn:Hpn.
  assert (Hq : q = Z.of_nat (pn + (Z.to_nat q - pn))) by lia.
  rewrite Hq. apply firstn_store_nat.
Qed.

Lemma skipn_store_after (q k : nat) (buf : list ascii) (c : ascii) :
  skipn (S q + k) (store buf (Z.of_nat q) c) = skipn (S q + k) buf.
Proof.
  revert buf. induction q as [|q IH]; intros buf.
  - destruct buf as [|x t]; [rewrite store_nil; reflexivity|].
    change (Z.of_nat 0) with 0. rewrite store_zero. reflexivity.
  - destruct buf as [|x t]; [rewrite store_nil; reflexivity|].
    replace (Z.of_nat (S q)) with (1 + Z.of_nat q) by lia.
    rewrite store_cons by lia. cbn [Nat.add skipn]. apply (IH t).
Qed.

Lemma tail_at_store_after (buf : list ascii) (q r : Z) (c : ascii) :
  0 <= q < r -> tail_at (store buf q c) r = tail_at buf r.
Proof.
  intros H. unfold tail_at.
  remember (Z.to_nat q) as qn eqn:Hqn.
  assert (Hq : q = Z.of_nat qn) by lia.
  replace (Z.to_nat r) with (S qn + (Z.to_nat r - qn - 1))%nat by lia.
  rewrite Hq. apply skipn_store_after.
Qed.

Lemma nth_error_store_same (buf : list ascii) (q : Z) (c : ascii) :
  0 <= q < Z.of_nat (length buf) ->
  nth_error (store buf q c) (Z.to_nat q) = Some c.
Proof.
  intros H. unfold store.
  rewrite nth_error_app2 by (rewrite length_firstn; lia).
  rewrite length_firstn, Nat.min_l by lia.
  replace (Z.to_nat q - Z.to_nat q)%nat with 0%nat by lia.
  destruct (skipn (Z.to_nat q) buf) eqn:E; [|reflexivity].
  assert (length (skipn (Z.to_nat q) buf) = 0%nat) by (rewrite E; reflexivity).
  rewrite length_skipn in *. lia.
Qed.

Lemma c_string_prefix (a b : list ascii) (n : nat) :
  firstn (S n) a = firstn (S n) b -> nth_error b n = Some NUL ->
  c_string a = c_string b.
Proof.
  revert a b. induction n as [|n IH]; intros a b Hf Hn.
  - destruct b as [|y b]; [discriminate|]. cbn in Hn. injection Hn as ->.
    destruct a as [|x a]; [discriminate|]. cbn in Hf. injection Hf as ->. reflexivity.
  - destruct b as [|y b]; [discriminate|]. cbn [nth_error] in Hn.
    destruct a as [|x a]; [discriminate|].
    cbn [firstn] in Hf. injection Hf as -> Hf.
    cbn [c_string]. destruct (is_nul y); [reflexivity|].
    f_equal. apply IH; assumption.
Qed.

Lemma c_string_tail_prefix (a b : list ascii) (p n : Z) :
  0 <= p -> 0 <= n ->
  firstn (Z.to_nat (p + n + 1)) a = firstn (Z.to_nat (p + n + 1)) b ->
  nth_error b (Z.to_nat (p + n)) = Some NUL ->
  c_string (tail_at a p) = c_string (tail_at b p).
Proof.
  intros Hp Hn Hf Hnul. unfold tail_at.
  apply (c_string_prefix _ _ (Z.to_nat n)).
  - rewrite !firstn_skipn_comm.
    replace (Z.to_nat p + S (Z.to_nat n))%nat with (Z.to_nat (p + n + 1)) by lia.
    rewrite Hf. reflexivity.
  - rewrite nth_error_skipn.
    replace (Z.to_nat p + Z.to_nat n)%nat with (Z.to_nat (p + n)) by lia.
    exact Hnul.
Qed.

Lemma read_field (buf : list ascii) (p : Z) (name : list ascii) :
  0 <= p -> c_string (tail_at buf p) = name ->
  c_string (tail_at buf (p + skip_whitespace name)) = after_whitespace name.
Proof.
  intros Hp Hs.
  pose proof (skip_whitespace_nonneg name) as Hk.
  pose proof (skip_whitespace_le name) as Hle.
  assert (Hid : c_string name = name) by (rewrite <- Hs; apply c_string_idempotent).
  rewrite Hid in Hle.
  rewrite tail_at_add by assumption. unfold tail_at at 1.
  rewrite c_string_skipn by (rewrite Hs; lia).
  rewrite Hs. reflexivity.
Qed.

Lemma le_space_comma : le_space ","%char = false.
Proof. reflexivity. Qed.

Lemma comma_not_nul : ","%char <> NUL.
Proof. discriminate. Qed.

(** The splitting loop: started at offset [p] with one iteration per field
    of the string there, it yields the fields between the commas, each
    without its leading whitespace. *)
Lemma csv_loop_spec (count : nat) :
  forall (buf : list ascii) (p : Z) (fields : list Z) (buf2 : list ascii),
    0 <= p ->
    Z.of_nat count = 1 + count_commas (tail_at buf p) ->
    csv_loop count buf p p = (fields, buf2) ->
    map (fun q => c_string (tail_at buf2 q)) fields =
    map after_whitespace (comma_fields (c_string (tail_at buf p))) /\
    length buf2 = length buf /\
    firstn (Z.to_nat p) buf2 = firstn (Z.to_nat p) buf.
Proof.
  induction count as [|count IH]; intros buf p fields buf2 Hp Hcount Hloop.
  - pose proof (count_commas_nonneg (tail_at buf p)). lia.
  - cbn [csv_loop] in Hloop. unfold sir__skip_whitespace, sir__skip_to_char in Hloop.
    set (t := tail_at buf p) in *.
    pose proof (skip_to_char_nonneg t ","%char) as He.
    pose proof (skip_to_char_split t ","%char comma_not_nul) as Hsplit.
    set (e := skip_to_char t ","%char) in *.
    destruct (csv_loop count (store buf (p + e) NUL) (p + e + 1) (p + e + 1))
      as [fields' buf'] eqn:Hrec.
    injection Hloop as <- <-.
    pose proof (skip_whitespace_c_string t) as Hws.
    pose proof (c_string_nul_free t) as Hnf.
    destruct Hsplit
      as [(Hl & Hin & Hlen) | (name & rest & Hs & Hin & Hlen & Hl & Hst)].
    + (* the last field *)
      assert (Hc0 : count = 0%nat).
      { rewrite <- count_commas_c_string, count_commas_none in Hcount by assumption. lia. }
      subst count. cbn [csv_loop] in Hrec. injection Hrec as <- <-.
      rewrite comma_fields_none by assumption. cbn [map].
      split; [|split].
      * f_equal. rewrite <- Hws. apply read_field; [assumption|].
        rewrite tail_at_store by assumption. fold t.
        rewrite Hlen, c_string_store by lia. apply firstn_all.
      * apply store_length.
      * apply firstn_store. lia.
    + (* a field ended by a comma *)
      assert (Hname : nul_free name) by (rewrite Hs in Hnf; eapply nul_free_app_l; eauto).
      assert (Helt : e < Z.of_nat (length t)).
      { destruct (Z.ltb_spec e (Z.of_nat (length t))) as [|Hge]; [assumption|].
        exfalso. unfold load in Hl. rewrite nth_overflow in Hl by lia. discriminate. }
      assert (Hbuf : p + e < Z.of_nat (length buf)).
      { unfold t, tail_at in Helt. rewrite length_skipn in Helt. lia. }
      assert (Hrest : c_string (tail_at buf (p + e + 1)) = rest).
      { replace (p + e + 1) with (p + (e + 1)) by lia.
        rewrite tail_at_add by lia. fold t. unfold tail_at.
        rewrite c_string_skipn by (rewrite Hs, length_app; cbn [length]; lia).
        rewrite Hs, Hlen.
        replace (Z.to_nat (Z.of_nat (length name) + 1)) with (length name + 1)%nat by lia.
        rewrite skipn_app, skipn_all2 by lia.
        replace (length name + 1 - length name)%nat with 1%nat by lia. reflexivity. }
      assert (Htail : tail_at (store buf (p + e) NUL) (p + e + 1) = tail_at buf (p + e + 1))
        by (apply tail_at_store_after; lia).
      destruct (IH (store buf (p + e) NUL) (p + e + 1) fields' buf') as (Hf & Hlen' & Hpre);
        [lia| |assumption|].
      { rewrite Htail, <- count_commas_c_string, Hrest.
        rewrite <- count_commas_c_string, Hs, count_commas_app in Hcount by assumption.
        lia. }
      rewrite Htail, Hrest in Hf.
      rewrite Hs, comma_fields_app by assumption. cbn [map].
      split; [|split].
      * f_equal; [|exact Hf].
        rewrite <- Hws, Hs, skip_whitespace_app by (auto using le_space_comma).
        apply read_field; [assumption|].
        rewrite (c_string_tail_prefix buf' (store buf (p + e) NUL) p e); try assumption.
        -- rewrite tail_at_store by assumption. exact Hst.
        -- apply nth_error_store_same. lia.
      * rewrite Hlen'. apply store_length.
      * assert (Hmin : firstn (Z.to_nat p) (firstn (Z.to_nat (p + e + 1)) buf') =
                       firstn (Z.to_nat p) buf').
        { rewrite firstn_firstn, Nat.min_l by lia. reflexivity. }
        rewrite <- Hmin, Hpre, firstn_firstn, Nat.min_l by lia.
        apply firstn_store. lia.
Qed.

Lemma skip_whitespace_after (s : list ascii) : skip_whitespace (after_whitespace s) = 0.
Proof.
  induction s as [|x s IH]; [reflexivity|].
  destruct (negb (is_nul x) && le_space x) eqn:E.
  - rewrite after_whitespace_cons by assumption. exact IH.
  - rewrite after_whitespace_stop by assumption. cbn [skip_whitespace].
    rewrite E. reflexivity.
Qed.

(** The part of [sir_section_csv] after the lookup, for a value with a
    character above ' '. *)
Lemma csv_split_spec (s0 : list ascii) :
  c_string (after_whitespace s0) <> [] ->
  csv_split s0 =
  Ok (map after_whitespace (comma_fields (trimmed_right (c_string (after_whitespace s0)))),
      1 + count_commas (trimmed_right (c_string (after_whitespace s0)))).
Proof.
  intros Hne. unfold csv_split.
  destruct (c_string (after_whitespace s0)) as [|c t] eqn:Hv; [congruence|].
  assert (Hnf : nul_free (c :: t)) by (rewrite <- Hv; apply c_string_nul_free).
  assert (Hc : le_space c = false).
  { assert (Hk : skip_whitespace (c :: t) = 0).
    { rewrite <- Hv, skip_whitespace_c_string. apply skip_whitespace_after. }
    cbn [skip_whitespace] in Hk.
    assert (Hn : is_nul c = false) by (apply is_nul_false, Hnf; left; reflexivity).
    rewrite Hn in Hk. cbn [negb andb] in Hk.
    destruct (le_space c); [|reflexivity].
    pose proof (skip_whitespace_nonneg t). lia. }
  destruct (sir__trim_whitespace_value c t Hnf Hc) as (buf & Htrim & Hstr & Hnz).
  rewrite Htrim. cbn [bind].
  change (tail_at buf 0) with buf.
  rewrite <- count_commas_c_string, Hstr.
  destruct (csv_loop (Z.to_nat (1 + count_commas (trimmed_right (c :: t)))) buf 0 0)
    as [fields buf2] eqn:Hloop.
  pose proof (count_commas_nonneg (trimmed_right (c :: t))) as Hcc.
  assert (Hn : Z.of_nat (Z.to_nat (1 + count_commas (trimmed_right (c :: t)))) =
               1 + count_commas (tail_at buf 0)).
  { change (tail_at buf 0) with buf. rewrite <- (count_commas_c_string buf), Hstr. lia. }
  destruct (csv_loop_spec _ buf 0 fields buf2 (Z.le_refl 0) Hn Hloop) as (Hf & _ & _).
  change (tail_at buf 0) with buf in Hf. rewrite Hstr in Hf. rewrite Hf. reflexivity.
Qed.

Lemma trimmed_right_In (s : list ascii) (x : ascii) : In x (trimmed_right s) -> In x s.
Proof.
  induction s as [|c t IH]; cbn [trimmed_right]; [auto|].
  destruct (trimmed_right t) as [|y r].
  - destruct (le_space c); [intros []|]. intros [<-|[]]. left. reflexivity.
  - intros [<-|H]; [left; reflexivity|right; apply IH; exact H].
Qed.

Lemma trimmed_right_head (c : ascii) (t : list ascii) :
  trimmed_right (c :: t) <> [] -> exists r, trimmed_right (c :: t) = c :: r.
Proof.
  cbn [trimmed_right]. destruct (trimmed_right t) as [|y r].
  - destruct (le_space c); [congruence|]. eauto.
  - eauto.
Qed.

Lemma count_commas_zero (s : list ascii) :
  nul_free s -> count_commas s = 0 -> ~ In ","%char s.
Proof.
  induction s as [|c t IH]; intros Hn Hc; [intros []|].
  cbn [count_commas] in Hc.
  assert (E : is_nul c = false) by (apply is_nul_false, Hn; left; reflexivity).
  rewrite E in Hc. pose proof (count_commas_nonneg t).
  destruct (Ascii.eqb c ","%char) eqn:Ec; [lia|].
  apply Ascii.eqb_neq in Ec. intros [H'|H']; [congruence|].
  revert H'. apply IH; [|lia]. intros y Hy. apply Hn. right. exact Hy.
Qed.

(** C7, as the code has it.  For a looked-up value that holds a character
    above ' ', [sir_section_csv] returns the fields between the commas of
    the value trimmed at both ends, each field without its leading
    whitespace (trailing whitespace inside a field stays); the size reported
    is the number of fields, one more than the number of commas; a value
    without a comma yields the trimmed value as its only field.  The value
    "a, b ,c" yields "a", "b " and "c". *)
Theorem C7_csv_fields
        (ini ini1 : SirIni) (section_name key_name : option (list ascii))
        (p : cptr) (s0 : list ascii) :
  sir_section_str ini section_name key_name = Ok (p, ini1) ->
  sir_has_error ini1 = false ->
  string_at (data ini1) p = Some s0 ->
  c_string (after_whitespace s0) <> [] ->
  let v := trimmed_right (c_string (after_whitespace s0)) in
  let fields := map after_whitespace (comma_fields v) in
  sir_section_csv ini section_name key_name = Ok (Some (fields, 1 + count_commas v), ini1) /\
  Z.of_nat (length fields) = 1 + count_commas v /\
  (1 <= length fields)%nat /\
  (count_commas v = 0 -> fields = [v]) /\
  csv_split (list_ascii_of_string "a, b ,c") =
  Ok ([list_ascii_of_string "a"; list_ascii_of_string "b "; list_ascii_of_string "c"], 3).
Proof.
  intros Hstr Herr Hp Hne v fields.
  assert (Hnf : nul_free v).
  { intros x Hx. apply trimmed_right_In in Hx. revert x Hx. apply c_string_nul_free. }
  assert (Hlen : Z.of_nat (length fields) = 1 + count_commas v).
  { unfold fields. rewrite length_map. apply comma_fields_length. exact Hnf. }
  pose proof (count_commas_nonneg v) as Hcc.
  split; [|split; [exact Hlen|split; [lia|split; [|reflexivity]]]].
  - unfold sir_section_csv. rewrite Hstr. cbn [bind]. rewrite Herr, Hp.
    rewrite csv_split_spec by assumption. reflexivity.
  - intros Hz. unfold fields.
    rewrite comma_fields_none by (apply count_commas_zero; assumption).
    cbn [map]. f_equal.
    destruct (c_string (after_whitespace s0)) as [|c t] eqn:Hv; [congruence|].
    assert (Hc : negb (is_nul c) && le_space c = false).
    { assert (Hk : skip_whitespace (c :: t) = 0)
        by (rewrite <- Hv, skip_whitespace_c_string; apply skip_whitespace_after).
      cbn [skip_whitespace] in Hk.
      destruct (negb (is_nul c) && le_space c); [|reflexivity].
      pose proof (skip_whitespace_nonneg t). lia. }
    assert (Hnz : trimmed_right (c :: t) <> []).
    { cbn [trimmed_right]. destruct (trimmed_right t).
      - assert (Hn : is_nul c = false).
        { apply is_nul_false. apply (c_string_nul_free (after_whitespace s0)).
          rewrite Hv. left. reflexivity. }
        rewrite Hn in Hc. cbn [negb andb] in Hc. rewrite Hc. discriminate.
      - discriminate. }
    destruct (trimmed_right_head c t Hnz) as (r & Hr).
    unfold v. rewrite Hr. apply after_whitespace_stop. exact Hc.
Qed.

Lemma C7_witness :
  sir_section_csv (parsed (lines ["k = x , y,z "]) SIR_OPTION_NONE) None (arg "k") =
  Ok (Some ([list_ascii_of_string "x "; list_ascii_of_string "y"; list_ascii_of_string "z"],
            3),
      parsed (lines ["k = x , y,z "]) SIR_OPTION_NONE).
Proof.
  assert (Hne : c_string (after_whitespace (list_ascii_of_string "x , y,z")) <> [])
    by discriminate.
  destruct (C7_csv_fields (parsed (lines ["k = x , y,z "]) SIR_OPTION_NONE)
                          (parsed (lines ["k = x , y,z "]) SIR_OPTION_NONE)
                          None (arg "k") (InData 4) (list_ascii_of_string "x , y,z")
                          eq_refl eq_refl eq_refl Hne) as (H & _).
  exact H.
Defined.

(** The field between the two commas of "a, b ,c" keeps its trailing space:
    the fields are not ["a"; "b"; "c"]. *)
Lemma C7_counterexample :
  exists ini,
    sir_load_from_str (lines ["k=a, b ,c"]) SIR_OPTION_NONE = Ok ini /\
    sir_section_csv ini None (arg "k") =
    Ok (Some ([list_ascii_of_string "a"; list_ascii_of_string "b ";
               list_ascii_of_string "c"], 3), ini) /\
    [list_ascii_of_string "a"; list_ascii_of_string "b "; list_ascii_of_string "c"] <>
    [list_ascii_of_string "a"; list_ascii_of_string "b"; list_ascii_of_string "c"].
Proof.
  eexists. split; [vm_compute; reflexivity|].
  split; [vm_compute; reflexivity|discriminate].
Qed.

(** A value without a character above ' ' is outside the property:
    [sir__trim_whitespace] steps back from the terminator of the empty copy
    and reads before it. *)
Lemma sir_section_csv_blank_value :
  exists ini,
    sir_load_from_str (lines ["k="; "j=1"]) SIR_OPTION_NONE = Ok ini /\
    strings_of ini (key_values ini) = [Some EmptyString; Some "1"] /\
    sir_section_csv ini None (arg "k") = Fault.
Proof.
  eexists. split; [vm_compute; reflexivity|].
  split; vm_compute; reflexivity.
Qed.

(** ** Arrays *)

Lemma replace_nth_spec {A : Type} (l l' : list A) (n : nat) (x : A) :
  replace_nth l n x = Some l' ->
  length l' = length l /\ (n < length l)%nat /\
  nth_error l' n = Some x /\
  forall m, m <> n -> nth_error l' m = nth_error l m.
Proof.
  revert l' n. induction l as [|h t IH]; intros l' n H.
  - destruct n; discriminate.
  - destruct n as [|n]; cbn [replace_nth] in H.
    + injection H as <-. cbn [length nth_error]. repeat split; try lia.
      intros [|m] Hm; [congruence|reflexivity].
    + destruct (replace_nth t n x) as [t'|] eqn:E; [|discriminate].
      cbn [option_map] in H. injection H as <-.
      destruct (IH t' n E) as (Hlen & Hn & Hx & Hm).
      cbn [length nth_error]. repeat split; try lia; try assumption.
      intros [|m] Hne; [reflexivity|]. cbn [nth_error]. apply Hm. congruence.
Qed.

Lemma aset_spec {A : Type} (l l' : list A) (i : Z) (x : A) :
  aset l i x = Ok l' ->
  0 <= i < Z.of_nat (length l) /\ length l' = length l /\
  nth_error l' (Z.to_nat i) = Some x /\
  forall m, m <> Z.to_nat i -> nth_error l' m = nth_error l m.
Proof.
  unfold aset. destruct (Z.ltb_spec i 0); [discriminate|].
  destruct (replace_nth l (Z.to_nat i) x) as [l0|] eqn:E; [|discriminate].
  intros H'. injection H' as <-.
  destruct (replace_nth_spec _ _ _ _ E) as (Hlen & Hn & Hx & Hm).
  repeat split; try lia; assumption.
Qed.

Lemma replace_nth_last {A : Type} (rs : list A) (r x : A) :
  replace_nth (rs ++ [r]) (length rs) x = Some (rs ++ [x]).
Proof.
  induction rs as [|h t IH]; cbn [app length replace_nth]; [reflexivity|].
  rewrite IH. reflexivity.
Qed.

Lemma nth_error_last {A : Type} (rs : list A) (r : A) :
  nth_error (rs ++ [r]) (length rs) = Some r.
Proof.
  rewrite nth_error_app2 by lia. replace (length rs - length rs)%nat with 0%nat by lia.
  reflexivity.
Qed.

Lemma Forall_nth_error {A : Type} (P : A -> Prop) (l : list A) :
  Forall P l <-> forall i x, nth_error l i = Some x -> P x.
Proof.
  rewrite Forall_forall. split.
  - intros H i x Hx. apply H. eapply nth_error_In. exact Hx.
  - intros H x Hx. apply In_nth_error in Hx. destruct Hx as [i Hi]. eapply H. exact Hi.
Qed.

(** ** What the loader maintains *)

Lemma closed_range_mono (ki ki' : Z) (r : SirSectionRange) :
  ki <= ki' -> closed_range ki r -> closed_range ki' r.
Proof. unfold closed_range. intros; lia. Qed.

Lemma closed_range_open (ki : Z) (r : SirSectionRange) :
  closed_range ki r -> open_range ki r.
Proof. unfold closed_range, open_range. intros; lia. Qed.

Lemma sections_inv_mono (secs : list SirSection) (prev sidx : nat) (ki ki' : Z) :
  ki <= ki' -> sections_inv secs prev sidx ki -> sections_inv secs prev sidx ki'.
Proof.
  intros Hle H i s Hs. destruct (H i s Hs) as (Ho & Hc & Hf).
  split; [|split; [|exact Hf]].
  - intros E. destruct (Ho E) as (rs & r & Hr & Hrs & Hop).
    exists rs, r. split; [exact Hr|]. split.
    + eapply Forall_impl; [|exact Hrs]. intros a. apply closed_range_mono. exact Hle.
    + unfold open_range in *. lia.
  - intros Hne Hi. eapply Forall_impl; [|apply Hc; assumption].
    intros a. apply closed_range_mono. exact Hle.
Qed.

Lemma close_last_range_closed (secs secs' : list SirSection) (prev sidx : nat) (ki : Z) :
  sections_inv secs prev sidx ki -> (prev <= sidx)%nat ->
  close_last_range secs (Z.of_nat prev) ki = Ok secs' ->
  sections_closed secs' prev sidx ki /\ length secs' = length secs.
Proof.
  intros Hinv Hps H. unfold close_last_range in H.
  apply bind_ok in H. destruct H as (s & Hs & H).
  apply bind_ok in H. destruct H as (r & Hr & H).
  apply bind_ok in H. destruct H as (rs' & Hrs' & H).
  apply aget_nth_error in Hs. destruct Hs as [_ Hs]. rewrite Nat2Z.id in Hs.
  destruct (Hinv prev s Hs) as (Ho & _ & _).
  destruct (Ho eq_refl) as (rs & r0 & Hranges & Hclosed & Hopen).
  assert (Hk : ranges_count s - 1 = Z.of_nat (length rs)).
  { unfold ranges_count. rewrite Hranges, length_app. cbn [length]. lia. }
  rewrite Hk, Hranges in Hr, Hrs'.
  apply aget_nth_error in Hr. destruct Hr as [_ Hr].
  rewrite Nat2Z.id, nth_error_last in Hr. injection Hr as <-.
  unfold aset in Hrs'. destruct (Z.ltb_spec (Z.of_nat (length rs)) 0); [lia|].
  rewrite Nat2Z.id, replace_nth_last in Hrs'. injection Hrs' as <-.
  apply aset_spec in H. destruct H as (_ & Hlen & Hnew & Hold).
  rewrite Nat2Z.id in Hnew, Hold.
  split; [|exact Hlen].
  intros i s' Hs'. destruct (Nat.eq_dec i prev) as [->|Hne].
  - rewrite Hnew in Hs'. injection Hs' as <-. cbn [ranges].
    split; [intros _; destruct rs; discriminate|]. split; [|lia].
    intros _. apply Forall_app. split; [exact Hclosed|].
    constructor; [|constructor]. unfold closed_range, open_range, set_end in *.
    cbn [start end_]. lia.
  - rewrite Hold in Hs' by assumption.
    destruct (Hinv i s' Hs') as (_ & Hc & Hf).
    split; [intros E; contradiction|]. split; [|exact Hf].
    intros Hi. apply Hc; assumption.
Qed.

Lemma find_duplicate_section_range (opts : SirOptions) (buf : list ascii)
      (names : list cptr) (name : option (list ascii)) (i : Z) (count : nat) (d : Z) :
  0 <= i ->
  find_duplicate_section opts buf names name i count = Ok d ->
  d = -1 \/ i <= d < i + Z.of_nat count.
Proof.
  revert i. induction count as [|count IH]; intros i Hi; cbn [find_duplicate_section].
  - intros H. injection H as <-. auto.
  - intros H. apply bind_ok in H. destruct H as (p & _ & H).
    destruct (sir__str_equal opts (string_at buf p) name).
    + injection H as <-. right. lia.
    + apply IH in H; [|lia]. destruct H as [H|H]; [auto|right; lia].
Qed.

Lemma read_section_name_closed (st : loader) (secs : list SirSection) (n : Z)
      (buf : list ascii) (name : Z) :
  loader_inv st ->
  read_section_name st = Ok (secs, n, buf, name) ->
  sections_closed secs (Z.to_nat (prev_index st)) (Z.to_nat (section_index st))
                  (key_index st) /\
  length secs = length (sections (l_ini st)).
Proof.
  intros Hinv H. unfold read_section_name in H.
  apply bind_ok in H. destruct H as (secs0 & Hclose & H).
  destruct (sir__parse_to_char (data (l_ini st)) (l_str st + 1) SIR__SECTION_NAME_CLOSE_CHAR)
    as [n0 buf0].
  apply bind_ok in H. destruct H as ((buf1 & name1) & _ & H).
  injection H as <- _ _ _.
  destruct Hinv. eapply close_last_range_closed; [eassumption|lia|].
  rewrite Z2Nat.id by lia. exact Hclose.
Qed.

Lemma enter_section_inv (st : loader) (secs : list SirSection) (n : Z)
      (buf : list ascii) (name : Z) (r : step) :
  loader_inv st ->
  sections_closed secs (Z.to_nat (prev_index st)) (Z.to_nat (section_index st))
                  (key_index st) ->
  length secs = length (sections (l_ini st)) ->
  enter_section st secs n buf name = Ok r ->
  loader_inv (step_state r).
Proof.
  intros Hinv Hclosed Hlen H. destruct Hinv.
  unfold enter_section in H.
  apply bind_ok in H. destruct H as (dup & Hdup & H).
  apply find_duplicate_section_range in Hdup; [|lia].
  apply bind_ok in H. destruct H as ((((secs' & names') & prev') & sidx') & Hblock & H).
  assert (Hgoal :
    length secs' = length secs /\ length names' = length (section_names (l_ini st)) /\
    0 <= prev' <= sidx' /\ sidx' < section_count (l_ini st) /\
    nth_error names' 0 = Some (Literal SIR_GLOBAL_SECTION_NAME) /\
    (forall i p, (i <= Z.to_nat sidx')%nat -> nth_error names' i = Some p ->
                 is_null p = false) /\
    sections_inv secs' (Z.to_nat prev') (Z.to_nat sidx') (key_index st)).
  { destruct (Z.eqb_spec dup (-1)) as [Hd|Hd]; cbn [negb] in Hblock.
    - (* a new section *)
      apply bind_ok in Hblock. destruct Hblock as (s & Hs & Hblock).
      apply bind_ok in Hblock. destruct Hblock as (r0 & Hr0 & Hblock).
      apply bind_ok in Hblock. destruct Hblock as (rs & Hrs & Hblock).
      apply bind_ok in Hblock. destruct Hblock as (secs1 & Hsecs1 & Hblock).
      apply bind_ok in Hblock. destruct Hblock as (names1 & Hnames1 & Hblock).
      injection Hblock as <- <- <- <-.
      apply aget_nth_error in Hs. destruct Hs as [_ Hs].
      destruct (Hclosed _ _ Hs) as (_ & _ & Hfresh).
      rewrite Hfresh in Hr0, Hrs by lia.
      cbn in Hr0. injection Hr0 as <-. cbn in Hrs. injection Hrs as <-.
      apply aset_spec in Hsecs1. destruct Hsecs1 as (Hb & Hl1 & Hn1 & Ho1).
      apply aset_spec in Hnames1. destruct Hnames1 as (Hb2 & Hl2 & Hn2 & Ho2).
      split; [exact Hl1|]. split; [exact Hl2|]. split; [lia|]. split; [lia|].
      split; [rewrite Ho2 by lia; assumption|]. split.
      + intros i p Hi Hp.
        destruct (Nat.eq_dec i (Z.to_nat (section_index st + 1))) as [->|Hne].
        * rewrite Hn2 in Hp. injection Hp as <-. reflexivity.
        * rewrite Ho2 in Hp by assumption. eapply li_names0; [|exact Hp]. lia.
      + intros i s' Hs'.
        destruct (Nat.eq_dec i (Z.to_nat (section_index st + 1))) as [->|Hne].
        * rewrite Hn1 in Hs'. injection Hs' as <-. cbn [ranges].
          split; [|split; [intros E; contradiction|lia]].
          intros _. exists [], (set_start fresh_range (key_index st)).
          split; [reflexivity|]. split; [constructor|].
          unfold open_range, set_start. cbn [start]. lia.
        * rewrite Ho1 in Hs' by assumption.
          destruct (Hclosed _ _ Hs') as (_ & Hc & Hf).
          split; [intros E; contradiction|]. split; [|intros Hi; apply Hf; lia].
          intros _ Hi. apply Hc. lia.
    - (* a section seen before *)
      destruct Hdup as [Hdup|Hdup]; [contradiction|].
      apply bind_ok in Hblock. destruct Hblock as (secs1 & Hsecs1 & Hblock).
      injection Hblock as <- <- <- <-.
      split; [|split; [reflexivity|split; [lia|split; [lia|split; [assumption|split;
        [assumption|]]]]]].
      + destruct (Z.eqb_spec dup (prev_index st)); cbn [negb] in Hsecs1.
        * injection Hsecs1 as <-. reflexivity.
        * apply bind_ok in Hsecs1. destruct Hsecs1 as (s & _ & Hsecs1).
          apply aset_spec in Hsecs1. tauto.
      + destruct (Z.eqb_spec dup (prev_index st)) as [He|Hne]; cbn [negb] in Hsecs1.
        * injection Hsecs1 as <-. subst dup.
          intros i s' Hs'. destruct (Hclosed _ _ Hs') as (Hne & Hc & Hf).
          split; [|split; [intros _; exact Hc|exact Hf]].
          intros ->. specialize (Hne eq_refl). specialize (Hc ltac:(lia)).
          destruct (exists_last Hne) as (rs & r0 & Hr). exists rs, r0.
          split; [exact Hr|]. rewrite Hr in Hc. apply Forall_app in Hc.
          destruct Hc as [Hc1 Hc2]. split; [exact Hc1|].
          apply closed_range_open. inversion Hc2; assumption.
        * apply bind_ok in Hsecs1. destruct Hsecs1 as (s & Hs & Hsecs1).
          apply aget_nth_error in Hs. destruct Hs as [_ Hs].
          apply aset_spec in Hsecs1. destruct Hsecs1 as (Hb & Hl1 & Hn1 & Ho1).
          intros i s' Hs'. destruct (Nat.eq_dec i (Z.to_nat dup)) as [->|Hni].
          -- rewrite Hn1 in Hs'. injection Hs' as <-. cbn [ranges].
             split; [|split; [intros E; contradiction|lia]].
             intros _. exists (ranges s), (set_start fresh_range (key_index st)).
             split; [reflexivity|]. split.
             ++ destruct (Hclosed _ _ Hs) as (_ & Hc & _). apply Hc. lia.
             ++ unfold open_range, set_start. cbn [start]. lia.
          -- rewrite Ho1 in Hs' by assumption.
             destruct (Hclosed _ _ Hs') as (_ & Hc & Hf).
             split; [intros E; contradiction|]. split; [intros _; exact Hc|exact Hf]. }
  destruct Hgoal as (Hl1 & Hl2 & Hp & Hs & Hg & Hn & Hsec).
  assert (Hst : loader_inv
                  (mkLoader (with_section_names
                               (with_sections (with_data (l_ini st) buf) secs') names')
                            (l_str (step_state r)) prev' sidx' (key_index st))).
  { constructor; cbn [l_ini with_section_names with_sections with_data section_count
                      sections section_names key_names key_values key_count
                      prev_index section_index key_index options error_size];
      try assumption; try lia; try congruence. }
  destruct (n =? -1); injection H as <-; exact Hst.
Qed.

Lemma load_section_inv (st : loader) (r : step) :
  loader_inv st -> load_section st = Ok r -> loader_inv (step_state r).
Proof.
  intros Hinv H. unfold load_section in H.
  apply bind_ok in H. destruct H as ((((secs & n) & buf) & name) & Hread & H).
  destruct (read_section_name_closed _ _ _ _ _ Hinv Hread) as (Hc & Hl).
  eapply enter_section_inv; eassumption.
Qed.

Lemma read_value_non_null (opts : SirOptions) (buf buf' : list ascii) (str n str' : Z)
      (v : cptr) :
  read_value opts buf str n = Ok (buf', str', v) -> is_null v = false.
Proof.
  unfold read_value. destruct (negb (n =? -1)).
  - destruct (negb (has_option opts SIR_OPTION_DISABLE_QUOTES) &&
              quote_on_line (tail_at buf (str + (n + 1)))).
    + destruct (sir__parse_to_char buf _ _) as [m b]. intros H. injection H as _ _ <-.
      reflexivity.
    + destruct (sir__parse_to_char buf _ _) as [m b]. intros H.
      apply bind_ok in H. destruct H as ((b1 & kv) & _ & H). injection H as _ _ <-.
      reflexivity.
  - intros H. injection H as _ _ <-. reflexivity.
Qed.

Lemma apply_value_inv (ini : SirIni) (buf : list ascii) (key_name : Z) (key_value : cptr)
      (duplicate ki : Z) (names values : list cptr) (kidx : Z) :
  is_null key_value = false ->
  length (key_values ini) = length (key_names ini) ->
  0 <= ki <= Z.of_nat (length (key_names ini)) ->
  (forall i, (i < Z.to_nat ki)%nat ->
             exists p v, nth_error (key_names ini) i = Some p /\
                         nth_error (key_values ini) i = Some v /\
                         is_null p = false /\ is_null v = false) ->
  apply_value ini buf key_name key_value duplicate ki = Ok (names, values, kidx) ->
  length names = length (key_names ini) /\
  length values = length (key_names ini) /\
  ki <= kidx <= Z.of_nat (length (key_names ini)) /\
  (forall i, (i < Z.to_nat kidx)%nat ->
             exists p v, nth_error names i = Some p /\ nth_error values i = Some v /\
                         is_null p = false /\ is_null v = false).
Proof.
  intros Hnn Hlen Hki Hkeys. unfold apply_value.
  destruct (negb _).
  2:{ intros H. injection H as <- <- <-. repeat split; try lia; assumption. }
  destruct (negb (duplicate =? -1)).
  - destruct (has_option (options ini) SIR_OPTION_OVERRIDE_DUPLICATE_KEYS).
    + intros H. apply bind_ok in H. destruct H as (values' & Hset & H).
      injection H as <- <- <-.
      apply aset_spec in Hset. destruct Hset as (Hb & Hl & Hn & Ho).
      repeat split; try lia.
      intros i Hi. destruct (Hkeys i Hi) as (p & v & Hp & Hv & Hpn & Hvn).
      destruct (Nat.eq_dec i (Z.to_nat duplicate)) as [->|Hne].
      * exists p, key_value. auto.
      * exists p, v. rewrite Ho by assumption. auto.
    + intros H. injection H as <- <- <-. repeat split; try lia; assumption.
  - intros H. apply bind_ok in H. destruct H as (names' & Hsetn & H).
    apply bind_ok in H. destruct H as (values' & Hsetv & H).
    injection H as <- <- <-.
    apply aset_spec in Hsetn. destruct Hsetn as (Hbn & Hln & Hnn' & Hon).
    apply aset_spec in Hsetv. destruct Hsetv as (Hbv & Hlv & Hnv & Hov).
    repeat split; try lia.
    intros i Hi. destruct (Nat.eq_dec i (Z.to_nat ki)) as [->|Hne].
    + exists (InData key_name), key_value. auto.
    + destruct (Hkeys i ltac:(lia)) as (p & v & Hp & Hv & Hpn & Hvn).
      exists p, v. rewrite Hon, Hov by assumption. auto.
Qed.

Lemma load_key_inv (st : loader) (r : step) :
  loader_inv st -> load_key st = Ok r -> loader_inv (step_state r).
Proof.
  intros Hinv H. destruct Hinv. unfold load_key in H.
  destruct (sir__parse_to_assignment_char (options (l_ini st)) (data (l_ini st)) (l_str st))
    as [n buf0].
  apply bind_ok in H. destruct H as ((buf1 & key_name) & _ & H).
  apply bind_ok in H. destruct H as (dup & _ & H).
  apply bind_ok in H. destruct H as (((buf2 & str2) & kv) & Hval & H).
  apply bind_ok in H. destruct H as (((names & values) & kidx) & Happ & H).
  apply read_value_non_null in Hval.
  apply apply_value_inv in Happ; try assumption; try lia.
  destruct Happ as (Hln & Hlv & Hk & Hkeys).
  assert (Hst : loader_inv
                  (mkLoader (with_key_values
                               (with_key_names (with_data (l_ini st) buf2) names) values)
                            str2 (prev_index st) (section_index st) kidx)).
  { constructor; cbn [l_ini with_key_values with_key_names with_data section_count
                      sections section_names key_names key_values key_count
                      prev_index section_index key_index options error_size];
      try assumption; try lia; try congruence.
    eapply sections_inv_mono; [|eassumption]. lia. }
  destruct (n =? -1); injection H as <-; exact Hst.
Qed.

Lemma load_loop_inv (fuel : nat) (st st' : loader) :
  loader_inv st -> load_loop fuel st = Ok st' -> loader_inv st'.
Proof.
  revert st. induction fuel as [|fuel IH]; intros st Hinv; cbn [load_loop]; [discriminate|].
  destruct (is_nul (load (data (l_ini st)) (l_str st))).
  - intros H. injection H as <-. exact Hinv.
  - set (st1 := mkLoader (l_ini st) _ (prev_index st) (section_index st) (key_index st)).
    assert (Hinv1 : loader_inv st1) by (destruct Hinv; constructor; assumption).
    destruct (Ascii.eqb _ SIR__SECTION_NAME_OPEN_CHAR).
    + intros H. apply bind_ok in H. destruct H as (r & Hr & H).
      apply load_section_inv in Hr; [|exact Hinv1].
      destruct r; [eapply IH; eassumption|]. injection H as <-. exact Hr.
    + destruct (negb _).
      * intros H. apply bind_ok in H. destruct H as (r & Hr & H).
        apply load_key_inv in Hr; [|exact Hinv1].
        destruct r; [eapply IH; eassumption|]. injection H as <-. exact Hr.
      * apply IH. exact Hinv1.
Qed.

(** ** Parsed documents *)

Lemma strip_and_count_counts (fuel : nat) (opts : SirOptions) :
  forall (buf : list ascii) (str sc kc : Z) (buf' : list ascii) (sc' kc' : Z),
    strip_and_count fuel opts buf str sc kc = Ok (buf', sc', kc') ->
    sc <= sc' /\ kc <= kc'.
Proof.
  induction fuel as [|fuel IH]; intros buf str sc kc buf' sc' kc'; cbn [strip_and_count];
    [discriminate|].
  destruct (Z.of_nat (length buf) <? str); [discriminate|].
  destruct (is_nul (load buf str)).
  - intros H. injection H as _ <- <-. lia.
  - match goal with
    | |- context [let '(b, s) := ?x in _] => destruct x as [buf1 str1]
    end.
    intros H. apply IH in H.
    destruct (Ascii.eqb (load buf1 str1) SIR__SECTION_NAME_OPEN_CHAR);
      destruct (sir__is_assignment_char opts (load buf1 str1)); lia.
Qed.

Lemma nth_error_repeat_Some {A : Type} (x y : A) (n i : nat) :
  nth_error (repeat x n) i = Some y -> y = x.
Proof.
  intros H. apply nth_error_In in H. apply repeat_spec in H. exact H.
Qed.

Lemma initial_ini_inv (buf : list ascii) (sc kc : Z) (opts : SirOptions) (ini : SirIni) :
  1 <= sc -> 0 <= kc ->
  initial_ini buf sc kc opts = Ok ini ->
  loader_inv (mkLoader ini 0 0 0 0) /\ data ini = buf /\ options ini = opts.
Proof.
  intros Hsc Hkc H. unfold initial_ini in H.
  apply bind_ok in H. destruct H as (s0 & Hs0 & H).
  apply bind_ok in H. destruct H as (r0 & Hr0 & H).
  apply bind_ok in H. destruct H as (rs0 & Hrs0 & H).
  apply bind_ok in H. destruct H as (secs & Hsecs & H).
  apply bind_ok in H. destruct H as (names & Hnames & H).
  injection H as <-.
  apply aget_nth_error in Hs0. destruct Hs0 as [_ Hs0].
  apply nth_error_repeat_Some in Hs0. subst s0.
  cbn in Hr0. injection Hr0 as <-. cbn in Hrs0. injection Hrs0 as <-.
  apply aset_spec in Hsecs. destruct Hsecs as (_ & Hl1 & Hn1 & Ho1).
  apply aset_spec in Hnames. destruct Hnames as (_ & Hl2 & Hn2 & Ho2).
  rewrite repeat_length in Hl1, Hl2.
  split; [|split; reflexivity].
  constructor; cbn [l_ini section_count sections section_names key_names key_values
                    key_count prev_index section_index key_index options error_size].
  - lia.
  - lia.
  - lia.
  - lia.
  - exact Hn2.
  - intros i p Hi Hp. assert (i = 0%nat) by lia. subst i.
    change (Z.to_nat 0) with 0%nat in Hn2. rewrite Hn2 in Hp. injection Hp as <-.
    reflexivity.
  - intros i s Hs. change (Z.to_nat 0) with 0%nat in *.
    destruct (Nat.eq_dec i 0) as [->|Hne].
    + rewrite Hn1 in Hs. injection Hs as <-. cbn [ranges].
      split; [|split; [intros E; contradiction|lia]].
      intros _. exists [], (set_start fresh_range 0).
      split; [reflexivity|]. split; [constructor|]. unfold open_range. cbn. lia.
    + rewrite Ho1 in Hs by assumption. apply nth_error_repeat_Some in Hs. subst s.
      split; [intros E; contradiction|]. split; [intros _ Hi; lia|reflexivity].
  - rewrite repeat_length. lia.
  - rewrite !repeat_length. reflexivity.
  - lia.
  - intros i Hi. change (Z.to_nat 0) with 0%nat in Hi. lia.
  - reflexivity.
Qed.

Lemma Forall_firstn {A : Type} (P : A -> Prop) (n : nat) (l : list A) :
  (forall i x, (i < n)%nat -> nth_error l i = Some x -> P x) -> Forall P (firstn n l).
Proof.
  intros H. apply Forall_nth_error. intros i x Hx.
  assert (Hi : (i < n)%nat).
  { assert (Hs : nth_error (firstn n l) i <> None) by congruence.
    apply nth_error_Some in Hs. rewrite length_firstn in Hs. lia. }
  rewrite nth_error_firstn in Hx.
  destruct (Nat.ltb_spec i n); [|lia]. eapply H; eassumption.
Qed.

Lemma nth_error_lt {A : Type} (l : list A) (i : nat) (x : A) :
  nth_error l i = Some x -> (i < length l)%nat.
Proof. intros H. apply nth_error_Some. congruence. Qed.

Lemma shrink_sections_spec (ini : SirIni) (prev sidx : nat) (ki : Z) :
  section_count ini = Z.of_nat (length (sections ini)) ->
  length (section_names ini) = length (sections ini) ->
  Z.of_nat sidx < section_count ini ->
  nth_error (section_names ini) 0 = Some (Literal SIR_GLOBAL_SECTION_NAME) ->
  (forall i p, (i <= sidx)%nat -> nth_error (section_names ini) i = Some p ->
               is_null p = false) ->
  sections_closed (sections ini) prev sidx ki ->
  let ini' := shrink_sections ini (Z.of_nat sidx + 1) in
  section_count ini' = Z.of_nat (length (sections ini')) /\
  length (section_names ini') = length (sections ini') /\
  nth_error (section_names ini') 0 = Some (Literal SIR_GLOBAL_SECTION_NAME) /\
  Forall (fun p => is_null p = false) (section_names ini') /\
  Forall (fun s => Forall (closed_range ki) (ranges s)) (sections ini') /\
  key_names ini' = key_names ini /\ key_values ini' = key_values ini /\
  key_count ini' = key_count ini /\ options ini' = options ini /\
  error_size ini' = error_size ini.
Proof.
  intros Hsc Hnl Hsidx Hg Hnn Hclosed. unfold shrink_sections.
  destruct (Z.ltb_spec (Z.of_nat sidx + 1) (section_count ini)) as [Hlt|Hge];
    cbn [section_count sections section_names key_names key_values key_count options
         error_size].
  - replace (Z.to_nat (Z.of_nat sidx + 1)) with (S sidx) by lia.
    rewrite !length_firstn.
    split; [lia|]. split; [lia|]. split.
    { rewrite nth_error_firstn. cbn. exact Hg. }
    split.
    { apply Forall_firstn. intros i p Hi Hp. eapply Hnn; [|exact Hp]. lia. }
    split; [|auto 10].
    apply Forall_firstn. intros i s Hi Hs.
    destruct (Hclosed i s Hs) as (_ & Hc & _). apply Hc. lia.
  - split; [exact Hsc|]. split; [exact Hnl|]. split; [exact Hg|]. split.
    { apply Forall_nth_error. intros i p Hp. eapply Hnn; [|exact Hp].
      apply nth_error_lt in Hp. lia. }
    split; [|auto 10].
    apply Forall_nth_error. intros i s Hs.
    destruct (Hclosed i s Hs) as (_ & Hc & _). apply Hc.
    apply nth_error_lt in Hs. lia.
Qed.

Lemma shrink_keys_spec (ini : SirIni) (ki : Z) :
  key_count ini = Z.of_nat (length (key_names ini)) ->
  length (key_values ini) = length (key_names ini) ->
  0 <= ki <= key_count ini ->
  (forall i, (i < Z.to_nat ki)%nat ->
             exists p v, nth_error (key_names ini) i = Some p /\
                         nth_error (key_values ini) i = Some v /\
                         is_null p = false /\ is_null v = false) ->
  let ini' := shrink_keys ini ki in
  key_count ini' = ki /\
  key_count ini' = Z.of_nat (length (key_names ini')) /\
  length (key_values ini') = length (key_names ini') /\
  Forall (fun p => is_null p = false) (key_names ini') /\
  Forall (fun p => is_null p = false) (key_values ini') /\
  sections ini' = sections ini /\ section_names ini' = section_names ini /\
  section_count ini' = section_count ini /\ options ini' = options ini /\
  error_size ini' = error_size ini.
Proof.
  intros Hkc Hvl Hki Hkeys. unfold shrink_keys.
  destruct (Z.ltb_spec ki (key_count ini)) as [Hlt|Hge];
    cbn [section_count sections section_names key_names key_values key_count options
         error_size].
  - rewrite !length_firstn.
    split; [reflexivity|]. split; [lia|]. split; [lia|]. split.
    { apply Forall_firstn. intros i p Hi Hp.
      destruct (Hkeys i Hi) as (p' & v' & Hp' & _ & Hn & _). congruence. }
    split; [|auto 10].
    apply Forall_firstn. intros i v Hi Hv.
    destruct (Hkeys i Hi) as (p' & v' & _ & Hv' & _ & Hn). congruence.
  - split; [lia|]. split; [exact Hkc|]. split; [exact Hvl|]. split.
    { apply Forall_nth_error. intros i p Hp.
      assert (Hi : (i < Z.to_nat ki)%nat) by (apply nth_error_lt in Hp; lia).
      destruct (Hkeys i Hi) as (p' & v' & Hp' & _ & Hn & _). congruence. }
    split; [|auto 10].
    apply Forall_nth_error. intros i v Hv.
    assert (Hi : (i < Z.to_nat ki)%nat) by (apply nth_error_lt in Hv; lia).
    destruct (Hkeys i Hi) as (p' & v' & _ & Hv' & _ & Hn). congruence.
Qed.

(** Every document [sir_load_from_str] returns is well formed. *)
Theorem sir_load_from_str_well_formed (s : list ascii) (opts : SirOptions) (ini : SirIni) :
  sir_load_from_str s opts = Ok ini -> well_formed ini /\ options ini = opts.
Proof.
  intros H. unfold sir_load_from_str in H.
  apply bind_ok in H. destruct H as (((buf & sc) & kc) & Hstrip & H).
  apply bind_ok in H. destruct H as (_ & _ & H).
  apply bind_ok in H. destruct H as (ini0 & Hinit & H).
  apply bind_ok in H. destruct H as (st & Hloop & H).
  apply bind_ok in H. destruct H as (secs & Hclose & H).
  injection H as <-.
  apply strip_and_count_counts in Hstrip. destruct Hstrip as [Hsc Hkc].
  destruct (initial_ini_inv _ _ _ _ _ Hsc Hkc Hinit) as (Hinv0 & _ & Hopts0).
  assert (Hopts : options (l_ini st) = opts).
  { rewrite <- Hopts0. clear - Hloop.
    change ini0 with (l_ini (mkLoader ini0 0 0 0 0)).
    revert Hloop. generalize (mkLoader ini0 0 0 0 0). generalize (S (length buf)).
    intros fuel. induction fuel as [|fuel IH]; intros st0; cbn [load_loop]; [discriminate|].
    destruct (is_nul _); [intros H; injection H as <-; reflexivity|].
    assert (Hsec : forall st1 r, load_section st1 = Ok r ->
                                 options (l_ini (step_state r)) = options (l_ini st1)).
    { intros st1 r H. unfold load_section in H.
      apply bind_ok in H. destruct H as ((((secs1 & n) & b) & nm) & _ & H).
      unfold enter_section in H.
      apply bind_ok in H. destruct H as (dup & _ & H).
      apply bind_ok in H. destruct H as ((((secs' & names') & prev') & sidx') & _ & H).
      destruct (n =? -1); injection H as <-; reflexivity. }
    assert (Hkey : forall st1 r, load_key st1 = Ok r ->
                                 options (l_ini (step_state r)) = options (l_ini st1)).
    { intros st1 r H. unfold load_key in H.
      destruct (sir__parse_to_assignment_char _ _ _) as [n b0].
      apply bind_ok in H. destruct H as ((b1 & kn) & _ & H).
      apply bind_ok in H. destruct H as (dup & _ & H).
      apply bind_ok in H. destruct H as (((b2 & str2) & kv) & _ & H).
      apply bind_ok in H. destruct H as (((names & values) & kidx) & _ & H).
      destruct (n =? -1); injection H as <-; reflexivity. }
    destruct (Ascii.eqb _ SIR__SECTION_NAME_OPEN_CHAR).
    - intros H. apply bind_ok in H. destruct H as (r & Hr & H).
      apply Hsec in Hr. cbn [l_ini] in Hr.
      destruct r; [apply IH in H|injection H as <-]; cbn [step_state] in Hr; congruence.
    - destruct (negb _).
      + intros H. apply bind_ok in H. destruct H as (r & Hr & H).
        apply Hkey in Hr. cbn [l_ini] in Hr.
        destruct r; [apply IH in H|injection H as <-]; cbn [step_state] in Hr; congruence.
      + intros H. apply IH in H. exact H. }
  pose proof (load_loop_inv _ _ _ Hinv0 Hloop) as Hinv. destruct Hinv.
  destruct (close_last_range_closed (sections (l_ini st)) secs
              (Z.to_nat (prev_index st)) (Z.to_nat (section_index st)) (key_index st))
    as (Hclosed & Hlen); [assumption|lia|rewrite Z2Nat.id by lia; exact Hclose|].
  set (ini1 := with_sections (l_ini st) secs).
  destruct (shrink_sections_spec ini1 (Z.to_nat (prev_index st))
              (Z.to_nat (section_index st)) (key_index st))
    as (A1 & A2 & A3 & A4 & A5 & A6 & A7 & A8 & A9 & A10);
    unfold ini1; cbn [with_sections section_count sections section_names];
    try assumption; try lia.
  rewrite Z2Nat.id in * by lia. fold ini1 in A1, A2, A3, A4, A5, A6, A7, A8, A9, A10 |- *.
  set (ini2 := shrink_sections ini1 (section_index st + 1)) in *.
  destruct (shrink_keys_spec ini2 (key_index st))
    as (B0 & B1 & B2 & B3 & B4 & B5 & B6 & B7 & B8 & B9).
  { rewrite A8, A6. exact li_key_count0. }
  { rewrite A7, A6. exact li_values_length0. }
  { rewrite A8. exact li_key_index0. }
  { rewrite A6, A7. exact li_keys0. }
  set (ini3 := shrink_keys ini2 (key_index st)) in *.
  pose proof (clear_error_shape ini3) as Hshape.
  rewrite Hshape. split.
  - constructor; cbn [with_error_writes with_error section_count sections section_names
                      key_names key_values key_count options error_size].
    + rewrite B7, B5. exact A1.
    + rewrite B6, B5. exact A2.
    + rewrite B6. exact A3.
    + rewrite B6. exact A4.
    + rewrite B5, B0. exact A5.
    + exact B1.
    + exact B2.
    + exact B3.
    + exact B4.
    + rewrite B9, B8, A10, A9. exact li_error_size0.
  - cbn [with_error_writes with_error options]. rewrite B8, A9. exact Hopts.
Qed.

(** ** The section-less lookup *)

Lemma aget_of_nat {A : Type} (l : list A) (i : nat) :
  aget l (Z.of_nat i) = match nth_error l i with Some x => Ok x | None => Fault end.
Proof.
  unfold aget. destruct (Z.ltb_spec (Z.of_nat i) 0); [lia|].
  rewrite Nat2Z.id. reflexivity.
Qed.

Lemma global_scan_step (ini : SirIni) (key : list ascii) (i count : nat) (kv : cptr)
      (p v : cptr) :
  nth_error (key_names ini) i = Some p -> nth_error (key_values ini) i = Some v ->
  global_scan ini key (Z.of_nat i) (S count) kv =
  if key_matches ini key i
  then if has_option (options ini) SIR_OPTION_OVERRIDE_DUPLICATE_KEYS
       then global_scan ini key (Z.of_nat (S i)) count v
       else Ok (inl v)
  else global_scan ini key (Z.of_nat (S i)) count kv.
Proof.
  intros Hp Hv. cbn [global_scan]. unfold key_matches.
  rewrite !aget_of_nat, Hp, Hv. cbn [bind].
  replace (Z.of_nat i + 1) with (Z.of_nat (S i)) by lia.
  destruct (negb (is_null p) && _); reflexivity.
Qed.

Lemma nth_error_both (ini : SirIni) (i : nat) :
  length (key_values ini) = length (key_names ini) ->
  (i < length (key_names ini))%nat ->
  exists p v, nth_error (key_names ini) i = Some p /\ nth_error (key_values ini) i = Some v.
Proof.
  intros Hl Hi.
  destruct (nth_error (key_names ini) i) as [p|] eqn:Ep.
  - destruct (nth_error (key_values ini) i) as [v|] eqn:Ev; [eauto|].
    apply nth_error_None in Ev. lia.
  - apply nth_error_None in Ep. lia.
Qed.

Lemma global_scan_no_match (ini : SirIni) (key : list ascii) (count : nat) :
  forall (i : nat) (kv : cptr),
    length (key_values ini) = length (key_names ini) ->
    (i + count <= length (key_names ini))%nat ->
    (forall k, (i <= k < i + count)%nat -> key_matches ini key k = false) ->
    global_scan ini key (Z.of_nat i) count kv = Ok (inr kv).
Proof.
  induction count as [|count IH]; intros i kv Hl Hb Hno; [reflexivity|].
  destruct (nth_error_both ini i Hl) as (p & v & Hp & Hv); [lia|].
  rewrite (global_scan_step _ _ _ _ _ _ _ Hp Hv), Hno by lia.
  apply IH; [assumption|lia|]. intros k Hk. apply Hno. lia.
Qed.

Lemma global_scan_first (ini : SirIni) (key : list ascii) (count : nat) :
  forall (i f : nat) (kv v : cptr),
    has_option (options ini) SIR_OPTION_OVERRIDE_DUPLICATE_KEYS = false ->
    length (key_values ini) = length (key_names ini) ->
    (i + count <= length (key_names ini))%nat ->
    (i <= f < i + count)%nat ->
    nth_error (key_values ini) f = Some v ->
    key_matches ini key f = true ->
    (forall k, (i <= k < f)%nat -> key_matches ini key k = false) ->
    global_scan ini key (Z.of_nat i) count kv = Ok (inl v).
Proof.
  induction count as [|count IH]; intros i f kv v Hpol Hl Hb Hf Hv Hm Hno; [lia|].
  destruct (nth_error_both ini i Hl) as (p & w & Hp & Hw); [lia|].
  rewrite (global_scan_step _ _ _ _ _ _ _ Hp Hw), Hpol.
  destruct (Nat.eq_dec i f) as [->|Hne].
  - rewrite Hm. congruence.
  - rewrite Hno by lia. apply (IH (S i) f); try assumption; try lia.
    intros k Hk. apply Hno. lia.
Qed.

Lemma global_scan_last (ini : SirIni) (key : list ascii) (count : nat) :
  forall (i l : nat) (kv v : cptr),
    has_option (options ini) SIR_OPTION_OVERRIDE_DUPLICATE_KEYS = true ->
    length (key_values ini) = length (key_names ini) ->
    (i + count <= length (key_names ini))%nat ->
    (i <= l < i + count)%nat ->
    nth_error (key_values ini) l = Some v ->
    key_matches ini key l = true ->
    (forall k, (l < k < i + count)%nat -> key_matches ini key k = false) ->
    global_scan ini key (Z.of_nat i) count kv = Ok (inr v).
Proof.
  induction count as [|count IH]; intros i l kv v Hpol Hl Hb Hf Hv Hm Hno; [lia|].
  destruct (nth_error_both ini i Hl) as (p & w & Hp & Hw); [lia|].
  rewrite (global_scan_step _ _ _ _ _ _ _ Hp Hw), Hpol.
  destruct (Nat.eq_dec i l) as [->|Hne].
  - rewrite Hm. assert (w = v) by congruence. subst w.
    apply global_scan_no_match; [assumption|lia|]. intros k Hk. apply Hno. lia.
  - destruct (key_matches ini key i);
      apply (IH (S i) l); try assumption; try lia; intros k Hk; apply Hno; lia.
Qed.

(** C5.  In a parsed document the section-less lookup scans the whole flat
    key array in index order, whatever the sections: under the default
    policy it returns the value of the first key whose name matches, under
    SIR_OPTION_OVERRIDE_DUPLICATE_KEYS the value of the last one, each time
    with the error slot cleared; when no key matches it returns the null
    pointer and sets the error "key '...' not found" (the slot is then
    non-empty whenever error tracking is enabled). *)
Theorem C5_global_lookup
        (s : list ascii) (opts : SirOptions) (ini : SirIni) (key : list ascii) :
  sir_load_from_str s opts = Ok ini ->
  (forall i v,
      nth_error (key_values ini) i = Some v ->
      key_matches ini key i = true ->
      (has_option (options ini) SIR_OPTION_OVERRIDE_DUPLICATE_KEYS = false ->
       (forall k, (k < i)%nat -> key_matches ini key k = false) ->
       sir_section_str ini None (Some key) = Ok (v, sir__clear_error_str ini) /\
       is_null v = false) /\
      (has_option (options ini) SIR_OPTION_OVERRIDE_DUPLICATE_KEYS = true ->
       (forall k, (i < k)%nat -> key_matches ini key k = false) ->
       sir_section_str ini None (Some key) = Ok (v, sir__clear_error_str ini) /\
       is_null v = false))
  /\
  ((forall k, key_matches ini key k = false) ->
   sir_section_str ini None (Some key) =
   Ok (NullPtr, sir__set_error ini "key '%' not found" (Some key) None) /\
   (sir__errors_enabled ini = true ->
    sir_has_error (sir__set_error ini "key '%' not found" (Some key) None) = true)).
Proof.
  intros Hload.
  destruct (sir_load_from_str_well_formed _ _ _ Hload) as [Hwf _]. destruct Hwf.
  assert (Hcount : Z.to_nat (key_count ini) = length (key_names ini)) by lia.
  assert (Hvn : forall i v, nth_error (key_values ini) i = Some v -> is_null v = false).
  { intros i v Hv. rewrite Forall_nth_error in wf_key_values0. eapply wf_key_values0.
    exact Hv. }
  unfold sir_section_str. cbn [bind]. rewrite Hcount.
  split; [|split].
  - intros i v Hv Hm.
    assert (Hi : (i < length (key_names ini))%nat)
      by (apply nth_error_lt in Hv; lia).
    pose proof (Hvn _ _ Hv) as Hnull.
    split; intros Hpol Hno; (split; [|exact Hnull]).
    + rewrite (global_scan_first ini key _ 0 i NullPtr v); try assumption; try lia.
      * reflexivity.
      * intros k Hk. apply Hno. lia.
    + rewrite (global_scan_last ini key _ 0 i NullPtr v); try assumption; try lia.
      * cbn [bind]. rewrite Hnull. reflexivity.
      * intros k Hk. apply Hno. lia.
  - rewrite (global_scan_no_match ini key _ 0 NullPtr); try assumption; try lia.
    + reflexivity.
    + intros k Hk. apply H.
  - intros He. apply has_error_set; [assumption| |reflexivity].
    rewrite wf_error_size0. unfold sir__errors_enabled in He.
    apply negb_true_iff in He. rewrite He. reflexivity.
Qed.

Lemma C5_witness :
  sir_section_str (parsed (lines ["key=1"; "[a]"; "key=2"; "[b]"; "key=3"]) SIR_OPTION_NONE)
                  None (arg "key")
  = Ok (InData 4,
        sir__clear_error_str
          (parsed (lines ["key=1"; "[a]"; "key=2"; "[b]"; "key=3"]) SIR_OPTION_NONE)) /\
  sir_section_str (parsed (lines ["key=1"; "[a]"; "key=2"; "[b]"; "key=3"])
                          SIR_OPTION_OVERRIDE_DUPLICATE_KEYS)
                  None (arg "key")
  = Ok (InData 24,
        sir__clear_error_str
          (parsed (lines ["key=1"; "[a]"; "key=2"; "[b]"; "key=3"])
                  SIR_OPTION_OVERRIDE_DUPLICATE_KEYS)).
Proof.
  split.
  - assert (Hload : sir_load_from_str
                      (lines ["key=1"; "[a]"; "key=2"; "[b]"; "key=3"]) SIR_OPTION_NONE
                    = Ok (parsed (lines ["key=1"; "[a]"; "key=2"; "[b]"; "key=3"])
                                 SIR_OPTION_NONE))
      by (vm_compute; reflexivity).
    destruct (C5_global_lookup _ _ _ (list_ascii_of_string "key") Hload) as [H _].
    assert (Hv : nth_error (key_values (parsed (lines ["key=1"; "[a]"; "key=2"; "[b]"; "key=3"])
                                               SIR_OPTION_NONE)) 0 = Some (InData 4))
      by (vm_compute; reflexivity).
    assert (Hm : key_matches (parsed (lines ["key=1"; "[a]"; "key=2"; "[b]"; "key=3"])
                                     SIR_OPTION_NONE) (list_ascii_of_string "key") 0 = true)
      by (vm_compute; reflexivity).
    destruct (H 0%nat (InData 4) Hv Hm) as [Hd _].
    apply Hd; [vm_compute; reflexivity|]. intros k Hk. lia.
  - assert (Hload : sir_load_from_str
                      (lines ["key=1"; "[a]"; "key=2"; "[b]"; "key=3"])
                      SIR_OPTION_OVERRIDE_DUPLICATE_KEYS
                    = Ok (parsed (lines ["key=1"; "[a]"; "key=2"; "[b]"; "key=3"])
                                 SIR_OPTION_OVERRIDE_DUPLICATE_KEYS))
      by (vm_compute; reflexivity).
    destruct (C5_global_lookup _ _ _ (list_ascii_of_string "key") Hload) as [H _].
    assert (Hv : nth_error (key_values (parsed (lines ["key=1"; "[a]"; "key=2"; "[b]"; "key=3"])
                                               SIR_OPTION_OVERRIDE_DUPLICATE_KEYS)) 2
                 = Some (InData 24))
      by (vm_compute; reflexivity).
    assert (Hm : key_matches (parsed (lines ["key=1"; "[a]"; "key=2"; "[b]"; "key=3"])
                                     SIR_OPTION_OVERRIDE_DUPLICATE_KEYS)
                             (list_ascii_of_string "key") 2 = true)
      by (vm_compute; reflexivity).
    destruct (H 2%nat (InData 24) Hv Hm) as [_ Ho].
    apply Ho; [vm_compute; reflexivity|].
    intros k Hk. destruct k as [|[|[|[|k]]]]; try lia; vm_compute; reflexivity.
Defined.

(** ** The error slot after each operation *)

Lemma slot_only_with_error (ini ini' : SirIni) (e : list ascii) :
  slot_only (with_error ini e) ini' -> slot_only ini ini'.
Proof. unfold slot_only. intros H. rewrite H at 1. reflexivity. Qed.

Lemma tracked_slot_only (ini ini' : SirIni) :
  slot_only ini ini' -> tracked ini -> tracked ini'.
Proof.
  intros H [He Hs Hv]. constructor.
  - rewrite (slot_only_enabled _ _ H). exact He.
  - rewrite (slot_only_error_size _ _ H). exact Hs.
  - rewrite (slot_only_key_values _ _ H). exact Hv.
Qed.

Lemma well_formed_tracked (ini : SirIni) :
  well_formed ini -> sir__errors_enabled ini = true -> tracked ini.
Proof.
  intros [] He. constructor; try assumption.
  rewrite wf_error_size0. unfold sir__errors_enabled in He.
  apply negb_true_iff in He. rewrite He. reflexivity.
Qed.

Lemma string_at_non_null (buf : list ascii) (v : cptr) :
  v <> NullPtr -> exists s, string_at buf v = Some s.
Proof. destruct v; [congruence| |]; cbn; eauto. Qed.

Lemma string_at_null (buf : list ascii) (v : cptr) :
  string_at buf v = None <-> v = NullPtr.
Proof. destruct v; cbn; split; intros; congruence. Qed.

Lemma has_error_set_tracked (ini : SirIni) (f : string) (a b : option (list ascii)) :
  tracked ini -> plain_start f = true -> sir_has_error (sir__set_error ini f a b) = true.
Proof. intros [He Hs _] Hf. apply has_error_set; assumption. Qed.

Lemma sir_section_str_discipline (ini ini' : SirIni)
      (section_name key_name : option (list ascii)) (v : cptr) :
  tracked ini ->
  sir_section_str ini section_name key_name = Ok (v, ini') ->
  slot_only ini ini' /\ (sir_has_error ini' = true <-> v = NullPtr).
Proof.
  intros [He Hs Hv] H. split.
  - eapply sir_section_str_shape. exact H.
  - eapply sir_section_str_error_iff; eassumption.
Qed.

(** A leaf of a conversion that ends in [sir__set_error] on [ini1]. *)
Ltac leaf_set Hso Htr :=
  match goal with
  | H : Ok (_, sir__set_error ?i ?f ?a ?b) = Ok (_, _) |- _ =>
      injection H as <- <-;
      split; [eapply slot_only_trans; [exact Hso|apply slot_only_set]|];
      rewrite (has_error_set_tracked i f a b Htr eq_refl)
  end.

Lemma sir_section_long_discipline (ini ini' : SirIni)
      (section_name key_name : option (list ascii)) (r : Z) :
  tracked ini ->
  sir_section_long ini section_name key_name = Ok (r, ini') ->
  slot_only ini ini' /\
  (sir_has_error ini' = true <->
   conversion_fails strtol_rejects ini section_name key_name).
Proof.
  intros Ht H. unfold sir_section_long in H.
  apply bind_ok in H. destruct H as ((v & ini1) & Hstr & H).
  destruct (sir_section_str_discipline _ _ _ _ _ Ht Hstr) as [Hso Hiff].
  pose proof (tracked_slot_only _ _ Hso Ht) as Ht1.
  unfold conversion_fails. rewrite Hstr.
  destruct (sir_has_error ini1) eqn:Herr.
  - injection H as <- <-. split; [exact Hso|].
    assert (v = NullPtr) as -> by (apply Hiff; reflexivity).
    cbn [string_at]. rewrite Herr. tauto.
  - assert (Hv : v <> NullPtr) by (intros E; apply Hiff in E; congruence).
    destruct (string_at_non_null (data ini1) v Hv) as (s & Hs). rewrite Hs in H |- *.
    unfold strtol_rejects.
    destruct (erange (strtol s)).
    + destruct (converted (strtol s) =? LONG_MAX);
        [|destruct (converted (strtol s) =? LONG_MIN)];
        leaf_set Hso Ht1; cbn [orb]; tauto.
    + destruct (endptr_is_str (strtol s)).
      * leaf_set Hso Ht1. cbn [orb]. tauto.
      * injection H as <- <-. split; [exact Hso|]. rewrite Herr. cbn [orb]. tauto.
Qed.

Lemma sir_section_unsigned_long_discipline (ini ini' : SirIni)
      (section_name key_name : option (list ascii)) (r : Z) :
  tracked ini ->
  sir_section_unsigned_long ini section_name key_name = Ok (r, ini') ->
  slot_only ini ini' /\
  (sir_has_error ini' = true <->
   conversion_fails strtoul_rejects ini section_name key_name).
Proof.
  intros Ht H. unfold sir_section_unsigned_long in H.
  apply bind_ok in H. destruct H as ((v & ini1) & Hstr & H).
  destruct (sir_section_str_discipline _ _ _ _ _ Ht Hstr) as [Hso Hiff].
  pose proof (tracked_slot_only _ _ Hso Ht) as Ht1.
  unfold conversion_fails. rewrite Hstr.
  destruct (sir_has_error ini1) eqn:Herr.
  - injection H as <- <-. split; [exact Hso|].
    assert (v = NullPtr) as -> by (apply Hiff; reflexivity).
    cbn [string_at]. rewrite Herr. tauto.
  - assert (Hv : v <> NullPtr) by (intros E; apply Hiff in E; congruence).
    destruct (string_at_non_null (data ini1) v Hv) as (s & Hs). rewrite Hs in H |- *.
    unfold strtoul_rejects.
    destruct (erange (strtoul s)).
    + leaf_set Hso Ht1. cbn [orb]. tauto.
    + destruct (endptr_is_str (strtoul s)).
      * leaf_set Hso Ht1. cbn [orb]. tauto.
      * injection H as <- <-. split; [exact Hso|]. rewrite Herr. cbn [orb]. tauto.
Qed.

Section DoubleDiscipline.

Variable double : Type.
Variable zero : double.
Variable strtod : list ascii -> double * bool * bool.
Variable is_HUGE_VAL : double -> bool.
Variable is_neg_HUGE_VAL : double -> bool.

Lemma sir_section_double_discipline (ini ini' : SirIni)
      (section_name key_name : option (list ascii)) (r : double) :
  tracked ini ->
  sir_section_double double zero strtod is_HUGE_VAL is_neg_HUGE_VAL
                     ini section_name key_name = Ok (r, ini') ->
  slot_only ini ini' /\
  (sir_has_error ini' = true <->
   conversion_fails (strtod_rejects double strtod) ini section_name key_name).
Proof.
  intros Ht H. unfold sir_section_double in H.
  apply bind_ok in H. destruct H as ((v & ini1) & Hstr & H).
  destruct (sir_section_str_discipline _ _ _ _ _ Ht Hstr) as [Hso Hiff].
  pose proof (tracked_slot_only _ _ Hso Ht) as Ht1.
  unfold conversion_fails. rewrite Hstr.
  destruct (sir_has_error ini1) eqn:Herr.
  - injection H as <- <-. split; [exact Hso|].
    assert (v = NullPtr) as -> by (apply Hiff; reflexivity).
    cbn [string_at]. rewrite Herr. tauto.
  - assert (Hv : v <> NullPtr) by (intros E; apply Hiff in E; congruence).
    destruct (string_at_non_null (data ini1) v Hv) as (s & Hs). rewrite Hs in H |- *.
    unfold strtod_rejects.
    destruct (strtod s) as [[d range_error] no_conversion].
    destruct range_error.
    + destruct (is_HUGE_VAL d); [|destruct (is_neg_HUGE_VAL d)];
        leaf_set Hso Ht1; cbn [orb]; tauto.
    + destruct no_conversion.
      * leaf_set Hso Ht1. cbn [orb]. tauto.
      * injection H as <- <-. split; [exact Hso|]. rewrite Herr. cbn [orb]. tauto.
Qed.

End DoubleDiscipline.

Lemma match_bool_literal_values (s : list ascii) (b : Z) :
  match_bool_literal s = Some b -> b = 1 \/ b = 0.
Proof.
  unfold match_bool_literal.
  destruct (sir__str_equal_case _ _ _); [intros H; injection H as <-; auto|].
  destruct (sir__str_equal_case _ _ _); [intros H; injection H as <-; auto|discriminate].
Qed.

Lemma sir_section_bool_discipline (ini ini' : SirIni)
      (section_name key_name : option (list ascii)) (r : Z) :
  tracked ini ->
  sir_section_bool ini section_name key_name = Ok (r, ini') ->
  slot_only ini ini' /\ (sir_has_error ini' = true <-> r = -1).
Proof.
  intros Ht H. unfold sir_section_bool in H.
  apply bind_ok in H. destruct H as ((l & ini1) & Hlong & H).
  destruct (sir_section_long_discipline _ _ _ _ _ Ht Hlong) as [Hso1 _].
  pose proof (tracked_slot_only _ _ Hso1 Ht) as Ht1.
  destruct (sir_has_error ini1) eqn:Herr1; cbn [negb] in H.
  - apply bind_ok in H. destruct H as ((v & ini2) & Hstr & H).
    destruct (sir_section_str_discipline _ _ _ _ _ Ht1 Hstr) as [Hso2 Hiff].
    pose proof (slot_only_trans _ _ _ Hso1 Hso2) as Hso.
    pose proof (tracked_slot_only _ _ Hso Ht) as Ht2.
    destruct (sir_has_error ini2) eqn:Herr2.
    + injection H as <- <-. split; [exact Hso|]. rewrite Herr2. tauto.
    + assert (Hv : v <> NullPtr) by (intros E; apply Hiff in E; congruence).
      destruct (string_at_non_null (data ini2) v Hv) as (s & Hs). rewrite Hs in H.
      destruct (match_bool_literal (after_whitespace s)) as [b|] eqn:Hb.
      * injection H as <- <-. split; [exact Hso|]. rewrite Herr2.
        apply match_bool_literal_values in Hb. split; [discriminate|]. lia.
      * leaf_set Hso Ht2. tauto.
  - injection H as <- <-. split; [exact Hso1|]. rewrite Herr1.
    split; [discriminate|]. destruct (l =? 0); discriminate.
Qed.

Lemma sir_section_csv_discipline (ini ini' : SirIni)
      (section_name key_name : option (list ascii))
      (r : option (list (list ascii) * Z)) :
  tracked ini ->
  sir_section_csv ini section_name key_name = Ok (r, ini') ->
  slot_only ini ini' /\ (sir_has_error ini' = true <-> r = None).
Proof.
  intros Ht H. unfold sir_section_csv in H.
  apply bind_ok in H. destruct H as ((v & ini1) & Hstr & H).
  destruct (sir_section_str_discipline _ _ _ _ _ Ht Hstr) as [Hso Hiff].
  destruct (sir_has_error ini1) eqn:Herr.
  - injection H as <- <-. split; [exact Hso|]. rewrite Herr. tauto.
  - assert (Hv : v <> NullPtr) by (intros E; apply Hiff in E; congruence).
    destruct (string_at_non_null (data ini1) v Hv) as (s & Hs). rewrite Hs in H.
    apply bind_ok in H. destruct H as (f & _ & H). injection H as <- <-.
    split; [exact Hso|]. rewrite Herr. split; discriminate.
Qed.

Lemma sir__section_key_array_discipline (ini ini' : SirIni)
      (section_name : option (list ascii)) (key_array : list cptr)
      (r : option (list cptr * Z)) :
  tracked ini ->
  sir__section_key_array ini section_name key_array = Ok (r, ini') ->
  slot_only ini ini' /\ (sir_has_error ini' = true <-> r = None).
Proof.
  intros Ht H. unfold sir__section_key_array in H.
  destruct section_name as [name|].
  - apply bind_ok in H. destruct H as ((section & ini1) & Hget & H).
    pose proof (sir__get_section_shape _ _ _ _ Hget) as Hso.
    destruct (sir_has_error ini1) eqn:Herr.
    + injection H as <- <-. split; [exact Hso|]. rewrite Herr. tauto.
    + destruct section as [i|]; [|discriminate].
      apply bind_ok in H. destruct H as (s & _ & H).
      apply bind_ok in H. destruct H as (array & _ & H).
      destruct (_ <? _); [discriminate|]. injection H as <- <-.
      split; [eapply slot_only_trans; [exact Hso|apply slot_only_clear]|].
      rewrite has_error_clear. split; discriminate.
  - injection H as <- <-. split; [apply slot_only_set|].
    rewrite has_error_set_tracked by auto. tauto.
Qed.

(** *** How often each operation writes the slot *)

Lemma writes_after_set (ini ini1 : SirIni) (f : string) (a b : option (list ascii)) :
  tracked ini1 -> error_writes ini1 = error_writes ini -> plain_start f = true ->
  error_writes (sir__set_error ini1 f a b) =
  error_writes ini + (if sir_has_error (sir__set_error ini1 f a b) then 1 else 0).
Proof.
  intros [He Hs _] Hw Hf.
  rewrite has_error_set by assumption. rewrite error_writes_set by assumption. lia.
Qed.

Lemma sir_section_str_writes_tracked (ini ini' : SirIni)
      (section_name key_name : option (list ascii)) (v : cptr) :
  tracked ini ->
  sir_section_str ini section_name key_name = Ok (v, ini') ->
  error_writes ini' = error_writes ini + (if sir_has_error ini' then 1 else 0).
Proof. intros [He Hs _]. apply sir_section_str_writes; assumption. Qed.

(** A leaf of a conversion: the document of the lookup, or one write on
    it. *)
Ltac leaf_writes H Hw Herr Htr :=
  first [ injection H as _ <-; rewrite ?Herr; lia
        | injection H as _ <-; apply writes_after_set; [exact Htr|lia|reflexivity] ].

Lemma sir_section_long_writes (ini ini' : SirIni)
      (section_name key_name : option (list ascii)) (r : Z) :
  tracked ini ->
  sir_section_long ini section_name key_name = Ok (r, ini') ->
  error_writes ini' = error_writes ini + (if sir_has_error ini' then 1 else 0).
Proof.
  intros Ht H. unfold sir_section_long in H.
  apply bind_ok in H. destruct H as ((v & ini1) & Hstr & H).
  pose proof (sir_section_str_writes_tracked _ _ _ _ _ Ht Hstr) as Hw.
  pose proof (tracked_slot_only _ _ (sir_section_str_shape _ _ _ _ _ Hstr) Ht) as Ht1.
  destruct (sir_has_error ini1) eqn:Herr; [leaf_writes H Hw Herr Ht1|].
  destruct (string_at (data ini1) v) as [s|]; [|leaf_writes H Hw Herr Ht1].
  cbv beta iota zeta in H.
  destruct (erange (strtol s)).
  - destruct (converted (strtol s) =? LONG_MAX);
      [|destruct (converted (strtol s) =? LONG_MIN)]; leaf_writes H Hw Herr Ht1.
  - destruct (endptr_is_str (strtol s)); leaf_writes H Hw Herr Ht1.
Qed.

Lemma sir_section_unsigned_long_writes (ini ini' : SirIni)
      (section_name key_name : option (list ascii)) (r : Z) :
  tracked ini ->
  sir_section_unsigned_long ini section_name key_name = Ok (r, ini') ->
  error_writes ini' = error_writes ini + (if sir_has_error ini' then 1 else 0).
Proof.
  intros Ht H. unfold sir_section_unsigned_long in H.
  apply bind_ok in H. destruct H as ((v & ini1) & Hstr & H).
  pose proof (sir_section_str_writes_tracked _ _ _ _ _ Ht Hstr) as Hw.
  pose proof (tracked_slot_only _ _ (sir_section_str_shape _ _ _ _ _ Hstr) Ht) as Ht1.
  destruct (sir_has_error ini1) eqn:Herr; [leaf_writes H Hw Herr Ht1|].
  destruct (string_at (data ini1) v) as [s|]; [|leaf_writes H Hw Herr Ht1].
  cbv beta iota zeta in H.
  destruct (erange (strtoul s)); [leaf_writes H Hw Herr Ht1|].
  destruct (endptr_is_str (strtoul s)); leaf_writes H Hw Herr Ht1.
Qed.

Section DoubleWrites.

Variable double : Type.
Variable zero : double.
Variable strtod : list ascii -> double * bool * bool.
Variable is_HUGE_VAL : double -> bool.
Variable is_neg_HUGE_VAL : double -> bool.

Lemma sir_section_double_writes (ini ini' : SirIni)
      (section_name key_name : option (list ascii)) (r : double) :
  tracked ini ->
  sir_section_double double zero strtod is_HUGE_VAL is_neg_HUGE_VAL
                     ini section_name key_name = Ok (r, ini') ->
  error_writes ini' = error_writes ini + (if sir_has_error ini' then 1 else 0).
Proof.
  intros Ht H. unfold sir_section_double in H.
  apply bind_ok in H. destruct H as ((v & ini1) & Hstr & H).
  pose proof (sir_section_str_writes_tracked _ _ _ _ _ Ht Hstr) as Hw.
  pose proof (tracked_slot_only _ _ (sir_section_str_shape _ _ _ _ _ Hstr) Ht) as Ht1.
  destruct (sir_has_error ini1) eqn:Herr; [leaf_writes H Hw Herr Ht1|].
  destruct (string_at (data ini1) v) as [s|]; [|leaf_writes H Hw Herr Ht1].
  cbv beta iota zeta in H.
  destruct (strtod s) as [[d range_error] no_conversion].
  destruct range_error.
  - destruct (is_HUGE_VAL d); [|destruct (is_neg_HUGE_VAL d)]; leaf_writes H Hw Herr Ht1.
  - destruct no_conversion; leaf_writes H Hw Herr Ht1.
Qed.

End DoubleWrites.

Lemma sir_section_csv_writes (ini ini' : SirIni)
      (section_name key_name : option (list ascii))
      (r : option (list (list ascii) * Z)) :
  tracked ini ->
  sir_section_csv ini section_name key_name = Ok (r, ini') ->
  error_writes ini' = error_writes ini + (if sir_has_error ini' then 1 else 0).
Proof.
  intros Ht H. unfold sir_section_csv in H.
  apply bind_ok in H. destruct H as ((v & ini1) & Hstr & H).
  pose proof (sir_section_str_writes_tracked _ _ _ _ _ Ht Hstr) as Hw.
  pose proof (tracked_slot_only _ _ (sir_section_str_shape _ _ _ _ _ Hstr) Ht) as Ht1.
  destruct (sir_has_error ini1) eqn:Herr; [leaf_writes H Hw Herr Ht1|].
  destruct (string_at (data ini1) v) as [s|]; [|leaf_writes H Hw Herr Ht1].
  cbv beta iota zeta in H.
  apply bind_ok in H. destruct H as (f & _ & H). leaf_writes H Hw Herr Ht1.
Qed.

Lemma sir__section_key_array_writes (ini ini' : SirIni)
      (section_name : option (list ascii)) (key_array : list cptr)
      (r : option (list cptr * Z)) :
  tracked ini ->
  sir__section_key_array ini section_name key_array = Ok (r, ini') ->
  error_writes ini' = error_writes ini + (if sir_has_error ini' then 1 else 0).
Proof.
  intros Ht H. unfold sir__section_key_array in H.
  destruct section_name as [name|].
  - apply bind_ok in H. destruct H as ((section & ini1) & Hget & H).
    unfold sir__get_section in Hget.
    apply bind_ok in Hget. destruct Hget as ([i|] & _ & Hget); injection Hget as <- <-.
    + rewrite has_error_clear in H.
      apply bind_ok in H. destruct H as (s & _ & H).
      apply bind_ok in H. destruct H as (array & _ & H).
      destruct (_ <? _); [discriminate|]. injection H as _ <-.
      rewrite has_error_clear, !error_writes_clear. lia.
    + rewrite has_error_set_tracked in H by auto. injection H as _ <-.
      apply writes_after_set; [exact Ht|reflexivity|reflexivity].
  - injection H as _ <-. apply writes_after_set; [exact Ht|reflexivity|reflexivity].
Qed.

(** [sir_section_bool] writes the slot at most twice: once in its numeric
    conversion and once more when the second lookup or the comparison with
    the literals fails. *)
Lemma sir_section_bool_writes (ini ini' : SirIni)
      (section_name key_name : option (list ascii)) (r : Z) :
  tracked ini ->
  sir_section_bool ini section_name key_name = Ok (r, ini') ->
  error_writes ini <= error_writes ini' <= error_writes ini + 2.
Proof.
  intros Ht H. unfold sir_section_bool in H.
  apply bind_ok in H. destruct H as ((l & ini1) & Hlong & H).
  pose proof (sir_section_long_writes _ _ _ _ _ Ht Hlong) as Hw1.
  destruct (sir_section_long_discipline _ _ _ _ _ Ht Hlong) as [Hso1 _].
  pose proof (tracked_slot_only _ _ Hso1 Ht) as Ht1.
  destruct (sir_has_error ini1) eqn:Herr1; cbn [negb] in H.
  - apply bind_ok in H. destruct H as ((v & ini2) & Hstr & H).
    pose proof (sir_section_str_writes_tracked _ _ _ _ _ Ht1 Hstr) as Hw2.
    pose proof (tracked_slot_only _ _ (sir_section_str_shape _ _ _ _ _ Hstr) Ht1) as Ht2.
    destruct (sir_has_error ini2) eqn:Herr2.
    + injection H as _ <-. lia.
    + destruct (string_at (data ini2) v) as [s|]; [|injection H as _ <-; lia].
      destruct (match_bool_literal (after_whitespace s)) as [b|].
      * injection H as _ <-. lia.
      * injection H as _ <-. rewrite error_writes_set by apply Ht2. lia.
  - injection H as _ <-. lia.
Qed.

Lemma sir_section_long_with_error (ini : SirIni) (e : list ascii)
      (section_name key_name : option (list ascii)) :
  sir__errors_enabled ini = true ->
  sir_section_long (with_error ini e) section_name key_name =
  sir_section_long ini section_name key_name.
Proof.
  intros He. unfold sir_section_long. rewrite sir_section_str_with_error by assumption.
  reflexivity.
Qed.

Lemma sir__section_key_array_with_error (ini : SirIni) (e : list ascii)
      (section_name : option (list ascii)) (key_array : list cptr) :
  sir__errors_enabled ini = true ->
  sir__section_key_array (with_error ini e) section_name key_array =
  sir__section_key_array ini section_name key_array.
Proof.
  intros He. unfold sir__section_key_array. destruct section_name as [name|].
  - rewrite sir__get_section_with_error by assumption. reflexivity.
  - rewrite set_error_with_error by assumption. reflexivity.
Qed.

Lemma error_discipline_intro {R : Type} (op : SirIni -> outcome (R * SirIni))
      (failed : R -> Prop) (writes : Z) (ini : SirIni) :
  (forall e, op (with_error ini e) = op ini) ->
  (forall r ini', op ini = Ok (r, ini') ->
     (slot_only ini ini' /\ (sir_has_error ini' = true <-> failed r)) /\
     error_writes ini <= error_writes ini' <= error_writes ini + writes) ->
  error_discipline op failed writes ini.
Proof.
  intros Hentry Hexit e r ini' H. split; [apply Hentry|].
  rewrite Hentry in H. destruct (Hexit _ _ H) as ((Hso & Hiff) & Hw). auto.
Qed.

Lemma writes_at_most_once (ini ini' : SirIni) :
  error_writes ini' = error_writes ini + (if sir_has_error ini' then 1 else 0) ->
  error_writes ini <= error_writes ini' <= error_writes ini + 1.
Proof. destruct (sir_has_error ini'); lia. Qed.

(** C8, as the code has it.  On a parsed document with error tracking
    enabled, each operation that can fail (the lookup, the four conversions,
    the CSV split, the enumeration of key names and of key values) behaves,
    whatever error a previous call left in the slot, as it does on the slot
    of the fresh document: the earlier error is as good as cleared on entry.
    The operation changes nothing of the document but the slot, and after it
    [sir_has_error] holds exactly when the operation failed: a null result
    for the lookup, the CSV split and the enumerations, -1 for the boolean
    conversion, and for the numeric conversions a failed lookup or a value
    the C library function rejects.  Every success thus leaves the slot
    empty.  The slot is written at most once by every operation but
    [sir_section_bool], which writes it at most twice. *)
Theorem C8_error_slot_discipline
        (s : list ascii) (opts : SirOptions) (ini : SirIni)
        (section_name key_name : option (list ascii))
        (double : Type) (zero : double) (strtod : list ascii -> double * bool * bool)
        (is_HUGE_VAL is_neg_HUGE_VAL : double -> bool) :
  sir_load_from_str s opts = Ok ini ->
  sir__errors_enabled ini = true ->
  error_discipline (fun i => sir_section_str i section_name key_name)
                   (fun v => v = NullPtr) 1 ini /\
  error_discipline (fun i => sir_section_long i section_name key_name)
                   (fun _ => conversion_fails strtol_rejects ini section_name key_name)
                   1 ini /\
  error_discipline (fun i => sir_section_unsigned_long i section_name key_name)
                   (fun _ => conversion_fails strtoul_rejects ini section_name key_name)
                   1 ini /\
  error_discipline (fun i => sir_section_double double zero strtod is_HUGE_VAL
                                                is_neg_HUGE_VAL i section_name key_name)
                   (fun _ => conversion_fails (strtod_rejects double strtod)
                                              ini section_name key_name)
                   1 ini /\
  error_discipline (fun i => sir_section_bool i section_name key_name)
                   (fun b => b = -1) 2 ini /\
  error_discipline (fun i => sir_section_csv i section_name key_name)
                   (fun r => r = None) 1 ini /\
  error_discipline (fun i => sir_section_key_names i section_name)
                   (fun r => r = None) 1 ini /\
  error_discipline (fun i => sir_section_key_values i section_name)
                   (fun r => r = None) 1 ini.
Proof.
  intros Hload He.
  destruct (sir_load_from_str_well_formed _ _ _ Hload) as [Hwf _].
  pose proof (well_formed_tracked _ Hwf He) as Ht.
  repeat apply conj; apply error_discipline_intro.
  all: try (intros e; unfold sir_section_unsigned_long, sir_section_double,
            sir_section_bool, sir_section_csv, sir_section_key_names,
            sir_section_key_values;
            rewrite ?sir_section_str_with_error, ?sir_section_long_with_error,
              ?sir__section_key_array_with_error by assumption; reflexivity).
  - intros r ini' H. split; [eapply sir_section_str_discipline; eassumption|].
    eapply writes_at_most_once, sir_section_str_writes_tracked; eassumption.
  - intros r ini' H. split; [eapply sir_section_long_discipline; eassumption|].
    eapply writes_at_most_once, sir_section_long_writes; eassumption.
  - intros r ini' H. split; [eapply sir_section_unsigned_long_discipline; eassumption|].
    eapply writes_at_most_once, sir_section_unsigned_long_writes; eassumption.
  - intros r ini' H. split; [eapply sir_section_double_discipline; eassumption|].
    eapply writes_at_most_once, sir_section_double_writes; eassumption.
  - intros r ini' H. split; [eapply sir_section_bool_discipline; eassumption|].
    eapply sir_section_bool_writes; eassumption.
  - intros r ini' H. split; [eapply sir_section_csv_discipline; eassumption|].
    eapply writes_at_most_once, sir_section_csv_writes; eassumption.
  - intros r ini' H. split; [eapply sir__section_key_array_discipline; eassumption|].
    eapply writes_at_most_once, sir__section_key_array_writes; eassumption.
  - intros r ini' H. split; [eapply sir__section_key_array_discipline; eassumption|].
    eapply writes_at_most_once, sir__section_key_array_writes; eassumption.
Qed.

Lemma C8_witness :
  sir_has_error (with_error (parsed (lines ["k=12"]) SIR_OPTION_NONE)
                            (list_ascii_of_string "key 'zz' not found")) = true /\
  forall v ini',
    sir_section_str (with_error (parsed (lines ["k=12"]) SIR_OPTION_NONE)
                                (list_ascii_of_string "key 'zz' not found"))
                    None (arg "k") = Ok (v, ini') ->
    v = InData 2 /\ sir_has_error ini' = false.
Proof.
  split; [reflexivity|]. intros v ini' H.
  assert (Hload : sir_load_from_str (lines ["k=12"]) SIR_OPTION_NONE
                  = Ok (parsed (lines ["k=12"]) SIR_OPTION_NONE))
    by (vm_compute; reflexivity).
  assert (He : sir__errors_enabled (parsed (lines ["k=12"]) SIR_OPTION_NONE) = true)
    by (vm_compute; reflexivity).
  destruct (C8_error_slot_discipline _ _ _ None (arg "k") unit tt
              (fun _ => (tt, false, true)) (fun _ => false) (fun _ => false) Hload He)
    as (Hstr & _).
  destruct (Hstr _ _ _ H) as (_ & _ & Hiff & _).
  assert (Hv : v = InData 2).
  { vm_compute in H. injection H as <- _. reflexivity. }
  split; [exact Hv|].
  destruct (sir_has_error ini'); [|reflexivity].
  subst v. destruct Hiff as [Hiff _]. discriminate (Hiff eq_refl).
Defined.

(** One call of [sir_section_bool] on a value that is neither a number nor
    a literal writes the slot twice: its numeric conversion writes that the
    value could not be converted to a long integer, and after the second
    lookup the comparison with the literals writes that the value could not
    be parsed as a bool.  For a key that does not exist the two lookups
    write the same message one after the other. *)
Lemma C8_counterexample :
  exists ini ini1 ini' ini'',
    sir_load_from_str (lines ["k=neither"]) SIR_OPTION_NONE = Ok ini /\
    sir__errors_enabled ini = true /\
    error_writes ini = 0 /\
    sir_section_long ini None (arg "k") = Ok (0, ini1) /\
    string_of_list_ascii (error ini1) =
      "'neither' could not be converted to a long integer." /\
    sir_section_bool ini None (arg "k") = Ok (-1, ini') /\
    string_of_list_ascii (error ini') = "could not parse 'neither' as a bool" /\
    error_writes ini' = 2 /\
    sir_section_bool ini None (arg "zz") = Ok (-1, ini'') /\
    string_of_list_ascii (error ini'') = "key 'zz' not found" /\
    error_writes ini'' = 2.
Proof.
  eexists. eexists. eexists. eexists.
  repeat match goal with
         | |- _ /\ _ => split; [vm_compute; reflexivity|]
         end.
  vm_compute; reflexivity.
Qed.

(** ** The global section *)

Lemma find_key_step (ini : SirIni) (key : list ascii) (j count : nat) (p : cptr) :
  nth_error (key_names ini) j = Some p ->
  find_key ini key (Z.of_nat j) (S count) =
  if key_matches ini key j then Ok (Some (Z.of_nat j))
  else find_key ini key (Z.of_nat (S j)) count.
Proof.
  intros Hp. cbn [find_key]. unfold key_matches.
  rewrite aget_of_nat, Hp. cbn [bind].
  replace (Z.of_nat j + 1) with (Z.of_nat (S j)) by lia.
  destruct (negb (is_null p) && _); reflexivity.
Qed.

Lemma find_key_spec (ini : SirIni) (key : list ascii) (count : nat) :
  forall j : nat,
    (j + count <= length (key_names ini))%nat ->
    (find_key ini key (Z.of_nat j) count = Ok None /\
     forall k, (j <= k < j + count)%nat -> key_matches ini key k = false)
    \/
    (exists k, find_key ini key (Z.of_nat j) count = Ok (Some (Z.of_nat k)) /\
               (j <= k < j + count)%nat /\ key_matches ini key k = true).
Proof.
  induction count as [|count IH]; intros j Hb.
  - left. split; [reflexivity|]. intros k Hk. lia.
  - destruct (nth_error (key_names ini) j) as [p|] eqn:Hp.
    2:{ apply nth_error_None in Hp. lia. }
    rewrite (find_key_step _ _ _ _ _ Hp).
    destruct (key_matches ini key j) eqn:Hm.
    + right. exists j. split; [reflexivity|]. split; [lia|exact Hm].
    + destruct (IH (S j)) as [(Hn & Hno) | (k & Hk & Hr & Hmk)]; [lia| |].
      * left. split; [exact Hn|]. intros k Hk.
        destruct (Nat.eq_dec k j) as [->|]; [exact Hm|apply Hno; lia].
      * right. exists k. split; [exact Hk|]. split; [lia|exact Hmk].
Qed.

Lemma find_key_in_ranges_spec (ini : SirIni) (key : list ascii)
      (rs : list SirSectionRange) :
  Forall (closed_range (Z.of_nat (length (key_names ini)))) rs ->
  (find_key_in_ranges ini key rs = Ok None /\
   forall r k, In r rs -> start r <= Z.of_nat k < end_ r -> key_matches ini key k = false)
  \/
  (exists k, find_key_in_ranges ini key rs = Ok (Some (Z.of_nat k)) /\
             (k < length (key_names ini))%nat /\ key_matches ini key k = true).
Proof.
  induction rs as [|r rs IH]; intros Hc.
  - left. split; [reflexivity|]. intros r k [].
  - inversion Hc as [|r' rs' Hr Hrs]; subst. cbn [find_key_in_ranges].
    unfold closed_range in Hr.
    destruct (find_key_spec ini key (Z.to_nat (end_ r - start r)) (Z.to_nat (start r)))
      as [(Hn & Hno) | (k & Hk & Hrange & Hm)]; [lia| |];
      rewrite Z2Nat.id in * by lia.
    + rewrite Hn. cbn [bind].
      destruct (IH Hrs) as [(Hn' & Hno') | (k & Hk & Hlt & Hm)].
      * left. split; [exact Hn'|]. intros r0 k [<-|Hin] Hk.
        -- apply Hno. lia.
        -- eapply Hno'; eassumption.
      * right. exists k. auto.
    + rewrite Hk. cbn [bind]. right. exists k. split; [reflexivity|]. split; [lia|exact Hm].
Qed.

Lemma key_matches_own_name (ini : SirIni) (j : nat) (p : cptr) (name : list ascii) :
  nth_error (key_names ini) j = Some p -> string_at (data ini) p = Some name ->
  key_matches ini name j = true.
Proof.
  intros Hp Hs. unfold key_matches. rewrite Hp, Hs.
  assert (is_null p = false) as -> by (destruct p; [discriminate|reflexivity|reflexivity]).
  apply str_equal_reflexive.
Qed.

Lemma key_matches_with_error (ini : SirIni) (e : list ascii) (key : list ascii) (k : nat) :
  key_matches (with_error ini e) key k = key_matches ini key k.
Proof. reflexivity. Qed.

Lemma clear_error_idempotent (ini : SirIni) :
  sir__clear_error_str (sir__clear_error_str ini) = sir__clear_error_str ini.
Proof.
  unfold sir__clear_error_str. destruct (sir__errors_enabled ini) eqn:E.
  - rewrite errors_enabled_with_error, E. reflexivity.
  - rewrite E. reflexivity.
Qed.

Lemma slot_only_sections (ini ini' : SirIni) :
  slot_only ini ini' -> sections ini' = sections ini.
Proof. intros H. rewrite H. reflexivity. Qed.

Lemma find_key_in_ranges_slot_only (ini ini' : SirIni) (key : list ascii)
      (rs : list SirSectionRange) :
  slot_only ini ini' -> find_key_in_ranges ini' key rs = find_key_in_ranges ini key rs.
Proof.
  intros H. rewrite H.
  rewrite <- (find_key_in_ranges_with_error ini (error ini')).
  set (i := with_error ini (error ini')).
  replace (with_error_writes i (error_writes ini'))
    with (add_error_writes i (error_writes ini' - error_writes i))
    by (unfold add_error_writes; f_equal; lia).
  apply find_key_in_ranges_add_writes.
Qed.

(** In a well-formed document every key stored in a range of the global
    section is found by the scoped lookup of the global section. *)
Lemma global_section_key_found (ini : SirIni) (s0 : SirSection) (r : SirSectionRange)
      (j : nat) (p : cptr) (name : list ascii) :
  well_formed ini ->
  nth_error (sections ini) 0 = Some s0 -> In r (ranges s0) ->
  start r <= Z.of_nat j < end_ r ->
  nth_error (key_names ini) j = Some p -> string_at (data ini) p = Some name ->
  exists v, sir_section_str ini (Some SIR_GLOBAL_SECTION_NAME) (Some name)
            = Ok (v, sir__clear_error_str ini) /\ is_null v = false.
Proof.
  intros Hwf Hs0 Hr Hj Hp Hname. destruct Hwf.
  assert (Hcount : (1 <= Z.to_nat (section_count ini))%nat).
  { apply nth_error_lt in Hs0. lia. }
  assert (Hget : sir__get_section ini (Some SIR_GLOBAL_SECTION_NAME)
                 = Ok (Some 0, sir__clear_error_str ini)).
  { unfold sir__get_section.
    destruct (Z.to_nat (section_count ini)) as [|c] eqn:E; [lia|].
    cbn [get_section_loop]. change 0 with (Z.of_nat 0). rewrite aget_of_nat, wf_global0.
    cbn [bind is_null negb string_at andb]. rewrite str_equal_reflexive. reflexivity. }
  unfold sir_section_str. rewrite Hget. cbn [bind]. rewrite has_error_clear.
  rewrite clear_error_idempotent.
  pose proof (slot_only_clear ini) as Hso.
  rewrite (slot_only_sections _ _ Hso), (slot_only_key_values _ _ Hso).
  change 0 with (Z.of_nat 0). rewrite aget_of_nat, Hs0. cbn [bind].
  rewrite (find_key_in_ranges_slot_only _ _ _ _ Hso).
  assert (Hclosed : Forall (closed_range (Z.of_nat (length (key_names ini)))) (ranges s0)).
  { rewrite Forall_nth_error in wf_ranges0. rewrite <- wf_key_count0.
    eapply wf_ranges0. exact Hs0. }
  destruct (find_key_in_ranges_spec ini name (ranges s0) Hclosed)
    as [(_ & Hno) | (k & Hk & Hlt & Hm)].
  - pose proof (key_matches_own_name _ _ _ _ Hp Hname) as Hown.
    rewrite (Hno r j Hr Hj) in Hown. discriminate.
  - rewrite Hk. cbn [bind]. rewrite aget_of_nat.
    destruct (nth_error (key_values ini) k) as [v|] eqn:Hv.
    + cbn [bind]. exists v. split; [reflexivity|].
      rewrite Forall_nth_error in wf_key_values0. eapply wf_key_values0. exact Hv.
    + apply nth_error_None in Hv. lia.
Qed.

(** A header whose trimmed name matches "global": the scan of the section
    names stops at index 0, so no section is created; section 0 becomes the
    open one, with a new range unless it was open already. *)
Lemma enter_section_global (st : loader) (secs : list SirSection) (n : Z)
      (buf : list ascii) (name : Z) (r : step) :
  nth_error (section_names (l_ini st)) 0 = Some (Literal SIR_GLOBAL_SECTION_NAME) ->
  0 <= section_index st ->
  sir__str_equal (options (l_ini st)) (Some SIR_GLOBAL_SECTION_NAME)
                 (string_at buf (InData name)) = true ->
  enter_section st secs n buf name = Ok r ->
  section_index (step_state r) = section_index st /\
  prev_index (step_state r) = 0 /\
  section_names (l_ini (step_state r)) = section_names (l_ini st) /\
  key_index (step_state r) = key_index st /\
  (prev_index st = 0 -> sections (l_ini (step_state r)) = secs) /\
  (prev_index st <> 0 ->
   exists s0, nth_error secs 0 = Some s0 /\
              aset secs 0 (mkSection (ranges s0 ++ [mkRange (key_index st) 0]))
              = Ok (sections (l_ini (step_state r)))).
Proof.
  intros Hg Hsidx Heq H. unfold enter_section in H.
  replace (Z.to_nat (section_index st + 1)) with (S (Z.to_nat (section_index st))) in H
    by lia.
  cbn [find_duplicate_section] in H.
  change 0 with (Z.of_nat 0) in H at 1. rewrite aget_of_nat, Hg in H.
  cbn [bind string_at] in H. cbn [string_at] in Heq. rewrite Heq in H.
  cbn [bind] in H. change (negb (Z.of_nat 0 =? -1)) with true in H. cbv iota in H.
  change (Z.of_nat 0) with 0 in H.
  destruct (Z.eqb_spec 0 (prev_index st)) as [Hp|Hp]; cbn [negb bind] in H.
  - destruct (n =? -1); injection H as <-;
      cbn [step_state section_index prev_index key_index l_ini with_section_names
           with_sections with_data section_names sections];
      (split; [reflexivity|]); (split; [reflexivity|]); (split; [reflexivity|]);
      (split; [reflexivity|]); (split; [reflexivity|]); intros E; congruence.
  - apply bind_ok in H. destruct H as ((((secs' & names') & prev') & sidx') & Hb & H).
    apply bind_ok in Hb. destruct Hb as (secs1 & Hb & Hb').
    injection Hb' as <- <- <- <-.
    apply bind_ok in Hb. destruct Hb as (s0 & Hs0 & Hset).
    apply aget_nth_error in Hs0. destruct Hs0 as [_ Hs0].
    destruct (n =? -1); injection H as <-;
      cbn [step_state section_index prev_index key_index l_ini with_section_names
           with_sections with_data section_names sections];
      (split; [reflexivity|]); (split; [reflexivity|]); (split; [reflexivity|]);
      (split; [reflexivity|]); (split; [intros E; congruence|]);
      intros _; exists s0; (split; [exact Hs0|exact Hset]).
Qed.

(** The header [global] met while the global section is still open appends
    no range: section 0 keeps the single range that spans both keys. *)
Lemma global_header_while_open_adds_no_range :
  exists ini,
    sir_load_from_str (lines ["k=1"; "[global]"; "j=2"]) SIR_OPTION_NONE = Ok ini /\
    strings_of ini (section_names ini) = [Some "global"] /\
    sections ini = [mkSection [mkRange 0 2]].
Proof.
  eexists. split; [vm_compute; reflexivity|].
  split; vm_compute; reflexivity.
Qed.

(** A key written under a [global] header whose name does not occur in the
    section created last is stored in the second range of section 0 and
    found by the scoped lookup of "global", like the key written before the
    first header. *)
Lemma global_key_found_after_other_section :
  exists ini v1 v2,
    sir_load_from_str (lines ["k=1"; "[a]"; "x=2"; "[ global ]"; "j=3"]) SIR_OPTION_NONE
    = Ok ini /\
    strings_of ini (section_names ini) = [Some "global"; Some "a"] /\
    map ranges (sections ini) = [[mkRange 0 1; mkRange 2 3]; [mkRange 1 2]] /\
    sir_section_str ini (Some SIR_GLOBAL_SECTION_NAME) (arg "k")
    = Ok (v1, sir__clear_error_str ini) /\
    sir_section_str ini (Some SIR_GLOBAL_SECTION_NAME) (arg "j")
    = Ok (v2, sir__clear_error_str ini) /\
    strings_of ini [v1; v2] = [Some "1"; Some "3"].
Proof.
  eexists. eexists. eexists. split; [vm_compute; reflexivity|].
  repeat split; vm_compute; reflexivity.
Qed.

(** C10.  A [global] header creates no section and section 0 stays the
    global one, but a key written under a [global] header that follows
    another section goes through the duplicate scan of the section created
    last.  In the text below [k] under [global] is taken for the [k] of [b]
    and dropped: the global section holds no key and its scoped lookup of
    [k] returns null with the error set.  Under the override policy the line
    overwrites the value of [b]'s key instead, and the lookup in the global
    section still fails. *)
Theorem C10_key_under_global_header_lost :
  (exists ini ini',
      sir_load_from_str (lines ["[b]"; "k=1"; "[global]"; "k=2"]) SIR_OPTION_NONE = Ok ini /\
      strings_of ini (section_names ini) = [Some "global"; Some "b"] /\
      map ranges (sections ini) = [[mkRange 0 0; mkRange 1 1]; [mkRange 0 1]] /\
      strings_of ini (key_names ini) = [Some "k"] /\
      strings_of ini (key_values ini) = [Some "1"] /\
      sir_section_str ini (Some SIR_GLOBAL_SECTION_NAME) (arg "k") = Ok (NullPtr, ini') /\
      sir_has_error ini' = true)
  /\
  (exists ini ini1 ini2 v,
      sir_load_from_str (lines ["[b]"; "k=1"; "[global]"; "k=2"])
                        SIR_OPTION_OVERRIDE_DUPLICATE_KEYS = Ok ini /\
      strings_of ini (key_values ini) = [Some "2"] /\
      sir_section_str ini (Some SIR_GLOBAL_SECTION_NAME) (arg "k") = Ok (NullPtr, ini1) /\
      sir_has_error ini1 = true /\
      sir_section_str ini (arg "b") (arg "k") = Ok (v, ini2) /\
      strings_of ini [v] = [Some "2"]).
Proof.
  split.
  - eexists. eexists. split; [vm_compute; reflexivity|].
    repeat split; vm_compute; reflexivity.
  - eexists. eexists. eexists. eexists. split; [vm_compute; reflexivity|].
    repeat split; vm_compute; reflexivity.
Qed.

(** ** The loader never runs out of fuel *)

Lemma no_fuel_bind {A B : Type} (m : outcome A) (k : A -> outcome B) :
  no_fuel m -> (forall a, no_fuel (k a)) -> no_fuel (bind m k).
Proof. unfold no_fuel. destruct m; cbn; auto; intros; congruence. Qed.

Lemma no_fuel_ok {A : Type} (a : A) : no_fuel (Ok a).
Proof. discriminate. Qed.

Lemma no_fuel_fault {A : Type} : no_fuel (@Fault A).
Proof. discriminate. Qed.

Lemma no_fuel_aget {A : Type} (l : list A) (i : Z) : no_fuel (aget l i).
Proof.
  unfold aget. destruct (i <? 0); [apply no_fuel_fault|].
  destruct (nth_error l (Z.to_nat i)); [apply no_fuel_ok|apply no_fuel_fault].
Qed.

Lemma no_fuel_aset {A : Type} (l : list A) (i : Z) (x : A) : no_fuel (aset l i x).
Proof.
  unfold aset. destruct (i <? 0); [apply no_fuel_fault|].
  destruct (replace_nth l (Z.to_nat i) x); [apply no_fuel_ok|apply no_fuel_fault].
Qed.

Lemma no_fuel_trim (buf : list ascii) (str : Z) : no_fuel (sir__trim_whitespace buf str).
Proof.
  unfold sir__trim_whitespace. destruct (_ <? 0); [apply no_fuel_fault|].
  destruct (trim_back _ _); [apply no_fuel_ok|apply no_fuel_fault].
Qed.

Ltac no_fuel_step :=
  first [ apply no_fuel_bind; [|intros]
        | apply no_fuel_ok | apply no_fuel_fault | apply no_fuel_aget
        | apply no_fuel_aset | apply no_fuel_trim
        | match goal with
          | |- no_fuel (let '(_, _) := ?x in _) => destruct x
          | |- no_fuel (match ?x with _ => _ end) => destruct x
          | |- no_fuel (if ?x then _ else _) => destruct x
          end ].

Lemma no_fuel_close_last_range (secs : list SirSection) (i v : Z) :
  no_fuel (close_last_range secs i v).
Proof. unfold close_last_range. repeat no_fuel_step. Qed.

Lemma no_fuel_find_duplicate_section (opts : SirOptions) (buf : list ascii)
      (names : list cptr) (name : option (list ascii)) (i : Z) (count : nat) :
  no_fuel (find_duplicate_section opts buf names name i count).
Proof.
  revert i. induction count as [|count IH]; intros i; cbn [find_duplicate_section].
  - apply no_fuel_ok.
  - apply no_fuel_bind; [apply no_fuel_aget|]. intros p.
    destruct (sir__str_equal _ _ _); [apply no_fuel_ok|apply IH].
Qed.

Lemma no_fuel_scan_keys (opts : SirOptions) (buf : list ascii) (names : list cptr)
      (key : option (list ascii)) (j : Z) (count : nat) (d : Z) :
  no_fuel (scan_keys opts buf names key j count d).
Proof.
  revert j. induction count as [|count IH]; intros j; cbn [scan_keys].
  - apply no_fuel_ok.
  - apply no_fuel_bind; [apply no_fuel_aget|]. intros p.
    destruct (sir__str_equal _ _ _); [apply no_fuel_ok|apply IH].
Qed.

Lemma no_fuel_scan_ranges (opts : SirOptions) (buf : list ascii) (names : list cptr)
      (key : option (list ascii)) (rs : list SirSectionRange) (ki d : Z) :
  no_fuel (scan_ranges opts buf names key rs ki d).
Proof.
  revert d. induction rs as [|r rs IH]; intros d; cbn [scan_ranges].
  - apply no_fuel_ok.
  - apply no_fuel_bind; [apply no_fuel_scan_keys|]. intros d'. apply IH.
Qed.

Lemma no_fuel_load_section (st : loader) : no_fuel (load_section st).
Proof.
  unfold load_section, read_section_name, enter_section.
  apply no_fuel_bind.
  - apply no_fuel_bind; [apply no_fuel_close_last_range|]. intros secs.
    repeat no_fuel_step.
  - intros [[[secs n] buf] name].
    apply no_fuel_bind; [apply no_fuel_find_duplicate_section|]. intros dup.
    repeat no_fuel_step.
Qed.

Lemma no_fuel_load_key (st : loader) : no_fuel (load_key st).
Proof.
  unfold load_key, find_duplicate_key, read_value, apply_value.
  destruct (sir__parse_to_assignment_char _ _ _) as [n buf0].
  apply no_fuel_bind; [apply no_fuel_trim|]. intros [buf1 key_name].
  apply no_fuel_bind.
  { apply no_fuel_bind; [apply no_fuel_aget|]. intros s. apply no_fuel_scan_ranges. }
  intros dup. repeat no_fuel_step.
Qed.

Lemma sir__parse_to_char_count (buf buf' : list ascii) (str n : Z) (c : ascii) :
  sir__parse_to_char buf str c = (n, buf') -> -1 <= n /\ length buf' = length buf.
Proof.
  unfold sir__parse_to_char, sir__skip_to_char.
  pose proof (skip_to_char_nonneg (tail_at buf str) c).
  destruct (is_nul _); intros H'; injection H' as <- <-.
  - split; [lia|reflexivity].
  - split; [lia|apply store_length].
Qed.

Lemma sir__parse_to_assignment_char_count (opts : SirOptions) (buf buf' : list ascii)
      (str n : Z) :
  sir__parse_to_assignment_char opts buf str = (n, buf') ->
  -1 <= n /\ length buf' = length buf.
Proof.
  unfold sir__parse_to_assignment_char.
  destruct (has_option _ _); [apply sir__parse_to_char_count|].
  destruct (_ <? _); apply sir__parse_to_char_count.
Qed.

Lemma sir__trim_whitespace_length (buf buf' : list ascii) (str str' : Z) :
  sir__trim_whitespace buf str = Ok (buf', str') -> length buf' = length buf.
Proof.
  unfold sir__trim_whitespace. destruct (_ <? 0); [discriminate|].
  destruct (trim_back _ _); [|discriminate].
  intros H. injection H as <- _. apply store_length.
Qed.

Lemma load_section_progress (st st' : loader) :
  load_section st = Ok (Continue st') ->
  l_str st < l_str st' /\ length (data (l_ini st')) = length (data (l_ini st)).
Proof.
  unfold load_section, read_section_name, enter_section. intros H.
  apply bind_ok in H. destruct H as ((((secs & n) & buf) & name) & Hread & H).
  apply bind_ok in Hread. destruct Hread as (secs0 & _ & Hread).
  destruct (sir__parse_to_char _ _ _) as [n0 buf0] eqn:Hparse.
  apply bind_ok in Hread. destruct Hread as ((buf1 & name1) & Htrim & Hread).
  injection Hread as _ <- <- _.
  apply sir__parse_to_char_count in Hparse. destruct Hparse as [Hn Hl0].
  apply sir__trim_whitespace_length in Htrim.
  apply bind_ok in H. destruct H as (dup & _ & H).
  apply bind_ok in H. destruct H as ((((secs' & names') & prev') & sidx') & _ & H).
  destruct (Z.eqb_spec n0 (-1)); [discriminate|].
  injection H as <-. cbn [l_str l_ini with_section_names with_sections with_data data].
  split; [lia|congruence].
Qed.

Lemma read_value_progress (opts : SirOptions) (buf buf' : list ascii) (str n str' : Z)
      (v : cptr) :
  0 <= n ->
  read_value opts buf str n = Ok (buf', str', v) ->
  str < str' /\ length buf' = length buf.
Proof.
  intros Hn. unfold read_value.
  destruct (Z.eqb_spec n (-1)); [lia|]. cbn [negb].
  destruct (_ && _).
  - pose proof (skip_to_char_nonneg (tail_at buf (str + (n + 1))) DQUOTE) as Hs.
    unfold sir__skip_to_char.
    destruct (sir__parse_to_char _ _ _) as [m b] eqn:Hparse.
    apply sir__parse_to_char_count in Hparse. destruct Hparse as [Hm Hl].
    intros H. injection H as <- <- _. split; [lia|exact Hl].
  - destruct (sir__parse_to_char _ _ _) as [m b] eqn:Hparse.
    apply sir__parse_to_char_count in Hparse. destruct Hparse as [Hm Hl].
    intros H. apply bind_ok in H. destruct H as ((b1 & kv) & Htrim & H).
    apply sir__trim_whitespace_length in Htrim.
    injection H as <- <- _. split; [lia|congruence].
Qed.

Lemma load_key_progress (st st' : loader) :
  load_key st = Ok (Continue st') ->
  l_str st < l_str st' /\ length (data (l_ini st')) = length (data (l_ini st)).
Proof.
  unfold load_key. intros H.
  destruct (sir__parse_to_assignment_char _ _ _) as [n buf0] eqn:Hparse.
  apply sir__parse_to_assignment_char_count in Hparse. destruct Hparse as [Hn Hl0].
  apply bind_ok in H. destruct H as ((buf1 & key_name) & Htrim & H).
  apply sir__trim_whitespace_length in Htrim.
  apply bind_ok in H. destruct H as (dup & _ & H).
  apply bind_ok in H. destruct H as (((buf2 & str2) & kv) & Hval & H).
  apply bind_ok in H. destruct H as (((names & values) & kidx) & _ & H).
  destruct (Z.eqb_spec n (-1)); [discriminate|].
  apply read_value_progress in Hval; [|lia]. destruct Hval as [Hstr Hl2].
  injection H as <-. cbn [l_str l_ini with_key_values with_key_names with_data data].
  split; [lia|congruence].
Qed.

Lemma load_nonnul_in_bounds (buf : list ascii) (p : Z) :
  0 <= p -> is_nul (load buf p) = false -> p < Z.of_nat (length buf).
Proof.
  intros Hp H. destruct (Z.ltb_spec p (Z.of_nat (length buf))); [assumption|].
  unfold load in H. rewrite nth_overflow in H by lia. discriminate.
Qed.

Lemma no_fuel_bind_ok {A B : Type} (m : outcome A) (k : A -> outcome B) :
  no_fuel m -> (forall a, m = Ok a -> no_fuel (k a)) -> no_fuel (bind m k).
Proof. unfold no_fuel. destruct m; cbn; auto; intros; congruence. Qed.

Lemma load_loop_no_fuel (fuel : nat) :
  forall st : loader,
    0 <= l_str st ->
    Z.of_nat (length (data (l_ini st))) - l_str st < Z.of_nat fuel ->
    (1 <= fuel)%nat ->
    no_fuel (load_loop fuel st).
Proof.
  induction fuel as [|fuel IH]; intros st Hstr Hfuel H1.
  - lia.
  - cbn [load_loop].
    destruct (is_nul (load (data (l_ini st)) (l_str st))) eqn:Hnul; [apply no_fuel_ok|].
    pose proof (load_nonnul_in_bounds _ _ Hstr Hnul) as Hin.
    pose proof (skip_whitespace_nonneg (tail_at (data (l_ini st)) (l_str st))) as Hws.
    unfold sir__skip_whitespace.
    set (str1 := l_str st + skip_whitespace (tail_at (data (l_ini st)) (l_str st))) in *.
    set (st1 := mkLoader (l_ini st) str1 (prev_index st) (section_index st) (key_index st)).
    destruct (Ascii.eqb _ SIR__SECTION_NAME_OPEN_CHAR).
    + apply no_fuel_bind_ok; [apply no_fuel_load_section|]. intros r Hr.
      destruct r as [st2|st2]; [|apply no_fuel_ok].
      apply load_section_progress in Hr. cbn [l_str l_ini st1] in Hr.
      apply IH; lia.
    + destruct (is_nul (load (data (l_ini st)) str1)) eqn:Hnul1; cbn [negb].
      * assert (str1 <> l_str st) by (intros E; rewrite E in Hnul1; congruence).
        apply IH; cbn [l_str l_ini st1]; lia.
      * apply no_fuel_bind_ok; [apply no_fuel_load_key|]. intros r Hr.
        destruct r as [st2|st2]; [|apply no_fuel_ok].
        apply load_key_progress in Hr. cbn [l_str l_ini st1] in Hr.
        apply IH; lia.
Qed.

Lemma blank_comment_length (s : list ascii) :
  length (fst (blank_comment s)) = length s /\ 0 <= snd (blank_comment s).
Proof.
  induction s as [|c t IH]; cbn [blank_comment]; [cbn; lia|].
  destruct (negb (is_nul c) && negb (Ascii.eqb c LF)); [|cbn; lia].
  destruct (blank_comment t) as [t' n]. cbn [fst snd length] in *. lia.
Qed.

Lemma strip_and_count_no_fuel (fuel : nat) (opts : SirOptions) :
  forall (buf : list ascii) (str sc kc : Z),
    0 <= str ->
    Z.of_nat (length buf) - str < Z.of_nat fuel -> (1 <= fuel)%nat ->
    no_fuel (strip_and_count fuel opts buf str sc kc).
Proof.
  induction fuel as [|fuel IH]; intros buf str sc kc Hstr Hfuel H1; [lia|].
  cbn [strip_and_count].
  destruct (Z.of_nat (length buf) <? str); [apply no_fuel_fault|].
  destruct (is_nul (load buf str)) eqn:Hnul; [apply no_fuel_ok|].
  pose proof (load_nonnul_in_bounds _ _ Hstr Hnul) as Hin.
  pose proof (blank_comment_length (tail_at buf str)) as [Hbl Hbn].
  destruct (blank_comment (tail_at buf str)) as [t n]. cbn [fst snd] in Hbl, Hbn.
  match goal with
  | |- context [if ?c then (firstn ?a ?b ++ t, str + n) else (buf, str)] =>
      assert (Hpair : exists buf1 str1,
                 (if c then (firstn a b ++ t, str + n) else (buf, str)) = (buf1, str1) /\
                 length buf1 = length buf /\ str <= str1);
      [destruct c; eexists; eexists; (split; [reflexivity|]); [|split; [reflexivity|lia]]|]
  end.
  { split; [|lia]. rewrite length_app, length_firstn, Hbl.
    unfold tail_at. rewrite length_skipn. lia. }
  destruct Hpair as (buf1 & str1 & -> & Hl1 & Hs1).
  apply IH; lia.
Qed.

Lemma skip_to_assignment_char_nonneg (opts : SirOptions) (s : list ascii) :
  0 <= skip_to_assignment_char opts s.
Proof.
  induction s as [|c t IH]; cbn [skip_to_assignment_char]; [lia|].
  destruct (negb (is_nul c) && negb (sir__is_assignment_char opts c)); lia.
Qed.

Lemma check_warnings_no_fuel (fuel : nat) (opts : SirOptions) (buf : list ascii) :
  forall str : Z,
    0 <= str ->
    Z.of_nat (length buf) - str < Z.of_nat fuel -> (1 <= fuel)%nat ->
    no_fuel (check_warnings fuel opts buf str).
Proof.
  induction fuel as [|fuel IH]; intros str Hstr Hfuel H1; [lia|].
  cbn [check_warnings].
  destruct (Z.of_nat (length buf) <? str); [apply no_fuel_fault|].
  destruct (is_nul (load buf str)) eqn:Hnul; [apply no_fuel_ok|].
  pose proof (load_nonnul_in_bounds _ _ Hstr Hnul) as Hin.
  pose proof (skip_whitespace_nonneg (tail_at buf str)) as Hws.
  unfold sir__skip_whitespace, sir__skip_to_char.
  set (str1 := str + skip_whitespace (tail_at buf str)) in *.
  destruct (Ascii.eqb (load buf str1) SIR__SECTION_NAME_OPEN_CHAR).
  - pose proof (skip_to_char_nonneg (tail_at buf str1) SIR__SECTION_NAME_CLOSE_CHAR).
    apply IH; lia.
  - pose proof (skip_to_assignment_char_nonneg opts (tail_at buf str1)).
    set (str2 := str1 + skip_to_assignment_char opts (tail_at buf str1) + 1) in *.
    destruct (Z.of_nat (length buf) <? str2); [apply no_fuel_fault|].
    pose proof (skip_to_char_nonneg (tail_at buf str2) SIR__KEY_END_CHAR).
    apply IH; lia.
Qed.

(** The fuel given to the loops of [sir_load_from_str] always suffices: the
    loader returns a document or faults. *)
Theorem sir_load_from_str_no_fuel (s : list ascii) (opts : SirOptions) :
  sir_load_from_str s opts <> Fuel.
Proof.
  change (no_fuel (sir_load_from_str s opts)). unfold sir_load_from_str.
  apply no_fuel_bind_ok.
  { apply strip_and_count_no_fuel; lia. }
  intros [[buf sc] kc] Hstrip.
  apply no_fuel_bind.
  { destruct (has_option opts SIR_OPTION_DISABLE_WARNINGS); [apply no_fuel_ok|].
    apply check_warnings_no_fuel; lia. }
  intros _.
  apply no_fuel_bind_ok.
  { unfold initial_ini. repeat no_fuel_step. }
  intros ini Hini.
  apply strip_and_count_counts in Hstrip. destruct Hstrip as [Hsc Hkc].
  destruct (initial_ini_inv _ _ _ _ _ Hsc Hkc Hini) as (_ & Hdata & _).
  apply no_fuel_bind_ok.
  { apply load_loop_no_fuel; cbn [l_str l_ini]; [lia| |lia]. rewrite Hdata. lia. }
  intros st _.
  apply no_fuel_bind; [apply no_fuel_close_last_range|]. intros secs.
  apply no_fuel_ok.
Qed.

(** ** The lookups return on every well-formed document *)

Lemma well_formed_slot_only (ini ini' : SirIni) :
  slot_only ini ini' -> well_formed ini -> well_formed ini'.
Proof.
  intros H Hwf. rewrite H. destruct Hwf. constructor; assumption.
Qed.

Lemma get_section_loop_total (ini : SirIni) (name : list ascii) (count : nat) :
  forall i : nat,
    (i + count <= length (section_names ini))%nat ->
    get_section_loop ini name (Z.of_nat i) count = Ok None \/
    exists k, get_section_loop ini name (Z.of_nat i) count = Ok (Some (Z.of_nat k)) /\
              (k < length (section_names ini))%nat.
Proof.
  induction count as [|count IH]; intros i Hb; cbn [get_section_loop]; [auto|].
  rewrite aget_of_nat.
  destruct (nth_error (section_names ini) i) as [p|] eqn:Hp.
  2:{ apply nth_error_None in Hp. lia. }
  cbn [bind]. destruct (negb (is_null p) && _).
  - right. exists i. split; [reflexivity|lia].
  - replace (Z.of_nat i + 1) with (Z.of_nat (S i)) by lia. apply IH. lia.
Qed.

Lemma global_scan_total (ini : SirIni) (key : list ascii) (count : nat) :
  forall (i : nat) (kv : cptr),
    length (key_values ini) = length (key_names ini) ->
    (i + count <= length (key_names ini))%nat ->
    exists r, global_scan ini key (Z.of_nat i) count kv = Ok r.
Proof.
  induction count as [|count IH]; intros i kv Hl Hb; [eexists; reflexivity|].
  destruct (nth_error_both ini i Hl) as (p & v & Hp & Hv); [lia|].
  rewrite (global_scan_step _ _ _ _ _ _ _ Hp Hv).
  destruct (key_matches ini key i).
  - destruct (has_option _ _); [apply IH; [assumption|lia]|eexists; reflexivity].
  - apply IH; [assumption|lia].
Qed.

(** On a well-formed document [sir_section_str] never faults. *)
Theorem sir_section_str_total (ini : SirIni)
        (section_name key_name : option (list ascii)) :
  well_formed ini ->
  exists v ini', sir_section_str ini section_name key_name = Ok (v, ini').
Proof.
  intros Hwf. unfold sir_section_str.
  destruct key_name as [key|]; [|eexists; eexists; reflexivity].
  assert (Hglobal : forall i, slot_only ini i ->
            exists v ini',
              (do r <- global_scan i key 0 (Z.to_nat (key_count i)) NullPtr;
               match r with
               | inl v => Ok (v, sir__clear_error_str i)
               | inr v =>
                   if negb (is_null v) then Ok (v, sir__clear_error_str i)
                   else Ok (NullPtr, sir__set_error i "key '%' not found" (Some key) None)
               end) = Ok (v, ini')).
  { intros i Hi. pose proof (well_formed_slot_only _ _ Hi Hwf) as Hwfi. destruct Hwfi.
    destruct (global_scan_total i key (Z.to_nat (key_count i)) 0 NullPtr) as (r & Hr);
      [assumption|lia|].
    change (Z.of_nat 0) with 0 in Hr. rewrite Hr. cbn [bind].
    destruct r as [v|v]; [eexists; eexists; reflexivity|].
    destruct (negb (is_null v)); eexists; eexists; reflexivity. }
  destruct section_name as [name|].
  2:{ cbn [bind]. apply Hglobal. apply slot_only_refl. }
  unfold sir__get_section.
  pose proof Hwf as Hwf'. destruct Hwf'.
  destruct (get_section_loop_total ini name (Z.to_nat (section_count ini)) 0)
    as [Hn | (k & Hk & Hlt)]; [lia| |]; change (Z.of_nat 0) with 0 in *.
  - rewrite Hn. cbn [bind].
    destruct (sir_has_error _); [eexists; eexists; reflexivity|].
    apply Hglobal. apply slot_only_set.
  - rewrite Hk. cbn [bind].
    destruct (sir_has_error _); [eexists; eexists; reflexivity|].
    pose proof (slot_only_clear ini) as Hso.
    rewrite (slot_only_sections _ _ Hso), (slot_only_key_values _ _ Hso).
    rewrite aget_of_nat.
    destruct (nth_error (sections ini) k) as [sec|] eqn:Hsec.
    2:{ apply nth_error_None in Hsec. lia. }
    cbn [bind]. rewrite (find_key_in_ranges_slot_only _ _ _ _ Hso).
    assert (Hclosed : Forall (closed_range (Z.of_nat (length (key_names ini))))
                             (ranges sec)).
    { rewrite Forall_nth_error in wf_ranges0. rewrite <- wf_key_count0.
      eapply wf_ranges0. exact Hsec. }
    destruct (find_key_in_ranges_spec ini key (ranges sec) Hclosed)
      as [(Hnone & _) | (j & Hj & Hjl & _)].
    + rewrite Hnone. cbn [bind]. eexists; eexists; reflexivity.
    + rewrite Hj. cbn [bind]. rewrite aget_of_nat.
      destruct (nth_error (key_values ini) j) as [v|] eqn:Hv.
      * cbn [bind]. eexists; eexists; reflexivity.
      * apply nth_error_None in Hv. lia.
Qed.

(** So do the integer and boolean conversions. *)
Theorem sir_section_bool_total (ini : SirIni)
        (section_name key_name : option (list ascii)) :
  well_formed ini ->
  (exists l ini', sir_section_long ini section_name key_name = Ok (l, ini')) /\
  (exists b ini', sir_section_bool ini section_name key_name = Ok (b, ini')).
Proof.
  intros Hwf.
  assert (Hlong : forall i, slot_only ini i ->
            exists l i', sir_section_long i section_name key_name = Ok (l, i') /\
                         slot_only ini i').
  { intros i Hi. pose proof (well_formed_slot_only _ _ Hi Hwf) as Hwfi.
    destruct (sir_section_str_total i section_name key_name Hwfi) as (v & i1 & Hstr).
    pose proof (slot_only_trans _ _ _ Hi (sir_section_str_shape _ _ _ _ _ Hstr)) as Hs1.
    unfold sir_section_long. rewrite Hstr. cbn [bind].
    destruct (if sir_has_error i1 then None else string_at (data i1) v) as [s|].
    - destruct (erange (strtol s)).
      + destruct (_ =? _); [|destruct (_ =? _)]; eexists; eexists;
          (split; [reflexivity|]);
          (eapply slot_only_trans; [exact Hs1|apply slot_only_set]).
      + destruct (endptr_is_str (strtol s)); eexists; eexists;
          (split; [reflexivity|]);
          [eapply slot_only_trans; [exact Hs1|apply slot_only_set]|exact Hs1].
    - eexists; eexists. split; [reflexivity|exact Hs1]. }
  split.
  - destruct (Hlong ini (slot_only_refl ini)) as (l & i' & H & _). eauto.
  - destruct (Hlong ini (slot_only_refl ini)) as (l & i1 & H & Hs1).
    unfold sir_section_bool. rewrite H. cbn [bind].
    destruct (negb (sir_has_error i1)); [eexists; eexists; reflexivity|].
    pose proof (well_formed_slot_only _ _ Hs1 Hwf) as Hwf1.
    destruct (sir_section_str_total i1 section_name key_name Hwf1) as (v & i2 & Hstr).
    rewrite Hstr. cbn [bind].
    destruct (if sir_has_error i2 then None else string_at (data i2) v) as [s|].
    + destruct (match_bool_literal _); eexists; eexists; reflexivity.
    + eexists; eexists; reflexivity.
Qed.

(** * Further properties of the reader *)

(** * Further properties of the reader *)

(** ** The first pass *)

Lemma blank_comment_spec (s : list ascii) :
  exists com rest,
    s = com ++ rest /\
    blank_comment s = (repeat " "%char (length com) ++ rest, Z.of_nat (length com)) /\
    Forall (fun c => c <> LF /\ c <> NUL) com /\
    (rest = [] \/ exists c r, rest = c :: r /\ (c = LF \/ c = NUL)).
Proof.
  induction s as [|c t IH].
  - exists [], []. cbn. auto.
  - cbn [blank_comment].
    destruct (is_nul c) eqn:Hn; cbn [negb andb].
    + exists [], (c :: t). cbn. split; [reflexivity|]. split; [reflexivity|].
      split; [constructor|]. right. exists c, t. split; [reflexivity|].
      right. apply is_nul_true. exact Hn.
    + destruct (Ascii.eqb c LF) eqn:Hl; cbn [negb].
      * exists [], (c :: t). cbn. split; [reflexivity|]. split; [reflexivity|].
        split; [constructor|]. right. exists c, t. split; [reflexivity|].
        left. apply Ascii.eqb_eq. exact Hl.
      * destruct IH as (com & rest & Hs & Hb & Hc & Hr).
        exists (c :: com), rest. rewrite Hb. cbn [length repeat app].
        split; [rewrite Hs; reflexivity|].
        split; [f_equal; lia|].
        split; [|exact Hr].
        constructor; [|exact Hc]. split.
        -- apply Ascii.eqb_neq. exact Hl.
        -- apply is_nul_false. exact Hn.
Qed.

Lemma load_app_length (pre rest : list ascii) :
  load (pre ++ rest) (Z.of_nat (length pre)) = hd NUL rest.
Proof.
  unfold load. rewrite Nat2Z.id. rewrite app_nth2 by lia.
  rewrite Nat.sub_diag. destruct rest; reflexivity.
Qed.

Lemma tail_at_app_length (pre rest : list ascii) :
  tail_at (pre ++ rest) (Z.of_nat (length pre)) = rest.
Proof.
  unfold tail_at. rewrite Nat2Z.id. rewrite skipn_app, Nat.sub_diag, skipn_all.
  reflexivity.
Qed.

Lemma firstn_app_length (pre rest : list ascii) :
  firstn (Z.to_nat (Z.of_nat (length pre))) (pre ++ rest) = pre.
Proof.
  rewrite Nat2Z.id. rewrite firstn_app, Nat.sub_diag, firstn_all. cbn.
  apply app_nil_r.
Qed.

(** What is counted for one character of the stripped text. *)
Lemma strip_and_count_past_end (fuel : nat) (opts : SirOptions) (buf : list ascii)
      (str sc kc : Z) (r : list ascii * Z * Z) :
  Z.of_nat (length buf) < str -> strip_and_count fuel opts buf str sc kc <> Ok r.
Proof.
  intros H. destruct fuel as [|fuel]; cbn [strip_and_count]; [discriminate|].
  destruct (Z.ltb_spec (Z.of_nat (length buf)) str); [discriminate|lia].
Qed.

Lemma strip_and_count_app (fuel : nat) (opts : SirOptions) :
  forall (pre rest : list ascii) (sc kc : Z) (buf' : list ascii) (sc' kc' : Z),
    nul_free rest ->
    strip_and_count fuel opts (pre ++ rest) (Z.of_nat (length pre)) sc kc
    = Ok (buf', sc', kc') ->
    exists rest',
      buf' = pre ++ rest' /\
      nul_free rest' /\
      Forall2 (fun a b => b = a \/ (b = " "%char /\ a <> LF)) rest rest' /\
      sc' = sc + Z.of_nat (length (filter (fun c => Ascii.eqb c SIR__SECTION_NAME_OPEN_CHAR)
                                          rest')) /\
      kc' = kc + Z.of_nat (length (filter (sir__is_assignment_char opts) rest')) /\
      (has_option opts SIR_OPTION_DISABLE_COMMENT_ANYWHERE = false ->
       Forall (fun c => sir__is_comment_char opts c = false) rest').
Proof.
  induction fuel as [|fuel IH]; intros pre rest sc kc buf' sc' kc' Hnf H;
    [discriminate|].
  cbn [strip_and_count] in H.
  destruct (Z.ltb_spec (Z.of_nat (length (pre ++ rest))) (Z.of_nat (length pre)));
    [rewrite length_app in *; lia|].
  rewrite load_app_length in H.
  destruct rest as [|c0 rest1].
  { cbn [hd] in H. change (is_nul NUL) with true in H. injection H as <- <- <-.
    exists []. cbn [filter length]. rewrite !Z.add_0_r.
    split; [reflexivity|]. split; [intros x []|]. split; [constructor|].
    split; [reflexivity|]. split; [reflexivity|]. intros _. constructor. }
  cbn [hd] in H.
  assert (Hc0 : is_nul c0 = false) by (apply is_nul_false, Hnf; left; reflexivity).
  rewrite Hc0 in H.
  rewrite tail_at_app_length, firstn_app_length in H.
  match type of H with
  | context [if ?cond then _ else (pre ++ c0 :: rest1, Z.of_nat (length pre))] =>
      destruct cond eqn:Hcond
  end.
  - (* a comment is blanked *)
    destruct (blank_comment_spec (c0 :: rest1)) as (com & rest2 & Hs & Hb & Hcom & Hr).
    rewrite Hb in H.
    set (blanks := repeat " "%char (length com)) in *.
    assert (Hbl : length blanks = length com) by apply repeat_length.
    assert (Hnf2 : nul_free rest2).
    { intros x Hx. apply Hnf. rewrite Hs. apply in_or_app. auto. }
    destruct Hr as [-> | (c & rest3 & -> & Hc)].
    + exfalso. revert H. rewrite app_nil_r.
      apply strip_and_count_past_end. rewrite !length_app, Hbl. lia.
    + destruct Hc as [-> | ->];
        [|exfalso; apply (Hnf2 NUL); [left; reflexivity|reflexivity]].
      assert (Hload : load (pre ++ blanks ++ LF :: rest3)
                           (Z.of_nat (length pre) + Z.of_nat (length com)) = LF).
      { replace (pre ++ blanks ++ LF :: rest3) with ((pre ++ blanks) ++ LF :: rest3)
          by (rewrite <- app_assoc; reflexivity).
        replace (Z.of_nat (length pre) + Z.of_nat (length com))
          with (Z.of_nat (length (pre ++ blanks))) by (rewrite length_app, Hbl; lia).
        apply load_app_length. }
      rewrite Hload in H. cbn [Ascii.eqb] in H.
      change (Ascii.eqb LF SIR__SECTION_NAME_OPEN_CHAR) with false in H.
      assert (Hlf : sir__is_assignment_char opts LF = false).
      { unfold sir__is_assignment_char. cbn. apply andb_false_r. }
      rewrite Hlf in H.
      replace (pre ++ blanks ++ LF :: rest3) with ((pre ++ blanks ++ [LF]) ++ rest3) in H
        by (rewrite <- !app_assoc; reflexivity).
      replace (Z.of_nat (length pre) + Z.of_nat (length com) + 1)
        with (Z.of_nat (length (pre ++ blanks ++ [LF]))) in H
        by (rewrite !length_app, Hbl; cbn [length]; lia).
      apply IH in H; [|intros x Hx; apply Hnf2; right; exact Hx].
      destruct H as (rest' & -> & Hnf' & Hf2 & -> & -> & Hcm).
      exists (blanks ++ LF :: rest'). rewrite <- !app_assoc. split; [reflexivity|].
      assert (Hblank : Forall (fun c => c = " "%char) blanks).
      { apply Forall_forall. intros x Hx. apply repeat_spec in Hx. exact Hx. }
      split; [|split; [|split; [|split]]].
      * intros x Hx. apply in_app_or in Hx. destruct Hx as [Hx|[<-|Hx]].
        -- rewrite Forall_forall in Hblank. rewrite (Hblank x Hx). discriminate.
        -- discriminate.
        -- apply Hnf'. exact Hx.
      * rewrite Hs. apply Forall2_app.
        -- clear - Hcom Hbl. unfold blanks. clear Hbl.
           induction Hcom as [|a com Ha Hcom IHc]; cbn; constructor; [|exact IHc].
           right. split; [reflexivity|tauto].
        -- constructor; [left; reflexivity|exact Hf2].
      * rewrite filter_app, length_app. cbn [filter].
        change (Ascii.eqb LF SIR__SECTION_NAME_OPEN_CHAR) with false.
        assert (E : filter (fun c => Ascii.eqb c SIR__SECTION_NAME_OPEN_CHAR) blanks = []).
        { clear - Hblank. induction Hblank as [|a l Ha Hl IHl]; [reflexivity|].
          cbn. subst a. cbn. exact IHl. }
        rewrite E. cbn [length]. lia.
      * rewrite filter_app, length_app. cbn [filter]. rewrite Hlf.
        assert (E : filter (sir__is_assignment_char opts) blanks = []).
        { clear - Hblank. induction Hblank as [|a l Ha Hl IHl]; [reflexivity|].
          cbn [filter]. subst a.
          assert (sir__is_assignment_char opts " "%char = false) as ->
              by (unfold sir__is_assignment_char; cbn; apply andb_false_r).
          exact IHl. }
        rewrite E. cbn [length]. lia.
      * intros Hany. apply Forall_app. split.
        -- eapply Forall_impl; [|exact Hblank]. intros a ->.
           unfold sir__is_comment_char. cbn. apply andb_false_r.
        -- constructor; [unfold sir__is_comment_char; cbn; apply andb_false_r|auto].
  - (* the character is kept *)
    rewrite load_app_length in H. cbn [hd] in H.
    replace (pre ++ c0 :: rest1) with ((pre ++ [c0]) ++ rest1) in H
      by (rewrite <- app_assoc; reflexivity).
    replace (Z.of_nat (length pre) + 1) with (Z.of_nat (length (pre ++ [c0]))) in H
      by (rewrite length_app; cbn [length]; lia).
    apply IH in H; [|intros x Hx; apply Hnf; right; exact Hx].
    destruct H as (rest' & -> & Hnf' & Hf2 & -> & -> & Hcm).
    exists (c0 :: rest'). rewrite <- app_assoc. split; [reflexivity|].
    split; [|split; [|split; [|split]]].
    + intros x [<-|Hx]; [apply is_nul_false; exact Hc0|apply Hnf'; exact Hx].
    + constructor; [left; reflexivity|exact Hf2].
    + cbn [filter]. destruct (Ascii.eqb c0 SIR__SECTION_NAME_OPEN_CHAR); cbn [length]; lia.
    + cbn [filter]. destruct (Ascii.eqb c0 SIR__SECTION_NAME_OPEN_CHAR) eqn:E.
      * apply Ascii.eqb_eq in E. subst c0.
        assert (sir__is_assignment_char opts SIR__SECTION_NAME_OPEN_CHAR = false) as ->
            by (unfold sir__is_assignment_char; cbn; apply andb_false_r).
        lia.
      * destruct (sir__is_assignment_char opts c0); cbn [length]; lia.
    + intros Hany. constructor; [|auto].
      rewrite Hany in Hcond. cbn [negb orb andb] in Hcond.
      rewrite andb_true_r in Hcond. exact Hcond.
Qed.

Lemma strip_and_count_open_comment (fuel : nat) (opts : SirOptions) :
  forall (pre a : list ascii) (c : ascii) (b : list ascii) (sc kc : Z)
         (r : list ascii * Z * Z),
    has_option opts SIR_OPTION_DISABLE_COMMENT_ANYWHERE = false ->
    nul_free (a ++ c :: b) ->
    sir__is_comment_char opts c = true -> ~ In LF b ->
    strip_and_count fuel opts (pre ++ a ++ c :: b) (Z.of_nat (length pre)) sc kc <> Ok r.
Proof.
  induction fuel as [|fuel IH]; intros pre a c b sc kc r Hany Hnf Hc Hb H;
    [discriminate|].
  cbn [strip_and_count] in H.
  destruct (Z.ltb_spec (Z.of_nat (length (pre ++ a ++ c :: b))) (Z.of_nat (length pre)));
    [rewrite length_app in *; lia|].
  rewrite load_app_length in H.
  assert (HcLF : c <> LF).
  { intros ->. unfold sir__is_comment_char in Hc. cbn in Hc.
    rewrite andb_false_r in Hc. discriminate. }
  assert (Hhd : is_nul (hd NUL (a ++ c :: b)) = false).
  { apply is_nul_false. destruct a; cbn [app hd]; apply Hnf; left; reflexivity. }
  rewrite Hhd in H.
  rewrite tail_at_app_length, firstn_app_length in H.
  rewrite Hany in H. cbn [negb orb] in H. rewrite andb_true_r in H.
  destruct (sir__is_comment_char opts (hd NUL (a ++ c :: b))) eqn:Hcm.
  - destruct (blank_comment_spec (a ++ c :: b)) as (com & rest2 & Hs & Hbc & Hcom & Hr).
    rewrite Hbc in H.
    set (blanks := repeat " "%char (length com)) in *.
    assert (Hbl : length blanks = length com) by apply repeat_length.
    destruct Hr as [-> | (x & rest3 & -> & Hx)].
    + revert H. rewrite app_nil_r.
      apply strip_and_count_past_end. rewrite !length_app, Hbl. lia.
    + destruct Hx as [-> | ->].
      2:{ apply (Hnf NUL); [|reflexivity]. rewrite Hs. apply in_or_app. right. left.
          reflexivity. }
      (* the line feed that ends the comment lies before [c] *)
      assert (Hlen : (length com < length a)%nat).
      { destruct (Nat.lt_ge_cases (length com) (length a)) as [Hlt|Hge]; [exact Hlt|].
        exfalso.
        destruct (app_eq_shorter _ _ _ _ Hs Hge) as [m Hm].
        rewrite Hm, <- app_assoc in Hs. apply app_inv_head in Hs.
        destruct m as [|y m].
        - cbn in Hs. injection Hs as E _. apply HcLF. exact E.
        - cbn in Hs. injection Hs as _ Hs.
          apply Hb. rewrite Hs. apply in_or_app. right. left. reflexivity. }
      assert (Hsplit : exists a', a = com ++ LF :: a' /\ rest3 = a' ++ c :: b).
      { symmetry in Hs.
        destruct (app_eq_shorter _ _ _ _ Hs (Nat.lt_le_incl _ _ Hlen)) as [m Hm].
        subst a. rewrite <- app_assoc in Hs. apply app_inv_head in Hs.
        destruct m as [|y m]; [rewrite length_app in Hlen; cbn in Hlen; lia|].
        cbn in Hs. injection Hs as <- ->. exists m. auto. }
      destruct Hsplit as (a' & -> & ->).
      assert (Hload : load (pre ++ blanks ++ LF :: a' ++ c :: b)
                           (Z.of_nat (length pre) + Z.of_nat (length com)) = LF).
      { replace (pre ++ blanks ++ LF :: a' ++ c :: b)
          with ((pre ++ blanks) ++ LF :: a' ++ c :: b)
          by (rewrite <- app_assoc; reflexivity).
        replace (Z.of_nat (length pre) + Z.of_nat (length com))
          with (Z.of_nat (length (pre ++ blanks))) by (rewrite length_app, Hbl; lia).
        apply load_app_length. }
      rewrite Hload in H.
      change (Ascii.eqb LF SIR__SECTION_NAME_OPEN_CHAR) with false in H.
      replace (pre ++ blanks ++ LF :: a' ++ c :: b)
        with ((pre ++ blanks ++ [LF]) ++ a' ++ c :: b) in H
        by (rewrite <- !app_assoc; reflexivity).
      replace (Z.of_nat (length pre) + Z.of_nat (length com) + 1)
        with (Z.of_nat (length (pre ++ blanks ++ [LF]))) in H
        by (rewrite !length_app, Hbl; cbn [length]; lia).
      revert H. apply IH; try assumption.
      intros y Hy. apply Hnf. rewrite <- app_assoc. apply in_or_app. right. right. exact Hy.
  - destruct a as [|a0 a']; [cbn [app hd] in Hcm; congruence|].
    cbn [app hd] in H.
    rewrite load_app_length in H. cbn [hd] in H.
    replace (pre ++ a0 :: a' ++ c :: b) with ((pre ++ [a0]) ++ a' ++ c :: b) in H
      by (rewrite <- app_assoc; reflexivity).
    replace (Z.of_nat (length pre) + 1) with (Z.of_nat (length (pre ++ [a0]))) in H
      by (rewrite length_app; cbn [length]; lia).
    revert H. apply IH; try assumption.
    intros y Hy. apply Hnf. right. exact Hy.
Qed.

(** X1.  The first loop of [sir_load_from_str] on a text without NUL, when
    it returns: the buffer keeps its length and its line feeds; a character
    is either kept or replaced by a space, and a line feed is never
    replaced; the section count is one more than the number of '[' left in
    the text and the key count is the number of assignment characters left
    in it, so the arrays are sized for what the stripped text can hold; and
    under the default comment policy no comment character is left. *)
Theorem X1_first_pass_strips_and_counts
        (s : list ascii) (opts : SirOptions) (buf : list ascii) (sc kc : Z) :
  nul_free s ->
  strip_and_count (S (S (length s))) opts s 0 1 0 = Ok (buf, sc, kc) ->
  length buf = length s /\
  nul_free buf /\
  Forall2 (fun a b => b = a \/ (b = " "%char /\ a <> LF)) s buf /\
  sc = 1 + Z.of_nat (length (filter (fun c => Ascii.eqb c SIR__SECTION_NAME_OPEN_CHAR) buf)) /\
  kc = Z.of_nat (length (filter (sir__is_assignment_char opts) buf)) /\
  (has_option opts SIR_OPTION_DISABLE_COMMENT_ANYWHERE = false ->
   Forall (fun c => sir__is_comment_char opts c = false) buf).
Proof.
  intros Hnf H.
  destruct (strip_and_count_app _ opts [] s 1 0 buf sc kc Hnf H)
    as (rest' & -> & Hnf' & Hf2 & -> & -> & Hcm).
  cbn [app]. split; [symmetry; eapply Forall2_length; exact Hf2|].
  split; [exact Hnf'|]. split; [exact Hf2|]. split; [reflexivity|].
  split; [reflexivity|exact Hcm].
Qed.

Lemma X1_witness :
  exists buf,
    strip_and_count 14 SIR_OPTION_NONE (lines ["k=1 ;c"; "[a]#"]) 0 1 0 = Ok (buf, 2, 1) /\
    buf = lines ["k=1   "; "[a] "].
Proof.
  eexists. split; [vm_compute; reflexivity|].
  assert (Hnf : nul_free (lines ["k=1 ;c"; "[a]#"])).
  { intros x Hx. vm_compute in Hx. intuition (subst; discriminate). }
  destruct (X1_first_pass_strips_and_counts
              (lines ["k=1 ;c"; "[a]#"]) SIR_OPTION_NONE
              (lines ["k=1   "; "[a] "]) 2 1 Hnf eq_refl) as (_ & _ & _ & _ & _ & _).
  reflexivity.
Defined.

(** X2.  Under the default comment policy, a text whose last line holds a
    comment character and no line feed after it cannot be loaded: the first
    loop blanks the comment up to the terminator, steps over the terminator
    and reads outside the text. *)
Theorem X2_comment_without_final_newline_faults
        (a : list ascii) (c : ascii) (b : list ascii) (opts : SirOptions) :
  has_option opts SIR_OPTION_DISABLE_COMMENT_ANYWHERE = false ->
  nul_free (a ++ c :: b) ->
  sir__is_comment_char opts c = true -> ~ In LF b ->
  sir_load_from_str (a ++ c :: b) opts = Fault.
Proof.
  intros Hany Hnf Hc Hb. unfold sir_load_from_str.
  destruct (strip_and_count (S (S (length (a ++ c :: b)))) opts (a ++ c :: b) 0 1 0)
    as [r| |] eqn:E; [|reflexivity|].
  - exfalso. revert E.
    apply (strip_and_count_open_comment _ opts [] a c b 1 0 r); assumption.
  - exfalso. revert E. apply strip_and_count_no_fuel; lia.
Qed.

Lemma X2_witness :
  sir_load_from_str (list_ascii_of_string "k=1 ;note") SIR_OPTION_NONE = Fault.
Proof.
  apply (X2_comment_without_final_newline_faults
           (list_ascii_of_string "k=1 ") ";"%char (list_ascii_of_string "note")
           SIR_OPTION_NONE).
  - reflexivity.
  - intros x Hx. vm_compute in Hx. intuition (subst; discriminate).
  - reflexivity.
  - intros Hx. vm_compute in Hx. intuition discriminate.
Defined.

(** ** The error message *)






(** ** String comparison *)

Lemma sir__str_equal_case_spec (a b : option (list ascii)) (ci : bool) :
  sir__str_equal_case a b ci = true <->
  option_map (fun s => map (folded ci) (c_string s)) a =
  option_map (fun s => map (folded ci) (c_string s)) b.
Proof.
  destruct a as [a|], b as [b|]; cbn [sir__str_equal_case option_map].
  - rewrite str_equal_loop_spec. split; [intros ->; reflexivity|].
    intros H. injection H as H. exact H.
  - split; discriminate.
  - split; discriminate.
  - tauto.
Qed.

Lemma folded_sensitive (c : ascii) : folded false c = c.
Proof. reflexivity. Qed.

(** X4.  [sir__str_equal_case] compares two strings up to their first NUL:
    it answers 1 exactly when the two strings are equal character by
    character, each character first mapped by [sir__to_lowercase] when the
    comparison is case-insensitive.  Two null pointers are equal and a null
    pointer equals no string.  The comparison is therefore reflexive,
    symmetric and transitive, and strings equal in the case-sensitive sense
    are equal in the case-insensitive sense. *)
Theorem X4_str_equal_case_is_an_equivalence (ci : bool) :
  (forall a b : list ascii,
      sir__str_equal_case (Some a) (Some b) ci = true <->
      map (folded ci) (c_string a) = map (folded ci) (c_string b)) /\
  sir__str_equal_case None None ci = true /\
  (forall a : list ascii,
      sir__str_equal_case None (Some a) ci = false /\
      sir__str_equal_case (Some a) None ci = false) /\
  (forall a, sir__str_equal_case a a ci = true) /\
  (forall a b, sir__str_equal_case a b ci = sir__str_equal_case b a ci) /\
  (forall a b c,
      sir__str_equal_case a b ci = true -> sir__str_equal_case b c ci = true ->
      sir__str_equal_case a c ci = true) /\
  (forall a b,
      sir__str_equal_case a b false = true -> sir__str_equal_case a b true = true).
Proof.
  split; [intros a b; apply str_equal_loop_spec|].
  split; [reflexivity|]. split; [intros a; split; reflexivity|].
  split; [intros a; apply sir__str_equal_case_spec; reflexivity|].
  split.
  { intros a b.
    destruct (sir__str_equal_case a b ci) eqn:E1, (sir__str_equal_case b a ci) eqn:E2;
      try reflexivity.
    - apply sir__str_equal_case_spec in E1. symmetry in E1.
      apply sir__str_equal_case_spec in E1. congruence.
    - apply sir__str_equal_case_spec in E2. symmetry in E2.
      apply sir__str_equal_case_spec in E2. congruence. }
  split.
  { intros a b c H1 H2. apply sir__str_equal_case_spec.
    apply sir__str_equal_case_spec in H1, H2. congruence. }
  intros a b H. apply sir__str_equal_case_spec. apply sir__str_equal_case_spec in H.
  destruct a as [a|], b as [b|]; cbn [option_map] in *; try discriminate; try reflexivity.
  injection H as H. f_equal.
  assert (Hid : forall l : list ascii, map (folded false) l = l).
  { induction l as [|x l IHl]; cbn; [reflexivity|]. rewrite IHl. reflexivity. }
  rewrite !Hid in H. rewrite H. reflexivity.
Qed.

(** ** Buffers as concatenations *)

Lemma load_at_length (pre rest : list ascii) (p : Z) :
  p = Z.of_nat (length pre) -> load (pre ++ rest) p = hd NUL rest.
Proof.
  intros ->. unfold load. rewrite Nat2Z.id. rewrite app_nth2 by lia.
  rewrite Nat.sub_diag. destruct rest; reflexivity.
Qed.

Lemma tail_at_length (pre rest : list ascii) (p : Z) :
  p = Z.of_nat (length pre) -> tail_at (pre ++ rest) p = rest.
Proof.
  intros ->. unfold tail_at. rewrite Nat2Z.id.
  rewrite skipn_app, Nat.sub_diag, skipn_all. reflexivity.
Qed.

Lemma store_at_length (pre rest : list ascii) (p : Z) (c : ascii) :
  p = Z.of_nat (length pre) ->
  store (pre ++ rest) p c = pre ++ match rest with [] => [] | _ :: r => c :: r end.
Proof.
  intros ->. unfold store. rewrite Nat2Z.id.
  rewrite firstn_app, Nat.sub_diag, firstn_all. cbn [firstn]. rewrite app_nil_r.
  rewrite skipn_app, Nat.sub_diag, skipn_all. reflexivity.
Qed.

Lemma c_string_app_end (s post : list ascii) :
  nul_free s -> ends_string post -> c_string (s ++ post) = s.
Proof.
  intros Hs Hp. induction s as [|c t IH]; cbn [app c_string].
  - destruct post as [|x post]; [reflexivity|]. unfold ends_string in Hp. cbn in Hp.
    subst x. reflexivity.
  - assert (is_nul c = false) as -> by (apply is_nul_false, Hs; left; reflexivity).
    rewrite IH; [reflexivity|]. intros x Hx. apply Hs. right. exact Hx.
Qed.

Lemma strlen_app_end (s post : list ascii) :
  nul_free s -> ends_string post -> strlen (s ++ post) = Z.of_nat (length s).
Proof. intros Hs Hp. rewrite strlen_c_string, c_string_app_end by assumption. reflexivity. Qed.

Lemma skip_whitespace_app_stop (w rest : list ascii) :
  whitespace w -> negb (is_nul (hd NUL rest)) && le_space (hd NUL rest) = false ->
  skip_whitespace (w ++ rest) = Z.of_nat (length w).
Proof.
  intros Hw Hr. induction Hw as [|c w [Hn Hs] Hw IH]; cbn [app].
  - destruct rest as [|x rest]; [reflexivity|]. cbn [hd] in Hr. cbn [skip_whitespace].
    rewrite Hr. reflexivity.
  - cbn [skip_whitespace]. rewrite Hn, Hs. cbn [negb andb]. rewrite IH.
    cbn [length]. lia.
Qed.

Lemma skip_to_char_app_stop (s rest : list ascii) (c : ascii) :
  nul_free s -> ~ In c s ->
  is_nul (hd NUL rest) || Ascii.eqb (hd NUL rest) c = true ->
  skip_to_char (s ++ rest) c = Z.of_nat (length s).
Proof.
  intros Hs Hc Hr. induction s as [|x s IH]; cbn [app].
  - destruct rest as [|y rest]; [reflexivity|]. cbn [hd] in Hr. cbn [skip_to_char].
    destruct (is_nul y); [reflexivity|]. cbn [orb] in Hr. rewrite Hr. reflexivity.
  - cbn [skip_to_char].
    assert (is_nul x = false) as -> by (apply is_nul_false, Hs; left; reflexivity).
    assert (Ascii.eqb x c = false) as ->.
    { apply Ascii.eqb_neq. intros ->. apply Hc. left. reflexivity. }
    cbn [negb andb]. rewrite IH.
    + cbn [length]. lia.
    + intros y Hy. apply Hs. right. exact Hy.
    + intros Hy. apply Hc. right. exact Hy.
Qed.

Lemma trim_back_app (a : list ascii) (x : ascii) :
  le_space x = false ->
  forall b rest : list ascii,
    Forall (fun c => le_space c = true) b ->
    trim_back (a ++ x :: b ++ rest) (length a + length b) = Some (length a).
Proof.
  intros Hx b. induction b as [|y b IH] using rev_ind; intros rest Hb.
  - cbn [app length]. rewrite Nat.add_0_r.
    destruct (length a) as [|n] eqn:E; cbn [trim_back].
    + destruct a; [|discriminate]. cbn. rewrite Hx. reflexivity.
    + rewrite app_nth2 by lia. rewrite E, Nat.sub_diag. cbn [nth]. rewrite Hx. reflexivity.
  - rewrite length_app. cbn [length].
    replace (length a + (length b + 1))%nat with (S (length a + length b)) by lia.
    cbn [trim_back].
    assert (Hy : nth (S (length a + length b)) (a ++ x :: (b ++ [y]) ++ rest) NUL = y).
    { rewrite app_nth2 by lia.
      replace (S (length a + length b) - length a)%nat with (S (length b)) by lia.
      cbn [nth]. rewrite <- app_assoc. rewrite app_nth2 by lia.
      rewrite Nat.sub_diag. reflexivity. }
    rewrite Hy.
    apply Forall_app in Hb. destruct Hb as [Hb Hyy].
    inversion Hyy as [|? ? Hys _]; subst. rewrite Hys.
    rewrite <- app_assoc. apply IH. exact Hb.
Qed.

Lemma trim_back_all_space (buf : list ascii) (q : nat) :
  (forall k, (k <= q)%nat -> le_space (nth k buf NUL) = true) ->
  trim_back buf q = None.
Proof.
  induction q as [|q IH]; intros H; cbn [trim_back].
  - rewrite (H 0%nat) by lia. reflexivity.
  - rewrite (H (S q)) by lia. apply IH. intros k Hk. apply H. lia.
Qed.

(** ** [sir__trim_whitespace] *)

(** The buffer and the string [sir__trim_whitespace] leaves. *)
Lemma sir__trim_whitespace_app
        (pre w t ws post : list ascii) (x : ascii) :
  whitespace w -> nul_free t -> le_space (hd x (t ++ [x])) = false ->
  le_space x = false -> x <> NUL ->
  whitespace ws -> ends_string post ->
  sir__trim_whitespace (pre ++ w ++ (t ++ [x]) ++ ws ++ post) (Z.of_nat (length pre)) =
  Ok (pre ++ w ++ (t ++ [x]) ++
        match ws ++ post with [] => [] | _ :: r => NUL :: r end,
      Z.of_nat (length (pre ++ w))) /\
  c_string (tail_at (pre ++ w ++ (t ++ [x]) ++
                       match ws ++ post with [] => [] | _ :: r => NUL :: r end)
                    (Z.of_nat (length (pre ++ w)))) = t ++ [x].
Proof.
  intros Hw Ht Hhd Hx Hxn Hws Hpost. unfold whitespace in Hws.
  assert (Hnf : nul_free (t ++ [x])).
  { intros y Hy. apply in_app_or in Hy. destruct Hy as [Hy|[<-|[]]]; [apply Ht, Hy|exact Hxn]. }
  assert (Hwsn : nul_free ws).
  { intros y Hy. rewrite Forall_forall in Hws. destruct (Hws y Hy) as [Hn _].
    apply is_nul_false. exact Hn. }
  split.
  - unfold sir__trim_whitespace, sir__skip_whitespace.
    rewrite tail_at_length by reflexivity.
    rewrite skip_whitespace_app_stop; [|exact Hw|].
    2:{ destruct t as [|t0 t]; cbn [app hd] in *; rewrite Hhd; apply andb_false_r. }
    replace (Z.of_nat (length pre) + Z.of_nat (length w))
      with (Z.of_nat (length (pre ++ w))) by (rewrite length_app; lia).
    replace (pre ++ w ++ (t ++ [x]) ++ ws ++ post)
      with ((pre ++ w) ++ ((t ++ [x]) ++ ws) ++ post)
      by (rewrite <- !app_assoc; reflexivity).
    rewrite tail_at_length by reflexivity.
    rewrite strlen_app_end; [| |exact Hpost].
    2:{ intros y Hy. apply in_app_or in Hy. destruct Hy; [apply Hnf|apply Hwsn]; assumption. }
    rewrite !length_app. cbn [length].
    destruct (Z.ltb_spec (Z.of_nat (length pre + length w) +
                          Z.of_nat (length t + 1 + length ws) - 1) 0); [lia|].
    replace ((pre ++ w) ++ ((t ++ [x]) ++ ws) ++ post)
      with ((pre ++ w ++ t) ++ x :: ws ++ post)
      by (rewrite <- !app_assoc; reflexivity).
    replace (Z.to_nat (Z.of_nat (length pre + length w) +
                       Z.of_nat (length t + 1 + length ws) - 1))
      with (length (pre ++ w ++ t) + length ws)%nat
      by (rewrite !length_app; lia).
    rewrite trim_back_app; [|exact Hx|].
    2:{ eapply Forall_impl; [|exact Hws]. intros a [_ Ha]. exact Ha. }
    f_equal. f_equal.
    replace ((pre ++ w ++ t) ++ x :: ws ++ post)
      with ((pre ++ w ++ t ++ [x]) ++ ws ++ post)
      by (rewrite <- !app_assoc; reflexivity).
    rewrite store_at_length by (rewrite !length_app; cbn [length]; lia).
    rewrite <- !app_assoc. reflexivity.
  - replace (pre ++ w ++ (t ++ [x]) ++ match ws ++ post with [] => [] | _ :: r => NUL :: r end)
      with ((pre ++ w) ++ (t ++ [x]) ++ match ws ++ post with [] => [] | _ :: r => NUL :: r end)
      by (rewrite <- !app_assoc; reflexivity).
    rewrite tail_at_length by reflexivity.
    apply c_string_app_end; [exact Hnf|].
    destruct (ws ++ post); reflexivity.
Qed.

(** X5.  [sir__trim_whitespace] on a string that holds a character above
    ' ': the leading whitespace [w] is stepped over, one NUL is written
    right after the last character above ' ', and the string returned is
    the text [t] between the leading and the trailing whitespace.  Nothing
    else of the buffer changes. *)
Theorem X5_trim_whitespace
        (pre w t ws post : list ascii) (x : ascii) :
  whitespace w -> nul_free t -> le_space (hd x (t ++ [x])) = false ->
  le_space x = false -> x <> NUL ->
  whitespace ws -> ends_string post ->
  sir__trim_whitespace (pre ++ w ++ (t ++ [x]) ++ ws ++ post) (Z.of_nat (length pre)) =
  Ok (pre ++ w ++ (t ++ [x]) ++
        match ws ++ post with [] => [] | _ :: r => NUL :: r end,
      Z.of_nat (length (pre ++ w))) /\
  c_string (tail_at (pre ++ w ++ (t ++ [x]) ++
                       match ws ++ post with [] => [] | _ :: r => NUL :: r end)
                    (Z.of_nat (length (pre ++ w)))) = t ++ [x].
Proof.
  intros Hw Ht Hhd Hx Hxn Hws Hpost.
  exact (sir__trim_whitespace_app pre w t ws post x Hw Ht Hhd Hx Hxn Hws Hpost).
Qed.

Lemma X5_witness :
  sir__trim_whitespace (list_ascii_of_string "k=  a b  ") 2 =
  Ok (list_ascii_of_string "k=  a b" ++ [NUL; " "%char], 4).
Proof.
  destruct (X5_trim_whitespace (list_ascii_of_string "k=") (list_ascii_of_string "  ")
              (list_ascii_of_string "a ") (list_ascii_of_string "  ") []
              "b"%char) as [H _].
  - repeat constructor.
  - intros y Hy. vm_compute in Hy. intuition (subst; discriminate).
  - reflexivity.
  - reflexivity.
  - discriminate.
  - repeat constructor.
  - reflexivity.
  - exact H.
Defined.

(** X6.  [sir__trim_whitespace] on a blank string (nothing but whitespace
    before its terminator) computes [strlen - 1] as -1 and walks backwards
    through the bytes in front of the string.  When every byte from the
    start of the buffer to the terminator is at most ' ' (NUL included) the
    walk leaves the buffer: an access outside it.  Otherwise the NUL is
    written right after the nearest character above ' ' in front of the
    string, which cuts the whitespace that ended the text before it. *)
Theorem X6_trim_whitespace_blank
        (pre w post : list ascii) :
  whitespace w -> ends_string post ->
  ((forall c, In c (pre ++ w) -> le_space c = true) ->
   sir__trim_whitespace (pre ++ w ++ post) (Z.of_nat (length pre)) = Fault) /\
  (forall a x b,
      pre ++ w = a ++ x :: b -> le_space x = false ->
      (forall c, In c b -> le_space c = true) ->
      sir__trim_whitespace (pre ++ w ++ post) (Z.of_nat (length pre)) =
      Ok (a ++ x :: match b ++ post with [] => [] | _ :: r => NUL :: r end,
          Z.of_nat (length (pre ++ w)))).
Proof.
  intros Hw Hpost.
  assert (Hskip : sir__skip_whitespace (pre ++ w ++ post) (Z.of_nat (length pre))
                  = Z.of_nat (length w)).
  { unfold sir__skip_whitespace. rewrite tail_at_length by reflexivity.
    apply skip_whitespace_app_stop; [exact Hw|].
    unfold ends_string in Hpost. rewrite Hpost. reflexivity. }
  assert (Hlen : strlen (tail_at (pre ++ w ++ post)
                                 (Z.of_nat (length pre) + Z.of_nat (length w))) = 0).
  { replace (pre ++ w ++ post) with ((pre ++ w) ++ [] ++ post)
      by (rewrite <- app_assoc; reflexivity).
    rewrite tail_at_length by (rewrite length_app; lia).
    apply (strlen_app_end [] post); [intros y []|exact Hpost]. }
  split.
  - intros Hall. unfold sir__trim_whitespace. rewrite Hskip, Hlen.
    destruct (Z.ltb_spec (Z.of_nat (length pre) + Z.of_nat (length w) + 0 - 1) 0);
      [reflexivity|].
    rewrite trim_back_all_space; [reflexivity|].
    intros k Hk. rewrite app_assoc. rewrite app_nth1 by (rewrite length_app; lia).
    apply Hall. apply nth_In. rewrite length_app. lia.
  - intros a x b Hsplit Hx Hb. unfold sir__trim_whitespace. rewrite Hskip, Hlen.
    assert (Hl : (length pre + length w = length a + S (length b))%nat).
    { rewrite <- length_app, Hsplit, length_app. reflexivity. }
    destruct (Z.ltb_spec (Z.of_nat (length pre) + Z.of_nat (length w) + 0 - 1) 0); [lia|].
    rewrite app_assoc, Hsplit.
    replace ((a ++ x :: b) ++ post) with (a ++ x :: b ++ post)
      by (rewrite <- app_assoc; reflexivity).
    replace (Z.to_nat (Z.of_nat (length pre) + Z.of_nat (length w) + 0 - 1))
      with (length a + length b)%nat by lia.
    rewrite trim_back_app; [|exact Hx|apply Forall_forall; exact Hb].
    f_equal. f_equal.
    + replace (a ++ x :: b ++ post) with ((a ++ [x]) ++ b ++ post)
        by (rewrite <- app_assoc; reflexivity).
      rewrite store_at_length by (rewrite length_app; cbn [length]; lia).
      rewrite <- app_assoc. reflexivity.
    + rewrite ?length_app. cbn [length]. lia.
Qed.

Lemma X6_witness :
  sir__trim_whitespace (list_ascii_of_string "  ") 0 = Fault /\
  sir__trim_whitespace ([" "%char; "v"%char; " "%char; NUL; LF; NUL; "x"%char]) 5 =
  Ok ([" "%char; "v"%char; NUL; NUL; LF; NUL; "x"%char], 5).
Proof.
  split.
  - destruct (X6_trim_whitespace_blank [] (list_ascii_of_string "  ") []) as [H _].
    + repeat constructor.
    + reflexivity.
    + apply H. intros c Hc. vm_compute in Hc. intuition (subst; reflexivity).
  - destruct (X6_trim_whitespace_blank
                [" "%char; "v"%char; " "%char; NUL; LF] []
                [NUL; "x"%char]) as [_ H].
    + constructor.
    + reflexivity.
    + apply (H [" "%char] "v"%char [" "%char; NUL; LF]).
      * reflexivity.
      * reflexivity.
      * intros c Hc. vm_compute in Hc. intuition (subst; reflexivity).
Defined.

(** ** [sir__parse_to_char] *)

Lemma sir__parse_to_char_found (pre name rest : list ascii) (c : ascii) :
  c <> NUL -> nul_free name -> ~ In c name ->
  sir__parse_to_char (pre ++ name ++ c :: rest) (Z.of_nat (length pre)) c =
  (Z.of_nat (length name), pre ++ name ++ NUL :: rest).
Proof.
  intros Hc Hn Hin. unfold sir__parse_to_char, sir__skip_to_char.
  rewrite tail_at_length by reflexivity.
  rewrite skip_to_char_app_stop; [|exact Hn|exact Hin|].
  2:{ cbn [hd]. rewrite Ascii.eqb_refl. apply orb_true_r. }
  replace (pre ++ name ++ c :: rest) with ((pre ++ name) ++ c :: rest)
    by (rewrite <- app_assoc; reflexivity).
  rewrite load_at_length by (rewrite length_app; lia). cbn [hd].
  assert (is_nul c = false) as -> by (apply is_nul_false; exact Hc).
  rewrite store_at_length by (rewrite length_app; lia).
  rewrite <- app_assoc. reflexivity.
Qed.

Lemma sir__parse_to_char_missing (pre s post : list ascii) (c : ascii) :
  nul_free s -> ~ In c s -> ends_string post ->
  sir__parse_to_char (pre ++ s ++ post) (Z.of_nat (length pre)) c = (-1, pre ++ s ++ post).
Proof.
  intros Hn Hin Hp. unfold sir__parse_to_char, sir__skip_to_char.
  rewrite tail_at_length by reflexivity.
  rewrite skip_to_char_app_stop; [|exact Hn|exact Hin|].
  2:{ unfold ends_string in Hp. rewrite Hp. reflexivity. }
  replace (pre ++ s ++ post) with ((pre ++ s) ++ post)
    by (rewrite <- app_assoc; reflexivity).
  rewrite load_at_length by (rewrite length_app; lia).
  unfold ends_string in Hp. rewrite Hp. reflexivity.
Qed.

(** X7.  [sir__parse_to_char] cuts the string at the first occurrence of
    the character: it writes one NUL over that occurrence and returns the
    number of characters before it; later occurrences and the rest of the
    buffer stay.  When the character does not occur before the terminator
    it returns -1 and writes nothing. *)
Theorem X7_parse_to_char
        (pre name rest post : list ascii) (c : ascii) :
  c <> NUL -> nul_free name -> ~ In c name ->
  sir__parse_to_char (pre ++ name ++ c :: rest) (Z.of_nat (length pre)) c =
    (Z.of_nat (length name), pre ++ name ++ NUL :: rest) /\
  c_string (tail_at (pre ++ name ++ NUL :: rest) (Z.of_nat (length pre))) = name /\
  (ends_string post ->
   sir__parse_to_char (pre ++ name ++ post) (Z.of_nat (length pre)) c =
     (-1, pre ++ name ++ post)).
Proof.
  intros Hc Hn Hin. split; [apply sir__parse_to_char_found; assumption|].
  split.
  - rewrite tail_at_length by reflexivity.
    apply c_string_app_end; [exact Hn|reflexivity].
  - intros Hp. apply sir__parse_to_char_missing; assumption.
Qed.

Lemma X7_witness :
  sir__parse_to_char (list_ascii_of_string "[a]b]") 1 "]"%char =
  (1, ["["%char; "a"%char; NUL; "b"%char; "]"%char]) /\
  sir__parse_to_char (list_ascii_of_string "[a") 1 "]"%char =
  (-1, list_ascii_of_string "[a").
Proof.
  destruct (X7_parse_to_char ["["%char] ["a"%char] (list_ascii_of_string "b]") []
              "]"%char) as (H1 & _ & H2).
  - discriminate.
  - intros y Hy. vm_compute in Hy. intuition (subst; discriminate).
  - intros Hy. vm_compute in Hy. intuition discriminate.
  - split; [exact H1|]. apply H2. reflexivity.
Defined.

(** ** Lookups as searches *)

Lemma find_app {A : Type} (f : A -> bool) (a b : list A) :
  find f (a ++ b) = match find f a with Some x => Some x | None => find f b end.
Proof.
  induction a as [|x a IH]; cbn [app find]; [reflexivity|].
  destruct (f x); [reflexivity|exact IH].
Qed.

Lemma find_key_find (ini : SirIni) (key : list ascii) (count : nat) :
  forall j : nat,
    (j + count <= length (key_names ini))%nat ->
    find_key ini key (Z.of_nat j) count =
    Ok (option_map Z.of_nat (find (key_matches ini key) (seq j count))).
Proof.
  induction count as [|count IH]; intros j Hb; [reflexivity|].
  destruct (nth_error (key_names ini) j) as [p|] eqn:Hp.
  2:{ apply nth_error_None in Hp. lia. }
  rewrite (find_key_step _ _ _ _ _ Hp). cbn [seq find].
  destruct (key_matches ini key j); [reflexivity|]. apply IH. lia.
Qed.

Lemma find_key_in_ranges_find (ini : SirIni) (key : list ascii)
      (rs : list SirSectionRange) :
  Forall (closed_range (Z.of_nat (length (key_names ini)))) rs ->
  find_key_in_ranges ini key rs =
  Ok (option_map Z.of_nat (find (key_matches ini key) (flat_map range_indices rs))).
Proof.
  induction rs as [|r rs IH]; intros Hc; [reflexivity|].
  inversion Hc as [|r' rs' Hr Hrs]; subst. cbn [find_key_in_ranges flat_map].
  unfold closed_range in Hr.
  rewrite <- (Z2Nat.id (start r)) at 1 by lia.
  rewrite find_key_find by lia. cbn [bind]. rewrite find_app.
  unfold range_indices at 1.
  destruct (find (key_matches ini key) (seq (Z.to_nat (start r)) (Z.to_nat (end_ r - start r))))
    as [k|]; cbn [option_map]; [reflexivity|].
  apply IH. exact Hrs.
Qed.

Lemma get_section_loop_find (ini : SirIni) (name : list ascii) (count : nat) :
  forall i : nat,
    (i + count <= length (section_names ini))%nat ->
    get_section_loop ini name (Z.of_nat i) count =
    Ok (option_map Z.of_nat (find (section_matches ini name) (seq i count))).
Proof.
  induction count as [|count IH]; intros i Hb; [reflexivity|].
  destruct (nth_error (section_names ini) i) as [p|] eqn:Hp.
  2:{ apply nth_error_None in Hp. lia. }
  cbn [get_section_loop seq find]. unfold section_matches at 1.
  rewrite aget_of_nat, Hp. cbn [bind].
  replace (Z.of_nat i + 1) with (Z.of_nat (S i)) by lia.
  destruct (negb (is_null p) && _); [reflexivity|]. apply IH. lia.
Qed.

Lemma find_seq_bound {f : nat -> bool} {i count k : nat} :
  find f (seq i count) = Some k -> (i <= k < i + count)%nat /\ f k = true.
Proof.
  intros H. apply find_some in H. destruct H as [Hin Hf].
  apply in_seq in Hin. auto.
Qed.

Lemma key_matches_slot_only (ini ini' : SirIni) (key : list ascii) (k : nat) :
  slot_only ini ini' -> key_matches ini' key k = key_matches ini key k.
Proof. intros H. rewrite H. reflexivity. Qed.

Lemma find_ext_in {A : Type} (f g : A -> bool) (l : list A) :
  (forall x, In x l -> f x = g x) -> find f l = find g l.
Proof.
  induction l as [|x l IH]; intros H; [reflexivity|]. cbn [find].
  rewrite (H x) by (left; reflexivity).
  destruct (g x); [reflexivity|]. apply IH. intros y Hy. apply H. right. exact Hy.
Qed.

(** [sir__get_section] on a document whose count is the length of its name
    array. *)
Lemma sir__get_section_find (ini : SirIni) (name : list ascii) :
  section_count ini = Z.of_nat (length (section_names ini)) ->
  sir__get_section ini (Some name) =
  match find (section_matches ini name) (seq 0 (length (section_names ini))) with
  | Some i => Ok (Some (Z.of_nat i), sir__clear_error_str ini)
  | None => Ok (None, sir__set_error ini "section '%' not found" (Some name) None)
  end.
Proof.
  intros Hc. unfold sir__get_section. rewrite Hc, Nat2Z.id.
  rewrite (get_section_loop_find ini name _ 0) by lia. cbn [bind].
  destruct (find _ _); reflexivity.
Qed.

(** The section-scoped lookup on a well-formed document as two searches. *)
Lemma scoped_lookup_spec (ini : SirIni) (sec key : list ascii) :
  well_formed ini ->
  sir__errors_enabled ini = true ->
  match find (section_matches ini sec) (seq 0 (length (section_names ini))) with
  | None =>
      sir_section_str ini (Some sec) (Some key) =
      Ok (NullPtr, sir__set_error ini "section '%' not found" (Some sec) None)
  | Some i =>
      exists sn,
        nth_error (sections ini) i = Some sn /\
        match find (key_matches ini key) (section_indices sn) with
        | Some k =>
            exists v,
              nth_error (key_values ini) k = Some v /\ v <> NullPtr /\
              sir_section_str ini (Some sec) (Some key) = Ok (v, sir__clear_error_str ini)
        | None =>
            sir_section_str ini (Some sec) (Some key) =
            Ok (NullPtr,
                sir__set_error (sir__clear_error_str ini)
                               "key '%' not found in section '%'" (Some key) (Some sec))
        end
  end.
Proof.
  intros Hwf He.
  pose proof (well_formed_tracked _ Hwf He) as Ht.
  destruct Hwf as [Wsc Wnl Wg Wsn Wr Wkc Wvl Wkn Wkv Wes].
  unfold sir_section_str.
  rewrite sir__get_section_find by (rewrite Wsc, Wnl; reflexivity).
  destruct (find (section_matches ini sec) (seq 0 (length (section_names ini))))
    as [i|] eqn:Hfind; cbn [bind].
  - apply find_seq_bound in Hfind. destruct Hfind as [Hi _].
    destruct (nth_error (sections ini) i) as [sn|] eqn:Hsn.
    2:{ apply nth_error_None in Hsn. lia. }
    exists sn. split; [reflexivity|].
    rewrite has_error_clear.
    pose proof (slot_only_clear ini) as Hso.
    rewrite (slot_only_sections _ _ Hso).
    rewrite aget_of_nat, Hsn. cbn [bind].
    rewrite (find_key_in_ranges_slot_only _ _ _ _ Hso).
    assert (Hcl : Forall (closed_range (Z.of_nat (length (key_names ini)))) (ranges sn)).
    { rewrite Forall_nth_error in Wr. rewrite <- Wkc.
      eapply Wr. exact Hsn. }
    rewrite find_key_in_ranges_find by exact Hcl.
    fold (section_indices sn).
    destruct (find (key_matches ini key) (section_indices sn)) as [k|] eqn:Hk;
      cbn [option_map bind].
    + assert (Hkb : (k < length (key_names ini))%nat).
      { apply find_some in Hk. destruct Hk as [_ Hm]. unfold key_matches in Hm.
        destruct (nth_error (key_names ini) k) eqn:E; [|discriminate].
        eapply nth_error_lt. exact E. }
      destruct (nth_error (key_values ini) k) as [v|] eqn:Hv.
      2:{ apply nth_error_None in Hv. lia. }
      exists v. split; [reflexivity|]. split.
      * rewrite Forall_nth_error in Wkv.
        intros ->. specialize (Wkv _ _ Hv). discriminate.
      * rewrite (slot_only_key_values _ _ Hso), aget_of_nat, Hv. cbn [bind].
        rewrite clear_error_idempotent. reflexivity.
    + reflexivity.
  - rewrite has_error_set_tracked by auto. reflexivity.
Qed.

(** X8.  The section-scoped lookup on a parsed document with error
    tracking enabled.  The section is the first one, in index order, whose
    name matches; its keys are searched range after range, each range from
    its start to its end, and the value of the first key whose name matches
    is returned with the slot cleared.  The duplicate-key option plays no
    part.  A name that matches no section gives the null pointer and the
    message "section '...' not found"; a key that matches nothing in the
    section gives the null pointer and "key '...' not found in section
    '...'". *)
Theorem X8_scoped_lookup
        (s : list ascii) (opts : SirOptions) (ini : SirIni) (sec key : list ascii) :
  sir_load_from_str s opts = Ok ini ->
  sir__errors_enabled ini = true ->
  match find (section_matches ini sec) (seq 0 (length (section_names ini))) with
  | None =>
      sir_section_str ini (Some sec) (Some key) =
      Ok (NullPtr, sir__set_error ini "section '%' not found" (Some sec) None)
  | Some i =>
      exists sn,
        nth_error (sections ini) i = Some sn /\
        match find (key_matches ini key) (section_indices sn) with
        | Some k =>
            exists v,
              nth_error (key_values ini) k = Some v /\ v <> NullPtr /\
              sir_section_str ini (Some sec) (Some key) = Ok (v, sir__clear_error_str ini)
        | None =>
            sir_section_str ini (Some sec) (Some key) =
            Ok (NullPtr,
                sir__set_error (sir__clear_error_str ini)
                               "key '%' not found in section '%'" (Some key) (Some sec))
        end
  end.
Proof.
  intros Hload He.
  destruct (sir_load_from_str_well_formed _ _ _ Hload) as [Hwf _].
  exact (scoped_lookup_spec ini sec key Hwf He).
Qed.

Lemma X8_witness :
  exists ini',
    sir_section_str (parsed (lines ["[a]"; "k=1"; "[b]"; "k=2"]) SIR_OPTION_NONE)
                    (arg "b") (arg "k") = Ok (InData 14, ini').
Proof.
  assert (Hload : sir_load_from_str (lines ["[a]"; "k=1"; "[b]"; "k=2"]) SIR_OPTION_NONE
                  = Ok (parsed (lines ["[a]"; "k=1"; "[b]"; "k=2"]) SIR_OPTION_NONE))
    by (vm_compute; reflexivity).
  pose proof (X8_scoped_lookup _ _ _ (list_ascii_of_string "b") (list_ascii_of_string "k")
                Hload eq_refl) as H.
  assert (E : find (section_matches (parsed (lines ["[a]"; "k=1"; "[b]"; "k=2"]) SIR_OPTION_NONE)
                                    (list_ascii_of_string "b"))
                   (seq 0 (length (section_names
                     (parsed (lines ["[a]"; "k=1"; "[b]"; "k=2"]) SIR_OPTION_NONE))))
              = Some 2%nat) by (vm_compute; reflexivity).
  rewrite E in H. destruct H as (sn & Hsn & H).
  assert (Esn : sn = mkSection [mkRange 1 2]).
  { vm_compute in Hsn. injection Hsn as <-. reflexivity. }
  subst sn.
  assert (E2 : find (key_matches (parsed (lines ["[a]"; "k=1"; "[b]"; "k=2"]) SIR_OPTION_NONE)
                                 (list_ascii_of_string "k"))
                    (section_indices (mkSection [mkRange 1 2])) = Some 1%nat)
    by (vm_compute; reflexivity).
  rewrite E2 in H. destruct H as (v & Hv & _ & H).
  assert (Ev : v = InData 14) by (vm_compute in Hv; injection Hv as <-; reflexivity).
  subst v. eexists. exact H.
Defined.

(** ** Lookups with error tracking disabled *)

Lemma set_error_disabled (ini : SirIni) (f : string) (a b : option (list ascii)) :
  sir__errors_enabled ini = false -> sir__set_error ini f a b = ini.
Proof. intros H. unfold sir__set_error. rewrite H. reflexivity. Qed.

Lemma clear_error_disabled (ini : SirIni) :
  sir__errors_enabled ini = false -> sir__clear_error_str ini = ini.
Proof. intros H. unfold sir__clear_error_str. rewrite H. reflexivity. Qed.

(** X9.  With SIR_OPTION_DISABLE_ERRORS, a section-scoped lookup whose
    section name matches no section answers exactly like the section-less
    lookup of the key: [sir__get_section] returns the null pointer, the
    test of [sir_has_error] that should stop the lookup is constantly
    false, and the null section sends the lookup into the scan of the whole
    key array. *)
Theorem X9_scoped_lookup_without_errors
        (s : list ascii) (opts : SirOptions) (ini : SirIni) (sec key : list ascii) :
  sir_load_from_str s opts = Ok ini ->
  sir__errors_enabled ini = false ->
  find (section_matches ini sec) (seq 0 (length (section_names ini))) = None ->
  sir_section_str ini (Some sec) (Some key) = sir_section_str ini None (Some key).
Proof.
  intros Hload He Hfind.
  destruct (sir_load_from_str_well_formed _ _ _ Hload) as [Hwf _].
  destruct Hwf as [Wsc Wnl Wg Wsn Wr Wkc Wvl Wkn Wkv Wes].
  unfold sir_section_str.
  rewrite sir__get_section_find by (rewrite Wsc, Wnl; reflexivity).
  rewrite Hfind. cbn [bind].
  rewrite set_error_disabled by assumption.
  rewrite has_error_disabled by assumption. reflexivity.
Qed.

Lemma X9_witness :
  exists ini',
    sir_section_str (parsed (lines ["[a]"; "k=1"]) SIR_OPTION_DISABLE_ERRORS)
                    (arg "nosuch") (arg "k") = Ok (InData 6, ini').
Proof.
  assert (Hload : sir_load_from_str (lines ["[a]"; "k=1"]) SIR_OPTION_DISABLE_ERRORS
                  = Ok (parsed (lines ["[a]"; "k=1"]) SIR_OPTION_DISABLE_ERRORS))
    by (vm_compute; reflexivity).
  unfold arg.
  rewrite (X9_scoped_lookup_without_errors _ _ _ (list_ascii_of_string "nosuch")
             (list_ascii_of_string "k") Hload eq_refl eq_refl).
  eexists. vm_compute. reflexivity.
Defined.

(** ** The key arrays of a section *)

Lemma copy_range_map (arr : list cptr) (count : nat) :
  forall j : nat,
    (j + count <= length arr)%nat ->
    copy_range arr (Z.of_nat j) count = Ok (map (fun k => nth k arr NullPtr) (seq j count)).
Proof.
  induction count as [|count IH]; intros j Hb; [reflexivity|].
  cbn [copy_range seq map]. rewrite aget_of_nat.
  destruct (nth_error arr j) as [p|] eqn:Hp.
  2:{ apply nth_error_None in Hp. lia. }
  cbn [bind]. replace (Z.of_nat j + 1) with (Z.of_nat (S j)) by lia.
  rewrite IH by lia. cbn [bind]. rewrite (nth_error_nth _ _ _ Hp). reflexivity.
Qed.

Lemma copy_ranges_map (arr : list cptr) (rs : list SirSectionRange) :
  Forall (closed_range (Z.of_nat (length arr))) rs ->
  copy_ranges arr rs = Ok (map (fun k => nth k arr NullPtr) (flat_map range_indices rs)).
Proof.
  induction rs as [|r rs IH]; intros Hc; [reflexivity|].
  inversion Hc as [|r' rs' Hr Hrs]; subst. cbn [copy_ranges flat_map].
  unfold closed_range in Hr.
  rewrite <- (Z2Nat.id (start r)) at 1 by lia.
  rewrite copy_range_map by lia. cbn [bind]. rewrite IH by exact Hrs. cbn [bind].
  rewrite map_app. reflexivity.
Qed.

Lemma fold_left_range_lengths (rs : list SirSectionRange) (bound : Z) :
  Forall (closed_range bound) rs ->
  forall acc,
    fold_left (fun acc r => acc + (end_ r - start r)) rs acc =
    acc + Z.of_nat (length (flat_map range_indices rs)).
Proof.
  induction 1 as [|r rs Hr Hrs IH]; intros acc; cbn [fold_left flat_map]; [cbn; lia|].
  rewrite IH, length_app. unfold range_indices at 2. rewrite length_seq.
  unfold closed_range in Hr. lia.
Qed.

Lemma sir__section_key_array_found (ini : SirIni) (sec : list ascii) (arr : list cptr)
      (i : nat) (sn : SirSection) :
  well_formed ini -> length arr = length (key_names ini) ->
  find (section_matches ini sec) (seq 0 (length (section_names ini))) = Some i ->
  nth_error (sections ini) i = Some sn ->
  sir__section_key_array ini (Some sec) arr =
  Ok (Some (map (fun k => nth k arr NullPtr) (section_indices sn),
            Z.of_nat (length (section_indices sn))),
      sir__clear_error_str ini).
Proof.
  intros Hwf Hlen Hfind Hsn.
  destruct Hwf as [Wsc Wnl Wg Wsn Wr Wkc Wvl Wkn Wkv Wes].
  unfold sir__section_key_array.
  rewrite sir__get_section_find by (rewrite Wsc, Wnl; reflexivity).
  rewrite Hfind. cbn [bind]. rewrite has_error_clear.
  pose proof (slot_only_clear ini) as Hso.
  rewrite (slot_only_sections _ _ Hso), aget_of_nat, Hsn. cbn [bind].
  assert (Hcl : Forall (closed_range (Z.of_nat (length arr))) (ranges sn)).
  { rewrite Forall_nth_error in Wr. rewrite Hlen, <- Wkc. eapply Wr. exact Hsn. }
  rewrite copy_ranges_map by exact Hcl. cbn [bind].
  rewrite (fold_left_range_lengths _ _ Hcl). fold (section_indices sn).
  rewrite length_map.
  destruct (Z.ltb_spec (0 + Z.of_nat (length (section_indices sn)))
                       (Z.of_nat (length (section_indices sn)))); [lia|].
  rewrite clear_error_idempotent. reflexivity.
Qed.

(** X10.  On a parsed document, [sir_section_key_names] and
    [sir_section_key_values] of a section that exists return the names and
    the values at the same key indices, those of the ranges of the section
    in order: the two arrays have the same size, the sum of the lengths of
    the ranges, and the i-th value belongs to the i-th name.  The slot is
    cleared and no access leaves the key arrays. *)
Theorem X10_section_key_arrays
        (s : list ascii) (opts : SirOptions) (ini : SirIni) (sec : list ascii)
        (i : nat) (sn : SirSection) :
  sir_load_from_str s opts = Ok ini ->
  find (section_matches ini sec) (seq 0 (length (section_names ini))) = Some i ->
  nth_error (sections ini) i = Some sn ->
  sir_section_key_names ini (Some sec) =
    Ok (Some (map (fun k => nth k (key_names ini) NullPtr) (section_indices sn),
              Z.of_nat (length (section_indices sn))),
        sir__clear_error_str ini) /\
  sir_section_key_values ini (Some sec) =
    Ok (Some (map (fun k => nth k (key_values ini) NullPtr) (section_indices sn),
              Z.of_nat (length (section_indices sn))),
        sir__clear_error_str ini) /\
  Forall (fun k => (k < length (key_names ini))%nat) (section_indices sn).
Proof.
  intros Hload Hfind Hsn.
  destruct (sir_load_from_str_well_formed _ _ _ Hload) as [Hwf _].
  split; [|split].
  - apply (sir__section_key_array_found ini sec (key_names ini) i sn); auto.
  - apply (sir__section_key_array_found ini sec (key_values ini) i sn); auto.
    destruct Hwf; assumption.
  - destruct Hwf as [Wsc Wnl Wg Wsn Wr Wkc Wvl Wkn Wkv Wes].
    rewrite Forall_nth_error in Wr. specialize (Wr _ _ Hsn).
    unfold section_indices. apply Forall_forall. intros k Hk.
    apply in_flat_map in Hk. destruct Hk as (r & Hr & Hk).
    rewrite Forall_forall in Wr. specialize (Wr r Hr). unfold closed_range in Wr.
    unfold range_indices in Hk. apply in_seq in Hk. lia.
Qed.

Lemma X10_witness :
  sir_section_key_names (parsed (lines ["[a]"; "k=1"; "[b]"; "j=2"; "[a]"; "x=3"])
                                SIR_OPTION_NONE) (arg "a") =
  Ok (Some ([InData 4; InData 20], 2),
      parsed (lines ["[a]"; "k=1"; "[b]"; "j=2"; "[a]"; "x=3"]) SIR_OPTION_NONE).
Proof.
  assert (Hload : sir_load_from_str (lines ["[a]"; "k=1"; "[b]"; "j=2"; "[a]"; "x=3"])
                                    SIR_OPTION_NONE
                  = Ok (parsed (lines ["[a]"; "k=1"; "[b]"; "j=2"; "[a]"; "x=3"])
                               SIR_OPTION_NONE))
    by (vm_compute; reflexivity).
  destruct (X10_section_key_arrays _ _ _ (list_ascii_of_string "a") 1%nat
              (mkSection [mkRange 0 1; mkRange 2 3]) Hload) as (H & _ & _).
  - vm_compute. reflexivity.
  - vm_compute. reflexivity.
  - unfold arg. rewrite H. vm_compute. reflexivity.
Defined.

(** X11.  With SIR_OPTION_DISABLE_ERRORS, [sir_section_key_names] and
    [sir_section_key_values] of a section name that matches no section
    dereference the null pointer [sir__get_section] returned: the test of
    [sir_has_error] that guards [section->ranges_count] is constantly
    false. *)
Theorem X11_section_key_arrays_without_errors
        (s : list ascii) (opts : SirOptions) (ini : SirIni) (sec : list ascii) :
  sir_load_from_str s opts = Ok ini ->
  sir__errors_enabled ini = false ->
  find (section_matches ini sec) (seq 0 (length (section_names ini))) = None ->
  sir_section_key_names ini (Some sec) = Fault /\
  sir_section_key_values ini (Some sec) = Fault.
Proof.
  intros Hload He Hfind.
  destruct (sir_load_from_str_well_formed _ _ _ Hload) as [Hwf _].
  destruct Hwf as [Wsc Wnl Wg Wsn Wr Wkc Wvl Wkn Wkv Wes].
  unfold sir_section_key_names, sir_section_key_values, sir__section_key_array.
  rewrite sir__get_section_find by (rewrite Wsc, Wnl; reflexivity).
  rewrite Hfind. cbn [bind].
  rewrite set_error_disabled by assumption.
  rewrite has_error_disabled by assumption. split; reflexivity.
Qed.

Lemma X11_witness :
  sir_section_key_names (parsed (lines ["[a]"; "k=1"]) SIR_OPTION_DISABLE_ERRORS)
                        (arg "nosuch") = Fault.
Proof.
  assert (Hload : sir_load_from_str (lines ["[a]"; "k=1"]) SIR_OPTION_DISABLE_ERRORS
                  = Ok (parsed (lines ["[a]"; "k=1"]) SIR_OPTION_DISABLE_ERRORS))
    by (vm_compute; reflexivity).
  destruct (X11_section_key_arrays_without_errors _ _ _ (list_ascii_of_string "nosuch")
              Hload eq_refl eq_refl) as [H _].
  exact H.
Defined.

(** ** How the lookups compose *)

Lemma find_seq_first (f : nat -> bool) (count : nat) :
  forall i k, find f (seq i count) = Some k ->
              forall j, (i <= j < k)%nat -> f j = false.
Proof.
  induction count as [|count IH]; intros i k H j Hj; [discriminate|].
  cbn [seq find] in H. destruct (f i) eqn:Hi.
  - injection H as <-. lia.
  - destruct (Nat.eq_dec j i) as [->|Hne]; [exact Hi|].
    eapply IH; [exact H|lia].
Qed.

Lemma find_rev_seq_last (f : nat -> bool) (n : nat) :
  forall l, find f (rev (seq 0 n)) = Some l ->
            (l < n)%nat /\ f l = true /\ forall k, (l < k < n)%nat -> f k = false.
Proof.
  induction n as [|n IH]; intros l H; [discriminate|].
  rewrite seq_S, rev_app_distr in H. cbn [rev app find Nat.add] in H.
  destruct (f n) eqn:Hn.
  - injection H as <-. split; [lia|]. split; [exact Hn|]. intros k Hk. lia.
  - destruct (IH l H) as (Hl & Hf & Hno). split; [lia|]. split; [exact Hf|].
    intros k Hk. destruct (Nat.eq_dec k n) as [->|]; [exact Hn|apply Hno; lia].
Qed.

Lemma find_none_iff {A : Type} (f : A -> bool) (l : list A) :
  find f l = None <-> forall x, In x l -> f x = false.
Proof.
  split; [intros H x Hx; eapply find_none; eassumption|].
  induction l as [|x l IH]; intros H; [reflexivity|]. cbn [find].
  rewrite (H x) by (left; reflexivity). apply IH. intros y Hy. apply H. right. exact Hy.
Qed.

Lemma in_scan_order (b : bool) (n k : nat) :
  In k (if b then rev (seq 0 n) else seq 0 n) <-> (k < n)%nat.
Proof.
  destruct b; [rewrite <- in_rev|]; rewrite in_seq; lia.
Qed.

(** The section-less lookup as a search of the whole key array: from the
    front under the default policy, from the back under the override
    policy. *)
Lemma global_lookup_find (ini : SirIni) (key : list ascii) :
  well_formed ini ->
  sir_section_str ini None (Some key) =
  match find (key_matches ini key)
             (if has_option (options ini) SIR_OPTION_OVERRIDE_DUPLICATE_KEYS
              then rev (seq 0 (length (key_names ini)))
              else seq 0 (length (key_names ini))) with
  | Some k => Ok (nth k (key_values ini) NullPtr, sir__clear_error_str ini)
  | None => Ok (NullPtr, sir__set_error ini "key '%' not found" (Some key) None)
  end.
Proof.
  intros Hwf. destruct Hwf as [Wsc Wnl Wg Wsn Wr Wkc Wvl Wkn Wkv Wes].
  assert (Hcount : Z.to_nat (key_count ini) = length (key_names ini)) by lia.
  unfold sir_section_str. cbn [bind]. rewrite Hcount.
  set (n := length (key_names ini)).
  destruct (find (key_matches ini key)
                 (if has_option (options ini) SIR_OPTION_OVERRIDE_DUPLICATE_KEYS
                  then rev (seq 0 n) else seq 0 n)) as [k|] eqn:Hfind.
  - assert (Hk : (k < n)%nat /\ key_matches ini key k = true).
    { apply find_some in Hfind. destruct Hfind as [Hin Hm]. split; [|exact Hm].
      apply in_scan_order in Hin. exact Hin. }
    destruct Hk as [Hk Hm].
    destruct (nth_error (key_values ini) k) as [v|] eqn:Hv.
    2:{ apply nth_error_None in Hv. unfold n in Hk. lia. }
    rewrite (nth_error_nth _ _ _ Hv).
    assert (Hnull : is_null v = false).
    { rewrite Forall_nth_error in Wkv. eapply Wkv. exact Hv. }
    destruct (has_option (options ini) SIR_OPTION_OVERRIDE_DUPLICATE_KEYS) eqn:Hpol.
    + apply find_rev_seq_last in Hfind. destruct Hfind as (_ & _ & Hno).
      assert (Hscan : global_scan ini key (Z.of_nat 0) n NullPtr = Ok (inr v)).
      { apply (global_scan_last ini key n 0 k NullPtr v); try assumption; try lia. }
      change (Z.of_nat 0) with 0 in Hscan. rewrite Hscan.
      cbn [bind]. rewrite Hnull. reflexivity.
    + pose proof (find_seq_first _ _ _ _ Hfind) as Hno.
      assert (Hscan : global_scan ini key (Z.of_nat 0) n NullPtr = Ok (inl v)).
      { apply (global_scan_first ini key n 0 k NullPtr v); try assumption; try lia. }
      change (Z.of_nat 0) with 0 in Hscan. rewrite Hscan.
      reflexivity.
  - assert (Hscan : global_scan ini key (Z.of_nat 0) n NullPtr = Ok (inr NullPtr)).
    { apply (global_scan_no_match ini key n 0 NullPtr); try assumption; try lia.
      intros k Hk. rewrite find_none_iff in Hfind. apply Hfind.
      apply in_scan_order. lia. }
    change (Z.of_nat 0) with 0 in Hscan. rewrite Hscan.
    reflexivity.
Qed.

Lemma scoped_lookup_found (ini : SirIni) (sec key : list ascii) (i : nat)
      (sn : SirSection) (k : nat) :
  well_formed ini ->
  find (section_matches ini sec) (seq 0 (length (section_names ini))) = Some i ->
  nth_error (sections ini) i = Some sn ->
  find (key_matches ini key) (section_indices sn) = Some k ->
  exists v, nth_error (key_values ini) k = Some v /\ v <> NullPtr /\
            sir_section_str ini (Some sec) (Some key) = Ok (v, sir__clear_error_str ini).
Proof.
  intros Hwf Hfind Hsn Hk.
  destruct Hwf as [Wsc Wnl Wg Wsn Wr Wkc Wvl Wkn Wkv Wes].
  unfold sir_section_str.
  rewrite sir__get_section_find by (rewrite Wsc, Wnl; reflexivity).
  rewrite Hfind. cbn [bind]. rewrite has_error_clear.
  pose proof (slot_only_clear ini) as Hso.
  rewrite (slot_only_sections _ _ Hso), aget_of_nat, Hsn. cbn [bind].
  rewrite (find_key_in_ranges_slot_only _ _ _ _ Hso).
  assert (Hcl : Forall (closed_range (Z.of_nat (length (key_names ini)))) (ranges sn)).
  { rewrite Forall_nth_error in Wr. rewrite <- Wkc. eapply Wr. exact Hsn. }
  rewrite find_key_in_ranges_find by exact Hcl.
  fold (section_indices sn). rewrite Hk. cbn [option_map bind].
  assert (Hkb : (k < length (key_names ini))%nat).
  { apply find_some in Hk. destruct Hk as [_ Hm]. unfold key_matches in Hm.
    destruct (nth_error (key_names ini) k) eqn:E; [|discriminate].
    eapply nth_error_lt. exact E. }
  destruct (nth_error (key_values ini) k) as [v|] eqn:Hv.
  2:{ apply nth_error_None in Hv. lia. }
  exists v. split; [reflexivity|]. split.
  - rewrite Forall_nth_error in Wkv. intros ->. specialize (Wkv _ _ Hv). discriminate.
  - rewrite (slot_only_key_values _ _ Hso), aget_of_nat, Hv. cbn [bind].
    rewrite clear_error_idempotent. reflexivity.
Qed.

(** X12.  On a parsed document, every key that [sir_section_key_names]
    lists for a section is found by the scoped lookup of its own name in
    that section: the lookup returns a value that is not null (that of the
    first key of the section with that name) and clears the slot. *)
Theorem X12_listed_key_is_found
        (s : list ascii) (opts : SirOptions) (ini : SirIni) (sec : list ascii)
        (i : nat) (sn : SirSection) (k : nat) (p : cptr) (name : list ascii) :
  sir_load_from_str s opts = Ok ini ->
  find (section_matches ini sec) (seq 0 (length (section_names ini))) = Some i ->
  nth_error (sections ini) i = Some sn ->
  In k (section_indices sn) ->
  nth_error (key_names ini) k = Some p -> string_at (data ini) p = Some name ->
  exists v, v <> NullPtr /\
            sir_section_str ini (Some sec) (Some name) = Ok (v, sir__clear_error_str ini) /\
            sir_has_error (sir__clear_error_str ini) = false.
Proof.
  intros Hload Hfind Hsn Hin Hp Hname.
  destruct (sir_load_from_str_well_formed _ _ _ Hload) as [Hwf _].
  destruct (find (key_matches ini name) (section_indices sn)) as [k'|] eqn:Hk.
  - destruct (scoped_lookup_found ini sec name i sn k' Hwf Hfind Hsn Hk)
      as (v & _ & Hv & Hstr).
    exists v. split; [exact Hv|]. split; [exact Hstr|apply has_error_clear].
  - exfalso. rewrite find_none_iff in Hk. specialize (Hk k Hin).
    rewrite (key_matches_own_name ini k p name Hp Hname) in Hk. discriminate.
Qed.

Lemma X12_witness :
  exists v,
    v <> NullPtr /\
    sir_section_str (parsed (lines ["[a]"; "k=1"; "[b]"; "k=2"]) SIR_OPTION_NONE)
                    (arg "b") (arg "k") =
    Ok (v, sir__clear_error_str (parsed (lines ["[a]"; "k=1"; "[b]"; "k=2"]) SIR_OPTION_NONE)).
Proof.
  assert (Hload : sir_load_from_str (lines ["[a]"; "k=1"; "[b]"; "k=2"]) SIR_OPTION_NONE
                  = Ok (parsed (lines ["[a]"; "k=1"; "[b]"; "k=2"]) SIR_OPTION_NONE))
    by (vm_compute; reflexivity).
  destruct (X12_listed_key_is_found _ _ _ (list_ascii_of_string "b") 2%nat
              (mkSection [mkRange 1 2]) 1%nat (InData 12) (list_ascii_of_string "k") Hload)
    as (v & Hv & H & _).
  - vm_compute. reflexivity.
  - vm_compute. reflexivity.
  - left. reflexivity.
  - vm_compute. reflexivity.
  - vm_compute. reflexivity.
  - exists v. split; [exact Hv|exact H].
Defined.

(** X13.  On a parsed document, a key that a section-scoped lookup finds is
    found by the section-less lookup as well: whenever
    [sir_section_str(ini, section, key)] returns a value,
    [sir_section_str(ini, 0, key)] returns a value (not necessarily the
    same one) and leaves the slot clear. *)
Theorem X13_scoped_hit_is_a_global_hit
        (s : list ascii) (opts : SirOptions) (ini ini1 : SirIni) (sec key : list ascii)
        (v : cptr) :
  sir_load_from_str s opts = Ok ini ->
  sir__errors_enabled ini = true ->
  sir_section_str ini (Some sec) (Some key) = Ok (v, ini1) -> v <> NullPtr ->
  exists v', v' <> NullPtr /\
             sir_section_str ini None (Some key) = Ok (v', sir__clear_error_str ini) /\
             sir_has_error (sir__clear_error_str ini) = false.
Proof.
  intros Hload He Hstr Hv.
  destruct (sir_load_from_str_well_formed _ _ _ Hload) as [Hwf _].
  pose proof (scoped_lookup_spec ini sec key Hwf He) as H8.
  assert (Hm : exists k, (k < length (key_names ini))%nat /\ key_matches ini key k = true).
  { destruct (find (section_matches ini sec) (seq 0 (length (section_names ini))))
      as [i|]; [|rewrite H8 in Hstr; injection Hstr as <- _; congruence].
    destruct H8 as (sn & Hsn & H8).
    destruct (find (key_matches ini key) (section_indices sn)) as [k|] eqn:Hk;
      [|rewrite H8 in Hstr; injection Hstr as <- _; congruence].
    exists k. apply find_some in Hk. destruct Hk as [_ Hk]. split; [|exact Hk].
    unfold key_matches in Hk.
    destruct (nth_error (key_names ini) k) eqn:E; [|discriminate].
    eapply nth_error_lt. exact E. }
  destruct Hm as (k & Hk & Hm).
  rewrite (global_lookup_find ini key Hwf).
  destruct (find (key_matches ini key)
                 (if has_option (options ini) SIR_OPTION_OVERRIDE_DUPLICATE_KEYS
                  then rev (seq 0 (length (key_names ini)))
                  else seq 0 (length (key_names ini)))) as [k'|] eqn:Hfind.
  - assert (Hk' : (k' < length (key_names ini))%nat).
    { apply find_some in Hfind. destruct Hfind as [Hin _].
      apply in_scan_order in Hin. exact Hin. }
    destruct Hwf as [Wsc Wnl Wg Wsn Wr Wkc Wvl Wkn Wkv Wes].
    destruct (nth_error (key_values ini) k') as [v'|] eqn:Hv'.
    2:{ apply nth_error_None in Hv'. lia. }
    exists v'. rewrite (nth_error_nth _ _ _ Hv').
    split; [|split; [reflexivity|apply has_error_clear]].
    rewrite Forall_nth_error in Wkv. intros ->. specialize (Wkv _ _ Hv'). discriminate.
  - exfalso. rewrite find_none_iff in Hfind.
    assert (Hin : In k (if has_option (options ini) SIR_OPTION_OVERRIDE_DUPLICATE_KEYS
                        then rev (seq 0 (length (key_names ini)))
                        else seq 0 (length (key_names ini)))).
    { apply in_scan_order. exact Hk. }
    rewrite (Hfind k Hin) in Hm. discriminate.
Qed.

Lemma X13_witness :
  exists v',
    v' <> NullPtr /\
    sir_section_str (parsed (lines ["[a]"; "k=1"; "[b]"; "k=2"]) SIR_OPTION_NONE)
                    None (arg "k") =
    Ok (v', sir__clear_error_str (parsed (lines ["[a]"; "k=1"; "[b]"; "k=2"]) SIR_OPTION_NONE)).
Proof.
  assert (Hload : sir_load_from_str (lines ["[a]"; "k=1"; "[b]"; "k=2"]) SIR_OPTION_NONE
                  = Ok (parsed (lines ["[a]"; "k=1"; "[b]"; "k=2"]) SIR_OPTION_NONE))
    by (vm_compute; reflexivity).
  assert (Hstr : sir_section_str (parsed (lines ["[a]"; "k=1"; "[b]"; "k=2"]) SIR_OPTION_NONE)
                                 (Some (list_ascii_of_string "b"))
                                 (Some (list_ascii_of_string "k"))
                 = Ok (InData 14, parsed (lines ["[a]"; "k=1"; "[b]"; "k=2"]) SIR_OPTION_NONE))
    by (vm_compute; reflexivity).
  destruct (X13_scoped_hit_is_a_global_hit _ _ _ _ _ _ _ Hload eq_refl Hstr)
    as (v' & Hv' & H & _); [discriminate|].
  exists v'. split; [exact Hv'|exact H].
Defined.

(** ** The case option in the lookups and in the loader *)



















(** ** Texts of key lines *)

Lemma whitespace_nul_free (w : list ascii) : whitespace w -> nul_free w.
Proof.
  unfold whitespace. intros Hw x Hx. rewrite Forall_forall in Hw.
  destruct (Hw x Hx) as [Hn _]. apply is_nul_false. exact Hn.
Qed.

Lemma after_whitespace_split (s : list ascii) :
  nul_free s ->
  exists w, s = w ++ after_whitespace s /\ whitespace w /\
            (after_whitespace s = [] \/ le_space (hd NUL (after_whitespace s)) = false).
Proof.
  unfold after_whitespace, whitespace.
  induction s as [|c t IH]; intros Hn.
  - exists []. split; [reflexivity|]. split; [constructor|]. left. reflexivity.
  - assert (Hc : is_nul c = false) by (apply is_nul_false, Hn; left; reflexivity).
    cbn [skip_whitespace]. rewrite Hc. cbn [negb andb].
    destruct (le_space c) eqn:Hs.
    + destruct IH as (w & Heq & Hw & Hhd); [intros x Hx; apply Hn; right; exact Hx|].
      pose proof (skip_whitespace_nonneg t) as Hnn.
      replace (Z.to_nat (1 + skip_whitespace t)) with (S (Z.to_nat (skip_whitespace t))) by lia.
      cbn [skipn]. exists (c :: w). split; [cbn [app]; f_equal; exact Heq|].
      split; [constructor; [split; assumption|exact Hw]|exact Hhd].
    + exists []. cbn [Z.to_nat skipn app hd]. split; [reflexivity|].
      split; [constructor|]. right. exact Hs.
Qed.

Lemma trimmed_right_nil (s : list ascii) :
  trimmed_right s = [] -> Forall (fun c => le_space c = true) s.
Proof.
  induction s as [|c t IH]; intros H; [constructor|].
  cbn [trimmed_right] in H. destruct (trimmed_right t) as [|y r] eqn:E; [|discriminate].
  destruct (le_space c) eqn:Hc; [|discriminate].
  constructor; [exact Hc|apply IH; reflexivity].
Qed.

Lemma trimmed_right_split (r : list ascii) :
  trimmed_right r <> [] ->
  exists t x ws, r = (t ++ [x]) ++ ws /\ le_space x = false /\
                 Forall (fun c => le_space c = true) ws /\ trimmed_right r = t ++ [x].
Proof.
  induction r as [|c t IH]; intros H; [exfalso; apply H; reflexivity|].
  cbn [trimmed_right] in *. destruct (trimmed_right t) as [|y r'] eqn:E.
  - destruct (le_space c) eqn:Hc; [congruence|].
    exists [], c, t. split; [reflexivity|]. split; [exact Hc|].
    split; [apply trimmed_right_nil; exact E|reflexivity].
  - destruct IH as (t' & x & ws & Heq & Hx & Hws & Htr); [discriminate|].
    exists (c :: t'), x, ws. split; [cbn [app]; f_equal; exact Heq|].
    split; [exact Hx|]. split; [exact Hws|]. cbn [app]. f_equal. exact Htr.
Qed.

(** A field as leading whitespace, the text kept and trailing whitespace. *)
Lemma field_split (s : list ascii) :
  nul_free s -> trimmed s <> [] ->
  exists w t x ws,
    s = w ++ (t ++ [x]) ++ ws /\ whitespace w /\ whitespace ws /\
    nul_free t /\ x <> NUL /\ le_space x = false /\
    le_space (hd x (t ++ [x])) = false /\ trimmed s = t ++ [x].
Proof.
  intros Hn Htr. unfold trimmed in *.
  destruct (after_whitespace_split s Hn) as (w & Heq & Hw & Hhd).
  destruct (trimmed_right_split _ Htr) as (t & x & ws & Hr & Hx & Hws & Ht).
  exists w, t, x, ws.
  assert (Hs : s = w ++ (t ++ [x]) ++ ws) by (rewrite <- Hr; exact Heq).
  assert (Hnf : forall y, In y ((t ++ [x]) ++ ws) -> y <> NUL).
  { intros y Hy. apply Hn. rewrite Hs. apply in_or_app. right. exact Hy. }
  split; [exact Hs|]. split; [exact Hw|]. split.
  { unfold whitespace. rewrite Forall_forall in *. intros y Hy. split; [|apply Hws, Hy].
    apply is_nul_false, Hnf. apply in_or_app. right. exact Hy. }
  split. { intros y Hy. apply Hnf. apply in_or_app. left. apply in_or_app. left. exact Hy. }
  split. { apply Hnf. apply in_or_app. left. apply in_or_app. right. left. reflexivity. }
  split; [exact Hx|]. split; [|exact Ht].
  destruct Hhd as [Hnil|Hhd].
  - rewrite Hnil in Hr. destruct t; discriminate.
  - rewrite Hr in Hhd. destruct t as [|t0 t]; cbn [app hd] in *; exact Hhd.
Qed.

Lemma name_field_spec (opts : SirOptions) (k : list ascii) :
  name_field opts k = true ->
  nul_free k /\
  (forall c, In c k -> sir__is_comment_char opts c = false) /\
  (forall c, In c k -> sir__is_assignment_char opts c = false) /\
  trimmed k <> [] /\
  Ascii.eqb (hd NUL (trimmed k)) SIR__SECTION_NAME_OPEN_CHAR = false.
Proof.
  unfold name_field. intros H. apply andb_prop in H. destruct H as [Hall Htr].
  rewrite forallb_forall in Hall.
  assert (Hc : forall c, In c k -> is_nul c = false /\ sir__is_comment_char opts c = false /\
                                   sir__is_assignment_char opts c = false).
  { intros c Hin. specialize (Hall c Hin).
    destruct (is_nul c), (sir__is_comment_char opts c), (sir__is_assignment_char opts c);
      try discriminate. auto. }
  split; [intros c Hin; apply is_nul_false, Hc, Hin|].
  split; [intros c Hin; apply Hc, Hin|]. split; [intros c Hin; apply Hc, Hin|].
  destruct (trimmed k) as [|c r]; [discriminate|]. split; [discriminate|].
  cbn [hd]. destruct (Ascii.eqb c SIR__SECTION_NAME_OPEN_CHAR); [discriminate|reflexivity].
Qed.

Lemma value_field_spec (opts : SirOptions) (v : list ascii) :
  value_field opts v = true ->
  nul_free v /\
  (forall c, In c v -> sir__is_comment_char opts c = false) /\
  ~ In LF v /\
  (has_option opts SIR_OPTION_DISABLE_QUOTES = true \/ ~ In DQUOTE v) /\
  trimmed v <> [].
Proof.
  unfold value_field. intros H. apply andb_prop in H. destruct H as [Hall Htr].
  rewrite forallb_forall in Hall.
  assert (Hc : forall c, In c v ->
                         is_nul c = false /\ sir__is_comment_char opts c = false /\
                         Ascii.eqb c LF = false /\
                         (has_option opts SIR_OPTION_DISABLE_QUOTES ||
                          negb (Ascii.eqb c DQUOTE)) = true).
  { intros c Hin. specialize (Hall c Hin).
    destruct (is_nul c), (sir__is_comment_char opts c), (Ascii.eqb c LF);
      try discriminate. auto. }
  split; [intros c Hin; apply is_nul_false, Hc, Hin|].
  split; [intros c Hin; apply Hc, Hin|].
  split.
  { intros Hin. destruct (Hc _ Hin) as (_ & _ & Hlf & _).
    rewrite Ascii.eqb_refl in Hlf. discriminate. }
  split.
  { destruct (has_option opts SIR_OPTION_DISABLE_QUOTES) eqn:Hq; [left; reflexivity|].
    right. intros Hin. destruct (Hc _ Hin) as (_ & _ & _ & Hdq).
    rewrite Ascii.eqb_refl in Hdq. discriminate. }
  destruct (trimmed v); [discriminate|discriminate].
Qed.


Lemma key_fields_cons (opts : SirOptions) (k v : list ascii)
      (rest : list (list ascii * list ascii)) :
  key_fields opts ((k, v) :: rest) = true ->
  name_field opts k = true /\ value_field opts v = true /\ key_fields opts rest = true.
Proof.
  unfold key_fields. cbn [forallb fst snd]. intros H.
  apply andb_prop in H. destruct H as [H Hr]. apply andb_prop in H. destruct H as [Hk Hv].
  auto.
Qed.

Lemma raw_value_spec (opts : SirOptions) (v : list ascii) :
  raw_value opts v = true ->
  nul_free v /\ (forall c, In c v -> sir__is_comment_char opts c = false) /\ ~ In LF v.
Proof.
  unfold raw_value. intros H. rewrite forallb_forall in H.
  assert (Hc : forall c, In c v ->
                         is_nul c = false /\ sir__is_comment_char opts c = false /\
                         Ascii.eqb c LF = false).
  { intros c Hin. specialize (H c Hin).
    destruct (is_nul c), (sir__is_comment_char opts c), (Ascii.eqb c LF);
      try discriminate. auto. }
  split; [|split].
  - intros c Hin. apply is_nul_false. apply (Hc c Hin).
  - intros c Hin. apply (Hc c Hin).
  - intros Hin. destruct (Hc LF Hin) as (_ & _ & H3). rewrite Ascii.eqb_refl in H3.
    discriminate.
Qed.

Lemma value_field_raw (opts : SirOptions) (v : list ascii) :
  value_field opts v = true -> raw_value opts v = true.
Proof.
  intros H. apply value_field_spec in H. destruct H as (Hn & Hc & Hl & _).
  unfold raw_value. apply forallb_forall. intros c Hin.
  assert (is_nul c = false) as -> by (apply is_nul_false, Hn, Hin).
  rewrite (Hc c Hin).
  assert (Ascii.eqb c LF = false) as ->
      by (apply Ascii.eqb_neq; intros ->; apply Hl; exact Hin).
  reflexivity.
Qed.

Lemma key_fields_line_fields (opts : SirOptions) (kvs : list (list ascii * list ascii)) :
  key_fields opts kvs = true -> line_fields opts kvs = true.
Proof.
  unfold key_fields, line_fields. rewrite !forallb_forall. intros H kv Hin.
  specialize (H kv Hin). apply andb_prop in H. destruct H as [Hk Hv].
  rewrite Hk, (value_field_raw opts _ Hv). reflexivity.
Qed.

Lemma line_fields_cons (opts : SirOptions) (k v : list ascii)
      (rest : list (list ascii * list ascii)) :
  line_fields opts ((k, v) :: rest) = true ->
  name_field opts k = true /\ raw_value opts v = true /\ line_fields opts rest = true.
Proof.
  unfold line_fields. cbn [forallb fst snd]. intros H.
  apply andb_prop in H. destruct H as [H Hr]. apply andb_prop in H. destruct H as [Hk Hv].
  auto.
Qed.

Lemma lines_nul_free (opts : SirOptions) (kvs : list (list ascii * list ascii)) :
  line_fields opts kvs = true -> nul_free (key_lines kvs).
Proof.
  induction kvs as [|[k v] rest IH]; intros H; [intros x []|].
  apply line_fields_cons in H. destruct H as (Hk & Hv & Hr).
  apply name_field_spec in Hk. destruct Hk as (Hkn & _).
  apply raw_value_spec in Hv. destruct Hv as (Hvn & _).
  cbn [key_lines]. intros x Hx. apply in_app_or in Hx. destruct Hx as [Hx|[<-|Hx]].
  - apply Hkn, Hx.
  - discriminate.
  - apply in_app_or in Hx. destruct Hx as [Hx|[<-|Hx]].
    + apply Hvn, Hx.
    + discriminate.
    + apply (IH Hr), Hx.
Qed.

Lemma lines_comment_free (opts : SirOptions) (kvs : list (list ascii * list ascii)) :
  line_fields opts kvs = true ->
  Forall (fun c => sir__is_comment_char opts c = false) (key_lines kvs).
Proof.
  induction kvs as [|[k v] rest IH]; intros H; [constructor|].
  apply line_fields_cons in H. destruct H as (Hk & Hv & Hr).
  apply name_field_spec in Hk. destruct Hk as (_ & Hkc & _).
  apply raw_value_spec in Hv. destruct Hv as (_ & Hvc & _).
  cbn [key_lines]. apply Forall_app. split; [apply Forall_forall; exact Hkc|].
  constructor; [destruct (has_option opts SIR_OPTION_DISABLE_HASH_COMMENTS) eqn:E;
                unfold sir__is_comment_char; rewrite E; reflexivity|].
  apply Forall_app. split; [apply Forall_forall; exact Hvc|].
  constructor; [|exact (IH Hr)].
  destruct (has_option opts SIR_OPTION_DISABLE_HASH_COMMENTS) eqn:E;
    unfold sir__is_comment_char; rewrite E; reflexivity.
Qed.

Lemma key_lines_nul_free (opts : SirOptions) (kvs : list (list ascii * list ascii)) :
  key_fields opts kvs = true -> nul_free (key_lines kvs).
Proof. intros H. apply (lines_nul_free opts), key_fields_line_fields, H. Qed.

Lemma key_lines_comment_free (opts : SirOptions) (kvs : list (list ascii * list ascii)) :
  key_fields opts kvs = true ->
  Forall (fun c => sir__is_comment_char opts c = false) (key_lines kvs).
Proof. intros H. apply lines_comment_free, key_fields_line_fields, H. Qed.


(** The first pass on a text without comment characters leaves it as it
    is. *)
Lemma strip_and_count_plain (opts : SirOptions) :
  forall (rest : list ascii) (fuel : nat) (pre : list ascii) (sc kc : Z),
    nul_free rest ->
    Forall (fun c => sir__is_comment_char opts c = false) rest ->
    (length rest < fuel)%nat ->
    strip_and_count fuel opts (pre ++ rest) (Z.of_nat (length pre)) sc kc =
    Ok (pre ++ rest,
        sc + Z.of_nat (length (filter (fun c => Ascii.eqb c SIR__SECTION_NAME_OPEN_CHAR) rest)),
        kc + Z.of_nat (length (filter (sir__is_assignment_char opts) rest))).
Proof.
  induction rest as [|c rest IH]; intros fuel pre sc kc Hn Hc Hf;
    (destruct fuel as [|fuel]; [cbn [length] in Hf; lia|]); cbn [strip_and_count].
  - destruct (Z.ltb_spec (Z.of_nat (length (pre ++ []))) (Z.of_nat (length pre)));
      [rewrite length_app in *; cbn [length] in *; lia|].
    rewrite load_at_length by reflexivity. cbn [hd filter length].
    change (is_nul NUL) with true. cbv iota. rewrite !Z.add_0_r. reflexivity.
  - destruct (Z.ltb_spec (Z.of_nat (length (pre ++ c :: rest))) (Z.of_nat (length pre)));
      [rewrite length_app in *; cbn [length] in *; lia|].
    rewrite load_at_length by reflexivity. cbn [hd].
    assert (Hcn : is_nul c = false) by (apply is_nul_false, Hn; left; reflexivity).
    rewrite Hcn. inversion Hc as [|? ? Hcc Hrest]; subst. rewrite Hcc. cbn [andb].
    rewrite load_at_length by reflexivity. cbn [hd].
    replace (pre ++ c :: rest) with ((pre ++ [c]) ++ rest) by (rewrite <- app_assoc; reflexivity).
    replace (Z.of_nat (length pre) + 1) with (Z.of_nat (length (pre ++ [c])))
      by (rewrite length_app; cbn [length]; lia).
    rewrite IH; [|intros x Hx; apply Hn; right; exact Hx|exact Hrest|cbn [length] in Hf; lia].
    cbn [filter].
    destruct (Ascii.eqb c SIR__SECTION_NAME_OPEN_CHAR) eqn:Eo.
    + apply Ascii.eqb_eq in Eo. subst c.
      assert (Ha : sir__is_assignment_char opts SIR__SECTION_NAME_OPEN_CHAR = false).
      { unfold sir__is_assignment_char.
        destruct (has_option opts SIR_OPTION_DISABLE_COLON_ASSIGNMENT); reflexivity. }
      rewrite Ha. cbn [length]. f_equal. f_equal. f_equal. lia.
    + destruct (sir__is_assignment_char opts c); cbn [length]; f_equal; f_equal; lia.
Qed.

Ltac reassoc := repeat first [rewrite <- app_assoc | progress (cbn [app])]; reflexivity.
Ltac lengths := repeat first [rewrite length_app | progress (cbn [length])]; lia.

Lemma skip_to_assignment_char_app_stop (opts : SirOptions) (s rest : list ascii) :
  nul_free s -> (forall c, In c s -> sir__is_assignment_char opts c = false) ->
  skip_to_assignment_char opts (s ++ SIR_KEY_ASSIGNMENT_CHAR :: rest) = Z.of_nat (length s).
Proof.
  intros Hn Ha. induction s as [|c s IH]; cbn [app skip_to_assignment_char].
  - unfold sir__is_assignment_char. rewrite Ascii.eqb_refl. reflexivity.
  - assert (is_nul c = false) as -> by (apply is_nul_false, Hn; left; reflexivity).
    rewrite (Ha c) by (left; reflexivity). cbn [negb andb].
    rewrite IH; [cbn [length]; lia| |].
    + intros x Hx. apply Hn. right. exact Hx.
    + intros x Hx. apply Ha. right. exact Hx.
Qed.

Lemma trimmed_nil : trimmed [] = [].
Proof. reflexivity. Qed.

Lemma skip_whitespace_all (w : list ascii) :
  whitespace w -> skip_whitespace w = Z.of_nat (length w).
Proof.
  intros Hw. rewrite <- (app_nil_r w) at 1. apply skip_whitespace_app_stop; [exact Hw|].
  reflexivity.
Qed.


Lemma skip_to_char_passes (s : list ascii) (x : ascii) (rest : list ascii) (c : ascii) :
  nul_free s -> ~ In c s -> x <> NUL -> x <> c ->
  Z.of_nat (length s) < skip_to_char (s ++ x :: rest) c.
Proof.
  intros Hn Hc Hx Hxc. induction s as [|y s IH]; cbn [app skip_to_char length].
  - assert (is_nul x = false) as -> by (apply is_nul_false; exact Hx).
    assert (Ascii.eqb x c = false) as -> by (apply Ascii.eqb_neq; exact Hxc).
    cbn [negb andb]. pose proof (skip_to_char_nonneg rest c). lia.
  - assert (is_nul y = false) as -> by (apply is_nul_false, Hn; left; reflexivity).
    assert (Ascii.eqb y c = false) as ->.
    { apply Ascii.eqb_neq. intros ->. apply Hc. left. reflexivity. }
    cbn [negb andb].
    assert (Z.of_nat (length s) < skip_to_char (s ++ x :: rest) c).
    { apply IH; [intros z Hz; apply Hn; right; exact Hz|].
      intros Hin. apply Hc. right. exact Hin. }
    lia.
Qed.

(** [sir__parse_to_assignment_char] on a name followed by '='. *)
Lemma sir__parse_to_assignment_char_found (opts : SirOptions) (pre f rest : list ascii) :
  nul_free f -> (forall c, In c f -> sir__is_assignment_char opts c = false) ->
  sir__parse_to_assignment_char opts (pre ++ f ++ SIR_KEY_ASSIGNMENT_CHAR :: rest)
                                (Z.of_nat (length pre)) =
  (Z.of_nat (length f), pre ++ f ++ NUL :: rest).
Proof.
  intros Hn Ha.
  assert (Heq : ~ In SIR_KEY_ASSIGNMENT_CHAR f).
  { intros Hin. specialize (Ha _ Hin). unfold sir__is_assignment_char in Ha.
    rewrite Ascii.eqb_refl in Ha. discriminate. }
  unfold sir__parse_to_assignment_char.
  destruct (has_option opts SIR_OPTION_DISABLE_COLON_ASSIGNMENT) eqn:Hopt.
  - apply sir__parse_to_char_found; [discriminate|exact Hn|exact Heq].
  - assert (Hcol : ~ In SIR_KEY_ASSIGNMENT_CHAR_ALT f).
    { intros Hin. specialize (Ha _ Hin). unfold sir__is_assignment_char in Ha.
      rewrite Hopt, Ascii.eqb_refl in Ha. cbn in Ha. discriminate. }
    unfold sir__skip_to_char. rewrite tail_at_length by reflexivity.
    rewrite (skip_to_char_app_stop f _ SIR_KEY_ASSIGNMENT_CHAR Hn Heq)
      by (cbn [hd]; rewrite Ascii.eqb_refl; apply orb_true_r).
    pose proof (skip_to_char_passes f SIR_KEY_ASSIGNMENT_CHAR rest SIR_KEY_ASSIGNMENT_CHAR_ALT
                  Hn Hcol) as Hlt.
    destruct (Z.ltb_spec (Z.of_nat (length f))
                (skip_to_char (f ++ SIR_KEY_ASSIGNMENT_CHAR :: rest) SIR_KEY_ASSIGNMENT_CHAR_ALT))
      as [_|Hge].
    + apply sir__parse_to_char_found; [discriminate|exact Hn|exact Heq].
    + exfalso. assert (Z.of_nat (length f) <
                       skip_to_char (f ++ SIR_KEY_ASSIGNMENT_CHAR :: rest)
                                    SIR_KEY_ASSIGNMENT_CHAR_ALT)
        by (apply Hlt; discriminate). lia.
Qed.

Lemma quote_on_line_none (v rest : list ascii) :
  nul_free v -> ~ In DQUOTE v -> quote_on_line (v ++ LF :: rest) = false.
Proof.
  intros Hn Hq. induction v as [|c v IH]; cbn [app quote_on_line].
  - reflexivity.
  - assert (is_nul c = false) as -> by (apply is_nul_false, Hn; left; reflexivity).
    assert (Ascii.eqb c DQUOTE = false) as ->.
    { apply Ascii.eqb_neq. intros ->. apply Hq. left. reflexivity. }
    rewrite IH.
    + destruct (negb false && negb (Ascii.eqb c SIR__KEY_END_CHAR)); reflexivity.
    + intros z Hz. apply Hn. right. exact Hz.
    + intros Hin. apply Hq. right. exact Hin.
Qed.

(** The duplicate check finds nothing among names that all differ. *)
Lemma scan_keys_none (opts : SirOptions) (buf : list ascii) (names : list cptr)
      (key : option (list ascii)) (d : Z) :
  forall (count j : nat),
    (forall i p, (j <= i < j + count)%nat -> nth_error names i = Some p ->
                 sir__str_equal opts (string_at buf p) key = false) ->
    (j + count <= length names)%nat ->
    scan_keys opts buf names key (Z.of_nat j) count d = Ok d.
Proof.
  induction count as [|count IH]; intros j Hno Hb; [reflexivity|].
  cbn [scan_keys]. rewrite aget_of_nat.
  destruct (nth_error names j) as [p|] eqn:Hp.
  2:{ apply nth_error_None in Hp. lia. }
  cbn [bind]. rewrite (Hno j p) by (lia || assumption).
  replace (Z.of_nat j + 1) with (Z.of_nat (S j)) by lia.
  apply IH; [|lia]. intros i q Hi Hq. apply (Hno i q); [lia|exact Hq].
Qed.

Lemma replace_nth_middle {A : Type} (l1 : list A) (x y : A) (l2 : list A) :
  replace_nth (l1 ++ x :: l2) (length l1) y = Some (l1 ++ y :: l2).
Proof.
  induction l1 as [|h t IH]; cbn [app length replace_nth]; [reflexivity|].
  rewrite IH. reflexivity.
Qed.

Lemma aset_middle {A : Type} (l1 : list A) (x y : A) (l2 : list A) :
  aset (l1 ++ x :: l2) (Z.of_nat (length l1)) y = Ok (l1 ++ y :: l2).
Proof.
  unfold aset. destruct (Z.ltb_spec (Z.of_nat (length l1)) 0); [lia|].
  rewrite Nat2Z.id, replace_nth_middle. reflexivity.
Qed.

(** The NUL [sir__trim_whitespace] writes into the whitespace [ws] that a
    NUL follows. *)
Lemma nul_written (ws V : list ascii) :
  exists z, length z = S (length ws) /\ hd NUL z = NUL /\
            match ws ++ NUL :: V with [] => [] | _ :: r => NUL :: r end = z ++ V.
Proof.
  destruct ws as [|a ws].
  - exists [NUL]. repeat split.
  - exists (NUL :: ws ++ [NUL]). split; [lengths|]. split; [reflexivity|]. reassoc.
Qed.

Lemma hd_last_cons (t : list ascii) (x : ascii) : exists c r, t ++ [x] = c :: r.
Proof. destruct t as [|c t]; [exists x, []|exists c, (t ++ [x])]; reflexivity. Qed.


Lemma aget_middle {A : Type} (l1 : list A) (x : A) (l2 : list A) :
  aget (l1 ++ x :: l2) (Z.of_nat (length l1)) = Ok x.
Proof.
  rewrite aget_of_nat, nth_error_app2 by lia. rewrite Nat.sub_diag. reflexivity.
Qed.

Lemma pad_whitespace (pad : list ascii) :
  forallb (fun c => negb (is_nul c) && le_space c) pad = true -> whitespace pad.
Proof.
  unfold whitespace. rewrite forallb_forall, Forall_forall. intros H c Hc.
  specialize (H c Hc). destruct (is_nul c), (le_space c); try discriminate. auto.
Qed.

Lemma header_field_spec (opts : SirOptions) (h : list ascii) :
  header_field opts h = true ->
  nul_free h /\
  (forall c, In c h -> sir__is_comment_char opts c = false) /\
  ~ In SIR__SECTION_NAME_CLOSE_CHAR h /\ trimmed h <> [].
Proof.
  unfold header_field. intros H. apply andb_prop in H. destruct H as [Hall Htr].
  rewrite forallb_forall in Hall.
  assert (Hc : forall c, In c h -> is_nul c = false /\ sir__is_comment_char opts c = false /\
                                   Ascii.eqb c SIR__SECTION_NAME_CLOSE_CHAR = false).
  { intros c Hin. specialize (Hall c Hin).
    destruct (is_nul c), (sir__is_comment_char opts c),
             (Ascii.eqb c SIR__SECTION_NAME_CLOSE_CHAR); try discriminate. auto. }
  split; [intros c Hin; apply is_nul_false, Hc, Hin|].
  split; [intros c Hin; apply Hc, Hin|]. split.
  - intros Hin. destruct (Hc _ Hin) as (_ & _ & He). rewrite Ascii.eqb_refl in He.
    discriminate.
  - destruct (trimmed h); [discriminate|discriminate].
Qed.

Lemma section_fields_spec (opts : SirOptions) (s : section_source) :
  section_fields opts s = true ->
  whitespace (section_pad s) /\ header_field opts (section_header s) = true /\
  key_fields opts (section_keys s) = true /\ unique_keys opts (section_keys s) = true.
Proof.
  unfold section_fields. intros H.
  apply andb_prop in H. destruct H as [H H4]. apply andb_prop in H. destruct H as [H H3].
  apply andb_prop in H. destruct H as [H1 H2]. apply pad_whitespace in H1. auto.
Qed.

Lemma key_lines_length (kvs : list (list ascii * list ascii)) :
  (length kvs <= length (key_lines kvs))%nat.
Proof.
  induction kvs as [|[k v] rest IH]; [reflexivity|].
  cbn [key_lines length]. rewrite length_app. cbn [length]. rewrite length_app.
  cbn [length]. lia.
Qed.

Lemma key_lines_assignments (opts : SirOptions) (kvs : list (list ascii * list ascii)) :
  (length kvs <= length (filter (sir__is_assignment_char opts) (key_lines kvs)))%nat.
Proof.
  induction kvs as [|[k v] rest IH]; [reflexivity|].
  cbn [key_lines length]. rewrite filter_app. cbn [filter].
  assert (sir__is_assignment_char opts SIR_KEY_ASSIGNMENT_CHAR = true) as ->
      by (unfold sir__is_assignment_char; rewrite Ascii.eqb_refl; reflexivity).
  rewrite length_app. cbn [length]. rewrite filter_app, length_app. cbn [filter].
  destruct (sir__is_assignment_char opts LF); cbn [length]; lia.
Qed.

Lemma whitespace_comment_free (opts : SirOptions) (w : list ascii) :
  whitespace w -> Forall (fun c => sir__is_comment_char opts c = false) w.
Proof.
  unfold whitespace. intros Hw. eapply Forall_impl; [|exact Hw].
  intros c [_ Hs]. unfold sir__is_comment_char.
  destruct (Ascii.eqb_spec c SIR_COMMENT_CHAR) as [->|_]; [discriminate Hs|].
  destruct (Ascii.eqb_spec c SIR_COMMENT_CHAR_ALT) as [->|_]; [discriminate Hs|].
  apply andb_false_r.
Qed.

(** ** The diagnostic pass on key lines and headers *)

Lemma check_warnings_end (opts : SirOptions) (fuel : nat) (buf tail : list ascii) :
  whitespace tail ->
  check_warnings (S fuel) opts (buf ++ tail) (Z.of_nat (length buf)) =
  match tail with [] => Ok tt | _ :: _ => Fault end.
Proof.
  intros Htail. cbn [check_warnings].
  destruct (Z.ltb_spec (Z.of_nat (length (buf ++ tail))) (Z.of_nat (length buf)));
    [rewrite length_app in *; lia|].
  rewrite load_at_length by reflexivity.
  destruct tail as [|c tl]; [reflexivity|]. cbn [hd].
  assert (Hc : is_nul c = false).
  { apply is_nul_false. apply (whitespace_nul_free _ Htail). left. reflexivity. }
  rewrite Hc.
  unfold sir__skip_whitespace. rewrite tail_at_length by reflexivity.
  rewrite (skip_whitespace_all _ Htail).
  replace (buf ++ c :: tl) with ((buf ++ c :: tl) ++ []) by apply app_nil_r.
  rewrite load_at_length by lengths. cbn [hd].
  change (Ascii.eqb NUL SIR__SECTION_NAME_OPEN_CHAR) with false. cbv iota.
  rewrite tail_at_length by lengths. cbn [skip_to_assignment_char].
  destruct (Z.ltb_spec (Z.of_nat (length ((buf ++ c :: tl) ++ [])))
                       (Z.of_nat (length buf) + Z.of_nat (length (c :: tl)) + 0 + 1));
    [reflexivity|]. rewrite app_nil_r, length_app in *. lia.
Qed.

(** One round of the pass for each key line. *)
Lemma check_warnings_lines (opts : SirOptions) :
  forall (kvs : list (list ascii * list ascii)) (fuel : nat) (pre R : list ascii),
    line_fields opts kvs = true ->
    check_warnings (length kvs + fuel) opts (pre ++ key_lines kvs ++ R)
                   (Z.of_nat (length pre)) =
    check_warnings fuel opts ((pre ++ key_lines kvs) ++ R)
                   (Z.of_nat (length (pre ++ key_lines kvs))).
Proof.
  induction kvs as [|[k v] rest IH]; intros fuel pre R0 Hf.
  - cbn [key_lines length Nat.add app]. rewrite app_nil_r. reflexivity.
  - cbn [length Nat.add check_warnings].
    apply line_fields_cons in Hf. destruct Hf as (Hk & Hv & Hr).
    apply name_field_spec in Hk. destruct Hk as (Hkn & _ & Hka & Hkt & Hko).
    apply raw_value_spec in Hv. destruct Hv as (Hvn & _ & Hvl).
    destruct (field_split k Hkn Hkt) as (w & t & x & ws & Hks & Hw & Hws & Htn & Hxn & Hx & Hhd & Htr).
    rewrite Htr in Hko.
    set (R := key_lines rest ++ R0).
    replace (pre ++ key_lines ((k, v) :: rest) ++ R0)
      with (pre ++ k ++ SIR_KEY_ASSIGNMENT_CHAR :: v ++ LF :: R)
      by (unfold R; cbn [key_lines]; reassoc).
    set (buf := pre ++ k ++ SIR_KEY_ASSIGNMENT_CHAR :: v ++ LF :: R).
    assert (Hname : nul_free ((t ++ [x]) ++ ws) /\
                    forall c, In c ((t ++ [x]) ++ ws) -> sir__is_assignment_char opts c = false).
    { split; intros c Hc; [apply Hkn|apply Hka]; rewrite Hks; apply in_or_app; right; exact Hc. }
    destruct Hname as [Hnn Hna].
    destruct (Z.ltb_spec (Z.of_nat (length buf)) (Z.of_nat (length pre)));
      [unfold buf in *; rewrite length_app in *; lia|].
    assert (Hb1 : buf = pre ++ (w ++ (t ++ [x]) ++ ws ++ SIR_KEY_ASSIGNMENT_CHAR :: v ++ LF :: R))
      by (unfold buf; rewrite Hks; reassoc).
    assert (Hload0 : is_nul (load buf (Z.of_nat (length pre))) = false).
    { unfold buf. rewrite load_at_length by reflexivity.
      destruct k as [|k0 k']; [exfalso; apply Hkt; reflexivity|].
      cbn [app hd]. apply is_nul_false, Hkn. left. reflexivity. }
    rewrite Hload0.
    assert (Hskip : sir__skip_whitespace buf (Z.of_nat (length pre)) = Z.of_nat (length w)).
    { unfold sir__skip_whitespace. rewrite Hb1, tail_at_length by reflexivity.
      apply skip_whitespace_app_stop; [exact Hw|].
      destruct t as [|t0 t]; cbn [app hd] in *; rewrite Hhd; apply andb_false_r. }
    rewrite Hskip.
    assert (Hb2 : buf = (pre ++ w) ++ ((t ++ [x]) ++ ws) ++ SIR_KEY_ASSIGNMENT_CHAR :: v ++ LF :: R)
      by (rewrite Hb1; reassoc).
    assert (Hload1 : load buf (Z.of_nat (length pre) + Z.of_nat (length w)) = hd x (t ++ [x])).
    { rewrite Hb2, load_at_length by lengths. destruct t; reflexivity. }
    rewrite Hload1.
    assert (Hopen : Ascii.eqb (hd x (t ++ [x])) SIR__SECTION_NAME_OPEN_CHAR = false).
    { destruct t; exact Hko. }
    rewrite Hopen.
    assert (Hsa : skip_to_assignment_char opts
                    (tail_at buf (Z.of_nat (length pre) + Z.of_nat (length w))) =
                  Z.of_nat (length ((t ++ [x]) ++ ws))).
    { rewrite Hb2, tail_at_length by lengths.
      apply skip_to_assignment_char_app_stop; assumption. }
    rewrite Hsa.
    assert (Hb3 : buf = (pre ++ k ++ [SIR_KEY_ASSIGNMENT_CHAR]) ++ v ++ LF :: R)
      by (unfold buf; reassoc).
    assert (Hpos : Z.of_nat (length pre) + Z.of_nat (length w) +
                   Z.of_nat (length ((t ++ [x]) ++ ws)) + 1 =
                   Z.of_nat (length (pre ++ k ++ [SIR_KEY_ASSIGNMENT_CHAR])))
      by (rewrite Hks; lengths).
    rewrite Hpos.
    destruct (Z.ltb_spec (Z.of_nat (length buf))
                         (Z.of_nat (length (pre ++ k ++ [SIR_KEY_ASSIGNMENT_CHAR]))));
      [rewrite Hb3 in *; rewrite (length_app (pre ++ k ++ [SIR_KEY_ASSIGNMENT_CHAR])) in *; lia|].
    assert (Hsl : sir__skip_to_char buf (Z.of_nat (length (pre ++ k ++ [SIR_KEY_ASSIGNMENT_CHAR])))
                                    SIR__KEY_END_CHAR = Z.of_nat (length v)).
    { unfold sir__skip_to_char. rewrite Hb3, tail_at_length by reflexivity.
      apply skip_to_char_app_stop; [exact Hvn|exact Hvl|].
      cbn [hd]. unfold SIR__KEY_END_CHAR. rewrite Ascii.eqb_refl. apply orb_true_r. }
    rewrite Hsl.
    replace buf with ((pre ++ k ++ SIR_KEY_ASSIGNMENT_CHAR :: v ++ [LF]) ++ key_lines rest ++ R0)
      by (unfold buf, R; reassoc).
    replace (Z.of_nat (length (pre ++ k ++ [SIR_KEY_ASSIGNMENT_CHAR])) + Z.of_nat (length v) + 1)
      with (Z.of_nat (length (pre ++ k ++ SIR_KEY_ASSIGNMENT_CHAR :: v ++ [LF])))
      by lengths.
    rewrite (IH fuel _ R0 Hr).
    replace ((pre ++ k ++ SIR_KEY_ASSIGNMENT_CHAR :: v ++ [LF]) ++ key_lines rest)
      with (pre ++ key_lines ((k, v) :: rest)) by (cbn [key_lines]; reassoc).
    reflexivity.
Qed.

Lemma check_warnings_key_lines (opts : SirOptions) :
  forall (kvs : list (list ascii * list ascii)) (fuel : nat) (pre R : list ascii),
    key_fields opts kvs = true ->
    check_warnings (length kvs + fuel) opts (pre ++ key_lines kvs ++ R)
                   (Z.of_nat (length pre)) =
    check_warnings fuel opts ((pre ++ key_lines kvs) ++ R)
                   (Z.of_nat (length (pre ++ key_lines kvs))).
Proof.
  intros kvs fuel pre R H. apply check_warnings_lines, key_fields_line_fields, H.
Qed.

(** One round of the pass for a section header. *)
Lemma check_warnings_header (opts : SirOptions) (fuel : nat) (pre pad h R : list ascii) :
  whitespace pad -> header_field opts h = true ->
  check_warnings (S fuel) opts
    (pre ++ pad ++ SIR__SECTION_NAME_OPEN_CHAR :: h ++ SIR__SECTION_NAME_CLOSE_CHAR :: R)
    (Z.of_nat (length pre)) =
  check_warnings fuel opts
    ((pre ++ pad ++ SIR__SECTION_NAME_OPEN_CHAR :: h ++ [SIR__SECTION_NAME_CLOSE_CHAR]) ++ R)
    (Z.of_nat (length (pre ++ pad ++ SIR__SECTION_NAME_OPEN_CHAR :: h ++
                         [SIR__SECTION_NAME_CLOSE_CHAR]))).
Proof.
  intros Hpad Hh. apply header_field_spec in Hh. destruct Hh as (Hhn & _ & Hhc & _).
  cbn [check_warnings].
  set (buf := pre ++ pad ++ SIR__SECTION_NAME_OPEN_CHAR :: h ++ SIR__SECTION_NAME_CLOSE_CHAR :: R).
  destruct (Z.ltb_spec (Z.of_nat (length buf)) (Z.of_nat (length pre)));
    [unfold buf in *; rewrite length_app in *; lia|].
  assert (Hload0 : is_nul (load buf (Z.of_nat (length pre))) = false).
  { unfold buf. rewrite load_at_length by reflexivity.
    destruct pad as [|a pad]; cbn [app hd]; [reflexivity|].
    apply is_nul_false. apply (whitespace_nul_free _ Hpad). left. reflexivity. }
  rewrite Hload0.
  assert (Hskip : sir__skip_whitespace buf (Z.of_nat (length pre)) = Z.of_nat (length pad)).
  { unfold sir__skip_whitespace, buf. rewrite tail_at_length by reflexivity.
    apply skip_whitespace_app_stop; [exact Hpad|]. reflexivity. }
  rewrite Hskip.
  assert (Hb : buf = (pre ++ pad) ++ (SIR__SECTION_NAME_OPEN_CHAR :: h) ++
                     SIR__SECTION_NAME_CLOSE_CHAR :: R) by (unfold buf; reassoc).
  assert (Hload1 : load buf (Z.of_nat (length pre) + Z.of_nat (length pad)) =
                   SIR__SECTION_NAME_OPEN_CHAR).
  { rewrite Hb, load_at_length by lengths. reflexivity. }
  rewrite Hload1, Ascii.eqb_refl.
  assert (Hsk : sir__skip_to_char buf (Z.of_nat (length pre) + Z.of_nat (length pad))
                                  SIR__SECTION_NAME_CLOSE_CHAR =
                Z.of_nat (length (SIR__SECTION_NAME_OPEN_CHAR :: h))).
  { unfold sir__skip_to_char. rewrite Hb, tail_at_length by lengths.
    apply skip_to_char_app_stop.
    - intros y [<-|Hy]; [discriminate|apply Hhn, Hy].
    - intros [Heq|Hin]; [discriminate Heq|exact (Hhc Hin)].
    - cbn [hd]. rewrite Ascii.eqb_refl. apply orb_true_r. }
  rewrite Hsk. f_equal; [unfold buf; reassoc|lengths].
Qed.

(** The rounds of the pass for a list of sections: one for each header and
    one for each key line, fewer than the characters of the text. *)
Lemma check_warnings_sections (opts : SirOptions) :
  forall (secs : list section_source),
    forallb (section_fields opts) secs = true ->
    exists n : nat,
      (n <= length (flat_map section_text secs))%nat /\
      forall (fuel : nat) (pre R : list ascii),
        check_warnings (n + fuel) opts (pre ++ flat_map section_text secs ++ R)
                       (Z.of_nat (length pre)) =
        check_warnings fuel opts ((pre ++ flat_map section_text secs) ++ R)
                       (Z.of_nat (length (pre ++ flat_map section_text secs))).
Proof.
  induction secs as [|s secs IH]; intros Hf.
  - exists 0%nat. split; [cbn; lia|]. intros fuel pre R.
    cbn [flat_map app Nat.add]. rewrite app_nil_r. reflexivity.
  - cbn [forallb] in Hf. apply andb_prop in Hf. destruct Hf as [Hs Hr].
    apply section_fields_spec in Hs. destruct Hs as (Hpad & Hh & Hk & _).
    destruct (IH Hr) as (n & Hn & Hrun).
    exists (S (length (section_keys s) + n)). split.
    { cbn [flat_map]. rewrite length_app. unfold section_text at 1.
      pose proof (key_lines_length (section_keys s)).
      repeat first [rewrite length_app | progress (cbn [length])]. lia. }
    intros fuel pre R. cbn [flat_map Nat.add].
    set (H1 := section_pad s ++ SIR__SECTION_NAME_OPEN_CHAR :: section_header s ++
                 [SIR__SECTION_NAME_CLOSE_CHAR]).
    replace (pre ++ (section_text s ++ flat_map section_text secs) ++ R)
      with (pre ++ section_pad s ++ SIR__SECTION_NAME_OPEN_CHAR :: section_header s ++
              SIR__SECTION_NAME_CLOSE_CHAR ::
              (key_lines (section_keys s) ++ flat_map section_text secs ++ R))
      by (unfold section_text; reassoc).
    rewrite (check_warnings_header opts _ pre _ _ _ Hpad Hh).
    fold H1.
    replace (length (section_keys s) + n + fuel)%nat
      with (length (section_keys s) + (n + fuel))%nat by lia.
    rewrite (check_warnings_key_lines opts _ _ (pre ++ H1) _ Hk).
    replace (((pre ++ H1) ++ key_lines (section_keys s)) ++ flat_map section_text secs ++ R)
      with ((pre ++ H1 ++ key_lines (section_keys s)) ++ flat_map section_text secs ++ R)
      by reassoc.
    replace ((pre ++ H1) ++ key_lines (section_keys s))
      with (pre ++ H1 ++ key_lines (section_keys s)) by reassoc.
    rewrite Hrun. f_equal; [unfold H1, section_text; reassoc|].
    f_equal. f_equal. unfold H1, section_text. reassoc.
Qed.

(** The pass on a whole text: it returns, unless whitespace follows the
    last line. *)
Lemma check_warnings_ini_text (opts : SirOptions) (g : list (list ascii * list ascii))
      (secs : list section_source) (tail : list ascii) :
  key_fields opts g = true -> forallb (section_fields opts) secs = true ->
  whitespace tail ->
  check_warnings (S (length (ini_text g secs ++ tail))) opts (ini_text g secs ++ tail) 0 =
  match tail with [] => Ok tt | _ :: _ => Fault end.
Proof.
  intros Hg Hs Htail. destruct (check_warnings_sections opts secs Hs) as (n & Hn & Hrun).
  pose proof (key_lines_length g) as Hgl.
  assert (Hlen : length (ini_text g secs ++ tail) =
                 (length (key_lines g) + length (flat_map section_text secs) + length tail)%nat)
    by (unfold ini_text; lengths).
  set (F := (length (ini_text g secs ++ tail) - length g - n)%nat).
  replace (S (length (ini_text g secs ++ tail)))
    with (length g + (n + S F))%nat by (unfold F; lia).
  pose proof (check_warnings_key_lines opts g (n + S F) []
                (flat_map section_text secs ++ tail) Hg) as H1.
  cbn [app length] in H1. change (Z.of_nat 0) with 0 in H1.
  unfold ini_text. rewrite <- app_assoc. rewrite H1.
  pose proof (Hrun (S F) (key_lines g) tail) as H2. rewrite H2.
  apply check_warnings_end. exact Htail.
Qed.

(** ** The parsing loop on key lines *)

(** One key line: the name and the value are cut out of the buffer and
    stored at the key index. *)
Lemma load_key_line (opts : SirOptions)
      (done w t : list ascii) (x : ascii) (ws w3 t' : list ascii) (x' : ascii)
      (w4 R : list ascii) (secs : list SirSection) (snames : list cptr)
      (ns : list cptr) (n0 : cptr) (nrest : list cptr)
      (vs : list cptr) (v0 : cptr) (vrest : list cptr)
      (err : list ascii) (sc kc esz ew : Z) (r0 : SirSectionRange)
      (pi si : Z) (old cur : list cptr) :
  whitespace w -> nul_free t -> x <> NUL -> le_space x = false ->
  le_space (hd x (t ++ [x])) = false -> whitespace ws ->
  (forall c, In c ((t ++ [x]) ++ ws) -> sir__is_assignment_char opts c = false) ->
  whitespace w3 -> nul_free t' -> x' <> NUL -> le_space x' = false ->
  le_space (hd x' (t' ++ [x'])) = false -> whitespace w4 ->
  ~ In LF (w3 ++ (t' ++ [x']) ++ w4) ->
  (has_option opts SIR_OPTION_DISABLE_QUOTES = true \/
   ~ In DQUOTE (w3 ++ (t' ++ [x']) ++ w4)) ->
  0 <= si -> nth_error secs (Z.to_nat si) = Some (mkSection [r0]) ->
  ns = old ++ cur -> start r0 = Z.of_nat (length old) ->
  length vs = length ns ->
  Forall (fun p => forall post,
              sir__str_equal opts (string_at (done ++ post) p) (Some (t ++ [x])) = false) cur ->
  exists z z',
    length z = S (length ws) /\ hd NUL z = NUL /\
    length z' = S (length w4) /\ hd NUL z' = NUL /\
    load_key
      (mkLoader (mkIni (done ++ w ++ (t ++ [x]) ++ ws ++
                          SIR_KEY_ASSIGNMENT_CHAR :: w3 ++ (t' ++ [x']) ++ w4 ++ LF :: R)
                       secs snames (ns ++ n0 :: nrest) (vs ++ v0 :: vrest)
                       err sc kc opts esz ew)
                (Z.of_nat (length (done ++ w))) pi si (Z.of_nat (length ns))) =
    Ok (Continue
          (mkLoader (mkIni (done ++ w ++ (t ++ [x]) ++ z ++ w3 ++ (t' ++ [x']) ++ z' ++ R)
                           secs snames
                           (ns ++ InData (Z.of_nat (length (done ++ w))) :: nrest)
                           (vs ++ InData (Z.of_nat (length (done ++ w ++ (t ++ [x]) ++ z ++ w3)))
                               :: vrest)
                           err sc kc opts esz ew)
                    (Z.of_nat (length (done ++ w ++ (t ++ [x]) ++ z ++
                                         w3 ++ (t' ++ [x']) ++ z')))
                    pi si (Z.of_nat (length ns) + 1))).
Proof.
  intros Hw Htn Hxn Hx Hhd Hws Hna Hw3 Htn' Hxn' Hx' Hhd' Hw4 Hlf Hq Hsi Hsec Hns Hstart Hlen
         Hdup.
  set (V := w3 ++ (t' ++ [x']) ++ w4 ++ LF :: R).
  destruct (nul_written ws V) as (z & Hzl & Hzh & Hz).
  destruct (nul_written w4 R) as (z' & Hzl' & Hzh' & Hz').
  exists z, z'. split; [exact Hzl|]. split; [exact Hzh|]. split; [exact Hzl'|].
  split; [exact Hzh'|].
  assert (Hnn : nul_free (t ++ [x])).
  { intros y Hy. apply in_app_or in Hy. destruct Hy as [Hy|[<-|[]]]; [apply Htn, Hy|exact Hxn]. }
  assert (Hnn' : nul_free (t' ++ [x'])).
  { intros y Hy. apply in_app_or in Hy. destruct Hy as [Hy|[<-|[]]]; [apply Htn', Hy|exact Hxn']. }
  assert (Hnf : nul_free ((t ++ [x]) ++ ws)).
  { intros y Hy. apply in_app_or in Hy. destruct Hy; [apply Hnn|apply (whitespace_nul_free ws Hws)];
      assumption. }
  assert (Hnv : nul_free (w3 ++ (t' ++ [x']) ++ w4)).
  { intros y Hy. apply in_app_or in Hy. destruct Hy as [Hy|Hy];
      [apply (whitespace_nul_free w3 Hw3), Hy|].
    apply in_app_or in Hy. destruct Hy; [apply Hnn'|apply (whitespace_nul_free w4 Hw4)];
      assumption. }
  unfold load_key. cbn [l_ini l_str options data key_index prev_index section_index].
  (* the name *)
  replace (done ++ w ++ (t ++ [x]) ++ ws ++ SIR_KEY_ASSIGNMENT_CHAR :: V)
    with ((done ++ w) ++ ((t ++ [x]) ++ ws) ++ SIR_KEY_ASSIGNMENT_CHAR :: V) by reassoc.
  rewrite (sir__parse_to_assignment_char_found opts (done ++ w) ((t ++ [x]) ++ ws) V Hnf Hna).
  replace ((done ++ w) ++ ((t ++ [x]) ++ ws) ++ NUL :: V)
    with ((done ++ w) ++ [] ++ (t ++ [x]) ++ ws ++ NUL :: V) by reassoc.
  destruct (sir__trim_whitespace_app (done ++ w) [] t ws (NUL :: V) x) as [Htrim Hname];
    try assumption; [constructor|reflexivity|].
  rewrite Htrim. cbn [bind]. rewrite Hz in *.
  set (buf2 := (done ++ w) ++ [] ++ (t ++ [x]) ++ z ++ V) in *.
  (* no duplicate *)
  assert (Hfind : find_duplicate_key
                    (mkLoader (mkIni (done ++ w ++ (t ++ [x]) ++ ws ++
                                        SIR_KEY_ASSIGNMENT_CHAR :: V)
                                     secs snames (ns ++ n0 :: nrest) (vs ++ v0 :: vrest)
                                     err sc kc opts esz ew)
                              (Z.of_nat (length (done ++ w))) pi si (Z.of_nat (length ns)))
                    buf2 (Z.of_nat (length ((done ++ w) ++ []))) = Ok (-1)).
  { unfold find_duplicate_key.
    cbn [l_ini sections section_index options key_names key_index].
    assert (aget secs si = Ok (mkSection [r0])) as ->
        by (apply aget_nth_error; split; [exact Hsi|exact Hsec]).
    cbn [bind ranges scan_ranges]. rewrite Hstart.
    replace (Z.to_nat (Z.of_nat (length ns) - Z.of_nat (length old))) with (length cur)
      by (rewrite Hns; lengths).
    rewrite scan_keys_none; [reflexivity| |rewrite Hns; lengths].
    intros i p Hi Hp. rewrite nth_error_app1 in Hp by (rewrite Hns; lengths).
    rewrite Hns, nth_error_app2 in Hp by lia.
    apply nth_error_In in Hp. rewrite Forall_forall in Hdup.
    cbn [string_at]. rewrite Hname.
    unfold buf2. rewrite <- app_assoc. apply Hdup. exact Hp. }
  match goal with
  | |- context [find_duplicate_key ?st ?b ?k] =>
      replace (find_duplicate_key st b k) with (@Ok Z (-1))
  end.
  cbn [bind].
  (* the value *)
  set (P := done ++ w ++ (t ++ [x]) ++ z).
  assert (Hb2 : buf2 = P ++ (w3 ++ (t' ++ [x']) ++ w4) ++ LF :: R)
    by (unfold buf2, P, V; reassoc).
  assert (HP : Z.of_nat (length (done ++ w)) + (Z.of_nat (length ((t ++ [x]) ++ ws)) + 1) =
               Z.of_nat (length P)) by (unfold P; lengths).
  assert (Hval : read_value opts buf2 (Z.of_nat (length (done ++ w)))
                            (Z.of_nat (length ((t ++ [x]) ++ ws))) =
                 Ok (P ++ w3 ++ (t' ++ [x']) ++ z' ++ R,
                     Z.of_nat (length P) + (Z.of_nat (length (w3 ++ (t' ++ [x']) ++ w4)) + 1),
                     InData (Z.of_nat (length (P ++ w3))))).
  { unfold read_value.
    destruct (Z.eqb_spec (Z.of_nat (length ((t ++ [x]) ++ ws))) (-1)) as [Hm|_]; [lia|].
    cbn [negb]. rewrite HP.
    assert (Hnq : negb (has_option opts SIR_OPTION_DISABLE_QUOTES) &&
                  quote_on_line (tail_at buf2 (Z.of_nat (length P))) = false).
    { destruct Hq as [Hq|Hq]; [rewrite Hq; reflexivity|].
      rewrite Hb2, tail_at_length by reflexivity.
      rewrite quote_on_line_none by assumption. apply andb_false_r. }
    rewrite Hnq. rewrite Hb2.
    change SIR__KEY_END_CHAR with LF.
    rewrite (sir__parse_to_char_found P (w3 ++ (t' ++ [x']) ++ w4) R LF);
      [|discriminate|exact Hnv|exact Hlf].
    replace (P ++ (w3 ++ (t' ++ [x']) ++ w4) ++ NUL :: R)
      with (P ++ w3 ++ (t' ++ [x']) ++ w4 ++ NUL :: R) by reassoc.
    destruct (sir__trim_whitespace_app P w3 t' w4 (NUL :: R) x') as [Htrim' _];
      try assumption; [reflexivity|].
    rewrite Htrim'. cbn [bind]. rewrite Hz'. reflexivity. }
  rewrite Hval. cbn [bind].
  (* stored *)
  assert (Hvalue : c_string (tail_at (P ++ w3 ++ (t' ++ [x']) ++ z' ++ R)
                                     (Z.of_nat (length (P ++ w3)))) = t' ++ [x']).
  { replace (P ++ w3 ++ (t' ++ [x']) ++ z' ++ R) with ((P ++ w3) ++ (t' ++ [x']) ++ z' ++ R)
      by reassoc.
    rewrite tail_at_length by reflexivity. apply c_string_app_end; [exact Hnn'|].
    unfold ends_string. destruct z'; [discriminate Hzl'|exact Hzh']. }
  unfold apply_value. cbn [string_at options]. rewrite Hvalue.
  destruct (hd_last_cons t' x') as (c' & r' & Hcons). rewrite Hcons.
  cbn [andb negb]. change (-1 =? -1) with true. cbn [negb].
  cbn [key_names key_values].
  rewrite aset_middle. cbn [bind]. rewrite <- Hlen, aset_middle. cbn [bind].
  destruct (Z.eqb_spec (Z.of_nat (length ((t ++ [x]) ++ ws))) (-1)) as [Hm|_]; [lia|].
  unfold with_key_values, with_key_names, with_data.
  cbn [data sections section_names key_names key_values error section_count key_count
       options error_size error_writes].
  rewrite Hlen.
  replace (Z.of_nat (length ((done ++ w) ++ []))) with (Z.of_nat (length (done ++ w)))
    by lengths.
  f_equal. f_equal. f_equal; [f_equal|].
  - unfold P. reassoc.
  - f_equal. f_equal. f_equal. unfold P. lengths.
  - unfold P. lengths.
Qed.


Lemma distinct_names_earlier (opts : SirOptions) (l1 : list (list ascii)) (a : list ascii)
      (l2 : list (list ascii)) :
  distinct_names opts (l1 ++ a :: l2) = true ->
  Forall (fun b => sir__str_equal opts (Some b) (Some a) = false) l1.
Proof.
  induction l1 as [|b l1 IH]; intros H; [constructor|].
  cbn [app distinct_names] in H. apply andb_prop in H. destruct H as [Hb Hr].
  constructor; [|apply IH; exact Hr].
  rewrite forallb_forall in Hb. specialize (Hb a (in_elt a l1 l2)).
  destruct (sir__str_equal opts (Some b) (Some a)); [discriminate|reflexivity].
Qed.

(** The parsing loop on the key lines of the open section, with names that
    all differ: every line takes one round and stores one key. *)
Lemma load_loop_key_lines (opts : SirOptions) (secs : list SirSection) (snames : list cptr)
      (err : list ascii) (sc kc esz ew : Z) (r0 : SirSectionRange)
      (pi si : Z) (old : list cptr) (R : list ascii) :
  0 <= si -> nth_error secs (Z.to_nat si) = Some (mkSection [r0]) ->
  start r0 = Z.of_nat (length old) ->
  forall (rest : list (list ascii * list ascii)) (done : list ascii)
         (prev : list (list ascii * list ascii)) (cur vs nrest vrest : list cptr),
    key_fields opts rest = true ->
    (length rest <= length nrest)%nat -> (length rest <= length vrest)%nat ->
    length vs = length (old ++ cur) ->
    Forall2 (fun p kv => forall post,
                 string_at (done ++ post) p = Some (trimmed (fst kv))) cur prev ->
    distinct_names opts (map (fun kv => trimmed (fst kv)) (prev ++ rest)) = true ->
    exists (extra : list ascii) (newn newv : list cptr),
      (forall fuel : nat,
          load_loop (length rest + fuel)
            (mkLoader (mkIni (done ++ key_lines rest ++ R) secs snames
                             ((old ++ cur) ++ nrest) (vs ++ vrest) err sc kc opts esz ew)
                      (Z.of_nat (length done)) pi si (Z.of_nat (length (old ++ cur)))) =
          load_loop fuel
            (mkLoader (mkIni ((done ++ extra) ++ R) secs snames
                             ((old ++ cur ++ newn) ++ skipn (length rest) nrest)
                             ((vs ++ newv) ++ skipn (length rest) vrest)
                             err sc kc opts esz ew)
                      (Z.of_nat (length (done ++ extra))) pi si
                      (Z.of_nat (length (old ++ cur ++ newn))))) /\
      Forall2 (fun p kv => forall post,
                   string_at ((done ++ extra) ++ post) p = Some (trimmed (fst kv))) newn rest /\
      Forall2 (fun p kv => forall post,
                   string_at ((done ++ extra) ++ post) p = Some (trimmed (snd kv))) newv rest.
Proof.
  intros Hsi Hsec Hstart.
  induction rest as [|[k v] rest IH];
    intros done prev cur vs nrest vrest Hf Hnr Hvr Hlen Hns Hd.
  - exists [], [], []. cbn [key_lines length Nat.add skipn app].
    rewrite !app_nil_r. split; [intros fuel; reflexivity|]. split; constructor.
  - apply key_fields_cons in Hf. destruct Hf as (Hk & Hv & Hr).
    apply name_field_spec in Hk. destruct Hk as (Hkn & _ & Hka & Hkt & Hko).
    apply value_field_spec in Hv. destruct Hv as (Hvn & _ & Hvl & Hvq & Hvt).
    destruct (field_split k Hkn Hkt)
      as (w & t & x & ws & Hks & Hw & Hws & Htn & Hxn & Hx & Hhd & Htr).
    destruct (field_split v Hvn Hvt)
      as (w3 & t' & x' & w4 & Hvs' & Hw3 & Hw4 & Htn' & Hxn' & Hx' & Hhd' & Htr').
    rewrite Htr in Hko.
    destruct nrest as [|n0 nrest]; [cbn [length] in Hnr; lia|].
    destruct vrest as [|v0 vrest]; [cbn [length] in Hvr; lia|].
    set (R1 := key_lines rest ++ R).
    assert (Hna : forall c, In c ((t ++ [x]) ++ ws) -> sir__is_assignment_char opts c = false).
    { intros c Hc. apply Hka. rewrite Hks. apply in_or_app. right. exact Hc. }
    assert (Hdup : Forall (fun p => forall post,
                               sir__str_equal opts (string_at (done ++ post) p)
                                              (Some (t ++ [x])) = false) cur).
    { rewrite map_app in Hd. cbn [map fst] in Hd.
      apply distinct_names_earlier in Hd. rewrite Htr in Hd.
      clear - Hns Hd. induction Hns as [|p kv ns prev Hp Hns IHn]; [constructor|].
      cbn [map] in Hd. inversion Hd as [|? ? Hd1 Hd2]; subst.
      constructor; [|apply IHn; exact Hd2].
      intros post. rewrite Hp. exact Hd1. }
    destruct (load_key_line opts done w t x ws w3 t' x' w4 R1 secs snames (old ++ cur)
                            n0 nrest vs v0 vrest err sc kc esz ew r0 pi si old cur)
      as (z & z' & Hzl & Hzh & Hzl' & Hzh' & Hstep); try assumption; try reflexivity.
    { rewrite <- Hvs'. exact Hvl. }
    { rewrite <- Hvs'. exact Hvq. }
    set (buf := done ++ key_lines ((k, v) :: rest) ++ R).
    assert (Hb : buf = done ++ w ++ (t ++ [x]) ++ ws ++
                       SIR_KEY_ASSIGNMENT_CHAR :: w3 ++ (t' ++ [x']) ++ w4 ++ LF :: R1)
      by (unfold buf, R1; cbn [key_lines]; rewrite Hks, Hvs'; reassoc).
    rewrite Hb. clear buf Hb.
    set (buf := done ++ w ++ (t ++ [x]) ++ ws ++
                  SIR_KEY_ASSIGNMENT_CHAR :: w3 ++ (t' ++ [x']) ++ w4 ++ LF :: R1) in *.
    assert (Hcons : exists c r, t ++ [x] = c :: r /\ c <> NUL /\
                                Ascii.eqb c SIR__SECTION_NAME_OPEN_CHAR = false /\
                                le_space c = false).
    { destruct t as [|c t]; [exists x, []|exists c, (t ++ [x])]; cbn [app hd] in *.
      - repeat split; assumption.
      - repeat split; try assumption. apply Htn. left. reflexivity. }
    destruct Hcons as (c & r & Hcr & Hcn & Hco & Hcs).
    assert (Hload0 : is_nul (load buf (Z.of_nat (length done))) = false).
    { unfold buf. rewrite load_at_length by reflexivity.
      destruct w as [|a w]; cbn [app hd].
      - rewrite Hcr. cbn [app hd]. apply is_nul_false. exact Hcn.
      - apply is_nul_false. apply (whitespace_nul_free _ Hw). left. reflexivity. }
    assert (Hskip : sir__skip_whitespace buf (Z.of_nat (length done)) = Z.of_nat (length w)).
    { unfold sir__skip_whitespace, buf. rewrite tail_at_length by reflexivity.
      apply skip_whitespace_app_stop; [exact Hw|].
      rewrite Hcr. cbn [app hd]. rewrite Hcs. apply andb_false_r. }
    assert (Hload1 : load buf (Z.of_nat (length (done ++ w))) = c).
    { unfold buf.
      replace (done ++ w ++ (t ++ [x]) ++ ws ++
                 SIR_KEY_ASSIGNMENT_CHAR :: w3 ++ (t' ++ [x']) ++ w4 ++ LF :: R1)
        with ((done ++ w) ++ (t ++ [x]) ++ ws ++
                 SIR_KEY_ASSIGNMENT_CHAR :: w3 ++ (t' ++ [x']) ++ w4 ++ LF :: R1) by reassoc.
      rewrite load_at_length by reflexivity. rewrite Hcr. reflexivity. }
    set (extra := w ++ (t ++ [x]) ++ z ++ w3 ++ (t' ++ [x']) ++ z').
    set (no := InData (Z.of_nat (length (done ++ w)))).
    set (vo := InData (Z.of_nat (length (done ++ w ++ (t ++ [x]) ++ z ++ w3)))).
    assert (Hno : forall post, string_at ((done ++ extra) ++ post) no = Some (trimmed k)).
    { intros post. unfold no. cbn [string_at]. f_equal. rewrite Htr. unfold extra.
      replace ((done ++ w ++ (t ++ [x]) ++ z ++ w3 ++ (t' ++ [x']) ++ z') ++ post)
        with ((done ++ w) ++ (t ++ [x]) ++ z ++ w3 ++ (t' ++ [x']) ++ z' ++ post) by reassoc.
      rewrite tail_at_length by reflexivity. apply c_string_app_end.
      - intros y Hy. apply in_app_or in Hy.
        destruct Hy as [Hy|[<-|[]]]; [apply Htn, Hy|exact Hxn].
      - unfold ends_string. destruct z; [discriminate Hzl|exact Hzh]. }
    assert (Hvo : forall post, string_at ((done ++ extra) ++ post) vo = Some (trimmed v)).
    { intros post. unfold vo. cbn [string_at]. f_equal. rewrite Htr'. unfold extra.
      replace ((done ++ w ++ (t ++ [x]) ++ z ++ w3 ++ (t' ++ [x']) ++ z') ++ post)
        with ((done ++ w ++ (t ++ [x]) ++ z ++ w3) ++ (t' ++ [x']) ++ z' ++ post) by reassoc.
      rewrite tail_at_length by reflexivity. apply c_string_app_end.
      - intros y Hy. apply in_app_or in Hy.
        destruct Hy as [Hy|[<-|[]]]; [apply Htn', Hy|exact Hxn'].
      - unfold ends_string. destruct z'; [discriminate Hzl'|exact Hzh']. }
    destruct (IH (done ++ extra) (prev ++ [(k, v)]) (cur ++ [no]) (vs ++ [vo]) nrest vrest)
      as (extra2 & newn & newv & Hrun & Hnewn & Hnewv).
    + exact Hr.
    + cbn [length] in Hnr. lia.
    + cbn [length] in Hvr. lia.
    + repeat rewrite length_app in *. cbn [length]. lia.
    + apply Forall2_app.
      * eapply Forall2_impl; [|exact Hns]. intros p kv H post.
        rewrite <- app_assoc. apply H.
      * constructor; [|constructor]. exact Hno.
    + rewrite <- app_assoc. exact Hd.
    + exists (extra ++ extra2), (no :: newn), (vo :: newv).
      split; [|split].
      * intros fuel.
        cbn [length Nat.add load_loop l_ini data l_str prev_index section_index key_index].
        fold buf. rewrite Hload0, Hskip.
        replace (Z.of_nat (length done) + Z.of_nat (length w))
          with (Z.of_nat (length (done ++ w))) by lengths.
        rewrite Hload1, Hco.
        assert (is_nul c = false) as -> by (apply is_nul_false; exact Hcn).
        cbn [negb]. unfold buf in *. rewrite Hstep. cbn [bind].
        etransitivity; [|etransitivity; [exact (Hrun fuel)|]].
        -- f_equal. f_equal; [f_equal|..];
             first [unfold extra, R1, no, vo; reassoc | unfold extra, no; lengths].
        -- f_equal. f_equal; [f_equal|..];
             first [reassoc | f_equal; f_equal; reassoc].
      * constructor.
        -- intros post. replace ((done ++ extra ++ extra2) ++ post)
             with ((done ++ extra) ++ extra2 ++ post) by reassoc. apply Hno.
        -- eapply Forall2_impl; [|exact Hnewn]. intros p kv H post.
           replace ((done ++ extra ++ extra2) ++ post)
             with (((done ++ extra) ++ extra2) ++ post) by reassoc. apply H.
      * constructor.
        -- intros post. replace ((done ++ extra ++ extra2) ++ post)
             with ((done ++ extra) ++ extra2 ++ post) by reassoc. apply Hvo.
        -- eapply Forall2_impl; [|exact Hnewv]. intros p kv H post.
           replace ((done ++ extra ++ extra2) ++ post)
             with (((done ++ extra) ++ extra2) ++ post) by reassoc. apply H.
Qed.

(** ** The parsing loop on section headers *)

Lemma find_duplicate_section_none (opts : SirOptions) (buf : list ascii) (names : list cptr)
      (name : option (list ascii)) :
  forall (count j : nat),
    (forall i p, (j <= i < j + count)%nat -> nth_error names i = Some p ->
                 sir__str_equal opts (string_at buf p) name = false) ->
    (j + count <= length names)%nat ->
    find_duplicate_section opts buf names name (Z.of_nat j) count = Ok (-1).
Proof.
  induction count as [|count IH]; intros j Hno Hb; [reflexivity|].
  cbn [find_duplicate_section]. rewrite aget_of_nat.
  destruct (nth_error names j) as [p|] eqn:Hp.
  2:{ apply nth_error_None in Hp. lia. }
  cbn [bind]. rewrite (Hno j p) by (lia || assumption).
  replace (Z.of_nat j + 1) with (Z.of_nat (S j)) by lia.
  apply IH; [|lia]. intros i q Hi Hq. apply (Hno i q); [lia|exact Hq].
Qed.

Lemma aget_head {A : Type} (x : A) (l : list A) : aget (x :: l) 0 = Ok x.
Proof. reflexivity. Qed.

Lemma aset_head {A : Type} (x y : A) (l : list A) : aset (x :: l) 0 y = Ok (y :: l).
Proof. reflexivity. Qed.

(** One header with a name that is new: the open section is closed at the
    key index and the next section of the array is opened there. *)
Lemma load_loop_header (opts : SirOptions)
      (done pad h R : list ascii) (closed : list SirSection) (r0 : SirSectionRange)
      (more : list SirSection) (names : list cptr) (n0 : cptr) (nmore : list cptr)
      (knames kvalues : list cptr) (err : list ascii) (sc kc esz ew ki : Z) :
  whitespace pad -> header_field opts h = true ->
  length names = S (length closed) ->
  Forall (fun p => forall post,
              sir__str_equal opts (string_at (done ++ post) p) (Some (trimmed h)) = false)
         names ->
  exists (extra : list ascii) (no : cptr),
    (forall fuel : nat,
        load_loop (S fuel)
          (mkLoader (mkIni (done ++ pad ++ SIR__SECTION_NAME_OPEN_CHAR :: h ++
                              SIR__SECTION_NAME_CLOSE_CHAR :: R)
                           (closed ++ mkSection [r0] :: mkSection [fresh_range] :: more)
                           (names ++ n0 :: nmore) knames kvalues err sc kc opts esz ew)
                    (Z.of_nat (length done)) (Z.of_nat (length closed))
                    (Z.of_nat (length closed)) ki) =
        load_loop fuel
          (mkLoader (mkIni ((done ++ extra) ++ R)
                           ((closed ++ [mkSection [set_end r0 ki]]) ++
                              mkSection [mkRange ki 0] :: more)
                           ((names ++ [no]) ++ nmore) knames kvalues err sc kc opts esz ew)
                    (Z.of_nat (length (done ++ extra)))
                    (Z.of_nat (length (closed ++ [mkSection [set_end r0 ki]])))
                    (Z.of_nat (length (closed ++ [mkSection [set_end r0 ki]]))) ki)) /\
    (forall post, string_at ((done ++ extra) ++ post) no = Some (trimmed h)).
Proof.
  intros Hpad Hh Hlen Hdup.
  apply header_field_spec in Hh. destruct Hh as (Hhn & _ & Hhc & Hht).
  destruct (field_split h Hhn Hht)
    as (w & t & x & ws & Hhs & Hw & Hws & Htn & Hxn & Hx & Hhd & Htr).
  destruct (nul_written ws R) as (z & Hzl & Hzh & Hz).
  set (P := done ++ pad ++ [SIR__SECTION_NAME_OPEN_CHAR]).
  set (extra := pad ++ SIR__SECTION_NAME_OPEN_CHAR :: w ++ (t ++ [x]) ++ z).
  set (no := InData (Z.of_nat (length (P ++ w)))).
  assert (Hnn : nul_free (t ++ [x])).
  { intros y Hy. apply in_app_or in Hy. destruct Hy as [Hy|[<-|[]]]; [apply Htn, Hy|exact Hxn]. }
  assert (Hno : forall post, string_at ((done ++ extra) ++ post) no = Some (trimmed h)).
  { intros post. unfold no. cbn [string_at]. f_equal. rewrite Htr. unfold extra, P.
    replace ((done ++ pad ++ SIR__SECTION_NAME_OPEN_CHAR :: w ++ (t ++ [x]) ++ z) ++ post)
      with (((done ++ pad ++ [SIR__SECTION_NAME_OPEN_CHAR]) ++ w) ++ (t ++ [x]) ++ z ++ post)
      by reassoc.
    rewrite tail_at_length by reflexivity. apply c_string_app_end; [exact Hnn|].
    unfold ends_string. destruct z; [discriminate Hzl|exact Hzh]. }
  exists extra, no. split; [|exact Hno]. intros fuel.
  set (buf := done ++ pad ++ SIR__SECTION_NAME_OPEN_CHAR :: h ++
                SIR__SECTION_NAME_CLOSE_CHAR :: R).
  cbn [load_loop l_ini data l_str prev_index section_index key_index].
  assert (Hload0 : is_nul (load buf (Z.of_nat (length done))) = false).
  { unfold buf. rewrite load_at_length by reflexivity.
    destruct pad as [|a pad']; cbn [app hd]; [reflexivity|].
    apply is_nul_false. apply (whitespace_nul_free _ Hpad). left. reflexivity. }
  assert (Hskip : sir__skip_whitespace buf (Z.of_nat (length done)) = Z.of_nat (length pad)).
  { unfold sir__skip_whitespace, buf. rewrite tail_at_length by reflexivity.
    apply skip_whitespace_app_stop; [exact Hpad|]. reflexivity. }
  assert (Hload1 : load buf (Z.of_nat (length (done ++ pad))) = SIR__SECTION_NAME_OPEN_CHAR).
  { unfold buf.
    replace (done ++ pad ++ SIR__SECTION_NAME_OPEN_CHAR :: h ++ SIR__SECTION_NAME_CLOSE_CHAR :: R)
      with ((done ++ pad) ++ SIR__SECTION_NAME_OPEN_CHAR :: h ++
              SIR__SECTION_NAME_CLOSE_CHAR :: R) by reassoc.
    rewrite load_at_length by reflexivity. reflexivity. }
  rewrite Hload0, Hskip.
  replace (Z.of_nat (length done) + Z.of_nat (length pad))
    with (Z.of_nat (length (done ++ pad))) by lengths.
  rewrite Hload1, Ascii.eqb_refl.
  unfold load_section, read_section_name.
  cbn [l_ini l_str sections prev_index key_index data section_index].
  (* the open range is closed *)
  unfold close_last_range. rewrite aget_middle. cbn [bind ranges]. unfold ranges_count.
  cbn [ranges length]. change (Z.of_nat 1 - 1) with 0.
  rewrite aget_head. cbn [bind]. rewrite aset_head. cbn [bind].
  rewrite aset_middle. cbn [bind].
  (* the name *)
  replace (Z.of_nat (length (done ++ pad)) + 1) with (Z.of_nat (length P))
    by (unfold P; lengths).
  assert (Hb : buf = P ++ h ++ SIR__SECTION_NAME_CLOSE_CHAR :: R)
    by (unfold buf, P; reassoc).
  rewrite Hb.
  rewrite (sir__parse_to_char_found P h R SIR__SECTION_NAME_CLOSE_CHAR);
    [|discriminate|exact Hhn|exact Hhc].
  replace (P ++ h ++ NUL :: R) with (P ++ w ++ (t ++ [x]) ++ ws ++ NUL :: R)
    by (rewrite Hhs; reassoc).
  destruct (sir__trim_whitespace_app P w t ws (NUL :: R) x) as [Htrim Hname];
    try assumption; [reflexivity|].
  rewrite Htrim. cbn [bind]. rewrite Hz in *.
  set (buf2 := P ++ w ++ (t ++ [x]) ++ z ++ R) in *.
  (* no section of that name *)
  unfold enter_section.
  cbn [l_ini l_str sections prev_index key_index data section_index options section_names].
  cbn [string_at]. rewrite Hname.
  replace (Z.to_nat (Z.of_nat (length closed) + 1)) with (length names) by lia.
  change 0 with (Z.of_nat 0) at 1.
  rewrite find_duplicate_section_none; [| |rewrite length_app; cbn [length]; lia].
  2:{ intros i p Hi Hp. rewrite nth_error_app1 in Hp by lia.
      apply nth_error_In in Hp. rewrite Forall_forall in Hdup.
      rewrite <- Htr. unfold buf2, P.
      replace ((done ++ pad ++ [SIR__SECTION_NAME_OPEN_CHAR]) ++ w ++ (t ++ [x]) ++ z ++ R)
        with (done ++ (pad ++ SIR__SECTION_NAME_OPEN_CHAR :: w ++ (t ++ [x]) ++ z ++ R))
        by reassoc.
      apply Hdup. exact Hp. }
  cbn [bind]. change (-1 =? -1) with true. cbn [negb].
  (* the next section is opened *)
  replace (closed ++ mkSection [set_end r0 ki] :: mkSection [fresh_range] :: more)
    with ((closed ++ [mkSection [set_end r0 ki]]) ++ mkSection [fresh_range] :: more)
    by reassoc.
  replace (Z.of_nat (length closed) + 1)
    with (Z.of_nat (length (closed ++ [mkSection [set_end r0 ki]]))) by lengths.
  rewrite aget_middle. cbn [bind ranges].
  rewrite aget_head. cbn [bind]. rewrite aset_head. cbn [bind].
  rewrite aset_middle. cbn [bind].
  replace (Z.of_nat (length (closed ++ [mkSection [set_end r0 ki]])))
    with (Z.of_nat (length names)) at 1 by lengths.
  rewrite aset_middle. cbn [bind].
  destruct (Z.eqb_spec (Z.of_nat (length h)) (-1)) as [Hm|_]; [lia|].
  cbn [bind]. f_equal.
  unfold with_section_names, with_sections, with_data.
  cbn [data sections section_names key_names key_values error section_count key_count
       options error_size error_writes].
  f_equal; [f_equal|].
  - unfold buf2, extra, P. reassoc.
  - unfold no. reassoc.
  - unfold extra, P. rewrite Hhs. lengths.
Qed.

Lemma Forall2_strings_no_match (opts : SirOptions) (done : list ascii) (names : list cptr)
      (nstr : list (list ascii)) (name : list ascii) :
  Forall2 (fun p s => forall post, string_at (done ++ post) p = Some s) names nstr ->
  Forall (fun s => sir__str_equal opts (Some s) (Some name) = false) nstr ->
  Forall (fun p => forall post,
              sir__str_equal opts (string_at (done ++ post) p) (Some name) = false) names.
Proof.
  induction 1 as [|p s names nstr Hp H IH]; intros Hd; [constructor|].
  inversion Hd as [|? ? Hd1 Hd2]; subst.
  constructor; [|apply IH; exact Hd2]. intros post. rewrite Hp. exact Hd1.
Qed.

Lemma Forall2_strings_later {B : Type} (f : B -> list ascii) (done extra : list ascii)
      (ps : list cptr) (l : list B) :
  Forall2 (fun p b => forall post, string_at (done ++ post) p = Some (f b)) ps l ->
  Forall2 (fun p b => forall post, string_at ((done ++ extra) ++ post) p = Some (f b)) ps l.
Proof.
  intros H. eapply Forall2_impl; [|exact H]. intros p b Hp post.
  rewrite <- app_assoc. apply Hp.
Qed.

(** The parsing loop on a list of sections with names that are new and all
    differ, entered with a section open: one round for each header and one
    for each key line.  When the loop leaves the text, closing the open
    section gives the sections laid out one after the other. *)
Lemma load_loop_sections (opts : SirOptions) (err : list ascii) (sc kc esz ew : Z)
      (R : list ascii) :
  forall (srcs : list section_source) (done : list ascii) (closed : list SirSection)
         (r0 : SirSectionRange) (m : nat) (names : list cptr) (nstr : list (list ascii))
         (nmore old cur vs nrest vrest : list cptr),
    forallb (section_fields opts) srcs = true ->
    start r0 = Z.of_nat (length old) ->
    length names = S (length closed) ->
    (length srcs <= m)%nat -> (length srcs <= length nmore)%nat ->
    (length (flat_map section_keys srcs) <= length nrest)%nat ->
    (length (flat_map section_keys srcs) <= length vrest)%nat ->
    length vs = length (old ++ cur) ->
    Forall2 (fun p s => forall post, string_at (done ++ post) p = Some s) names nstr ->
    distinct_names opts (nstr ++ map (fun s => trimmed (section_header s)) srcs) = true ->
    exists (n : nat) (extra : list ascii) (closed' : list SirSection) (r' : SirSectionRange)
           (newnames newn newv : list cptr),
      (n <= length (flat_map section_text srcs))%nat /\
      (forall fuel : nat,
          load_loop (n + fuel)
            (mkLoader (mkIni (done ++ flat_map section_text srcs ++ R)
                             (closed ++ mkSection [r0] :: repeat (mkSection [fresh_range]) m)
                             (names ++ nmore) ((old ++ cur) ++ nrest) (vs ++ vrest)
                             err sc kc opts esz ew)
                      (Z.of_nat (length done)) (Z.of_nat (length closed))
                      (Z.of_nat (length closed)) (Z.of_nat (length (old ++ cur)))) =
          load_loop fuel
            (mkLoader (mkIni ((done ++ extra) ++ R)
                             (closed' ++ mkSection [r'] ::
                                repeat (mkSection [fresh_range]) (m - length srcs))
                             ((names ++ newnames) ++ skipn (length srcs) nmore)
                             ((old ++ cur ++ newn) ++
                                skipn (length (flat_map section_keys srcs)) nrest)
                             ((vs ++ newv) ++
                                skipn (length (flat_map section_keys srcs)) vrest)
                             err sc kc opts esz ew)
                      (Z.of_nat (length (done ++ extra))) (Z.of_nat (length closed'))
                      (Z.of_nat (length closed'))
                      (Z.of_nat (length (old ++ cur ++ newn))))) /\
      closed' ++ [mkSection [set_end r' (Z.of_nat (length (old ++ cur ++ newn)))]] =
        closed ++ layout (Z.of_nat (length old))
                         (length cur :: map (fun s => length (section_keys s)) srcs) /\
      Forall2 (fun p s => forall post,
                   string_at ((done ++ extra) ++ post) p = Some (trimmed (section_header s)))
              newnames srcs /\
      Forall2 (fun p kv => forall post,
                   string_at ((done ++ extra) ++ post) p = Some (trimmed (fst kv)))
              newn (flat_map section_keys srcs) /\
      Forall2 (fun p kv => forall post,
                   string_at ((done ++ extra) ++ post) p = Some (trimmed (snd kv)))
              newv (flat_map section_keys srcs).
Proof.
  induction srcs as [|s srcs IH];
    intros done closed r0 m names nstr nmore old cur vs nrest vrest
           Hf Hstart Hnames Hm Hnm Hnr Hvr Hlen Hstr Hd.
  - exists 0%nat, [], closed, r0, [], [], [].
    cbn [flat_map length Nat.add skipn app map layout]. rewrite !app_nil_r, Nat.sub_0_r.
    split; [lia|]. split; [intros fuel; reflexivity|].
    split; [|split; [|split]]; try constructor.
    unfold set_end. rewrite Hstart.
    replace (Z.of_nat (length (old ++ cur)))
      with (Z.of_nat (length old) + Z.of_nat (length cur)) by lengths.
    reflexivity.
  - cbn [forallb] in Hf. apply andb_prop in Hf. destruct Hf as [Hs Hrest].
    apply section_fields_spec in Hs. destruct Hs as (Hpad & Hh & Hk & Hu).
    destruct m as [|m]; [cbn [length] in Hm; lia|].
    destruct nmore as [|n0 nmore]; [cbn [length] in Hnm; lia|].
    cbn [flat_map] in Hnr, Hvr. rewrite length_app in Hnr, Hvr.
    set (h := section_header s) in *. set (kvs := section_keys s) in *.
    set (ki := Z.of_nat (length (old ++ cur))).
    (* the header *)
    assert (Hnew : Forall (fun p => forall post,
                               sir__str_equal opts (string_at (done ++ post) p)
                                              (Some (trimmed h)) = false) names).
    { apply (Forall2_strings_no_match opts done names nstr); [exact Hstr|].
      cbn [map] in Hd. apply distinct_names_earlier in Hd. exact Hd. }
    set (R1 := key_lines kvs ++ flat_map section_text srcs ++ R).
    destruct (load_loop_header opts done (section_pad s) h R1 closed r0
                (repeat (mkSection [fresh_range]) m) names n0 nmore
                ((old ++ cur) ++ nrest) (vs ++ vrest) err sc kc esz ew ki
                Hpad Hh Hnames Hnew) as (extra1 & no & Hrun1 & Hno).
    set (closed1 := closed ++ [mkSection [set_end r0 ki]]) in *.
    set (secs1 := closed1 ++ mkSection [mkRange ki 0] :: repeat (mkSection [fresh_range]) m)
      in *.
    (* its key lines *)
    assert (Hsec1 : nth_error secs1 (Z.to_nat (Z.of_nat (length closed1))) =
                    Some (mkSection [mkRange ki 0])).
    { unfold secs1. rewrite Nat2Z.id, nth_error_app2 by lia.
      rewrite Nat.sub_diag. reflexivity. }
    destruct (load_loop_key_lines opts secs1 ((names ++ [no]) ++ nmore) err sc kc esz ew
                (mkRange ki 0) (Z.of_nat (length closed1)) (Z.of_nat (length closed1))
                (old ++ cur) (flat_map section_text srcs ++ R)
                (Zle_0_nat _) Hsec1 eq_refl
                kvs (done ++ extra1) [] [] vs nrest vrest)
      as (extra2 & newn2 & newv2 & Hrun2 & Hnewn2 & Hnewv2).
    { exact Hk. }
    { lia. }
    { lia. }
    { rewrite app_nil_r. exact Hlen. }
    { constructor. }
    { exact Hu. }
    rewrite app_nil_r in Hrun2. cbn [app] in Hrun2.
    assert (Hl2 : length newn2 = length kvs) by (apply Forall2_length in Hnewn2; exact Hnewn2).
    assert (Hl2v : length newv2 = length kvs) by (apply Forall2_length in Hnewv2; exact Hnewv2).
    (* the sections that follow *)
    destruct (IH ((done ++ extra1) ++ extra2) closed1 (mkRange ki 0) m
                 (names ++ [no]) (nstr ++ [trimmed h]) nmore (old ++ cur) newn2
                 (vs ++ newv2) (skipn (length kvs) nrest) (skipn (length kvs) vrest))
      as (n3 & extra3 & closed' & r' & newnames3 & newn3 & newv3 &
          Hn3 & Hrun3 & Hlay3 & Hnames3 & Hnewn3 & Hnewv3).
    { exact Hrest. }
    { reflexivity. }
    { unfold closed1. repeat rewrite length_app. cbn [length]. lia. }
    { cbn [length] in Hm. lia. }
    { cbn [length] in Hnm. lia. }
    { rewrite length_skipn. lia. }
    { rewrite length_skipn. lia. }
    { repeat rewrite length_app in *. lia. }
    { apply Forall2_app.
      - apply Forall2_strings_later with (f := fun s => s).
        apply Forall2_strings_later with (f := fun s => s). exact Hstr.
      - constructor; [|constructor]. intros post.
        rewrite <- app_assoc. apply Hno. }
    { rewrite <- app_assoc. exact Hd. }
    assert (Hsk : forall l : list cptr,
               skipn (length (flat_map section_keys srcs)) (skipn (length kvs) l) =
               skipn (length (flat_map section_keys (s :: srcs))) l).
    { intros l. rewrite skipn_skipn. cbn [flat_map]. rewrite length_app. fold kvs.
      f_equal. lia. }
    exists (S (length kvs + n3)), (extra1 ++ extra2 ++ extra3), closed', r',
           (no :: newnames3), (newn2 ++ newn3), (newv2 ++ newv3).
    split.
    { cbn [flat_map]. rewrite length_app. unfold section_text at 1. fold h kvs.
      pose proof (key_lines_length kvs).
      repeat first [rewrite length_app | progress (cbn [length])]. lia. }
    split.
    { intros fuel. cbn [Nat.add].
      etransitivity; [|etransitivity; [exact (Hrun1 (length kvs + n3 + fuel)%nat)|]].
      { cbn [flat_map repeat]. unfold section_text at 1, R1. fold h kvs. reassoc. }
      etransitivity; [|etransitivity; [exact (Hrun2 (n3 + fuel)%nat)|]].
      { replace (length kvs + n3 + fuel)%nat with (length kvs + (n3 + fuel))%nat by lia.
        unfold R1, secs1. reassoc. }
      etransitivity; [|etransitivity; [exact (Hrun3 fuel)|]].
      { unfold secs1. reassoc. }
      rewrite !Hsk. reassoc. }
    split.
    { replace (old ++ cur ++ newn2 ++ newn3) with ((old ++ cur) ++ newn2 ++ newn3) by reassoc.
      rewrite Hlay3. unfold closed1. rewrite <- app_assoc. f_equal.
      cbn [map layout app]. fold kvs. rewrite Hl2.
      unfold set_end, ki. rewrite Hstart.
      replace (Z.of_nat (length (old ++ cur)))
        with (Z.of_nat (length old) + Z.of_nat (length cur)) by lengths.
      reflexivity. }
    split; [|split].
    + constructor.
      * intros post. replace ((done ++ extra1 ++ extra2 ++ extra3) ++ post)
          with ((done ++ extra1) ++ extra2 ++ extra3 ++ post) by reassoc. apply Hno.
      * eapply Forall2_impl; [|exact Hnames3]. intros p b H post.
        replace ((done ++ extra1 ++ extra2 ++ extra3) ++ post)
          with ((((done ++ extra1) ++ extra2) ++ extra3) ++ post) by reassoc. apply H.
    + cbn [flat_map]. fold kvs. apply Forall2_app.
      * eapply Forall2_impl; [|exact Hnewn2]. intros p b H post.
        replace ((done ++ extra1 ++ extra2 ++ extra3) ++ post)
          with (((done ++ extra1) ++ extra2) ++ extra3 ++ post) by reassoc. apply H.
      * eapply Forall2_impl; [|exact Hnewn3]. intros p b H post.
        replace ((done ++ extra1 ++ extra2 ++ extra3) ++ post)
          with ((((done ++ extra1) ++ extra2) ++ extra3) ++ post) by reassoc. apply H.
    + cbn [flat_map]. fold kvs. apply Forall2_app.
      * eapply Forall2_impl; [|exact Hnewv2]. intros p b H post.
        replace ((done ++ extra1 ++ extra2 ++ extra3) ++ post)
          with (((done ++ extra1) ++ extra2) ++ extra3 ++ post) by reassoc. apply H.
      * eapply Forall2_impl; [|exact Hnewv3]. intros p b H post.
        replace ((done ++ extra1 ++ extra2 ++ extra3) ++ post)
          with ((((done ++ extra1) ++ extra2) ++ extra3) ++ post) by reassoc. apply H.
Qed.

(** ** Whole texts *)

Lemma load_loop_end (fuel : nat) (done tail : list ascii) (secs : list SirSection)
      (snames knames kvalues : list cptr) (err : list ascii) (sc kc opts esz ew pi si ki : Z) :
  whitespace tail -> (length tail < fuel)%nat ->
  load_loop fuel
    (mkLoader (mkIni (done ++ tail) secs snames knames kvalues err sc kc opts esz ew)
              (Z.of_nat (length done)) pi si ki) =
  Ok (mkLoader (mkIni (done ++ tail) secs snames knames kvalues err sc kc opts esz ew)
               (Z.of_nat (length (done ++ tail))) pi si ki).
Proof.
  intros Htail Hfuel. destruct fuel as [|fuel]; [lia|].
  cbn [load_loop l_ini data l_str prev_index section_index key_index].
  rewrite load_at_length by reflexivity.
  destruct tail as [|c tl]; [rewrite app_nil_r; reflexivity|]. cbn [hd].
  assert (Hc : is_nul c = false).
  { apply is_nul_false. apply (whitespace_nul_free _ Htail). left. reflexivity. }
  rewrite Hc.
  unfold sir__skip_whitespace. rewrite tail_at_length by reflexivity.
  rewrite (skip_whitespace_all _ Htail).
  replace (Z.of_nat (length done) + Z.of_nat (length (c :: tl)))
    with (Z.of_nat (length (done ++ c :: tl))) by lengths.
  assert (Hend : load (done ++ c :: tl) (Z.of_nat (length (done ++ c :: tl))) = NUL).
  { rewrite <- (app_nil_r (done ++ c :: tl)) at 1. apply load_at_length. reflexivity. }
  rewrite Hend. change (Ascii.eqb NUL SIR__SECTION_NAME_OPEN_CHAR) with false.
  change (is_nul NUL) with true. cbv iota. cbn [negb].
  destruct fuel as [|fuel]; [cbn [length] in Hfuel; lia|].
  cbn [load_loop l_ini data l_str]. rewrite Hend. reflexivity.
Qed.

Lemma sections_nul_free (opts : SirOptions) (srcs : list section_source) :
  forallb (section_fields opts) srcs = true -> nul_free (flat_map section_text srcs).
Proof.
  induction srcs as [|s srcs IH]; intros Hf; [intros x []|].
  cbn [forallb] in Hf. apply andb_prop in Hf. destruct Hf as [Hs Hr].
  apply section_fields_spec in Hs. destruct Hs as (Hpad & Hh & Hk & _).
  apply header_field_spec in Hh. destruct Hh as (Hhn & _).
  cbn [flat_map]. unfold section_text at 1.
  intros x Hx. apply in_app_or in Hx. destruct Hx as [Hx|Hx]; [|apply (IH Hr), Hx].
  apply in_app_or in Hx. destruct Hx as [Hx|[<-|Hx]].
  - apply (whitespace_nul_free _ Hpad), Hx.
  - discriminate.
  - apply in_app_or in Hx. destruct Hx as [Hx|[<-|Hx]].
    + apply Hhn, Hx.
    + discriminate.
    + apply (key_lines_nul_free opts _ Hk), Hx.
Qed.

Lemma sections_comment_free (opts : SirOptions) (srcs : list section_source) :
  forallb (section_fields opts) srcs = true ->
  Forall (fun c => sir__is_comment_char opts c = false) (flat_map section_text srcs).
Proof.
  induction srcs as [|s srcs IH]; intros Hf; [constructor|].
  cbn [forallb] in Hf. apply andb_prop in Hf. destruct Hf as [Hs Hr].
  apply section_fields_spec in Hs. destruct Hs as (Hpad & Hh & Hk & _).
  apply header_field_spec in Hh. destruct Hh as (_ & Hhc & _).
  assert (Hbr : forall c, c = SIR__SECTION_NAME_OPEN_CHAR \/ c = SIR__SECTION_NAME_CLOSE_CHAR ->
                          sir__is_comment_char opts c = false).
  { intros c [->| ->]; unfold sir__is_comment_char;
      destruct (has_option opts SIR_OPTION_DISABLE_HASH_COMMENTS); reflexivity. }
  cbn [flat_map]. unfold section_text at 1.
  apply Forall_app. split; [|apply IH; exact Hr].
  apply Forall_app. split; [apply whitespace_comment_free; exact Hpad|].
  constructor; [apply Hbr; left; reflexivity|].
  apply Forall_app. split; [apply Forall_forall; exact Hhc|].
  constructor; [apply Hbr; right; reflexivity|].
  apply key_lines_comment_free. exact Hk.
Qed.

Lemma sections_headers (srcs : list section_source) (w : list ascii) :
  (length srcs <=
   length (filter (fun c => Ascii.eqb c SIR__SECTION_NAME_OPEN_CHAR)
                  (flat_map section_text srcs ++ w)))%nat.
Proof.
  rewrite filter_app, length_app.
  assert (length srcs <=
          length (filter (fun c => Ascii.eqb c SIR__SECTION_NAME_OPEN_CHAR)
                         (flat_map section_text srcs)))%nat; [|lia].
  induction srcs as [|s srcs IH]; [cbn; lia|].
  cbn [flat_map length]. unfold section_text at 1.
  rewrite !filter_app, !length_app. cbn [filter]. rewrite Ascii.eqb_refl.
  cbn [length]. lia.
Qed.

Lemma sections_assignments (opts : SirOptions) (srcs : list section_source) :
  (length (flat_map section_keys srcs) <=
   length (filter (sir__is_assignment_char opts) (flat_map section_text srcs)))%nat.
Proof.
  induction srcs as [|s srcs IH]; [cbn; lia|].
  assert (Ho : sir__is_assignment_char opts SIR__SECTION_NAME_OPEN_CHAR = false)
    by (unfold sir__is_assignment_char;
        destruct (has_option opts SIR_OPTION_DISABLE_COLON_ASSIGNMENT); reflexivity).
  assert (Hc : sir__is_assignment_char opts SIR__SECTION_NAME_CLOSE_CHAR = false)
    by (unfold sir__is_assignment_char;
        destruct (has_option opts SIR_OPTION_DISABLE_COLON_ASSIGNMENT); reflexivity).
  cbn [flat_map]. unfold section_text at 1.
  rewrite !filter_app, !length_app. cbn [filter]. rewrite Ho.
  rewrite filter_app, length_app. cbn [filter]. rewrite Hc.
  pose proof (key_lines_assignments opts (section_keys s)). lia.
Qed.

(** The first pass on a text of key lines and sections without comments. *)
Lemma strip_and_count_ini_text (opts : SirOptions) (g : list (list ascii * list ascii))
      (srcs : list section_source) (w : list ascii) :
  key_fields opts g = true -> forallb (section_fields opts) srcs = true -> whitespace w ->
  exists a b : nat,
    (length srcs <= a)%nat /\ (length (g ++ flat_map section_keys srcs) <= b)%nat /\
    strip_and_count (S (S (length (ini_text g srcs ++ w)))) opts (ini_text g srcs ++ w) 0 1 0 =
    Ok (ini_text g srcs ++ w, 1 + Z.of_nat a, 0 + Z.of_nat b).
Proof.
  intros Hg Hs Hw.
  exists (length (filter (fun c => Ascii.eqb c SIR__SECTION_NAME_OPEN_CHAR)
                         (ini_text g srcs ++ w))),
         (length (filter (sir__is_assignment_char opts) (ini_text g srcs ++ w))).
  split; [|split].
  - unfold ini_text. rewrite <- app_assoc, filter_app, length_app.
    pose proof (sections_headers srcs w). lia.
  - unfold ini_text. rewrite !filter_app, !length_app.
    pose proof (key_lines_assignments opts g). pose proof (sections_assignments opts srcs). lia.
  - apply (strip_and_count_plain opts (ini_text g srcs ++ w)
             (S (S (length (ini_text g srcs ++ w)))) [] 1 0).
    + intros x Hx. unfold ini_text in Hx. apply in_app_or in Hx. destruct Hx as [Hx|Hx].
      * apply in_app_or in Hx. destruct Hx as [Hx|Hx];
          [apply (key_lines_nul_free opts g Hg), Hx|apply (sections_nul_free opts srcs Hs), Hx].
      * apply (whitespace_nul_free w Hw), Hx.
    + unfold ini_text. repeat (apply Forall_app; split).
      * apply key_lines_comment_free. exact Hg.
      * apply sections_comment_free. exact Hs.
      * apply whitespace_comment_free. exact Hw.
    + lia.
Qed.

Lemma layout_length (first : Z) (counts : list nat) :
  length (layout first counts) = length counts.
Proof.
  revert first. induction counts as [|n counts IH]; intros first; [reflexivity|].
  cbn [layout length]. rewrite IH. reflexivity.
Qed.

Lemma firstn_exact {A : Type} (l r : list A) : firstn (length l) (l ++ r) = l.
Proof.
  rewrite firstn_app, firstn_all, Nat.sub_diag. cbn [firstn]. apply app_nil_r.
Qed.

(** The end of [sir_load_from_str]: the open range is closed at the key
    index and the arrays are cut to what the loop has filled. *)
Lemma load_finish (buf : list ascii) (closed : list SirSection) (r : SirSectionRange)
      (m : nat) (L : list SirSection) (names nmore K kmore V vmore : list cptr)
      (a b : nat) (opts esz : Z) :
  closed ++ [mkSection [set_end r (Z.of_nat (length K))]] = L ->
  length names = length L -> length V = length K ->
  (length L + m = S a)%nat -> length nmore = m ->
  (length K + length kmore = b)%nat -> length vmore = length kmore ->
  (do secs <- close_last_range (closed ++ mkSection [r] :: repeat (mkSection [fresh_range]) m)
                               (Z.of_nat (length closed)) (Z.of_nat (length K));
   Ok (sir__clear_error_str
         (shrink_keys
            (shrink_sections
               (with_sections
                  (mkIni buf (closed ++ mkSection [r] :: repeat (mkSection [fresh_range]) m)
                         (names ++ nmore) (K ++ kmore) (V ++ vmore) []
                         (1 + Z.of_nat a) (0 + Z.of_nat b) opts esz 0)
                  secs)
               (Z.of_nat (length closed) + 1))
            (Z.of_nat (length K))))) =
  Ok (mkIni buf L names K V [] (Z.of_nat (length L)) (Z.of_nat (length K)) opts esz 0).
Proof.
  intros HL Hnames HV Hm Hnm Hb Hvm.
  assert (Hlc : S (length closed) = length L).
  { rewrite <- HL, length_app. cbn [length]. lia. }
  unfold close_last_range. rewrite aget_middle. cbn [bind ranges]. unfold ranges_count.
  cbn [ranges length]. change (Z.of_nat 1 - 1) with 0.
  rewrite aget_head. cbn [bind]. rewrite aset_head. cbn [bind].
  rewrite aset_middle. cbn [bind].
  replace (closed ++ mkSection [set_end r (Z.of_nat (length K))] ::
             repeat (mkSection [fresh_range]) m)
    with (L ++ repeat (mkSection [fresh_range]) m) by (rewrite <- HL; reassoc).
  unfold with_sections, shrink_sections, shrink_keys, sir__clear_error_str, with_error,
    sir__errors_enabled.
  cbn [data sections section_names key_names key_values error section_count key_count
       options error_size error_writes].
  replace (Z.of_nat (length closed) + 1) with (Z.of_nat (length L)) by lia.
  assert (Hcut : forall (A : Type) (l more : list A) (n : nat) (c : Z),
             n = length l -> (Z.of_nat n < c <-> more <> []) ->
             (if Z.of_nat n <? c then firstn (Z.to_nat (Z.of_nat n)) (l ++ more)
              else l ++ more) = l).
  { intros A l more n c -> Hiff. destruct (Z.ltb_spec (Z.of_nat (length l)) c) as [Hlt|Hge].
    - rewrite Nat2Z.id. apply firstn_exact.
    - destruct more as [|y more]; [apply app_nil_r|].
      exfalso. assert (Z.of_nat (length l) < c) by (apply Hiff; discriminate). lia. }
  destruct (Z.ltb_spec (Z.of_nat (length L)) (1 + Z.of_nat a)) as [Hlt|Hge];
    cbn [data sections section_names key_names key_values error section_count key_count
         options error_size error_writes].
  - rewrite Nat2Z.id, firstn_exact. rewrite <- Hnames, firstn_exact, Hnames.
    destruct (Z.ltb_spec (Z.of_nat (length K)) (0 + Z.of_nat b)) as [Hlt2|Hge2];
      cbn [data sections section_names key_names key_values error section_count key_count
           options error_size error_writes].
    + rewrite Nat2Z.id, firstn_exact. rewrite <- HV, firstn_exact, HV.
      destruct (negb (has_option opts SIR_OPTION_DISABLE_ERRORS)); reflexivity.
    + assert (kmore = []) as -> by (destruct kmore; [reflexivity|cbn [length] in *; lia]).
      assert (vmore = []) as -> by (destruct vmore; [reflexivity|cbn [length] in *; lia]).
      rewrite !app_nil_r. cbn [length] in Hb.
      replace (0 + Z.of_nat b) with (Z.of_nat (length K)) by lia.
      destruct (negb (has_option opts SIR_OPTION_DISABLE_ERRORS)); reflexivity.
  - assert (m = 0%nat) as -> by lia.
    assert (nmore = []) as -> by (destruct nmore; [reflexivity|discriminate]).
    cbn [repeat]. rewrite !app_nil_r.
    replace (1 + Z.of_nat a) with (Z.of_nat (length L)) by lia.
    destruct (Z.ltb_spec (Z.of_nat (length K)) (0 + Z.of_nat b)) as [Hlt2|Hge2];
      cbn [data sections section_names key_names key_values error section_count key_count
           options error_size error_writes].
    + rewrite Nat2Z.id, firstn_exact. rewrite <- HV, firstn_exact, HV.
      destruct (negb (has_option opts SIR_OPTION_DISABLE_ERRORS)); reflexivity.
    + assert (kmore = []) as -> by (destruct kmore; [reflexivity|cbn [length] in *; lia]).
      assert (vmore = []) as -> by (destruct vmore; [reflexivity|cbn [length] in *; lia]).
      rewrite !app_nil_r. cbn [length] in Hb.
      replace (0 + Z.of_nat b) with (Z.of_nat (length K)) by lia.
      destruct (negb (has_option opts SIR_OPTION_DISABLE_ERRORS)); reflexivity.
Qed.

(** The document a text of key lines and sections parses to.  Whitespace
    may follow the last line when the diagnostic pass is switched off. *)
Lemma sir_load_from_str_ini_text (opts : SirOptions) (g : list (list ascii * list ascii))
      (srcs : list section_source) (w : list ascii) :
  key_fields opts g = true -> unique_keys opts g = true ->
  forallb (section_fields opts) srcs = true ->
  distinct_names opts (SIR_GLOBAL_SECTION_NAME ::
                       map (fun s => trimmed (section_header s)) srcs) = true ->
  whitespace w -> w = [] \/ has_option opts SIR_OPTION_DISABLE_WARNINGS = true ->
  exists (buf : list ascii) (names ns vs : list cptr),
    sir_load_from_str (ini_text g srcs ++ w) opts =
    Ok (mkIni buf
              (layout 0 (length g :: map (fun s => length (section_keys s)) srcs))
              (Literal SIR_GLOBAL_SECTION_NAME :: names) ns vs []
              (Z.of_nat (S (length srcs)))
              (Z.of_nat (length (g ++ flat_map section_keys srcs))) opts
              (if has_option opts SIR_OPTION_DISABLE_ERRORS then 0 else SIR_ERROR_STRING_SIZE)
              0) /\
    Forall2 (fun p s => string_at buf p = Some (trimmed (section_header s))) names srcs /\
    Forall2 (fun p kv => string_at buf p = Some (trimmed (fst kv)))
            ns (g ++ flat_map section_keys srcs) /\
    Forall2 (fun p kv => string_at buf p = Some (trimmed (snd kv)))
            vs (g ++ flat_map section_keys srcs).
Proof.
  intros Hg Hug Hs Hd Hw Hwarnings. unfold sir_load_from_str.
  destruct (strip_and_count_ini_text opts g srcs w Hg Hs Hw) as (a & b & Ha & Hb & Hstrip).
  rewrite Hstrip. cbn [bind].
  set (text := ini_text g srcs ++ w).
  assert (Hwarn : (if has_option opts SIR_OPTION_DISABLE_WARNINGS then Ok tt
                   else check_warnings (S (length text)) opts text 0) = Ok tt).
  { destruct (has_option opts SIR_OPTION_DISABLE_WARNINGS) eqn:Hopt; [reflexivity|].
    destruct Hwarnings as [->|Hdis]; [|discriminate].
    unfold text. apply (check_warnings_ini_text opts g srcs [] Hg Hs Hw). }
  rewrite Hwarn. cbn [bind].
  unfold initial_ini. replace (Z.to_nat (1 + Z.of_nat a)) with (S a) by lia.
  replace (Z.to_nat (0 + Z.of_nat b)) with b by lia.
  cbn [repeat]. rewrite aget_head. cbn [bind ranges]. rewrite aget_head. cbn [bind].
  rewrite aset_head. cbn [bind]. rewrite aset_head. cbn [bind]. rewrite aset_head.
  cbn [bind].
  set (esz := if has_option opts SIR_OPTION_DISABLE_ERRORS then 0 else SIR_ERROR_STRING_SIZE).
  set (secs0 := mkSection [set_start fresh_range 0] :: repeat (mkSection [fresh_range]) a).
  set (snames0 := Literal SIR_GLOBAL_SECTION_NAME :: repeat NullPtr a).
  rewrite length_app in Hb.
  (* the key lines in front of the first header *)
  destruct (load_loop_key_lines opts secs0 snames0 [] (1 + Z.of_nat a) (0 + Z.of_nat b) esz 0
              (set_start fresh_range 0) 0 0 [] (flat_map section_text srcs ++ w)
              (Z.le_refl 0) eq_refl eq_refl
              g [] [] [] [] (repeat NullPtr b) (repeat NullPtr b))
    as (extra1 & ng & vg & Hrun1 & Hng & Hvg).
  { exact Hg. }
  { rewrite repeat_length. lia. }
  { rewrite repeat_length. lia. }
  { reflexivity. }
  { constructor. }
  { exact Hug. }
  cbn [app length] in Hrun1, Hng, Hvg. change (Z.of_nat 0) with 0 in Hrun1.
  assert (Hlg : length ng = length g) by (apply Forall2_length in Hng; exact Hng).
  assert (Hlvg : length vg = length g) by (apply Forall2_length in Hvg; exact Hvg).
  (* the sections *)
  destruct (load_loop_sections opts [] (1 + Z.of_nat a) (0 + Z.of_nat b) esz 0 w
              srcs extra1 [] (set_start fresh_range 0) a
              [Literal SIR_GLOBAL_SECTION_NAME] [SIR_GLOBAL_SECTION_NAME]
              (repeat NullPtr a) [] ng vg
              (skipn (length g) (repeat NullPtr b)) (skipn (length g) (repeat NullPtr b)))
    as (n2 & extra2 & closed' & r' & newnames & newn & newv &
        Hn2 & Hrun2 & Hlay & Hnames & Hnewn & Hnewv).
  { exact Hs. }
  { reflexivity. }
  { reflexivity. }
  { exact Ha. }
  { rewrite repeat_length. exact Ha. }
  { rewrite length_skipn, repeat_length. lia. }
  { rewrite length_skipn, repeat_length. lia. }
  { cbn [app]. lia. }
  { constructor; [|constructor]. intros post. reflexivity. }
  { exact Hd. }
  cbn [app length] in Hrun2, Hlay, Hnames, Hnewn, Hnewv.
  change (Z.of_nat 0) with 0 in Hrun2, Hlay.
  assert (Hlc : length closed' = length srcs).
  { apply (f_equal (@length SirSection)) in Hlay.
    rewrite length_app, layout_length in Hlay. cbn [length] in Hlay.
    rewrite length_map in Hlay. lia. }
  assert (Hln : length newn = length (flat_map section_keys srcs))
    by (apply Forall2_length in Hnewn; exact Hnewn).
  assert (Hlv : length newv = length (flat_map section_keys srcs))
    by (apply Forall2_length in Hnewv; exact Hnewv).
  assert (Hlnn : length newnames = length srcs)
    by (apply Forall2_length in Hnames; exact Hnames).
  (* the loop as a whole *)
  pose proof (key_lines_length g) as Hgl.
  assert (Htext : length text =
                  (length (key_lines g) + length (flat_map section_text srcs) + length w)%nat)
    by (unfold text, ini_text; lengths).
  set (F := (S (length text) - length g - n2)%nat).
  assert (Hloop : load_loop (S (length text))
                    (mkLoader (mkIni text secs0 snames0 (repeat NullPtr b) (repeat NullPtr b)
                                     [] (1 + Z.of_nat a) (0 + Z.of_nat b) opts esz 0)
                              0 0 0 0) =
                  Ok (mkLoader (mkIni ((extra1 ++ extra2) ++ w)
                                      (closed' ++ mkSection [r'] ::
                                         repeat (mkSection [fresh_range]) (a - length srcs))
                                      ((Literal SIR_GLOBAL_SECTION_NAME :: newnames) ++
                                         skipn (length srcs) (repeat NullPtr a))
                                      ((ng ++ newn) ++
                                         skipn (length (flat_map section_keys srcs))
                                               (skipn (length g) (repeat NullPtr b)))
                                      ((vg ++ newv) ++
                                         skipn (length (flat_map section_keys srcs))
                                               (skipn (length g) (repeat NullPtr b)))
                                      [] (1 + Z.of_nat a) (0 + Z.of_nat b) opts esz 0)
                               (Z.of_nat (length ((extra1 ++ extra2) ++ w)))
                               (Z.of_nat (length closed')) (Z.of_nat (length closed'))
                               (Z.of_nat (length (ng ++ newn))))).
  { replace (S (length text)) with (length g + (n2 + F))%nat by (unfold F; lia).
    etransitivity; [|etransitivity; [exact (Hrun1 (n2 + F)%nat)|]].
    { unfold text, ini_text. reassoc. }
    etransitivity; [|etransitivity; [exact (Hrun2 F)|]].
    { unfold secs0, snames0. reassoc. }
    apply load_loop_end; [exact Hw|]. unfold F. lia. }
  rewrite Hloop.
  cbn [bind l_ini sections prev_index key_index section_index].
  exists ((extra1 ++ extra2) ++ w), newnames, (ng ++ newn), (vg ++ newv).
  split.
  - (* the last range is closed and the arrays are cut *)
    rewrite skipn_skipn.
    rewrite (load_finish ((extra1 ++ extra2) ++ w) closed' r' (a - length srcs)
               (layout 0 (length g :: map (fun s => length (section_keys s)) srcs))
               (Literal SIR_GLOBAL_SECTION_NAME :: newnames)
               (skipn (length srcs) (repeat NullPtr a))
               (ng ++ newn)
               (skipn (length (flat_map section_keys srcs) + length g) (repeat NullPtr b))
               (vg ++ newv)
               (skipn (length (flat_map section_keys srcs) + length g) (repeat NullPtr b))
               a b opts esz).
    + rewrite layout_length. cbn [length]. rewrite length_map, !length_app, Hlg, Hln.
      reflexivity.
    + rewrite <- Hlg, <- Hlay. reflexivity.
    + rewrite layout_length. cbn [length]. rewrite length_map. lia.
    + rewrite !length_app. lia.
    + rewrite layout_length. cbn [length]. rewrite length_map. lia.
    + rewrite length_skipn, repeat_length. reflexivity.
    + rewrite length_skipn, repeat_length, length_app. lia.
    + reflexivity.
  - split; [|split].
    + eapply Forall2_impl; [|exact Hnames]. intros p s H. apply H.
    + apply Forall2_app.
      * eapply Forall2_impl; [|exact Hng]. intros p kv H.
        replace ((extra1 ++ extra2) ++ w) with (extra1 ++ extra2 ++ w) by reassoc. apply H.
      * eapply Forall2_impl; [|exact Hnewn]. intros p kv H. apply H.
    + apply Forall2_app.
      * eapply Forall2_impl; [|exact Hvg]. intros p kv H.
        replace ((extra1 ++ extra2) ++ w) with (extra1 ++ extra2 ++ w) by reassoc. apply H.
      * eapply Forall2_impl; [|exact Hnewv]. intros p kv H. apply H.
Qed.

Lemma sir__str_equal_sym (opts : SirOptions) (a b : list ascii) :
  sir__str_equal opts (Some a) (Some b) = sir__str_equal opts (Some b) (Some a).
Proof.
  destruct (sir__str_equal opts (Some a) (Some b)) eqn:E1,
           (sir__str_equal opts (Some b) (Some a)) eqn:E2; try reflexivity.
  - apply sir__str_equal_spec in E1.
    assert (E : sir__str_equal opts (Some b) (Some a) = true).
    { apply sir__str_equal_spec.
      destruct (has_option opts SIR_OPTION_DISABLE_CASE_SENSITIVITY); symmetry; exact E1. }
    congruence.
  - apply sir__str_equal_spec in E2.
    assert (E : sir__str_equal opts (Some a) (Some b) = true).
    { apply sir__str_equal_spec.
      destruct (has_option opts SIR_OPTION_DISABLE_CASE_SENSITIVITY); symmetry; exact E2. }
    congruence.
Qed.

Lemma distinct_names_nth (opts : SirOptions) (l : list (list ascii)) :
  distinct_names opts l = true ->
  forall i j a b, nth_error l i = Some a -> nth_error l j = Some b -> i <> j ->
                  sir__str_equal opts (Some a) (Some b) = false.
Proof.
  induction l as [|c l IH]; intros H i j a b Ha Hb Hne; [destruct i; discriminate|].
  cbn [distinct_names] in H. apply andb_prop in H. destruct H as [Hc Hr].
  rewrite forallb_forall in Hc.
  destruct i as [|i], j as [|j]; cbn [nth_error] in Ha, Hb.
  - congruence.
  - injection Ha as <-. apply nth_error_In in Hb. specialize (Hc b Hb).
    destruct (sir__str_equal opts (Some c) (Some b)); [discriminate|reflexivity].
  - injection Hb as <-. apply nth_error_In in Ha. specialize (Hc a Ha).
    rewrite sir__str_equal_sym.
    destruct (sir__str_equal opts (Some c) (Some a)); [discriminate|reflexivity].
  - apply (IH Hr i j); [assumption|assumption|congruence].
Qed.

Lemma find_unique (f : nat -> bool) (j : nat) (l : list nat) :
  In j l -> f j = true -> (forall i, In i l -> i <> j -> f i = false) ->
  find f l = Some j.
Proof.
  induction l as [|i l IH]; intros Hin Hj Hno; [destruct Hin|].
  cbn [find]. destruct (Nat.eq_dec i j) as [->|Hne].
  - rewrite Hj. reflexivity.
  - rewrite (Hno i) by (first [left; reflexivity | exact Hne]).
    apply IH; [destruct Hin; [contradiction|assumption]|exact Hj|].
    intros k Hk. apply Hno. right. exact Hk.
Qed.

Lemma Forall2_nth_error {A B : Type} (R : A -> B -> Prop) (l1 : list A) (l2 : list B) :
  Forall2 R l1 l2 ->
  forall i b, nth_error l2 i = Some b -> exists a, nth_error l1 i = Some a /\ R a b.
Proof.
  induction 1 as [|a b l1 l2 Hab H IH]; intros i y Hy; [destruct i; discriminate|].
  destruct i as [|i]; cbn [nth_error] in *.
  - injection Hy as <-. exists a. split; [reflexivity|exact Hab].
  - apply IH. exact Hy.
Qed.

Lemma Forall2_nth_error_l {A B : Type} (R : A -> B -> Prop) (l1 : list A) (l2 : list B) :
  Forall2 R l1 l2 ->
  forall i a, nth_error l1 i = Some a -> exists b, nth_error l2 i = Some b /\ R a b.
Proof.
  induction 1 as [|a b l1 l2 Hab H IH]; intros i y Hy; [destruct i; discriminate|].
  destruct i as [|i]; cbn [nth_error] in *.
  - injection Hy as <-. exists b. split; [reflexivity|exact Hab].
  - apply IH. exact Hy.
Qed.

Lemma Forall2_map_eq {A B C : Type} (f : A -> C) (g : B -> C) (l1 : list A) (l2 : list B) :
  Forall2 (fun a b => f a = g b) l1 l2 -> map f l1 = map g l2.
Proof. induction 1 as [|a b l1 l2 Hab H IH]; cbn [map]; [reflexivity|]. rewrite Hab, IH. reflexivity. Qed.

Lemma string_at_some_not_null (buf : list ascii) (p : cptr) (s : list ascii) :
  string_at buf p = Some s -> is_null p = false.
Proof. destruct p; [discriminate|reflexivity|reflexivity]. Qed.

(** Where [layout] puts the section at index [i], and where its keys are
    in the flat list of the keys of all sections. *)
Lemma layout_nth (all : list section_source) :
  forall (first i : nat) (s : section_source),
    nth_error all i = Some s ->
    exists a : nat,
      nth_error (layout (Z.of_nat first) (map (fun s => length (section_keys s)) all)) i =
        Some (mkSection [mkRange (Z.of_nat (first + a))
                                 (Z.of_nat (first + a) + Z.of_nat (length (section_keys s)))]) /\
      forall j, (j < length (section_keys s))%nat ->
                nth_error (flat_map section_keys all) (a + j) = nth_error (section_keys s) j.
Proof.
  induction all as [|s0 all IH]; intros first i s Hi; [destruct i; discriminate|].
  destruct i as [|i]; cbn [nth_error] in Hi.
  - injection Hi as <-. exists 0%nat. cbn [map layout nth_error flat_map Nat.add].
    rewrite Nat.add_0_r. split; [reflexivity|].
    intros j Hj. apply nth_error_app1. exact Hj.
  - destruct (IH (first + length (section_keys s0))%nat i s Hi) as (a & Hlay & Hkeys).
    exists (length (section_keys s0) + a)%nat. cbn [map layout nth_error flat_map].
    split.
    + replace (Z.of_nat first + Z.of_nat (length (section_keys s0)))
        with (Z.of_nat (first + length (section_keys s0))) by lia.
      rewrite Hlay. rewrite Nat.add_assoc. reflexivity.
    + intros j Hj. rewrite nth_error_app2 by lia.
      replace (length (section_keys s0) + a + j - length (section_keys s0))%nat
        with (a + j)%nat by lia.
      apply Hkeys. exact Hj.
Qed.

(** The scoped lookup of a key of a section, on a document whose arrays
    hold the sections and the keys of a list of sources in order. *)
Lemma scoped_round_trip (ini : SirIni) (all : list section_source)
      (i : nat) (s : section_source) (j : nat) (k v : list ascii) :
  well_formed ini ->
  sections ini = layout 0 (map (fun s => length (section_keys s)) all) ->
  Forall2 (fun p s => string_at (data ini) p = Some (trimmed (section_header s)))
          (section_names ini) all ->
  Forall2 (fun p kv => string_at (data ini) p = Some (trimmed (fst kv)))
          (key_names ini) (flat_map section_keys all) ->
  Forall2 (fun p kv => string_at (data ini) p = Some (trimmed (snd kv)))
          (key_values ini) (flat_map section_keys all) ->
  distinct_names (options ini) (map (fun s => trimmed (section_header s)) all) = true ->
  (forall s, In s all -> unique_keys (options ini) (section_keys s) = true) ->
  nth_error all i = Some s -> nth_error (section_keys s) j = Some (k, v) ->
  exists p, sir_section_str ini (Some (trimmed (section_header s))) (Some (trimmed k)) =
            Ok (p, sir__clear_error_str ini) /\
            string_at (data ini) p = Some (trimmed v).
Proof.
  intros Hwf Hsecs Hnames Hkn Hkv Hd Hu Hi Hj.
  (* the section *)
  destruct (Forall2_nth_error _ _ _ Hnames i s Hi) as (pn & Hpn & Hsn).
  assert (Hfs : find (section_matches ini (trimmed (section_header s)))
                     (seq 0 (length (section_names ini))) = Some i).
  { apply find_unique.
    - apply in_seq. apply nth_error_lt in Hpn. lia.
    - unfold section_matches. rewrite Hpn, Hsn, (string_at_some_not_null _ _ _ Hsn).
      apply str_equal_reflexive.
    - intros i' _ Hne. unfold section_matches.
      destruct (nth_error (section_names ini) i') as [p'|] eqn:Hp'; [|reflexivity].
      destruct (Forall2_nth_error_l _ _ _ Hnames i' p' Hp') as (s' & Hs' & Hstr').
      rewrite Hstr'.
      rewrite (distinct_names_nth (options ini) _ Hd i' i
                 (trimmed (section_header s')) (trimmed (section_header s))).
      + apply andb_false_r.
      + rewrite nth_error_map, Hs'. reflexivity.
      + rewrite nth_error_map, Hi. reflexivity.
      + exact Hne. }
  destruct (layout_nth all 0 i s Hi) as (a & Hlay & Hkeys).
  change (Z.of_nat 0) with 0 in Hlay. cbn [Nat.add] in Hlay. rewrite <- Hsecs in Hlay.
  set (sn := mkSection [mkRange (Z.of_nat a)
                                (Z.of_nat a + Z.of_nat (length (section_keys s)))]) in *.
  assert (Hidx : section_indices sn = seq a (length (section_keys s))).
  { unfold section_indices, sn, range_indices. cbn [ranges flat_map start end_].
    rewrite app_nil_r. f_equal; lia. }
  (* the key *)
  assert (Hjlt : (j < length (section_keys s))%nat) by (eapply nth_error_lt; exact Hj).
  assert (Hin : In s all) by (eapply nth_error_In; exact Hi).
  assert (Hflat : forall j' kv', nth_error (section_keys s) j' = Some kv' ->
                                 exists p, nth_error (key_names ini) (a + j') = Some p /\
                                           string_at (data ini) p = Some (trimmed (fst kv'))).
  { intros j' kv' Hj'. apply (Forall2_nth_error _ _ _ Hkn).
    rewrite Hkeys by (eapply nth_error_lt; exact Hj'). exact Hj'. }
  destruct (Hflat j (k, v) Hj) as (pk & Hpk & Hsk). cbn [fst] in Hsk.
  assert (Hfk : find (key_matches ini (trimmed k)) (section_indices sn) = Some (a + j)%nat).
  { rewrite Hidx. apply find_unique.
    - apply in_seq. lia.
    - apply (key_matches_own_name ini (a + j) pk); [exact Hpk|exact Hsk].
    - intros i' Hi' Hne. apply in_seq in Hi'.
      destruct (nth_error (section_keys s) (i' - a)) as [[k' v']|] eqn:Hk'.
      2:{ apply nth_error_None in Hk'. lia. }
      destruct (Hflat (i' - a)%nat (k', v') Hk') as (p' & Hp' & Hs').
      replace (a + (i' - a))%nat with i' in Hp' by lia. cbn [fst] in Hs'.
      unfold key_matches. rewrite Hp', Hs'.
      rewrite (distinct_names_nth (options ini) _ (Hu s Hin) (i' - a) j
                 (trimmed k') (trimmed k)).
      + apply andb_false_r.
      + rewrite nth_error_map, Hk'. reflexivity.
      + rewrite nth_error_map, Hj. reflexivity.
      + lia. }
  destruct (scoped_lookup_found ini (trimmed (section_header s)) (trimmed k) i sn (a + j)
              Hwf Hfs Hlay Hfk) as (pv & Hpv & _ & Hstr).
  exists pv. split; [exact Hstr|].
  destruct (Forall2_nth_error_l _ _ _ Hkv (a + j)%nat pv Hpv) as (kv' & Hkv' & Hsv).
  rewrite Hkeys in Hkv' by exact Hjlt. rewrite Hj in Hkv'. injection Hkv' as <-.
  exact Hsv.
Qed.

(** A key of the global section is found by the lookup without a section
    when its name is unlike every other name. *)
Lemma global_round_trip_of {X : Type} (name value : X -> list ascii)
      (ini : SirIni) (xs : list X) (x : X) :
  well_formed ini ->
  Forall2 (fun p e => string_at (data ini) p = Some (name e)) (key_names ini) xs ->
  Forall2 (fun p e => string_at (data ini) p = Some (value e)) (key_values ini) xs ->
  distinct_names (options ini) (map name xs) = true ->
  In x xs ->
  exists p, sir_section_str ini None (Some (name x)) = Ok (p, sir__clear_error_str ini) /\
            sir_has_error (sir__clear_error_str ini) = false /\
            string_at (data ini) p = Some (value x).
Proof.
  intros Hwf Hns Hvs Hd Hin.
  apply In_nth_error in Hin. destruct Hin as (j & Hj).
  destruct (Forall2_nth_error _ _ _ Hns j x Hj) as (pn & Hpn & Hsn).
  destruct (Forall2_nth_error _ _ _ Hvs j x Hj) as (pv & Hpv & Hsv).
  assert (Hjn : (j < length (key_names ini))%nat) by (eapply nth_error_lt; exact Hpn).
  assert (Hmatch : key_matches ini (name x) j = true).
  { apply (key_matches_own_name ini j pn); [exact Hpn|exact Hsn]. }
  assert (Hother : forall i, i <> j -> key_matches ini (name x) i = false).
  { intros i Hne. unfold key_matches.
    destruct (nth_error (key_names ini) i) as [p|] eqn:Hp; [|reflexivity].
    destruct (Forall2_nth_error_l _ _ _ Hns i p Hp) as (x' & Hx' & Hs).
    rewrite Hs.
    rewrite (distinct_names_nth (options ini) _ Hd i j (name x') (name x)).
    - apply andb_false_r.
    - rewrite nth_error_map, Hx'. reflexivity.
    - rewrite nth_error_map, Hj. reflexivity.
    - exact Hne. }
  rewrite (global_lookup_find ini (name x) Hwf).
  assert (Hfind : find (key_matches ini (name x))
                       (if has_option (options ini) SIR_OPTION_OVERRIDE_DUPLICATE_KEYS
                        then rev (seq 0 (length (key_names ini)))
                        else seq 0 (length (key_names ini))) = Some j).
  { apply find_unique; [|exact Hmatch|intros i _ Hne; apply Hother; exact Hne].
    apply in_scan_order. exact Hjn. }
  rewrite Hfind. exists pv. split.
  - rewrite (nth_error_nth _ _ _ Hpv). reflexivity.
  - split; [apply has_error_clear|exact Hsv].
Qed.

Lemma global_round_trip (ini : SirIni) (kvs : list (list ascii * list ascii))
      (k v : list ascii) :
  well_formed ini ->
  Forall2 (fun p kv => string_at (data ini) p = Some (trimmed (fst kv))) (key_names ini) kvs ->
  Forall2 (fun p kv => string_at (data ini) p = Some (trimmed (snd kv))) (key_values ini) kvs ->
  distinct_names (options ini) (map (fun kv => trimmed (fst kv)) kvs) = true ->
  In (k, v) kvs ->
  exists p, sir_section_str ini None (Some (trimmed k)) = Ok (p, sir__clear_error_str ini) /\
            sir_has_error (sir__clear_error_str ini) = false /\
            string_at (data ini) p = Some (trimmed v).
Proof.
  intros Hwf Hns Hvs Hd Hin.
  apply (global_round_trip_of (fun kv => trimmed (fst kv)) (fun kv => trimmed (snd kv))
                              ini kvs (k, v) Hwf Hns Hvs Hd Hin).
Qed.

(** X14.  Round trip for a text of key lines.  Every line is a name, '='
    and a value, with any whitespace around the two; the names differ under
    the comparison of the options; whitespace may follow the last line when
    the warnings are disabled.  The text loads; the document holds one key
    per line, in the order of the lines, all in the one range of the global
    section, with the names and the values as they read without the
    whitespace around them; and the section-less lookup of each name
    returns the value of its line and leaves the slot clear. *)
Theorem X14_key_lines_round_trip
        (opts : SirOptions) (kvs : list (list ascii * list ascii)) (w : list ascii) :
  key_fields opts kvs = true ->
  distinct_names opts (map (fun kv => trimmed (fst kv)) kvs) = true ->
  whitespace w -> w = [] \/ has_option opts SIR_OPTION_DISABLE_WARNINGS = true ->
  exists ini,
    sir_load_from_str (key_lines kvs ++ w) opts = Ok ini /\
    sir_has_error ini = false /\
    key_count ini = Z.of_nat (length kvs) /\
    map (string_at (data ini)) (key_names ini) = map (fun kv => Some (trimmed (fst kv))) kvs /\
    map (string_at (data ini)) (key_values ini) = map (fun kv => Some (trimmed (snd kv))) kvs /\
    sections ini = [mkSection [mkRange 0 (Z.of_nat (length kvs))]] /\
    forall k v, In (k, v) kvs ->
                exists p, sir_section_str ini None (Some (trimmed k)) =
                          Ok (p, sir__clear_error_str ini) /\
                          sir_has_error (sir__clear_error_str ini) = false /\
                          string_at (data ini) p = Some (trimmed v).
Proof.
  intros Hf Hd Hw Hwarnings.
  destruct (sir_load_from_str_ini_text opts kvs [] w Hf Hd eq_refl eq_refl Hw Hwarnings)
    as (buf & names & ns & vs & Hload & Hnames & Hns & Hvs).
  unfold ini_text in Hload. cbn [flat_map map length layout] in Hload, Hns, Hvs.
  rewrite !app_nil_r in *. inversion Hnames; subst.
  set (ini := mkIni buf [mkSection [mkRange 0 (0 + Z.of_nat (length kvs))]]
                    [Literal SIR_GLOBAL_SECTION_NAME] ns vs [] (Z.of_nat 1)
                    (Z.of_nat (length kvs)) opts
                    (if has_option opts SIR_OPTION_DISABLE_ERRORS
                     then 0 else SIR_ERROR_STRING_SIZE) 0) in *.
  exists ini. split; [exact Hload|].
  split; [unfold sir_has_error; cbn [error ini]; apply andb_false_r|].
  split; [reflexivity|].
  split; [apply (Forall2_map_eq (string_at buf) (fun kv => Some (trimmed (fst kv)))); exact Hns|].
  split; [apply (Forall2_map_eq (string_at buf) (fun kv => Some (trimmed (snd kv)))); exact Hvs|].
  split; [reflexivity|].
  intros k v Hin.
  destruct (sir_load_from_str_well_formed _ _ _ Hload) as [Hwf _].
  apply (global_round_trip ini kvs k v Hwf Hns Hvs Hd Hin).
Qed.

Lemma X14_witness :
  exists ini,
    sir_load_from_str (list_ascii_of_string " a b = 1 2 " ++ LF ::
                       list_ascii_of_string "c=x=y" ++ [LF; LF])
                      SIR_OPTION_DISABLE_WARNINGS = Ok ini /\
    exists p, sir_section_str ini None (arg "a b") = Ok (p, sir__clear_error_str ini) /\
              string_at (data ini) p = Some (list_ascii_of_string "1 2").
Proof.
  destruct (X14_key_lines_round_trip SIR_OPTION_DISABLE_WARNINGS
              [(list_ascii_of_string " a b ", list_ascii_of_string " 1 2 ");
               (list_ascii_of_string "c", list_ascii_of_string "x=y")] [LF])
    as (ini & Hload & _ & _ & _ & _ & _ & Hlook).
  - vm_compute. reflexivity.
  - vm_compute. reflexivity.
  - constructor; [split; reflexivity|constructor].
  - right. reflexivity.
  - exists ini. split; [exact Hload|].
    destruct (Hlook (list_ascii_of_string " a b ") (list_ascii_of_string " 1 2 "))
      as (p & Hp & _ & Hs); [left; reflexivity|].
    exists p. split; [exact Hp|exact Hs].
Defined.

(** X15.  Round trip for a text with sections.  The text is key lines, then
    sections: each a header '[' name ']' (whitespace may stand in front of
    it and around the name) followed by its key lines.  The section names
    differ from each other and from "global", and the key names differ
    inside each section, under the comparison of the options.  The text
    loads; the document holds the global section and one section per
    header, in order of appearance, each with one range, the ranges lying
    one after the other in the key array; and the lookup of a key of a
    section under the name of that section (under "global" for the lines in
    front of the first header) returns the value of its line and leaves the
    slot clear, whatever the other sections hold under the same key
    name. *)
Theorem X15_sections_round_trip
        (opts : SirOptions) (g : list (list ascii * list ascii))
        (srcs : list section_source) (w : list ascii) :
  key_fields opts g = true -> unique_keys opts g = true ->
  forallb (section_fields opts) srcs = true ->
  distinct_names opts (SIR_GLOBAL_SECTION_NAME ::
                       map (fun s => trimmed (section_header s)) srcs) = true ->
  whitespace w -> w = [] \/ has_option opts SIR_OPTION_DISABLE_WARNINGS = true ->
  exists ini,
    sir_load_from_str (ini_text g srcs ++ w) opts = Ok ini /\
    sir_has_error ini = false /\
    map (string_at (data ini)) (section_names ini) =
      Some SIR_GLOBAL_SECTION_NAME :: map (fun s => Some (trimmed (section_header s))) srcs /\
    sections ini = layout 0 (length g :: map (fun s => length (section_keys s)) srcs) /\
    map (string_at (data ini)) (key_names ini) =
      map (fun kv => Some (trimmed (fst kv))) (g ++ flat_map section_keys srcs) /\
    map (string_at (data ini)) (key_values ini) =
      map (fun kv => Some (trimmed (snd kv))) (g ++ flat_map section_keys srcs) /\
    (forall k v, In (k, v) g ->
                 exists p, sir_section_str ini (Some SIR_GLOBAL_SECTION_NAME)
                                           (Some (trimmed k)) =
                           Ok (p, sir__clear_error_str ini) /\
                           sir_has_error (sir__clear_error_str ini) = false /\
                           string_at (data ini) p = Some (trimmed v)) /\
    (forall s k v, In s srcs -> In (k, v) (section_keys s) ->
                   exists p, sir_section_str ini (Some (trimmed (section_header s)))
                                             (Some (trimmed k)) =
                             Ok (p, sir__clear_error_str ini) /\
                             sir_has_error (sir__clear_error_str ini) = false /\
                             string_at (data ini) p = Some (trimmed v)).
Proof.
  intros Hg Hug Hs Hd Hw Hwarnings.
  destruct (sir_load_from_str_ini_text opts g srcs w Hg Hug Hs Hd Hw Hwarnings)
    as (buf & names & ns & vs & Hload & Hnames & Hns & Hvs).
  set (ini := mkIni buf (layout 0 (length g :: map (fun s => length (section_keys s)) srcs))
                    (Literal SIR_GLOBAL_SECTION_NAME :: names) ns vs []
                    (Z.of_nat (S (length srcs)))
                    (Z.of_nat (length (g ++ flat_map section_keys srcs))) opts
                    (if has_option opts SIR_OPTION_DISABLE_ERRORS
                     then 0 else SIR_ERROR_STRING_SIZE) 0) in *.
  destruct (sir_load_from_str_well_formed _ _ _ Hload) as [Hwf _].
  set (all := (@nil ascii, SIR_GLOBAL_SECTION_NAME, g) :: srcs).
  assert (Hlook : forall i s j k v,
             nth_error all i = Some s -> nth_error (section_keys s) j = Some (k, v) ->
             exists p, sir_section_str ini (Some (trimmed (section_header s)))
                                       (Some (trimmed k)) =
                       Ok (p, sir__clear_error_str ini) /\
                       string_at (data ini) p = Some (trimmed v)).
  { intros i s j k v Hi Hj.
    apply (scoped_round_trip ini all i s j k v Hwf).
    - reflexivity.
    - constructor; [reflexivity|exact Hnames].
    - exact Hns.
    - exact Hvs.
    - exact Hd.
    - intros s' [<-|Hin]; [exact Hug|].
      rewrite forallb_forall in Hs. specialize (Hs s' Hin).
      apply section_fields_spec in Hs. apply Hs.
    - exact Hi.
    - exact Hj. }
  exists ini. split; [exact Hload|].
  split; [unfold sir_has_error; cbn [error ini]; apply andb_false_r|].
  split.
  { cbn [section_names ini map string_at]. f_equal.
    apply (Forall2_map_eq (string_at buf) (fun s => Some (trimmed (section_header s)))).
    exact Hnames. }
  split; [reflexivity|].
  split; [apply (Forall2_map_eq (string_at buf) (fun kv => Some (trimmed (fst kv)))); exact Hns|].
  split; [apply (Forall2_map_eq (string_at buf) (fun kv => Some (trimmed (snd kv)))); exact Hvs|].
  split.
  - intros k v Hin. apply In_nth_error in Hin. destruct Hin as (j & Hj).
    destruct (Hlook 0%nat ([], SIR_GLOBAL_SECTION_NAME, g) j k v eq_refl Hj) as (p & Hp & Hsp).
    exists p. split; [exact Hp|]. split; [apply has_error_clear|exact Hsp].
  - intros s k v Hin Hkv. apply In_nth_error in Hin. destruct Hin as (i & Hi).
    apply In_nth_error in Hkv. destruct Hkv as (j & Hj).
    destruct (Hlook (S i) s j k v Hi Hj) as (p & Hp & Hsp).
    exists p. split; [exact Hp|]. split; [apply has_error_clear|exact Hsp].
Qed.

Lemma X15_witness :
  exists ini,
    sir_load_from_str (lines ["n=0"; "[a]"; "k=1"; "[ b ]"; "k = 2"]) SIR_OPTION_NONE = Ok ini /\
    exists p, sir_section_str ini (arg "b") (arg "k") = Ok (p, sir__clear_error_str ini) /\
              string_at (data ini) p = Some (list_ascii_of_string "2").
Proof.
  destruct (X15_sections_round_trip SIR_OPTION_NONE
              [(list_ascii_of_string "n", list_ascii_of_string "0")]
              [([], list_ascii_of_string "a",
                [(LF :: list_ascii_of_string "k", list_ascii_of_string "1")]);
               ([], list_ascii_of_string " b ",
                [(LF :: list_ascii_of_string "k ", list_ascii_of_string " 2")])] [])
    as (ini & Hload & _ & _ & _ & _ & _ & _ & Hlook).
  - vm_compute. reflexivity.
  - vm_compute. reflexivity.
  - vm_compute. reflexivity.
  - vm_compute. reflexivity.
  - constructor.
  - left. reflexivity.
  - exists ini. split; [exact Hload|].
    destruct (Hlook ([], list_ascii_of_string " b ",
                     [(LF :: list_ascii_of_string "k ", list_ascii_of_string " 2")])
                    (LF :: list_ascii_of_string "k ") (list_ascii_of_string " 2"))
      as (p & Hp & _ & Hsp).
    + right. left. reflexivity.
    + left. reflexivity.
    + exists p. split; [exact Hp|exact Hsp].
Defined.

(** X16.  With the warnings enabled, whitespace after the last line of a
    text of key lines and sections (a blank last line, a line feed after
    the last header, a trailing space, a text of whitespace only) makes the
    diagnostic pass of the loader step behind the terminator of the text
    and read there: the load is a fault. *)
Theorem X16_trailing_whitespace_faults
        (opts : SirOptions) (g : list (list ascii * list ascii))
        (srcs : list section_source) (w : list ascii) :
  key_fields opts g = true -> forallb (section_fields opts) srcs = true ->
  whitespace w -> w <> [] ->
  has_option opts SIR_OPTION_DISABLE_WARNINGS = false ->
  sir_load_from_str (ini_text g srcs ++ w) opts = Fault.
Proof.
  intros Hg Hs Hw Hne Hopt. unfold sir_load_from_str.
  destruct (strip_and_count_ini_text opts g srcs w Hg Hs Hw) as (a & b & _ & _ & Hstrip).
  rewrite Hstrip. cbn [bind]. rewrite Hopt.
  rewrite (check_warnings_ini_text opts g srcs w Hg Hs Hw).
  destruct w; [congruence|reflexivity].
Qed.

Lemma X16_witness :
  sir_load_from_str (lines ["k=1"; ""]) SIR_OPTION_NONE = Fault /\
  sir_load_from_str (lines ["[a]"]) SIR_OPTION_NONE = Fault /\
  sir_load_from_str [" "%char] SIR_OPTION_NONE = Fault.
Proof.
  split; [|split].
  - apply (X16_trailing_whitespace_faults SIR_OPTION_NONE
             [(list_ascii_of_string "k", list_ascii_of_string "1")] [] [LF]).
    + vm_compute. reflexivity.
    + reflexivity.
    + constructor; [split; reflexivity|constructor].
    + discriminate.
    + reflexivity.
  - apply (X16_trailing_whitespace_faults SIR_OPTION_NONE []
             [([], list_ascii_of_string "a", [])] [LF]).
    + reflexivity.
    + vm_compute. reflexivity.
    + constructor; [split; reflexivity|constructor].
    + discriminate.
    + reflexivity.
  - apply (X16_trailing_whitespace_faults SIR_OPTION_NONE [] [] [" "%char]).
    + reflexivity.
    + reflexivity.
    + constructor; [split; reflexivity|constructor].
    + discriminate.
    + reflexivity.
Defined.

(** ** Documents the loader returns *)

Lemma sir_load_from_str_clear (s : list ascii) (opts : SirOptions) (ini : SirIni) :
  sir_load_from_str s opts = Ok ini -> sir_has_error ini = false.
Proof.
  intros H. unfold sir_load_from_str in H.
  apply bind_ok in H. destruct H as (((buf & sc) & kc) & _ & H).
  apply bind_ok in H. destruct H as (_ & _ & H).
  apply bind_ok in H. destruct H as (ini0 & _ & H).
  apply bind_ok in H. destruct H as (st & _ & H).
  apply bind_ok in H. destruct H as (secs & _ & H).
  injection H as <-. apply has_error_clear.
Qed.

(** X17.  Every document [sir_load_from_str] returns is consistent and safe
    to query.  It carries the options it was loaded with and no error; its
    section and key arrays have exactly [section_count] and [key_count]
    entries, none of them null; section 0 is the global one; every range of
    every section lies inside the key array.  On such a document
    [sir_section_str], [sir_section_long] and [sir_section_bool] return for
    every pair of arguments, null or not: no lookup reads outside an
    array. *)
Theorem X17_loaded_document_is_safe
        (s : list ascii) (opts : SirOptions) (ini : SirIni) :
  sir_load_from_str s opts = Ok ini ->
  options ini = opts /\ sir_has_error ini = false /\
  section_count ini = Z.of_nat (length (sections ini)) /\
  length (section_names ini) = length (sections ini) /\
  nth_error (section_names ini) 0 = Some (Literal SIR_GLOBAL_SECTION_NAME) /\
  key_count ini = Z.of_nat (length (key_names ini)) /\
  length (key_values ini) = length (key_names ini) /\
  Forall (fun p => p <> NullPtr) (section_names ini ++ key_names ini ++ key_values ini) /\
  (forall sec r, In sec (sections ini) -> In r (ranges sec) ->
                 0 <= start r <= end_ r /\ end_ r <= key_count ini) /\
  (forall section key, exists v ini', sir_section_str ini section key = Ok (v, ini')) /\
  (forall section key, exists l ini', sir_section_long ini section key = Ok (l, ini')) /\
  (forall section key, exists b ini', sir_section_bool ini section key = Ok (b, ini')).
Proof.
  intros Hload.
  destruct (sir_load_from_str_well_formed _ _ _ Hload) as [Hwf Hopts].
  pose proof (sir_load_from_str_clear _ _ _ Hload) as Hclear.
  pose proof Hwf as Hwf'.
  destruct Hwf' as [Wsc Wnl Wg Wsn Wr Wkc Wvl Wkn Wkv Wes].
  assert (Hnn : forall l, Forall (fun p => is_null p = false) l ->
                          Forall (fun p => p <> NullPtr) l).
  { intros l Hl. eapply Forall_impl; [|exact Hl]. intros p Hp ->. discriminate. }
  repeat match goal with |- _ /\ _ => split end; try assumption.
  - repeat (apply Forall_app; split); apply Hnn; assumption.
  - intros sec r Hsec Hr. rewrite Forall_forall in Wr. specialize (Wr sec Hsec).
    rewrite Forall_forall in Wr. exact (Wr r Hr).
  - intros section key. apply sir_section_str_total. exact Hwf.
  - intros section key. apply (sir_section_bool_total ini section key Hwf).
  - intros section key. apply (sir_section_bool_total ini section key Hwf).
Qed.

Lemma X17_witness :
  (exists v ini', sir_section_str (parsed (lines ["[a]"; "k=1"]) SIR_OPTION_NONE)
                                  (arg "b") None = Ok (v, ini')) /\
  key_count (parsed (lines ["[a]"; "k=1"]) SIR_OPTION_NONE) = 1.
Proof.
  assert (Hload : sir_load_from_str (lines ["[a]"; "k=1"]) SIR_OPTION_NONE
                  = Ok (parsed (lines ["[a]"; "k=1"]) SIR_OPTION_NONE))
    by (vm_compute; reflexivity).
  destruct (X17_loaded_document_is_safe _ _ _ Hload)
    as (_ & _ & _ & _ & _ & _ & _ & _ & _ & Hstr & _).
  split; [apply Hstr|reflexivity].
Defined.

(** X18.  The loops of [sir_load_from_str] end: on every text and under
    every combination of options the first pass, the diagnostic pass and
    the parsing loop finish within one round per character of the text, so
    the loader returns a document or faults and never runs on. *)
Theorem X18_loader_terminates (s : list ascii) (opts : SirOptions) :
  (exists ini, sir_load_from_str s opts = Ok ini) \/ sir_load_from_str s opts = Fault.
Proof.
  pose proof (sir_load_from_str_no_fuel s opts) as H.
  destruct (sir_load_from_str s opts) as [ini| |]; [left; exists ini; reflexivity|right; reflexivity|].
  exfalso. apply H. reflexivity.
Qed.

(** ** A last line without an assignment character *)

Lemma replace_nth_end {A : Type} (l : list A) (x : A) : replace_nth l (length l) x = None.
Proof.
  induction l as [|h t IH]; cbn [length replace_nth]; [reflexivity|].
  rewrite IH. reflexivity.
Qed.

Lemma aset_end {A : Type} (l : list A) (x : A) : aset l (Z.of_nat (length l)) x = Fault.
Proof.
  unfold aset. destruct (Z.ltb_spec (Z.of_nat (length l)) 0); [reflexivity|].
  rewrite Nat2Z.id, replace_nth_end. reflexivity.
Qed.

Lemma skip_to_char_all (s : list ascii) (c : ascii) :
  nul_free s -> ~ In c s -> skip_to_char s c = Z.of_nat (length s).
Proof.
  intros Hn Hc. rewrite <- (app_nil_r s) at 1.
  apply skip_to_char_app_stop; [exact Hn|exact Hc|reflexivity].
Qed.

Lemma skip_to_assignment_char_all (opts : SirOptions) (s : list ascii) :
  nul_free s -> (forall c, In c s -> sir__is_assignment_char opts c = false) ->
  skip_to_assignment_char opts s = Z.of_nat (length s).
Proof.
  intros Hn Ha. induction s as [|c s IH]; [reflexivity|]. cbn [skip_to_assignment_char].
  assert (is_nul c = false) as -> by (apply is_nul_false, Hn; left; reflexivity).
  rewrite (Ha c) by (left; reflexivity). cbn [negb andb].
  rewrite IH; [cbn [length]; lia| |].
  - intros x Hx. apply Hn. right. exact Hx.
  - intros x Hx. apply Ha. right. exact Hx.
Qed.

(** [sir__parse_to_assignment_char] on a name that runs to the end of the
    text. *)
Lemma sir__parse_to_assignment_char_missing (opts : SirOptions) (pre f : list ascii) :
  nul_free f -> (forall c, In c f -> sir__is_assignment_char opts c = false) ->
  sir__parse_to_assignment_char opts (pre ++ f) (Z.of_nat (length pre)) = (-1, pre ++ f).
Proof.
  intros Hn Ha.
  assert (Heq : ~ In SIR_KEY_ASSIGNMENT_CHAR f).
  { intros Hin. specialize (Ha _ Hin). unfold sir__is_assignment_char in Ha.
    rewrite Ascii.eqb_refl in Ha. discriminate. }
  assert (Hmiss : forall c, ~ In c f ->
                            sir__parse_to_char (pre ++ f) (Z.of_nat (length pre)) c =
                            (-1, pre ++ f)).
  { intros c Hc. pose proof (sir__parse_to_char_missing pre f [] c Hn Hc eq_refl) as H.
    rewrite app_nil_r in H. exact H. }
  unfold sir__parse_to_assignment_char.
  destruct (has_option opts SIR_OPTION_DISABLE_COLON_ASSIGNMENT) eqn:Hopt;
    [apply Hmiss; exact Heq|].
  assert (Hcol : ~ In SIR_KEY_ASSIGNMENT_CHAR_ALT f).
  { intros Hin. specialize (Ha _ Hin). unfold sir__is_assignment_char in Ha.
    rewrite Hopt, Ascii.eqb_refl in Ha. cbn in Ha. discriminate. }
  unfold sir__skip_to_char. rewrite tail_at_length by reflexivity.
  rewrite !skip_to_char_all by assumption. rewrite Z.ltb_irrefl.
  apply Hmiss. exact Hcol.
Qed.

(** The diagnostic pass on a last line without an assignment character:
    the scan for the assignment character stops at the terminator and the
    pass steps over it. *)
Lemma check_warnings_word (opts : SirOptions) (fuel : nat) (pre f : list ascii) :
  name_field opts f = true ->
  check_warnings (S fuel) opts (pre ++ f) (Z.of_nat (length pre)) = Fault.
Proof.
  intros Hf. apply name_field_spec in Hf. destruct Hf as (Hfn & _ & Hfa & Hft & Hfo).
  destruct (field_split f Hfn Hft) as (w & t & x & ws & Hfs & Hw & Hws & Htn & Hxn & Hx & Hhd & Htr).
  rewrite Htr in Hfo. cbn [check_warnings].
  destruct (Z.ltb_spec (Z.of_nat (length (pre ++ f))) (Z.of_nat (length pre)));
    [rewrite length_app in *; lia|].
  assert (Hload0 : is_nul (load (pre ++ f) (Z.of_nat (length pre))) = false).
  { rewrite load_at_length by reflexivity.
    destruct f as [|f0 f']; [exfalso; apply Hft; reflexivity|].
    cbn [hd]. apply is_nul_false, Hfn. left. reflexivity. }
  rewrite Hload0.
  assert (Hskip : sir__skip_whitespace (pre ++ f) (Z.of_nat (length pre)) =
                  Z.of_nat (length w)).
  { unfold sir__skip_whitespace. rewrite tail_at_length by reflexivity. rewrite Hfs.
    apply skip_whitespace_app_stop; [exact Hw|].
    destruct t as [|t0 t]; cbn [app hd] in *; rewrite Hhd; apply andb_false_r. }
  rewrite Hskip.
  assert (Hb : pre ++ f = (pre ++ w) ++ (t ++ [x]) ++ ws) by (rewrite Hfs; reassoc).
  assert (Hload1 : load (pre ++ f) (Z.of_nat (length pre) + Z.of_nat (length w)) =
                   hd x (t ++ [x])).
  { rewrite Hb, load_at_length by lengths. destruct t; reflexivity. }
  rewrite Hload1.
  assert (Hopen : Ascii.eqb (hd x (t ++ [x])) SIR__SECTION_NAME_OPEN_CHAR = false).
  { destruct t; exact Hfo. }
  rewrite Hopen.
  assert (Hsa : skip_to_assignment_char opts
                  (tail_at (pre ++ f) (Z.of_nat (length pre) + Z.of_nat (length w))) =
                Z.of_nat (length ((t ++ [x]) ++ ws))).
  { rewrite Hb, tail_at_length by lengths. apply skip_to_assignment_char_all.
    - intros c Hc. apply Hfn. rewrite Hfs. apply in_or_app. right. exact Hc.
    - intros c Hc. apply Hfa. rewrite Hfs. apply in_or_app. right. exact Hc. }
  rewrite Hsa.
  destruct (Z.ltb_spec (Z.of_nat (length (pre ++ f)))
                       (Z.of_nat (length pre) + Z.of_nat (length w) +
                        Z.of_nat (length ((t ++ [x]) ++ ws)) + 1)) as [_|Hge];
    [reflexivity|].
  exfalso. rewrite Hfs in Hge. revert Hge. lengths.
Qed.

(** The key branch on a last line without an assignment character, with no
    key of that name in the open section.  The name gets the empty value.
    With SIR_OPTION_IGNORE_EMPTY_VALUES it is dropped and the loop is
    left; without it the name is stored at the key index, which lies
    outside the key array when the array is full. *)
Lemma load_key_word (opts : SirOptions)
      (done w t : list ascii) (x : ascii) (ws : list ascii)
      (secs : list SirSection) (snames ns vs : list cptr)
      (err : list ascii) (sc kc esz ew : Z) (r0 : SirSectionRange)
      (pi si : Z) (old cur : list cptr) :
  whitespace w -> nul_free t -> x <> NUL -> le_space x = false ->
  le_space (hd x (t ++ [x])) = false -> whitespace ws ->
  (forall c, In c ((t ++ [x]) ++ ws) -> sir__is_assignment_char opts c = false) ->
  0 <= si -> nth_error secs (Z.to_nat si) = Some (mkSection [r0]) ->
  ns = old ++ cur -> start r0 = Z.of_nat (length old) ->
  Forall (fun p => forall post,
              sir__str_equal opts (string_at (done ++ post) p) (Some (t ++ [x])) = false) cur ->
  exists buf' : list ascii,
    (forall p s, (forall post, string_at (done ++ post) p = Some s) ->
                 string_at buf' p = Some s) /\
    forall more : list cptr,
      (has_option opts SIR_OPTION_IGNORE_EMPTY_VALUES = true ->
       load_key
         (mkLoader (mkIni (done ++ w ++ (t ++ [x]) ++ ws) secs snames (ns ++ more) (vs ++ more)
                          err sc kc opts esz ew)
                   (Z.of_nat (length (done ++ w))) pi si (Z.of_nat (length ns))) =
       Ok (Break (mkLoader (mkIni buf' secs snames (ns ++ more) (vs ++ more)
                                  err sc kc opts esz ew)
                           (Z.of_nat (length (done ++ w))) pi si (Z.of_nat (length ns))))) /\
      (has_option opts SIR_OPTION_IGNORE_EMPTY_VALUES = false -> more = [] ->
       load_key
         (mkLoader (mkIni (done ++ w ++ (t ++ [x]) ++ ws) secs snames (ns ++ more) (vs ++ more)
                          err sc kc opts esz ew)
                   (Z.of_nat (length (done ++ w))) pi si (Z.of_nat (length ns))) = Fault).
Proof.
  intros Hw Htn Hxn Hx Hhd Hws Hna Hsi Hsec Hns Hstart Hdup.
  set (buf' := done ++ w ++ (t ++ [x]) ++
                 match ws ++ [] with [] => [] | _ :: r => NUL :: r end).
  assert (Hnn : nul_free (t ++ [x])).
  { intros y Hy. apply in_app_or in Hy. destruct Hy as [Hy|[<-|[]]]; [apply Htn, Hy|exact Hxn]. }
  assert (Hnf : nul_free ((t ++ [x]) ++ ws)).
  { intros y Hy. apply in_app_or in Hy. destruct Hy; [apply Hnn|apply (whitespace_nul_free ws Hws)];
      assumption. }
  exists buf'. split.
  { intros p s Hp. unfold buf'. apply Hp. }
  intros more. split; [intros Hign|intros Hign ->].
  - unfold load_key. cbn [l_ini l_str options data key_index prev_index section_index].
    replace (done ++ w ++ (t ++ [x]) ++ ws) with ((done ++ w) ++ (t ++ [x]) ++ ws) by reassoc.
    rewrite (sir__parse_to_assignment_char_missing opts (done ++ w) ((t ++ [x]) ++ ws) Hnf Hna).
    replace ((done ++ w) ++ (t ++ [x]) ++ ws) with ((done ++ w) ++ [] ++ (t ++ [x]) ++ ws ++ [])
      by (rewrite app_nil_r; reassoc).
    destruct (sir__trim_whitespace_app (done ++ w) [] t ws [] x) as [Htrim Hname];
      try assumption; [constructor|reflexivity|].
    rewrite Htrim. cbn [bind].
    unfold find_duplicate_key.
    cbn [l_ini sections section_index options key_names key_index].
    assert (aget secs si = Ok (mkSection [r0])) as ->
        by (apply aget_nth_error; split; [exact Hsi|exact Hsec]).
    cbn [bind ranges scan_ranges]. rewrite Hstart.
    replace (Z.to_nat (Z.of_nat (length ns) - Z.of_nat (length old))) with (length cur)
      by (rewrite Hns; lengths).
    rewrite scan_keys_none; [| |rewrite Hns; lengths].
    2:{ intros i p Hi Hp. rewrite nth_error_app1 in Hp by (rewrite Hns; lengths).
        rewrite Hns, nth_error_app2 in Hp by lia.
        apply nth_error_In in Hp. rewrite Forall_forall in Hdup.
        cbn [string_at]. rewrite Hname. rewrite <- app_assoc. apply Hdup. exact Hp. }
    cbn [bind]. unfold read_value. change (-1 =? -1) with true. cbn [negb bind].
    unfold apply_value. cbn [string_at options]. rewrite Hign. cbn [andb negb bind].
    f_equal. f_equal. f_equal.
    unfold with_key_values, with_key_names, with_data.
    cbn [data sections section_names key_names key_values error section_count key_count
         options error_size error_writes].
    f_equal. unfold buf'. reassoc.
  - unfold load_key. cbn [l_ini l_str options data key_index prev_index section_index].
    rewrite !app_nil_r.
    replace (done ++ w ++ (t ++ [x]) ++ ws) with ((done ++ w) ++ (t ++ [x]) ++ ws) by reassoc.
    rewrite (sir__parse_to_assignment_char_missing opts (done ++ w) ((t ++ [x]) ++ ws) Hnf Hna).
    replace ((done ++ w) ++ (t ++ [x]) ++ ws) with ((done ++ w) ++ [] ++ (t ++ [x]) ++ ws ++ [])
      by (rewrite app_nil_r; reassoc).
    destruct (sir__trim_whitespace_app (done ++ w) [] t ws [] x) as [Htrim Hname];
      try assumption; [constructor|reflexivity|].
    rewrite Htrim. cbn [bind].
    unfold find_duplicate_key.
    cbn [l_ini sections section_index options key_names key_index].
    assert (aget secs si = Ok (mkSection [r0])) as ->
        by (apply aget_nth_error; split; [exact Hsi|exact Hsec]).
    cbn [bind ranges scan_ranges]. rewrite Hstart.
    replace (Z.to_nat (Z.of_nat (length ns) - Z.of_nat (length old))) with (length cur)
      by (rewrite Hns; lengths).
    rewrite scan_keys_none; [| |rewrite Hns; lengths].
    2:{ intros i p Hi Hp. rewrite Hns, nth_error_app2 in Hp by lia.
        apply nth_error_In in Hp. rewrite Forall_forall in Hdup.
        cbn [string_at]. rewrite Hname. rewrite <- app_assoc. apply Hdup. exact Hp. }
    cbn [bind]. unfold read_value. change (-1 =? -1) with true. cbn [negb bind].
    unfold apply_value. cbn [string_at options]. rewrite Hign. cbn [andb negb bind].
    cbn [key_names]. rewrite aset_end. reflexivity.
Qed.

Lemma assignment_char_LF (opts : SirOptions) : sir__is_assignment_char opts LF = false.
Proof.
  unfold sir__is_assignment_char.
  destruct (has_option opts SIR_OPTION_DISABLE_COLON_ASSIGNMENT); reflexivity.
Qed.

Lemma filter_none {A : Type} (f : A -> bool) (l : list A) :
  (forall x, In x l -> f x = false) -> filter f l = [].
Proof.
  induction l as [|a l IH]; intros H; [reflexivity|]. cbn [filter].
  rewrite (H a) by (left; reflexivity). apply IH. intros x Hx. apply H. right. exact Hx.
Qed.

(** One assignment character per line when the values hold none. *)
Lemma key_lines_assignments_exact (opts : SirOptions) (kvs : list (list ascii * list ascii)) :
  key_fields opts kvs = true ->
  (forall kv c, In kv kvs -> In c (snd kv) -> sir__is_assignment_char opts c = false) ->
  length (filter (sir__is_assignment_char opts) (key_lines kvs)) = length kvs.
Proof.
  induction kvs as [|[k v] rest IH]; intros Hf Hv; [reflexivity|].
  apply key_fields_cons in Hf. destruct Hf as (Hk & _ & Hr).
  apply name_field_spec in Hk. destruct Hk as (_ & _ & Hka & _).
  cbn [key_lines length]. rewrite filter_app. cbn [filter].
  assert (sir__is_assignment_char opts SIR_KEY_ASSIGNMENT_CHAR = true) as ->
      by (unfold sir__is_assignment_char; rewrite Ascii.eqb_refl; reflexivity).
  rewrite (filter_none _ k Hka). cbn [app length]. rewrite filter_app. cbn [filter].
  rewrite assignment_char_LF.
  rewrite (filter_none _ v) by (intros c Hc; apply (Hv (k, v) c); [left; reflexivity|exact Hc]).
  cbn [app]. rewrite IH; [reflexivity|exact Hr|].
  intros kv c Hkv Hc. apply (Hv kv c); [right; exact Hkv|exact Hc].
Qed.

Lemma strip_and_count_word (opts : SirOptions) (kvs : list (list ascii * list ascii))
      (f : list ascii) :
  key_fields opts kvs = true -> name_field opts f = true ->
  exists a : nat,
    strip_and_count (S (S (length (key_lines kvs ++ f)))) opts (key_lines kvs ++ f) 0 1 0 =
    Ok (key_lines kvs ++ f, 1 + Z.of_nat a,
        0 + Z.of_nat (length (filter (sir__is_assignment_char opts) (key_lines kvs)))).
Proof.
  intros Hg Hf. apply name_field_spec in Hf. destruct Hf as (Hfn & Hfc & Hfa & _).
  exists (length (filter (fun c => Ascii.eqb c SIR__SECTION_NAME_OPEN_CHAR)
                         (key_lines kvs ++ f))).
  pose proof (strip_and_count_plain opts (key_lines kvs ++ f)
                (S (S (length (key_lines kvs ++ f)))) [] 1 0) as Hrun.
  cbn [app length] in Hrun. change (Z.of_nat 0) with 0 in Hrun. rewrite Hrun.
  - rewrite (filter_app (sir__is_assignment_char opts)), (filter_none _ f Hfa), app_nil_r.
    reflexivity.
  - intros x Hx. apply in_app_or in Hx.
    destruct Hx as [Hx|Hx]; [apply (key_lines_nul_free opts kvs Hg), Hx|apply Hfn, Hx].
  - apply Forall_app. split; [apply key_lines_comment_free; exact Hg|].
    apply Forall_forall. exact Hfc.
  - lia.
Qed.

(** The main loop on key lines followed by a last line without an
    assignment character. *)
Lemma load_loop_word (opts : SirOptions) (kvs : list (list ascii * list ascii))
      (f : list ascii) (a b : nat) (sc kc esz : Z) :
  key_fields opts kvs = true -> name_field opts f = true ->
  distinct_names opts (map (fun kv => trimmed (fst kv)) kvs ++ [trimmed f]) = true ->
  (length kvs <= b)%nat ->
  exists (buf : list ascii) (ns vs : list cptr) (str : Z),
    Forall2 (fun p kv => string_at buf p = Some (trimmed (fst kv))) ns kvs /\
    Forall2 (fun p kv => string_at buf p = Some (trimmed (snd kv))) vs kvs /\
    (has_option opts SIR_OPTION_IGNORE_EMPTY_VALUES = true ->
     load_loop (S (length (key_lines kvs ++ f)))
       (mkLoader (mkIni (key_lines kvs ++ f)
                        (mkSection [set_start fresh_range 0] ::
                           repeat (mkSection [fresh_range]) a)
                        (Literal SIR_GLOBAL_SECTION_NAME :: repeat NullPtr a)
                        (repeat NullPtr b) (repeat NullPtr b) [] sc kc opts esz 0)
                 0 0 0 0) =
     Ok (mkLoader (mkIni buf
                         (mkSection [set_start fresh_range 0] ::
                            repeat (mkSection [fresh_range]) a)
                         (Literal SIR_GLOBAL_SECTION_NAME :: repeat NullPtr a)
                         (ns ++ skipn (length kvs) (repeat NullPtr b))
                         (vs ++ skipn (length kvs) (repeat NullPtr b)) [] sc kc opts esz 0)
                  str 0 0 (Z.of_nat (length ns)))) /\
    (has_option opts SIR_OPTION_IGNORE_EMPTY_VALUES = false -> b = length kvs ->
     load_loop (S (length (key_lines kvs ++ f)))
       (mkLoader (mkIni (key_lines kvs ++ f)
                        (mkSection [set_start fresh_range 0] ::
                           repeat (mkSection [fresh_range]) a)
                        (Literal SIR_GLOBAL_SECTION_NAME :: repeat NullPtr a)
                        (repeat NullPtr b) (repeat NullPtr b) [] sc kc opts esz 0)
                 0 0 0 0) = Fault).
Proof.
  intros Hg Hf Hd Hb.
  set (secs0 := mkSection [set_start fresh_range 0] :: repeat (mkSection [fresh_range]) a).
  set (snames0 := Literal SIR_GLOBAL_SECTION_NAME :: repeat NullPtr a).
  assert (Hdg : distinct_names opts (map (fun kv => trimmed (fst kv)) kvs) = true).
  { clear - Hd. induction kvs as [|kv kvs IH]; [reflexivity|].
    cbn [map app distinct_names] in *. apply andb_prop in Hd. destruct Hd as [H1 H2].
    rewrite (IH H2), andb_true_r. rewrite forallb_app in H1.
    apply andb_prop in H1. apply H1. }
  destruct (load_loop_key_lines opts secs0 snames0 [] sc kc esz 0
              (set_start fresh_range 0) 0 0 [] f
              (Z.le_refl 0) eq_refl eq_refl
              kvs [] [] [] [] (repeat NullPtr b) (repeat NullPtr b))
    as (extra1 & ng & vg & Hrun1 & Hng & Hvg).
  { exact Hg. }
  { rewrite repeat_length. exact Hb. }
  { rewrite repeat_length. exact Hb. }
  { reflexivity. }
  { constructor. }
  { exact Hdg. }
  cbn [app length] in Hrun1, Hng, Hvg. change (Z.of_nat 0) with 0 in Hrun1.
  assert (Hlg : length ng = length kvs) by (apply Forall2_length in Hng; exact Hng).
  assert (Hlvg : length vg = length kvs) by (apply Forall2_length in Hvg; exact Hvg).
  apply name_field_spec in Hf. destruct Hf as (Hfn & _ & Hfa & Hft & Hfo).
  destruct (field_split f Hfn Hft)
    as (w & t & x & ws & Hfs & Hw & Hws & Htn & Hxn & Hx & Hhd & Htr).
  rewrite Htr in Hfo, Hd.
  assert (Hna : forall c, In c ((t ++ [x]) ++ ws) -> sir__is_assignment_char opts c = false).
  { intros c Hc. apply Hfa. rewrite Hfs. apply in_or_app. right. exact Hc. }
  assert (Hdup : Forall (fun p => forall post,
                             sir__str_equal opts (string_at (extra1 ++ post) p)
                                            (Some (t ++ [x])) = false) ng).
  { apply distinct_names_earlier in Hd.
    clear - Hng Hd. induction Hng as [|p kv ns prev Hp Hns IHn]; [constructor|].
    cbn [map] in Hd. inversion Hd as [|? ? Hd1 Hd2]; subst.
    constructor; [|apply IHn; exact Hd2].
    intros post. rewrite Hp. exact Hd1. }
  destruct (load_key_word opts extra1 w t x ws secs0 snames0 ng vg [] sc kc esz 0
                          (set_start fresh_range 0) 0 0 [] ng)
    as (buf' & Hbuf & Hstep); try assumption; try reflexivity.
  specialize (Hstep (skipn (length kvs) (repeat NullPtr b))).
  destruct Hstep as [Hign Hfull].
  assert (Hcons : exists c r, t ++ [x] = c :: r /\ c <> NUL /\
                              Ascii.eqb c SIR__SECTION_NAME_OPEN_CHAR = false /\
                              le_space c = false).
  { destruct t as [|c t]; [exists x, []|exists c, (t ++ [x])]; cbn [app hd] in *.
    - repeat split; assumption.
    - repeat split; try assumption. apply Htn. left. reflexivity. }
  destruct Hcons as (c & r & Hcr & Hcn & Hco & Hcs).
  set (buf := extra1 ++ w ++ (t ++ [x]) ++ ws) in *.
  assert (Hload0 : is_nul (load buf (Z.of_nat (length extra1))) = false).
  { unfold buf. rewrite load_at_length by reflexivity.
    destruct w as [|a0 w]; cbn [app hd].
    - rewrite Hcr. cbn [app hd]. apply is_nul_false. exact Hcn.
    - apply is_nul_false. apply (whitespace_nul_free _ Hw). left. reflexivity. }
  assert (Hskip : sir__skip_whitespace buf (Z.of_nat (length extra1)) = Z.of_nat (length w)).
  { unfold sir__skip_whitespace, buf. rewrite tail_at_length by reflexivity.
    apply skip_whitespace_app_stop; [exact Hw|].
    rewrite Hcr. cbn [app hd]. rewrite Hcs. apply andb_false_r. }
  assert (Hload1 : load buf (Z.of_nat (length (extra1 ++ w))) = c).
  { unfold buf.
    replace (extra1 ++ w ++ (t ++ [x]) ++ ws) with ((extra1 ++ w) ++ (t ++ [x]) ++ ws)
      by reassoc.
    rewrite load_at_length by reflexivity. rewrite Hcr. reflexivity. }
  assert (Hround : forall fuel,
             load_loop (S fuel)
               (mkLoader (mkIni buf secs0 snames0
                                (ng ++ skipn (length kvs) (repeat NullPtr b))
                                (vg ++ skipn (length kvs) (repeat NullPtr b))
                                [] sc kc opts esz 0)
                         (Z.of_nat (length extra1)) 0 0 (Z.of_nat (length ng))) =
             do r <- load_key
                       (mkLoader (mkIni buf secs0 snames0
                                        (ng ++ skipn (length kvs) (repeat NullPtr b))
                                        (vg ++ skipn (length kvs) (repeat NullPtr b))
                                        [] sc kc opts esz 0)
                                 (Z.of_nat (length (extra1 ++ w))) 0 0
                                 (Z.of_nat (length ng)));
             match r with
             | Continue st2 => load_loop fuel st2
             | Break st2 => Ok st2
             end).
  { intros fuel.
    cbn [load_loop l_ini data l_str prev_index section_index key_index].
    rewrite Hload0, Hskip.
    replace (Z.of_nat (length extra1) + Z.of_nat (length w))
      with (Z.of_nat (length (extra1 ++ w))) by lengths.
    rewrite Hload1, Hco.
    assert (is_nul c = false) as -> by (apply is_nul_false; exact Hcn).
    reflexivity. }
  pose proof (key_lines_length kvs) as Hkl.
  assert (Hwhole : load_loop (S (length (key_lines kvs ++ f)))
                     (mkLoader (mkIni (key_lines kvs ++ f) secs0 snames0
                                      (repeat NullPtr b) (repeat NullPtr b)
                                      [] sc kc opts esz 0) 0 0 0 0) =
                   do r <- load_key
                             (mkLoader (mkIni buf secs0 snames0
                                              (ng ++ skipn (length kvs) (repeat NullPtr b))
                                              (vg ++ skipn (length kvs) (repeat NullPtr b))
                                              [] sc kc opts esz 0)
                                       (Z.of_nat (length (extra1 ++ w))) 0 0
                                       (Z.of_nat (length ng)));
                   match r with
                   | Continue st2 =>
                       load_loop (length (key_lines kvs ++ f) - length kvs) st2
                   | Break st2 => Ok st2
                   end).
  { replace (S (length (key_lines kvs ++ f)))
      with (length kvs + S (length (key_lines kvs ++ f) - length kvs))%nat
      by (rewrite length_app; lia).
    rewrite Hrun1. rewrite <- Hround. unfold buf. rewrite Hfs. reflexivity. }
  exists buf', ng, vg, (Z.of_nat (length (extra1 ++ w))).
  split; [|split; [|split]].
  - eapply Forall2_impl; [|exact Hng]. intros p kv H. apply Hbuf. exact H.
  - eapply Forall2_impl; [|exact Hvg]. intros p kv H. apply Hbuf. exact H.
  - intros Hopt. rewrite Hwhole, (Hign Hopt). reflexivity.
  - intros Hopt ->. rewrite Hwhole, Hfull; [reflexivity|exact Hopt|].
    rewrite <- (repeat_length NullPtr (length kvs)) at 1. apply skipn_all.
Qed.

(** X19 (sir_load_from_str, diagnostic pass): key lines followed by a last
    line that holds a name but no assignment character.  With warnings
    enabled the diagnostic pass looks for the assignment character up to
    the terminator, steps over it and reads outside the text: the load
    faults, whatever the other options. *)
Theorem X19_unassigned_last_line_faults
        (opts : SirOptions) (kvs : list (list ascii * list ascii)) (f : list ascii) :
  key_fields opts kvs = true -> name_field opts f = true ->
  has_option opts SIR_OPTION_DISABLE_WARNINGS = false ->
  sir_load_from_str (key_lines kvs ++ f) opts = Fault.
Proof.
  intros Hg Hf Hopt. unfold sir_load_from_str.
  destruct (strip_and_count_word opts kvs f Hg Hf) as (a & Hstrip).
  rewrite Hstrip. cbn [bind]. rewrite Hopt.
  pose proof (key_lines_length kvs) as Hkl.
  replace (S (length (key_lines kvs ++ f)))
    with (length kvs + S (length (key_lines kvs ++ f) - length kvs))%nat
    by (rewrite length_app; lia).
  pose proof (check_warnings_key_lines opts kvs
                (S (length (key_lines kvs ++ f) - length kvs)) [] f Hg) as Hrun.
  cbn [app length] in Hrun. change (Z.of_nat 0) with 0 in Hrun. rewrite Hrun.
  rewrite (check_warnings_word opts _ (key_lines kvs) f Hf). reflexivity.
Qed.

Lemma X19_witness :
  sir_load_from_str (lines ["a=1"] ++ list_ascii_of_string "k") SIR_OPTION_NONE = Fault /\
  sir_load_from_str (list_ascii_of_string "k") SIR_OPTION_IGNORE_EMPTY_VALUES = Fault.
Proof.
  split.
  - apply (X19_unassigned_last_line_faults SIR_OPTION_NONE
             [(list_ascii_of_string "a", list_ascii_of_string "1")]
             (list_ascii_of_string "k")); vm_compute; reflexivity.
  - apply (X19_unassigned_last_line_faults SIR_OPTION_IGNORE_EMPTY_VALUES []
             (list_ascii_of_string "k")); vm_compute; reflexivity.
Defined.

(** X20 (sir_load_from_str, key branch): the same text with warnings
    disabled and empty values kept.  The first pass sized the key arrays by
    the assignment characters, one per line when the values hold none, so
    the arrays are full when the last name arrives: the name is stored one
    slot past the end of the key array and the load faults. *)
Theorem X20_unassigned_last_line_overflows
        (opts : SirOptions) (kvs : list (list ascii * list ascii)) (f : list ascii) :
  key_fields opts kvs = true -> name_field opts f = true ->
  distinct_names opts (map (fun kv => trimmed (fst kv)) kvs ++ [trimmed f]) = true ->
  forallb (fun kv => forallb (fun c => negb (sir__is_assignment_char opts c)) (snd kv)) kvs
  = true ->
  has_option opts SIR_OPTION_DISABLE_WARNINGS = true ->
  has_option opts SIR_OPTION_IGNORE_EMPTY_VALUES = false ->
  sir_load_from_str (key_lines kvs ++ f) opts = Fault.
Proof.
  intros Hg Hf Hd Hv Hopt Hign. unfold sir_load_from_str.
  destruct (strip_and_count_word opts kvs f Hg Hf) as (a & Hstrip).
  rewrite Hstrip. cbn [bind]. rewrite Hopt. cbn [bind].
  rewrite (key_lines_assignments_exact opts kvs Hg).
  2:{ intros kv c Hkv Hc. rewrite forallb_forall in Hv. specialize (Hv kv Hkv).
      rewrite forallb_forall in Hv. specialize (Hv c Hc).
      destruct (sir__is_assignment_char opts c); [discriminate|reflexivity]. }
  unfold initial_ini. replace (Z.to_nat (1 + Z.of_nat a)) with (S a) by lia.
  replace (Z.to_nat (0 + Z.of_nat (length kvs))) with (length kvs) by lia.
  cbn [repeat]. rewrite aget_head. cbn [bind ranges]. rewrite aget_head. cbn [bind].
  rewrite aset_head. cbn [bind]. rewrite aset_head. cbn [bind]. rewrite aset_head.
  cbn [bind].
  destruct (load_loop_word opts kvs f a (length kvs) (1 + Z.of_nat a)
              (0 + Z.of_nat (length kvs))
              (if has_option opts SIR_OPTION_DISABLE_ERRORS then 0 else SIR_ERROR_STRING_SIZE)
              Hg Hf Hd (Nat.le_refl _))
    as (buf & ns & vs & str & _ & _ & _ & Hfull).
  rewrite (Hfull Hign eq_refl). reflexivity.
Qed.

Lemma X20_witness :
  sir_load_from_str (lines ["a=1"] ++ list_ascii_of_string "k")
                    SIR_OPTION_DISABLE_WARNINGS = Fault /\
  sir_load_from_str (list_ascii_of_string "k") SIR_OPTION_DISABLE_WARNINGS = Fault.
Proof.
  split.
  - apply (X20_unassigned_last_line_overflows SIR_OPTION_DISABLE_WARNINGS
             [(list_ascii_of_string "a", list_ascii_of_string "1")]
             (list_ascii_of_string "k")); vm_compute; reflexivity.
  - apply (X20_unassigned_last_line_overflows SIR_OPTION_DISABLE_WARNINGS []
             (list_ascii_of_string "k")); vm_compute; reflexivity.
Defined.

(** X21 (sir_load_from_str, key branch): the same text with warnings
    disabled and SIR_OPTION_IGNORE_EMPTY_VALUES.  The last name gets the
    empty value and is dropped: the load succeeds without error and the
    document holds exactly the keys of the lines before, each found by the
    lookup without a section. *)
Theorem X21_unassigned_last_line_ignored
        (opts : SirOptions) (kvs : list (list ascii * list ascii)) (f : list ascii) :
  key_fields opts kvs = true -> name_field opts f = true ->
  distinct_names opts (map (fun kv => trimmed (fst kv)) kvs ++ [trimmed f]) = true ->
  has_option opts SIR_OPTION_DISABLE_WARNINGS = true ->
  has_option opts SIR_OPTION_IGNORE_EMPTY_VALUES = true ->
  exists ini,
    sir_load_from_str (key_lines kvs ++ f) opts = Ok ini /\
    sir_has_error ini = false /\
    key_count ini = Z.of_nat (length kvs) /\
    map (string_at (data ini)) (key_names ini) = map (fun kv => Some (trimmed (fst kv))) kvs /\
    map (string_at (data ini)) (key_values ini) = map (fun kv => Some (trimmed (snd kv))) kvs /\
    sections ini = [mkSection [mkRange 0 (Z.of_nat (length kvs))]] /\
    forall k v, In (k, v) kvs ->
                exists p, sir_section_str ini None (Some (trimmed k)) =
                          Ok (p, sir__clear_error_str ini) /\
                          sir_has_error (sir__clear_error_str ini) = false /\
                          string_at (data ini) p = Some (trimmed v).
Proof.
  intros Hg Hf Hd Hopt Hign.
  destruct (strip_and_count_word opts kvs f Hg Hf) as (a & Hstrip).
  set (b := length (filter (sir__is_assignment_char opts) (key_lines kvs))) in *.
  assert (Hb : (length kvs <= b)%nat) by apply key_lines_assignments.
  set (esz := if has_option opts SIR_OPTION_DISABLE_ERRORS then 0 else SIR_ERROR_STRING_SIZE).
  destruct (load_loop_word opts kvs f a b (1 + Z.of_nat a) (0 + Z.of_nat b) esz Hg Hf Hd Hb)
    as (buf & ns & vs & str & Hns & Hvs & Hloop & _).
  specialize (Hloop Hign).
  assert (Hlg : length ns = length kvs) by (apply Forall2_length in Hns; exact Hns).
  assert (Hlvg : length vs = length kvs) by (apply Forall2_length in Hvs; exact Hvs).
  set (ini := mkIni buf [mkSection [mkRange 0 (Z.of_nat (length kvs))]]
                    [Literal SIR_GLOBAL_SECTION_NAME] ns vs [] (Z.of_nat 1)
                    (Z.of_nat (length ns)) opts esz 0).
  assert (Hload : sir_load_from_str (key_lines kvs ++ f) opts = Ok ini).
  { unfold sir_load_from_str. rewrite Hstrip. cbn [bind]. rewrite Hopt. cbn [bind].
    unfold initial_ini. replace (Z.to_nat (1 + Z.of_nat a)) with (S a) by lia.
    replace (Z.to_nat (0 + Z.of_nat b)) with b by lia.
    cbn [repeat]. rewrite aget_head. cbn [bind ranges]. rewrite aget_head. cbn [bind].
    rewrite aset_head. cbn [bind]. rewrite aset_head. cbn [bind]. rewrite aset_head.
    cbn [bind]. fold esz. rewrite Hloop.
    cbn [bind l_ini sections prev_index key_index section_index].
    apply (load_finish buf [] (set_start fresh_range 0) a
             [mkSection [mkRange 0 (Z.of_nat (length kvs))]]
             [Literal SIR_GLOBAL_SECTION_NAME] (repeat NullPtr a)
             ns (skipn (length kvs) (repeat NullPtr b))
             vs (skipn (length kvs) (repeat NullPtr b)) a b opts esz).
    - rewrite Hlg. reflexivity.
    - reflexivity.
    - lia.
    - cbn [length]. lia.
    - apply repeat_length.
    - rewrite length_skipn, repeat_length. lia.
    - reflexivity. }
  exists ini. split; [exact Hload|].
  split; [unfold sir_has_error; cbn [error ini]; apply andb_false_r|].
  split; [cbn [key_count ini]; rewrite Hlg; reflexivity|].
  split; [apply (Forall2_map_eq (string_at buf) (fun kv => Some (trimmed (fst kv)))); exact Hns|].
  split; [apply (Forall2_map_eq (string_at buf) (fun kv => Some (trimmed (snd kv)))); exact Hvs|].
  split; [reflexivity|].
  intros k v Hin.
  destruct (sir_load_from_str_well_formed _ _ _ Hload) as [Hwf _].
  apply (global_round_trip ini kvs k v Hwf Hns Hvs); [|exact Hin].
  clear - Hd. induction kvs as [|kv kvs IH]; [reflexivity|].
  cbn [map app distinct_names] in *. apply andb_prop in Hd. destruct Hd as [H1 H2].
  cbn [options ini] in *. rewrite (IH H2), andb_true_r. rewrite forallb_app in H1.
  apply andb_prop in H1. apply H1.
Qed.

Lemma X21_witness :
  exists ini,
    sir_load_from_str (lines ["a = 1"] ++ list_ascii_of_string "k")
                      (Z.lor SIR_OPTION_DISABLE_WARNINGS SIR_OPTION_IGNORE_EMPTY_VALUES)
    = Ok ini /\
    key_count ini = 1 /\
    exists p, sir_section_str ini None (arg "a") = Ok (p, sir__clear_error_str ini) /\
              string_at (data ini) p = Some (list_ascii_of_string "1").
Proof.
  destruct (X21_unassigned_last_line_ignored
              (Z.lor SIR_OPTION_DISABLE_WARNINGS SIR_OPTION_IGNORE_EMPTY_VALUES)
              [(list_ascii_of_string "a ", list_ascii_of_string " 1")]
              (list_ascii_of_string "k"))
    as (ini & Hload & _ & Hcount & _ & _ & _ & Hlook);
    try (vm_compute; reflexivity).
  exists ini. split; [exact Hload|]. split; [exact Hcount|].
  destruct (Hlook (list_ascii_of_string "a ") (list_ascii_of_string " 1"))
    as (p & Hp & _ & Hs); [left; reflexivity|].
  exists p. split; [exact Hp|exact Hs].
Defined.

(** ** Comments read as spaces *)

Lemma line_start_at (pre rest : list ascii) :
  (Z.of_nat (length pre) =? 0) ||
  ((0 <? Z.of_nat (length pre)) &&
   Ascii.eqb (load (pre ++ rest) (Z.of_nat (length pre) - 1)) LF) =
  Ascii.eqb (last pre LF) LF.
Proof.
  induction pre as [|a pre _] using rev_ind; [reflexivity|].
  rewrite last_last. rewrite length_app. cbn [length].
  destruct (Z.eqb_spec (Z.of_nat (length pre + 1)) 0) as [H|_]; [lia|].
  destruct (Z.ltb_spec 0 (Z.of_nat (length pre + 1))) as [_|H]; [|lia].
  cbn [orb andb]. rewrite <- app_assoc.
  replace (Z.of_nat (length pre + 1) - 1) with (Z.of_nat (length pre)) by lia.
  rewrite load_app_length. reflexivity.
Qed.

Lemma comment_char_not_LF (opts : SirOptions) : sir__is_comment_char opts LF = false.
Proof.
  unfold sir__is_comment_char.
  destruct (has_option opts SIR_OPTION_DISABLE_HASH_COMMENTS); reflexivity.
Qed.

Lemma comment_char_not_space (opts : SirOptions) : sir__is_comment_char opts " " = false.
Proof.
  unfold sir__is_comment_char.
  destruct (has_option opts SIR_OPTION_DISABLE_HASH_COMMENTS); reflexivity.
Qed.

Lemma assignment_char_not_space (opts : SirOptions) : sir__is_assignment_char opts " " = false.
Proof.
  unfold sir__is_assignment_char.
  destruct (has_option opts SIR_OPTION_DISABLE_COLON_ASSIGNMENT); reflexivity.
Qed.

Lemma assignment_char_not_LF (opts : SirOptions) : sir__is_assignment_char opts LF = false.
Proof.
  unfold sir__is_assignment_char.
  destruct (has_option opts SIR_OPTION_DISABLE_COLON_ASSIGNMENT); reflexivity.
Qed.

(** Inside a comment: the characters up to the line feed become spaces. *)
Lemma blanked_inside (opts : SirOptions) (com r : list ascii) (st : bool) :
  Forall (fun c => c <> LF /\ c <> NUL) com ->
  blanked_from opts true st (com ++ LF :: r) =
  repeat " "%char (length com) ++ LF :: blanked_from opts false true r.
Proof.
  intros H. revert st. induction H as [|c com [Hc _] _ IH]; intros st.
  - cbn [app blanked_from length repeat]. rewrite Ascii.eqb_refl. reflexivity.
  - cbn [app blanked_from length repeat].
    apply Ascii.eqb_neq in Hc. rewrite Hc. rewrite IH. reflexivity.
Qed.

Lemma comments_closed_inside (opts : SirOptions) (com r : list ascii) (st : bool) :
  Forall (fun c => c <> LF /\ c <> NUL) com ->
  comments_closed_from opts true st (com ++ r) =
  match r with
  | [] => false
  | c :: r' => if Ascii.eqb c LF then comments_closed_from opts false true r'
               else comments_closed_from opts true false r'
  end.
Proof.
  intros H. revert st. induction H as [|c com [Hc _] _ IH]; intros st.
  - cbn [app]. destruct r; reflexivity.
  - cbn [app comments_closed_from]. apply Ascii.eqb_neq in Hc. rewrite Hc. apply IH.
Qed.

Lemma filter_spaces (f : ascii -> bool) (n : nat) :
  f " "%char = false -> filter f (repeat " "%char n) = [].
Proof.
  intros H. induction n as [|n IH]; [reflexivity|]. cbn [repeat filter]. rewrite H. exact IH.
Qed.

(** The first pass on a text whose comments are closed: the buffer it
    leaves is the text with the comments replaced by spaces. *)
Lemma strip_and_count_blanked (opts : SirOptions) :
  forall (n : nat) (rest : list ascii) (fuel : nat) (pre : list ascii) (sc kc : Z),
    (length rest <= n)%nat -> (length rest < fuel)%nat -> nul_free rest ->
    comments_closed_from opts false (Ascii.eqb (last pre LF) LF) rest = true ->
    strip_and_count fuel opts (pre ++ rest) (Z.of_nat (length pre)) sc kc =
    Ok (pre ++ blanked_from opts false (Ascii.eqb (last pre LF) LF) rest,
        sc + Z.of_nat (length (filter (fun c => Ascii.eqb c SIR__SECTION_NAME_OPEN_CHAR)
                                      (blanked_from opts false (Ascii.eqb (last pre LF) LF)
                                                    rest))),
        kc + Z.of_nat (length (filter (sir__is_assignment_char opts)
                                      (blanked_from opts false (Ascii.eqb (last pre LF) LF)
                                                    rest)))).
Proof.
  induction n as [|n IH]; intros rest fuel pre sc kc Hlen Hfuel Hnf Hcl;
    (destruct fuel as [|fuel]; [lia|]); cbn [strip_and_count].
  - destruct rest; [|cbn [length] in Hlen; lia].
    destruct (Z.ltb_spec (Z.of_nat (length (pre ++ []))) (Z.of_nat (length pre))) as [Hlt|_];
      [rewrite length_app in *; cbn [length] in *; lia|].
    rewrite load_app_length. cbn [hd blanked_from filter length].
    change (is_nul NUL) with true. cbv iota. rewrite !Z.add_0_r. reflexivity.
  - destruct rest as [|c t].
    { destruct (Z.ltb_spec (Z.of_nat (length (pre ++ []))) (Z.of_nat (length pre))) as [Hlt|_];
        [rewrite length_app in *; cbn [length] in *; lia|].
      rewrite load_app_length. cbn [hd blanked_from filter length].
      change (is_nul NUL) with true. cbv iota. rewrite !Z.add_0_r. reflexivity. }
    destruct (Z.ltb_spec (Z.of_nat (length (pre ++ c :: t))) (Z.of_nat (length pre))) as [Hlt|_];
      [rewrite length_app in *; cbn [length] in *; lia|].
    rewrite load_app_length. cbn [hd].
    assert (Hcn : is_nul c = false) by (apply is_nul_false, Hnf; left; reflexivity).
    rewrite Hcn.
    assert (Hcond : sir__is_comment_char opts c &&
                    (negb (has_option opts SIR_OPTION_DISABLE_COMMENT_ANYWHERE) ||
                     has_option opts SIR_OPTION_DISABLE_COMMENT_ANYWHERE &&
                     ((Z.of_nat (length pre) =? 0) ||
                      (0 <? Z.of_nat (length pre)) &&
                      Ascii.eqb (load (pre ++ c :: t) (Z.of_nat (length pre) - 1)) LF)) =
                    sir__is_comment_char opts c &&
                    (negb (has_option opts SIR_OPTION_DISABLE_COMMENT_ANYWHERE) ||
                     Ascii.eqb (last pre LF) LF)).
    { rewrite line_start_at.
      destruct (has_option opts SIR_OPTION_DISABLE_COMMENT_ANYWHERE); reflexivity. }
    rewrite Hcond. cbn [blanked_from comments_closed_from] in *.
    destruct (sir__is_comment_char opts c &&
              (negb (has_option opts SIR_OPTION_DISABLE_COMMENT_ANYWHERE) ||
               Ascii.eqb (last pre LF) LF)) eqn:Hstart.
    + (* a comment starts *)
      apply andb_prop in Hstart. destruct Hstart as [Hcc _].
      rewrite tail_at_app_length, firstn_app_length.
      destruct (blank_comment_spec (c :: t)) as (com & rest0 & Hsplit & Hblank & Hcom & Hrest0).
      rewrite Hblank.
      destruct com as [|c' com'].
      { exfalso. cbn [app] in Hsplit. subst rest0.
        destruct Hrest0 as [H|(c1 & r1 & H & [->| ->])]; [discriminate| |].
        - injection H as -> _. rewrite comment_char_not_LF in Hcc. discriminate.
        - injection H as -> _. discriminate Hcn. }
      cbn [app] in Hsplit. injection Hsplit as <- ->.
      inversion Hcom as [|? ? _ Hcom']; subst.
      rewrite (comments_closed_inside opts com' rest0 false Hcom') in Hcl.
      destruct rest0 as [|c1 r]; [discriminate|].
      assert (c1 = LF) as ->.
      { destruct Hrest0 as [H|(c2 & r2 & H & [->| ->])]; [discriminate| |].
        - injection H as -> _. reflexivity.
        - injection H as -> _. exfalso.
          apply (Hnf NUL); [|reflexivity]. right. apply in_or_app. right. left. reflexivity. }
      rewrite Ascii.eqb_refl in Hcl.
      rewrite (blanked_inside opts com' r false Hcom').
      set (sp := repeat " "%char (length (c :: com'))).
      assert (Hsp : length sp = length (c :: com')) by apply repeat_length.
      replace (pre ++ sp ++ LF :: r) with ((pre ++ sp) ++ LF :: r) by reassoc.
      replace (Z.of_nat (length pre) + Z.of_nat (length (c :: com')))
        with (Z.of_nat (length (pre ++ sp))) by (rewrite length_app, Hsp; lia).
      rewrite load_app_length. cbn [hd].
      change (Ascii.eqb LF SIR__SECTION_NAME_OPEN_CHAR) with false. cbv iota.
      rewrite assignment_char_not_LF.
      replace ((pre ++ sp) ++ LF :: r) with ((pre ++ sp ++ [LF]) ++ r) by reassoc.
      replace (Z.of_nat (length (pre ++ sp)) + 1)
        with (Z.of_nat (length (pre ++ sp ++ [LF]))) by lengths.
      assert (Hlast : Ascii.eqb (last (pre ++ sp ++ [LF]) LF) LF = true).
      { rewrite app_assoc, last_last. reflexivity. }
      rewrite (IH r fuel (pre ++ sp ++ [LF]) sc kc).
      * rewrite Hlast.
        replace (" "%char :: repeat " "%char (length com') ++
                   LF :: blanked_from opts false true r)
          with (sp ++ LF :: blanked_from opts false true r) by reflexivity.
        rewrite !filter_app. cbn [filter]. unfold sp.
        rewrite (filter_spaces _ _ (assignment_char_not_space opts)).
        rewrite (filter_spaces (fun c0 => Ascii.eqb c0 SIR__SECTION_NAME_OPEN_CHAR) _ eq_refl).
        rewrite assignment_char_not_LF.
        change (Ascii.eqb LF SIR__SECTION_NAME_OPEN_CHAR) with false. cbn [app].
        f_equal. f_equal. f_equal. reassoc.
      * cbn [length] in Hlen. rewrite length_app in Hlen. cbn [length] in Hlen. lia.
      * cbn [length] in Hfuel. rewrite length_app in Hfuel. cbn [length] in Hfuel. lia.
      * intros x Hx. apply Hnf. right. apply in_or_app. right. right. exact Hx.
      * rewrite Hlast. exact Hcl.
    + (* an ordinary character *)
      rewrite load_app_length. cbn [hd].
      replace (pre ++ c :: t) with ((pre ++ [c]) ++ t) by reassoc.
      replace (Z.of_nat (length pre) + 1) with (Z.of_nat (length (pre ++ [c]))) by lengths.
      assert (Hlast : Ascii.eqb (last (pre ++ [c]) LF) LF = Ascii.eqb c LF)
        by (rewrite last_last; reflexivity).
      rewrite (IH t fuel (pre ++ [c])).
      * rewrite Hlast. cbn [filter].
        destruct (Ascii.eqb c SIR__SECTION_NAME_OPEN_CHAR) eqn:Eo.
        -- apply Ascii.eqb_eq in Eo. subst c.
           assert (Ha : sir__is_assignment_char opts SIR__SECTION_NAME_OPEN_CHAR = false).
           { unfold sir__is_assignment_char.
             destruct (has_option opts SIR_OPTION_DISABLE_COLON_ASSIGNMENT); reflexivity. }
           rewrite Ha. cbn [length].
           replace ((pre ++ [SIR__SECTION_NAME_OPEN_CHAR]) ++
                      blanked_from opts false
                        (Ascii.eqb SIR__SECTION_NAME_OPEN_CHAR LF) t)
             with (pre ++ SIR__SECTION_NAME_OPEN_CHAR ::
                     blanked_from opts false
                       (Ascii.eqb SIR__SECTION_NAME_OPEN_CHAR LF) t) by reassoc.
           f_equal. f_equal. f_equal. lia.
        -- replace ((pre ++ [c]) ++ blanked_from opts false (Ascii.eqb c LF) t)
             with (pre ++ c :: blanked_from opts false (Ascii.eqb c LF) t) by reassoc.
           destruct (sir__is_assignment_char opts c); cbn [length]; f_equal; f_equal; lia.
      * cbn [length] in Hlen. lia.
      * cbn [length] in Hfuel. lia.
      * intros x Hx. apply Hnf. right. exact Hx.
      * rewrite Hlast. exact Hcl.
Qed.

(** Nothing is left to blank in a blanked text. *)
Lemma blanked_again (opts : SirOptions) (s : list ascii) :
  forall i st st' : bool,
    (i = false -> st' = st) ->
    blanked_from opts false st' (blanked_from opts i st s) = blanked_from opts i st s /\
    comments_closed_from opts false st' (blanked_from opts i st s) = true.
Proof.
  induction s as [|c t IH]; intros i st st' Hst; [split; reflexivity|].
  cbn [blanked_from]. destruct i.
  - destruct (Ascii.eqb c LF) eqn:Hl.
    + apply Ascii.eqb_eq in Hl. subst c. cbn [blanked_from comments_closed_from].
      rewrite comment_char_not_LF. cbn [andb]. rewrite Ascii.eqb_refl.
      destruct (IH false true true (fun _ => eq_refl)) as [-> ->]. split; reflexivity.
    + cbn [blanked_from comments_closed_from]. rewrite comment_char_not_space. cbn [andb].
      change (Ascii.eqb " " LF) with false.
      destruct (IH true false false) as [-> ->]; [discriminate|]. split; reflexivity.
  - rewrite (Hst eq_refl).
    destruct (sir__is_comment_char opts c &&
              (negb (has_option opts SIR_OPTION_DISABLE_COMMENT_ANYWHERE) || st)) eqn:Hc.
    + cbn [blanked_from comments_closed_from]. rewrite comment_char_not_space. cbn [andb].
      change (Ascii.eqb " " LF) with false.
      destruct (IH true false false) as [-> ->]; [discriminate|]. split; reflexivity.
    + cbn [blanked_from comments_closed_from]. rewrite Hc.
      destruct (IH false (Ascii.eqb c LF) (Ascii.eqb c LF) (fun _ => eq_refl)) as [-> ->].
      split; reflexivity.
Qed.

Lemma blanked_from_length (opts : SirOptions) (s : list ascii) :
  forall i st, length (blanked_from opts i st s) = length s.
Proof.
  induction s as [|c t IH]; intros i st; [reflexivity|]. cbn [blanked_from].
  destruct i; [destruct (Ascii.eqb c LF)|
               destruct (sir__is_comment_char opts c &&
                         (negb (has_option opts SIR_OPTION_DISABLE_COMMENT_ANYWHERE) || st))];
    cbn [length]; rewrite IH; reflexivity.
Qed.

Lemma blanked_from_nul_free (opts : SirOptions) (s : list ascii) :
  nul_free s -> forall i st, nul_free (blanked_from opts i st s).
Proof.
  induction s as [|c t IH]; intros Hnf i st; [intros x []|].
  assert (Ht : nul_free t) by (intros x Hx; apply Hnf; right; exact Hx).
  assert (Hc : c <> NUL) by (apply Hnf; left; reflexivity).
  cbn [blanked_from].
  destruct i; [destruct (Ascii.eqb c LF)|
               destruct (sir__is_comment_char opts c &&
                         (negb (has_option opts SIR_OPTION_DISABLE_COMMENT_ANYWHERE) || st))];
    (intros x [<-|Hx]; [first [exact Hc|discriminate]|exact (IH Ht _ _ x Hx)]).
Qed.

(** The first pass of the loader on a text whose comments are closed. *)
Lemma strip_and_count_text (opts : SirOptions) (s : list ascii) :
  nul_free s -> comments_closed opts s = true ->
  strip_and_count (S (S (length s))) opts s 0 1 0 =
  Ok (blanked opts s,
      1 + Z.of_nat (length (filter (fun c => Ascii.eqb c SIR__SECTION_NAME_OPEN_CHAR)
                                   (blanked opts s))),
      0 + Z.of_nat (length (filter (sir__is_assignment_char opts) (blanked opts s)))).
Proof.
  intros Hnf Hcl.
  apply (strip_and_count_blanked opts (length s) s (S (S (length s))) [] 1 0);
    [lia|lia|exact Hnf|exact Hcl].
Qed.

(** X22 (sir_load_from_str, first loop): a comment reads as spaces.  On a
    text in which every comment is ended by a line feed, the loader gives
    what it gives on the text with every comment replaced by as many
    spaces, the line feed kept: the same document or the same fault.
    Comments start at a comment character anywhere, or with
    SIR_OPTION_DISABLE_COMMENT_ANYWHERE at the start of a line only. *)
Theorem X22_comments_read_as_spaces (s : list ascii) (opts : SirOptions) :
  nul_free s -> comments_closed opts s = true ->
  sir_load_from_str s opts = sir_load_from_str (blanked opts s) opts.
Proof.
  intros Hnf Hcl.
  assert (Hnf' : nul_free (blanked opts s)) by (apply blanked_from_nul_free; exact Hnf).
  destruct (blanked_again opts s false true true (fun _ => eq_refl)) as [Hagain Hcl'].
  change (blanked opts (blanked opts s) = blanked opts s) in Hagain.
  change (comments_closed opts (blanked opts s) = true) in Hcl'.
  pose proof (strip_and_count_text opts (blanked opts s) Hnf' Hcl') as Hb.
  rewrite Hagain in Hb.
  unfold sir_load_from_str.
  rewrite (strip_and_count_text opts s Hnf Hcl), Hb. reflexivity.
Qed.

Lemma X22_witness :
  sir_load_from_str (lines ["; settings"; "k = 1 # one"; "[a] ; first"; "j=2;x"])
                    SIR_OPTION_NONE =
  sir_load_from_str (lines ["          "; "k = 1      "; "[a]        "; "j=2  "])
                    SIR_OPTION_NONE /\
  sir_load_from_str (lines ["; settings"; "k = 1 # one"])
                    SIR_OPTION_DISABLE_COMMENT_ANYWHERE =
  sir_load_from_str (lines ["          "; "k = 1 # one"])
                    SIR_OPTION_DISABLE_COMMENT_ANYWHERE.
Proof.
  split.
  - apply (X22_comments_read_as_spaces
             (lines ["; settings"; "k = 1 # one"; "[a] ; first"; "j=2;x"]) SIR_OPTION_NONE).
    + intros x Hx. vm_compute in Hx. intuition (subst; discriminate).
    + vm_compute. reflexivity.
  - apply (X22_comments_read_as_spaces
             (lines ["; settings"; "k = 1 # one"]) SIR_OPTION_DISABLE_COMMENT_ANYWHERE).
    + intros x Hx. vm_compute in Hx. intuition (subst; discriminate).
    + vm_compute. reflexivity.
Defined.

(** ** Key lines with repeated names *)

Lemma scan_keys_found (opts : SirOptions) (buf : list ascii) (names : list cptr)
      (key : option (list ascii)) (d : Z) (p : cptr) :
  forall (m count j : nat),
    (forall i q, (j <= i < j + m)%nat -> nth_error names i = Some q ->
                 sir__str_equal opts (string_at buf q) key = false) ->
    nth_error names (j + m) = Some p ->
    sir__str_equal opts (string_at buf p) key = true ->
    (m < count)%nat ->
    scan_keys opts buf names key (Z.of_nat j) count d = Ok (Z.of_nat (j + m)).
Proof.
  induction m as [|m IH]; intros count j Hno Hp Heq Hc;
    (destruct count as [|count]; [lia|]); cbn [scan_keys]; rewrite aget_of_nat.
  - rewrite Nat.add_0_r in *. rewrite Hp. cbn [bind]. rewrite Heq. reflexivity.
  - destruct (nth_error names j) as [q|] eqn:Hq.
    2:{ apply nth_error_None in Hq.
        assert (nth_error names (j + S m) <> None) by (rewrite Hp; discriminate).
        apply nth_error_Some in H. lia. }
    cbn [bind]. rewrite (Hno j q) by (lia || assumption).
    replace (Z.of_nat j + 1) with (Z.of_nat (S j)) by lia.
    replace (j + S m)%nat with (S j + m)%nat in * by lia.
    apply IH; [|exact Hp|exact Heq|lia].
    intros i q' Hi Hq'. apply (Hno i q'); [lia|exact Hq'].
Qed.

(** One key line whose name is already in the open section: no key is
    added; with SIR_OPTION_OVERRIDE_DUPLICATE_KEYS the value of the line
    replaces the value of the key found. *)
Lemma load_key_line_duplicate (opts : SirOptions)
      (done w t : list ascii) (x : ascii) (ws w3 t' : list ascii) (x' : ascii)
      (w4 R : list ascii) (secs : list SirSection) (snames : list cptr)
      (nrest vrest : list cptr)
      (err : list ascii) (sc kc esz ew : Z) (r0 : SirSectionRange)
      (pi si : Z) (old c1 : list cptr) (p : cptr) (c2 vold u1 : list cptr) (q : cptr)
      (u2 : list cptr) :
  whitespace w -> nul_free t -> x <> NUL -> le_space x = false ->
  le_space (hd x (t ++ [x])) = false -> whitespace ws ->
  (forall c, In c ((t ++ [x]) ++ ws) -> sir__is_assignment_char opts c = false) ->
  whitespace w3 -> nul_free t' -> x' <> NUL -> le_space x' = false ->
  le_space (hd x' (t' ++ [x'])) = false -> whitespace w4 ->
  ~ In LF (w3 ++ (t' ++ [x']) ++ w4) ->
  (has_option opts SIR_OPTION_DISABLE_QUOTES = true \/
   ~ In DQUOTE (w3 ++ (t' ++ [x']) ++ w4)) ->
  0 <= si -> nth_error secs (Z.to_nat si) = Some (mkSection [r0]) ->
  start r0 = Z.of_nat (length old) ->
  length vold = length old -> length u1 = length c1 ->
  Forall (fun p => forall post,
              sir__str_equal opts (string_at (done ++ post) p) (Some (t ++ [x])) = false) c1 ->
  (forall post, sir__str_equal opts (string_at (done ++ post) p) (Some (t ++ [x])) = true) ->
  exists z z',
    length z = S (length ws) /\ hd NUL z = NUL /\
    length z' = S (length w4) /\ hd NUL z' = NUL /\
    load_key
      (mkLoader (mkIni (done ++ w ++ (t ++ [x]) ++ ws ++
                          SIR_KEY_ASSIGNMENT_CHAR :: w3 ++ (t' ++ [x']) ++ w4 ++ LF :: R)
                       secs snames ((old ++ c1 ++ p :: c2) ++ nrest)
                       ((vold ++ u1 ++ q :: u2) ++ vrest)
                       err sc kc opts esz ew)
                (Z.of_nat (length (done ++ w))) pi si
                (Z.of_nat (length (old ++ c1 ++ p :: c2)))) =
    Ok (Continue
          (mkLoader (mkIni (done ++ w ++ (t ++ [x]) ++ z ++ w3 ++ (t' ++ [x']) ++ z' ++ R)
                           secs snames ((old ++ c1 ++ p :: c2) ++ nrest)
                           ((vold ++ u1 ++
                               (if has_option opts SIR_OPTION_OVERRIDE_DUPLICATE_KEYS
                                then InData (Z.of_nat (length (done ++ w ++ (t ++ [x]) ++
                                                                 z ++ w3)))
                                else q) :: u2) ++ vrest)
                           err sc kc opts esz ew)
                    (Z.of_nat (length (done ++ w ++ (t ++ [x]) ++ z ++
                                         w3 ++ (t' ++ [x']) ++ z')))
                    pi si (Z.of_nat (length (old ++ c1 ++ p :: c2))))).
Proof.
  intros Hw Htn Hxn Hx Hhd Hws Hna Hw3 Htn' Hxn' Hx' Hhd' Hw4 Hlf Hq Hsi Hsec Hstart
         Hlvo Hlu Hdup Hhit.
  set (V := w3 ++ (t' ++ [x']) ++ w4 ++ LF :: R).
  destruct (nul_written ws V) as (z & Hzl & Hzh & Hz).
  destruct (nul_written w4 R) as (z' & Hzl' & Hzh' & Hz').
  exists z, z'. split; [exact Hzl|]. split; [exact Hzh|]. split; [exact Hzl'|].
  split; [exact Hzh'|].
  assert (Hnn : nul_free (t ++ [x])).
  { intros y Hy. apply in_app_or in Hy. destruct Hy as [Hy|[<-|[]]]; [apply Htn, Hy|exact Hxn]. }
  assert (Hnn' : nul_free (t' ++ [x'])).
  { intros y Hy. apply in_app_or in Hy. destruct Hy as [Hy|[<-|[]]]; [apply Htn', Hy|exact Hxn']. }
  assert (Hnf : nul_free ((t ++ [x]) ++ ws)).
  { intros y Hy. apply in_app_or in Hy. destruct Hy; [apply Hnn|apply (whitespace_nul_free ws Hws)];
      assumption. }
  assert (Hnv : nul_free (w3 ++ (t' ++ [x']) ++ w4)).
  { intros y Hy. apply in_app_or in Hy. destruct Hy as [Hy|Hy];
      [apply (whitespace_nul_free w3 Hw3), Hy|].
    apply in_app_or in Hy. destruct Hy; [apply Hnn'|apply (whitespace_nul_free w4 Hw4)];
      assumption. }
  set (ns := old ++ c1 ++ p :: c2).
  set (vs := vold ++ u1 ++ q :: u2).
  unfold load_key. cbn [l_ini l_str options data key_index prev_index section_index].
  (* the name *)
  replace (done ++ w ++ (t ++ [x]) ++ ws ++ SIR_KEY_ASSIGNMENT_CHAR :: V)
    with ((done ++ w) ++ ((t ++ [x]) ++ ws) ++ SIR_KEY_ASSIGNMENT_CHAR :: V) by reassoc.
  rewrite (sir__parse_to_assignment_char_found opts (done ++ w) ((t ++ [x]) ++ ws) V Hnf Hna).
  replace ((done ++ w) ++ ((t ++ [x]) ++ ws) ++ NUL :: V)
    with ((done ++ w) ++ [] ++ (t ++ [x]) ++ ws ++ NUL :: V) by reassoc.
  destruct (sir__trim_whitespace_app (done ++ w) [] t ws (NUL :: V) x) as [Htrim Hname];
    try assumption; [constructor|reflexivity|].
  rewrite Htrim. cbn [bind]. rewrite Hz in *.
  set (buf2 := (done ++ w) ++ [] ++ (t ++ [x]) ++ z ++ V) in *.
  (* the duplicate *)
  assert (Hfind : find_duplicate_key
                    (mkLoader (mkIni (done ++ w ++ (t ++ [x]) ++ ws ++
                                        SIR_KEY_ASSIGNMENT_CHAR :: V)
                                     secs snames (ns ++ nrest) (vs ++ vrest)
                                     err sc kc opts esz ew)
                              (Z.of_nat (length (done ++ w))) pi si (Z.of_nat (length ns)))
                    buf2 (Z.of_nat (length ((done ++ w) ++ []))) =
                  Ok (Z.of_nat (length old + length c1))).
  { unfold find_duplicate_key.
    cbn [l_ini sections section_index options key_names key_index].
    assert (aget secs si = Ok (mkSection [r0])) as ->
        by (apply aget_nth_error; split; [exact Hsi|exact Hsec]).
    cbn [bind ranges scan_ranges]. rewrite Hstart.
    replace (Z.to_nat (Z.of_nat (length ns) - Z.of_nat (length old)))
      with (length (c1 ++ p :: c2)) by (unfold ns; lengths).
    rewrite (scan_keys_found opts buf2 (ns ++ nrest) _ (-1) p (length c1));
      [reflexivity| | | |].
    - intros i q0 Hi Hq0. unfold ns in Hq0.
      rewrite <- !app_assoc in Hq0.
      rewrite nth_error_app2 in Hq0 by lia.
      rewrite nth_error_app1 in Hq0 by lia.
      apply nth_error_In in Hq0. rewrite Forall_forall in Hdup.
      cbn [string_at]. rewrite Hname.
      unfold buf2. rewrite <- app_assoc. apply Hdup. exact Hq0.
    - unfold ns. rewrite <- !app_assoc.
      rewrite nth_error_app2 by lia.
      replace (length old + length c1 - length old)%nat with (length c1) by lia.
      rewrite nth_error_app2 by lia. rewrite Nat.sub_diag. reflexivity.
    - cbn [string_at]. rewrite Hname. unfold buf2. rewrite <- app_assoc. apply Hhit.
    - rewrite length_app. cbn [length]. lia. }
  match goal with
  | |- context [find_duplicate_key ?st ?b ?k] =>
      replace (find_duplicate_key st b k) with (@Ok Z (Z.of_nat (length old + length c1)))
  end.
  cbn [bind].
  (* the value *)
  set (P := done ++ w ++ (t ++ [x]) ++ z).
  assert (Hb2 : buf2 = P ++ (w3 ++ (t' ++ [x']) ++ w4) ++ LF :: R)
    by (unfold buf2, P, V; reassoc).
  assert (HP : Z.of_nat (length (done ++ w)) + (Z.of_nat (length ((t ++ [x]) ++ ws)) + 1) =
               Z.of_nat (length P)) by (unfold P; lengths).
  assert (Hval : read_value opts buf2 (Z.of_nat (length (done ++ w)))
                            (Z.of_nat (length ((t ++ [x]) ++ ws))) =
                 Ok (P ++ w3 ++ (t' ++ [x']) ++ z' ++ R,
                     Z.of_nat (length P) + (Z.of_nat (length (w3 ++ (t' ++ [x']) ++ w4)) + 1),
                     InData (Z.of_nat (length (P ++ w3))))).
  { unfold read_value.
    destruct (Z.eqb_spec (Z.of_nat (length ((t ++ [x]) ++ ws))) (-1)) as [Hm|_]; [lia|].
    cbn [negb]. rewrite HP.
    assert (Hnq : negb (has_option opts SIR_OPTION_DISABLE_QUOTES) &&
                  quote_on_line (tail_at buf2 (Z.of_nat (length P))) = false).
    { destruct Hq as [Hq|Hq]; [rewrite Hq; reflexivity|].
      rewrite Hb2, tail_at_length by reflexivity.
      rewrite quote_on_line_none by assumption. apply andb_false_r. }
    rewrite Hnq. rewrite Hb2.
    change SIR__KEY_END_CHAR with LF.
    rewrite (sir__parse_to_char_found P (w3 ++ (t' ++ [x']) ++ w4) R LF);
      [|discriminate|exact Hnv|exact Hlf].
    replace (P ++ (w3 ++ (t' ++ [x']) ++ w4) ++ NUL :: R)
      with (P ++ w3 ++ (t' ++ [x']) ++ w4 ++ NUL :: R) by reassoc.
    destruct (sir__trim_whitespace_app P w3 t' w4 (NUL :: R) x') as [Htrim' _];
      try assumption; [reflexivity|].
    rewrite Htrim'. cbn [bind]. rewrite Hz'. reflexivity. }
  rewrite Hval. cbn [bind].
  (* applied *)
  assert (Hvalue : c_string (tail_at (P ++ w3 ++ (t' ++ [x']) ++ z' ++ R)
                                     (Z.of_nat (length (P ++ w3)))) = t' ++ [x']).
  { replace (P ++ w3 ++ (t' ++ [x']) ++ z' ++ R) with ((P ++ w3) ++ (t' ++ [x']) ++ z' ++ R)
      by reassoc.
    rewrite tail_at_length by reflexivity. apply c_string_app_end; [exact Hnn'|].
    unfold ends_string. destruct z'; [discriminate Hzl'|exact Hzh']. }
  unfold apply_value. cbn [string_at options]. rewrite Hvalue.
  destruct (hd_last_cons t' x') as (c' & r' & Hcons). rewrite Hcons.
  cbn [andb negb].
  destruct (Z.eqb_spec (Z.of_nat (length old + length c1)) (-1)) as [Hm|_]; [lia|].
  cbn [negb]. cbn [key_names key_values].
  destruct (Z.eqb_spec (Z.of_nat (length ((t ++ [x]) ++ ws))) (-1)) as [Hm|_]; [lia|].
  destruct (has_option opts SIR_OPTION_OVERRIDE_DUPLICATE_KEYS) eqn:Hover.
  - unfold vs.
    replace ((vold ++ u1 ++ q :: u2) ++ vrest) with ((vold ++ u1) ++ q :: (u2 ++ vrest))
      by reassoc.
    replace (Z.of_nat (length old + length c1)) with (Z.of_nat (length (vold ++ u1)))
      by (rewrite length_app; lia).
    rewrite aset_middle. cbn [bind].
    unfold with_key_values, with_key_names, with_data.
    cbn [data sections section_names key_names key_values error section_count key_count
         options error_size error_writes].
    f_equal. f_equal. f_equal; [f_equal|].
    + unfold P. reassoc.
    + replace (P ++ w3) with (done ++ w ++ (t ++ [x]) ++ z ++ w3) by (unfold P; reassoc).
      reassoc.
    + unfold P. lengths.
  - cbn [bind].
    unfold with_key_values, with_key_names, with_data.
    cbn [data sections section_names key_names key_values error section_count key_count
         options error_size error_writes].
    f_equal. f_equal. f_equal; [f_equal|].
    + unfold P. reassoc.
    + unfold P. lengths.
Qed.

Lemma replace_value_none (opts : SirOptions) (k v : list ascii)
      (acc : list (list ascii * list ascii)) :
  replace_value opts k v acc = None ->
  Forall (fun e => sir__str_equal opts (Some (trimmed (fst e))) (Some (trimmed k)) = false) acc.
Proof.
  induction acc as [|[k0 v0] acc IH]; intros H; [constructor|].
  cbn [replace_value] in H.
  destruct (sir__str_equal opts (Some (trimmed k0)) (Some (trimmed k))) eqn:E; [discriminate|].
  destruct (replace_value opts k v acc); [discriminate|].
  constructor; [exact E|apply IH; reflexivity].
Qed.

Lemma replace_value_some (opts : SirOptions) (k v : list ascii)
      (acc acc' : list (list ascii * list ascii)) :
  replace_value opts k v acc = Some acc' ->
  exists a1 k0 v0 a2,
    acc = a1 ++ (k0, v0) :: a2 /\
    acc' = a1 ++ (k0, if has_option opts SIR_OPTION_OVERRIDE_DUPLICATE_KEYS then v else v0)
                 :: a2 /\
    Forall (fun e => sir__str_equal opts (Some (trimmed (fst e))) (Some (trimmed k)) = false)
           a1 /\
    sir__str_equal opts (Some (trimmed k0)) (Some (trimmed k)) = true.
Proof.
  revert acc'. induction acc as [|[k0 v0] acc IH]; intros acc' H; [discriminate|].
  cbn [replace_value] in H.
  destruct (sir__str_equal opts (Some (trimmed k0)) (Some (trimmed k))) eqn:E.
  - injection H as <-. exists [], k0, v0, acc. repeat split; [constructor|exact E].
  - destruct (replace_value opts k v acc) as [r|]; [|discriminate].
    injection H as <-. destruct (IH r eq_refl) as (a1 & k1 & v1 & a2 & -> & -> & Hno & Hhit).
    exists ((k0, v0) :: a1), k1, v1, a2. repeat split; [constructor; assumption|exact Hhit].
Qed.

Lemma Forall2_cons_r {A B : Type} (P : A -> B -> Prop) (l : list A) (b : B) (l' : list B) :
  Forall2 P l (b :: l') -> exists a l0, l = a :: l0 /\ P a b /\ Forall2 P l0 l'.
Proof. intros H. inversion H; subst. eauto. Qed.

(** The parsing loop on the key lines of one section, names repeated or
    not: the keys stored are the lines as [put_key] resolves them. *)
Lemma load_loop_key_lines_resolved (opts : SirOptions) (secs : list SirSection)
      (snames : list cptr) (err : list ascii) (sc kc esz ew : Z) (r0 : SirSectionRange)
      (pi si : Z) (old vold : list cptr) (R : list ascii) :
  0 <= si -> nth_error secs (Z.to_nat si) = Some (mkSection [r0]) ->
  start r0 = Z.of_nat (length old) -> length vold = length old ->
  forall (rest : list (list ascii * list ascii)) (done : list ascii)
         (acc : list (list ascii * list ascii)) (cur vcur nrest vrest : list cptr),
    key_fields opts rest = true ->
    (length rest <= length nrest)%nat -> (length rest <= length vrest)%nat ->
    Forall2 (fun p kv => forall post,
                 string_at (done ++ post) p = Some (trimmed (fst kv))) cur acc ->
    Forall2 (fun p kv => forall post,
                 string_at (done ++ post) p = Some (trimmed (snd kv))) vcur acc ->
    exists (extra : list ascii) (cur' vcur' : list cptr),
      (forall fuel : nat,
          load_loop (length rest + fuel)
            (mkLoader (mkIni (done ++ key_lines rest ++ R) secs snames
                             ((old ++ cur) ++ nrest) ((vold ++ vcur) ++ vrest)
                             err sc kc opts esz ew)
                      (Z.of_nat (length done)) pi si (Z.of_nat (length (old ++ cur)))) =
          load_loop fuel
            (mkLoader (mkIni ((done ++ extra) ++ R) secs snames
                             ((old ++ cur') ++ skipn (length cur' - length cur) nrest)
                             ((vold ++ vcur') ++ skipn (length cur' - length cur) vrest)
                             err sc kc opts esz ew)
                      (Z.of_nat (length (done ++ extra))) pi si
                      (Z.of_nat (length (old ++ cur'))))) /\
      Forall2 (fun p kv => forall post,
                   string_at ((done ++ extra) ++ post) p = Some (trimmed (fst kv)))
              cur' (fold_left (put_key opts) rest acc) /\
      Forall2 (fun p kv => forall post,
                   string_at ((done ++ extra) ++ post) p = Some (trimmed (snd kv)))
              vcur' (fold_left (put_key opts) rest acc) /\
      (length cur <= length cur')%nat.
Proof.
  intros Hsi Hsec Hstart Hlvo.
  induction rest as [|[k v] rest IH];
    intros done acc cur vcur nrest vrest Hf Hnr Hvr Hns Hvs.
  - exists [], cur, vcur. cbn [key_lines length Nat.add fold_left app].
    rewrite Nat.sub_diag. cbn [skipn]. rewrite !app_nil_r.
    split; [intros fuel; reflexivity|]. split; [exact Hns|]. split; [exact Hvs|lia].
  - apply key_fields_cons in Hf. destruct Hf as (Hk & Hv & Hr).
    apply name_field_spec in Hk. destruct Hk as (Hkn & _ & Hka & Hkt & Hko).
    apply value_field_spec in Hv. destruct Hv as (Hvn & _ & Hvl & Hvq & Hvt).
    destruct (field_split k Hkn Hkt)
      as (w & t & x & ws & Hks & Hw & Hws & Htn & Hxn & Hx & Hhd & Htr).
    destruct (field_split v Hvn Hvt)
      as (w3 & t' & x' & w4 & Hvs' & Hw3 & Hw4 & Htn' & Hxn' & Hx' & Hhd' & Htr').
    rewrite Htr in Hko.
    set (R1 := key_lines rest ++ R).
    assert (Hna : forall c, In c ((t ++ [x]) ++ ws) -> sir__is_assignment_char opts c = false).
    { intros c Hc. apply Hka. rewrite Hks. apply in_or_app. right. exact Hc. }
    assert (Hlc : length cur = length acc) by (eapply Forall2_length; exact Hns).
    assert (Hlv : length vcur = length acc) by (eapply Forall2_length; exact Hvs).
    set (text := done ++ w ++ (t ++ [x]) ++ ws ++
                   SIR_KEY_ASSIGNMENT_CHAR :: w3 ++ (t' ++ [x']) ++ w4 ++ LF :: R1).
    assert (Hb : done ++ key_lines ((k, v) :: rest) ++ R = text)
      by (unfold text, R1; cbn [key_lines]; rewrite Hks, Hvs'; reassoc).
    rewrite Hb.
    assert (Hcons : exists c r, t ++ [x] = c :: r /\ c <> NUL /\
                                Ascii.eqb c SIR__SECTION_NAME_OPEN_CHAR = false /\
                                le_space c = false).
    { destruct t as [|c t]; [exists x, []|exists c, (t ++ [x])]; cbn [app hd] in *.
      - repeat split; assumption.
      - repeat split; try assumption. apply Htn. left. reflexivity. }
    destruct Hcons as (c & r & Hcr & Hcn & Hco & Hcs).
    assert (Hload0 : is_nul (load text (Z.of_nat (length done))) = false).
    { unfold text. rewrite load_at_length by reflexivity.
      destruct w as [|a w]; cbn [app hd].
      - rewrite Hcr. cbn [app hd]. apply is_nul_false. exact Hcn.
      - apply is_nul_false. apply (whitespace_nul_free _ Hw). left. reflexivity. }
    assert (Hskip : sir__skip_whitespace text (Z.of_nat (length done)) = Z.of_nat (length w)).
    { unfold sir__skip_whitespace, text. rewrite tail_at_length by reflexivity.
      apply skip_whitespace_app_stop; [exact Hw|].
      rewrite Hcr. cbn [app hd]. rewrite Hcs. apply andb_false_r. }
    assert (Hload1 : load text (Z.of_nat (length (done ++ w))) = c).
    { unfold text.
      replace (done ++ w ++ (t ++ [x]) ++ ws ++
                 SIR_KEY_ASSIGNMENT_CHAR :: w3 ++ (t' ++ [x']) ++ w4 ++ LF :: R1)
        with ((done ++ w) ++ (t ++ [x]) ++ ws ++
                 SIR_KEY_ASSIGNMENT_CHAR :: w3 ++ (t' ++ [x']) ++ w4 ++ LF :: R1) by reassoc.
      rewrite load_at_length by reflexivity. rewrite Hcr. reflexivity. }
    assert (Hround : forall (fuel : nat) (names values : list cptr),
               load_loop (S fuel)
                 (mkLoader (mkIni text secs snames names values err sc kc opts esz ew)
                           (Z.of_nat (length done)) pi si (Z.of_nat (length (old ++ cur)))) =
               do r <- load_key
                         (mkLoader (mkIni text secs snames names values err sc kc opts esz ew)
                                   (Z.of_nat (length (done ++ w))) pi si
                                   (Z.of_nat (length (old ++ cur))));
               match r with
               | Continue st2 => load_loop fuel st2
               | Break st2 => Ok st2
               end).
    { intros fuel names values.
      cbn [load_loop l_ini data l_str prev_index section_index key_index].
      rewrite Hload0, Hskip.
      replace (Z.of_nat (length done) + Z.of_nat (length w))
        with (Z.of_nat (length (done ++ w))) by lengths.
      rewrite Hload1, Hco.
      assert (is_nul c = false) as -> by (apply is_nul_false; exact Hcn).
      reflexivity. }
    cbn [fold_left]. unfold put_key at 2 4. cbn [fst snd].
    destruct (replace_value opts k v acc) as [acc'|] eqn:Hrep.
    + (* the name is there already *)
      destruct (replace_value_some opts k v acc acc' Hrep)
        as (a1 & k0 & v0 & a2 & Hacc & Hacc' & Hno & Hhit).
      rewrite Hacc in Hns, Hvs.
      apply Forall2_app_inv_r in Hns. destruct Hns as (c1 & cc & Hc1 & Hcc & Hcur).
      apply Forall2_cons_r in Hcc. destruct Hcc as (p & c2 & -> & Hp & Hc2).
      apply Forall2_app_inv_r in Hvs. destruct Hvs as (u1 & uu & Hu1 & Huu & Hvcur).
      apply Forall2_cons_r in Huu. destruct Huu as (q & u2 & -> & Hq & Hu2).
      cbn [fst snd] in Hp, Hq.
      assert (Hdup : Forall (fun p => forall post,
                                 sir__str_equal opts (string_at (done ++ post) p)
                                                (Some (t ++ [x])) = false) c1).
      { clear - Hc1 Hno Htr. rewrite Htr in Hno.
        induction Hc1 as [|p kv c1 a1 Hp Hc1 IHc]; [constructor|].
        inversion Hno as [|? ? H1 H2]; subst.
        constructor; [|apply IHc; exact H2]. intros post. rewrite Hp. exact H1. }
      assert (Hhit' : forall post,
                 sir__str_equal opts (string_at (done ++ post) p) (Some (t ++ [x])) = true).
      { intros post. rewrite Hp, <- Htr. exact Hhit. }
      destruct (load_key_line_duplicate opts done w t x ws w3 t' x' w4 R1 secs snames
                  nrest vrest err sc kc esz ew r0 pi si old c1 p c2 vold u1 q u2)
        as (z & z' & Hzl & Hzh & Hzl' & Hzh' & Hstep); try assumption.
      { rewrite <- Hvs'. exact Hvl. }
      { rewrite <- Hvs'. exact Hvq. }
      { apply Forall2_length in Hc1. apply Forall2_length in Hu1. lia. }
      set (extra := w ++ (t ++ [x]) ++ z ++ w3 ++ (t' ++ [x']) ++ z').
      set (vo := InData (Z.of_nat (length (done ++ w ++ (t ++ [x]) ++ z ++ w3)))) in *.
      set (q' := if has_option opts SIR_OPTION_OVERRIDE_DUPLICATE_KEYS then vo else q) in *.
      assert (Hvo : forall post, string_at ((done ++ extra) ++ post) vo = Some (trimmed v)).
      { intros post. unfold vo. cbn [string_at]. f_equal. rewrite Htr'. unfold extra.
        replace ((done ++ w ++ (t ++ [x]) ++ z ++ w3 ++ (t' ++ [x']) ++ z') ++ post)
          with ((done ++ w ++ (t ++ [x]) ++ z ++ w3) ++ (t' ++ [x']) ++ z' ++ post) by reassoc.
        rewrite tail_at_length by reflexivity. apply c_string_app_end.
        - intros y1 Hy. apply in_app_or in Hy.
          destruct Hy as [Hy|[<-|[]]]; [apply Htn', Hy|exact Hxn'].
        - unfold ends_string. destruct z'; [discriminate Hzl'|exact Hzh']. }
      assert (Hkeep : forall (f : list ascii * list ascii -> list ascii) l1 l2,
                 Forall2 (fun p kv => forall post,
                              string_at (done ++ post) p = Some (f kv)) l1 l2 ->
                 Forall2 (fun p kv => forall post,
                              string_at ((done ++ extra) ++ post) p = Some (f kv)) l1 l2).
      { intros f l1 l2 H. eapply Forall2_impl; [|exact H]. intros p0 kv H0 post.
        rewrite <- app_assoc. apply H0. }
      destruct (IH (done ++ extra) acc' cur (u1 ++ q' :: u2) nrest vrest)
        as (extra2 & cur' & vcur' & Hrun & Hn' & Hv' & Hl').
      * exact Hr.
      * cbn [length] in Hnr. lia.
      * cbn [length] in Hvr. lia.
      * rewrite Hcur, Hacc'. apply Forall2_app; [apply (Hkeep (fun kv => trimmed (fst kv))); exact Hc1|].
        constructor; [|apply (Hkeep (fun kv => trimmed (fst kv))); exact Hc2].
        intros post. cbn [fst]. rewrite <- app_assoc. apply Hp.
      * rewrite Hacc'. apply Forall2_app; [apply (Hkeep (fun kv => trimmed (snd kv))); exact Hu1|].
        constructor; [|apply (Hkeep (fun kv => trimmed (snd kv))); exact Hu2].
        intros post. cbn [snd]. unfold q'.
        destruct (has_option opts SIR_OPTION_OVERRIDE_DUPLICATE_KEYS);
          [apply Hvo|rewrite <- app_assoc; apply Hq].
      * subst cur vcur. exists (extra ++ extra2), cur', vcur'.
        split; [|split; [|split]].
        -- intros fuel. cbn [length Nat.add]. rewrite Hround.
           unfold text. rewrite Hstep. cbn [bind].
           etransitivity; [|etransitivity; [exact (Hrun fuel)|]].
           ++ f_equal. f_equal. f_equal. unfold extra, R1. reassoc.
           ++ f_equal. f_equal; [f_equal|]; first [reassoc | f_equal; f_equal; reassoc].
        -- eapply Forall2_impl; [|exact Hn']. intros p0 kv H post.
           replace ((done ++ extra ++ extra2) ++ post)
             with (((done ++ extra) ++ extra2) ++ post) by reassoc. apply H.
        -- eapply Forall2_impl; [|exact Hv']. intros p0 kv H post.
           replace ((done ++ extra ++ extra2) ++ post)
             with (((done ++ extra) ++ extra2) ++ post) by reassoc. apply H.
        -- exact Hl'.
    + (* a new name *)
      pose proof (replace_value_none opts k v acc Hrep) as Hno.
      destruct nrest as [|n0 nrest]; [cbn [length] in Hnr; lia|].
      destruct vrest as [|v0 vrest]; [cbn [length] in Hvr; lia|].
      assert (Hdup : Forall (fun p => forall post,
                                 sir__str_equal opts (string_at (done ++ post) p)
                                                (Some (t ++ [x])) = false) cur).
      { clear - Hns Hno Htr. rewrite Htr in Hno.
        induction Hns as [|p kv c1 a1 Hp Hc1 IHc]; [constructor|].
        inversion Hno as [|? ? H1 H2]; subst.
        constructor; [|apply IHc; exact H2]. intros post. rewrite Hp. exact H1. }
      destruct (load_key_line opts done w t x ws w3 t' x' w4 R1 secs snames (old ++ cur)
                              n0 nrest (vold ++ vcur) v0 vrest err sc kc esz ew r0 pi si old cur)
        as (z & z' & Hzl & Hzh & Hzl' & Hzh' & Hstep); try assumption; try reflexivity.
      { rewrite <- Hvs'. exact Hvl. }
      { rewrite <- Hvs'. exact Hvq. }
      { rewrite !length_app. lia. }
      set (extra := w ++ (t ++ [x]) ++ z ++ w3 ++ (t' ++ [x']) ++ z').
      set (no := InData (Z.of_nat (length (done ++ w)))) in *.
      set (vo := InData (Z.of_nat (length (done ++ w ++ (t ++ [x]) ++ z ++ w3)))) in *.
      assert (Hno' : forall post, string_at ((done ++ extra) ++ post) no = Some (trimmed k)).
      { intros post. unfold no. cbn [string_at]. f_equal. rewrite Htr. unfold extra.
        replace ((done ++ w ++ (t ++ [x]) ++ z ++ w3 ++ (t' ++ [x']) ++ z') ++ post)
          with ((done ++ w) ++ (t ++ [x]) ++ z ++ w3 ++ (t' ++ [x']) ++ z' ++ post) by reassoc.
        rewrite tail_at_length by reflexivity. apply c_string_app_end.
        - intros y1 Hy. apply in_app_or in Hy.
          destruct Hy as [Hy|[<-|[]]]; [apply Htn, Hy|exact Hxn].
        - unfold ends_string. destruct z; [discriminate Hzl|exact Hzh]. }
      assert (Hvo : forall post, string_at ((done ++ extra) ++ post) vo = Some (trimmed v)).
      { intros post. unfold vo. cbn [string_at]. f_equal. rewrite Htr'. unfold extra.
        replace ((done ++ w ++ (t ++ [x]) ++ z ++ w3 ++ (t' ++ [x']) ++ z') ++ post)
          with ((done ++ w ++ (t ++ [x]) ++ z ++ w3) ++ (t' ++ [x']) ++ z' ++ post) by reassoc.
        rewrite tail_at_length by reflexivity. apply c_string_app_end.
        - intros y1 Hy. apply in_app_or in Hy.
          destruct Hy as [Hy|[<-|[]]]; [apply Htn', Hy|exact Hxn'].
        - unfold ends_string. destruct z'; [discriminate Hzl'|exact Hzh']. }
      destruct (IH (done ++ extra) (acc ++ [(k, v)]) (cur ++ [no]) (vcur ++ [vo]) nrest vrest)
        as (extra2 & cur' & vcur' & Hrun & Hn' & Hv' & Hl').
      * exact Hr.
      * cbn [length] in Hnr. lia.
      * cbn [length] in Hvr. lia.
      * apply Forall2_app.
        -- eapply Forall2_impl; [|exact Hns]. intros p kv H post.
           rewrite <- app_assoc. apply H.
        -- constructor; [|constructor]. exact Hno'.
      * apply Forall2_app.
        -- eapply Forall2_impl; [|exact Hvs]. intros p kv H post.
           rewrite <- app_assoc. apply H.
        -- constructor; [|constructor]. exact Hvo.
      * rewrite length_app in Hl'. cbn [length] in Hl'.
        exists (extra ++ extra2), cur', vcur'.
        split; [|split; [|split]].
        -- intros fuel. cbn [length Nat.add]. rewrite Hround.
           unfold text. rewrite Hstep. cbn [bind].
           replace (length cur' - length cur)%nat
             with (S (length cur' - length (cur ++ [no])))
             by (rewrite length_app; cbn [length]; lia).
           cbn [skipn].
           etransitivity; [|etransitivity; [exact (Hrun fuel)|]].
           ++ f_equal. f_equal; [f_equal|];
                first [unfold extra, R1, no, vo; reassoc | unfold extra, no; lengths].
           ++ f_equal. f_equal; [f_equal|]; first [reassoc | f_equal; f_equal; reassoc].
        -- eapply Forall2_impl; [|exact Hn']. intros p0 kv H post.
           replace ((done ++ extra ++ extra2) ++ post)
             with (((done ++ extra) ++ extra2) ++ post) by reassoc. apply H.
        -- eapply Forall2_impl; [|exact Hv']. intros p0 kv H post.
           replace ((done ++ extra ++ extra2) ++ post)
             with (((done ++ extra) ++ extra2) ++ post) by reassoc. apply H.
        -- lia.
Qed.

Lemma replace_value_names (opts : SirOptions) (k v : list ascii)
      (acc acc' : list (list ascii * list ascii)) :
  replace_value opts k v acc = Some acc' ->
  map (fun kv => trimmed (fst kv)) acc' = map (fun kv => trimmed (fst kv)) acc.
Proof.
  intros H. destruct (replace_value_some opts k v acc acc' H)
    as (a1 & k0 & v0 & a2 & -> & -> & _).
  rewrite !map_app. reflexivity.
Qed.

Lemma distinct_names_snoc (opts : SirOptions) (l : list (list ascii)) (a : list ascii) :
  distinct_names opts l = true ->
  Forall (fun b => sir__str_equal opts (Some b) (Some a) = false) l ->
  distinct_names opts (l ++ [a]) = true.
Proof.
  induction l as [|b l IH]; intros Hd Hno; [reflexivity|].
  cbn [app distinct_names] in *. apply andb_prop in Hd. destruct Hd as [Hb Hl].
  inversion Hno as [|? ? H1 H2]; subst.
  rewrite forallb_app, Hb, (IH Hl H2). cbn [forallb]. rewrite H1. reflexivity.
Qed.

(** The names [put_key] leaves are pairwise different. *)
Lemma resolved_distinct (opts : SirOptions) (rest : list (list ascii * list ascii)) :
  forall acc,
    distinct_names opts (map (fun kv => trimmed (fst kv)) acc) = true ->
    distinct_names opts (map (fun kv => trimmed (fst kv)) (fold_left (put_key opts) rest acc))
    = true.
Proof.
  induction rest as [|[k v] rest IH]; intros acc Hd; [exact Hd|].
  cbn [fold_left]. apply IH. unfold put_key. cbn [fst snd].
  destruct (replace_value opts k v acc) as [acc'|] eqn:Hrep.
  - rewrite (replace_value_names opts k v acc acc' Hrep). exact Hd.
  - rewrite map_app. cbn [map fst]. apply distinct_names_snoc; [exact Hd|].
    apply replace_value_none in Hrep. rewrite Forall_map. exact Hrep.
Qed.

Lemma resolved_length (opts : SirOptions) (rest : list (list ascii * list ascii)) :
  forall acc, (length (fold_left (put_key opts) rest acc) <= length acc + length rest)%nat.
Proof.
  induction rest as [|[k v] rest IH]; intros acc; [cbn [fold_left length]; lia|].
  cbn [fold_left length]. specialize (IH (put_key opts acc (k, v))).
  assert (length (put_key opts acc (k, v)) <= S (length acc))%nat; [|lia].
  unfold put_key. cbn [fst snd].
  destruct (replace_value opts k v acc) as [acc'|] eqn:Hrep.
  - apply replace_value_names in Hrep. apply (f_equal (@length _)) in Hrep.
    rewrite !length_map in Hrep. lia.
  - rewrite length_app. cbn [length]. lia.
Qed.

(** X23 (sir_load_from_str, key branch): repeated names in the global
    section.  A text of key lines, names repeated or not, loads into the
    keys that remain when every line whose name equals (under the
    comparison of the options) the name of an earlier line is taken out:
    the earlier key keeps its place and its value, or with
    SIR_OPTION_OVERRIDE_DUPLICATE_KEYS takes the value of the later line.
    The key count is the number of names that differ, and the lookup
    without a section returns for each name the value so resolved. *)
Theorem X23_repeated_names_resolved
        (opts : SirOptions) (kvs : list (list ascii * list ascii)) (w : list ascii) :
  key_fields opts kvs = true ->
  whitespace w -> w = [] \/ has_option opts SIR_OPTION_DISABLE_WARNINGS = true ->
  exists ini,
    sir_load_from_str (key_lines kvs ++ w) opts = Ok ini /\
    sir_has_error ini = false /\
    key_count ini = Z.of_nat (length (resolved_keys opts kvs)) /\
    map (string_at (data ini)) (key_names ini) =
    map (fun kv => Some (trimmed (fst kv))) (resolved_keys opts kvs) /\
    map (string_at (data ini)) (key_values ini) =
    map (fun kv => Some (trimmed (snd kv))) (resolved_keys opts kvs) /\
    sections ini = [mkSection [mkRange 0 (Z.of_nat (length (resolved_keys opts kvs)))]] /\
    forall k v, In (k, v) (resolved_keys opts kvs) ->
                exists p, sir_section_str ini None (Some (trimmed k)) =
                          Ok (p, sir__clear_error_str ini) /\
                          sir_has_error (sir__clear_error_str ini) = false /\
                          string_at (data ini) p = Some (trimmed v).
Proof.
  intros Hg Hw Hwarnings.
  set (esz := if has_option opts SIR_OPTION_DISABLE_ERRORS then 0 else SIR_ERROR_STRING_SIZE).
  assert (Htext : key_lines kvs ++ w = ini_text kvs [] ++ w)
    by (unfold ini_text; cbn [flat_map]; rewrite app_nil_r; reflexivity).
  destruct (strip_and_count_ini_text opts kvs [] w Hg eq_refl Hw) as (a & b & _ & Hb & Hstrip).
  cbn [flat_map] in Hb. rewrite app_nil_r in Hb. rewrite <- Htext in Hstrip.
  pose proof (check_warnings_ini_text opts kvs [] w Hg eq_refl Hw) as Hcheck.
  rewrite <- Htext in Hcheck.
  set (secs0 := mkSection [set_start fresh_range 0] :: repeat (mkSection [fresh_range]) a).
  set (snames0 := Literal SIR_GLOBAL_SECTION_NAME :: repeat NullPtr a).
  destruct (load_loop_key_lines_resolved opts secs0 snames0 [] (1 + Z.of_nat a)
              (0 + Z.of_nat b) esz 0 (set_start fresh_range 0) 0 0 [] [] w
              (Z.le_refl 0) eq_refl eq_refl eq_refl
              kvs [] [] [] [] (repeat NullPtr b) (repeat NullPtr b))
    as (extra & ns & vs & Hrun & Hns & Hvs & _).
  { exact Hg. }
  { rewrite repeat_length. exact Hb. }
  { rewrite repeat_length. exact Hb. }
  { constructor. }
  { constructor. }
  cbn [app length] in Hrun, Hns, Hvs. change (Z.of_nat 0) with 0 in Hrun.
  rewrite Nat.sub_0_r in Hrun.
  fold (resolved_keys opts kvs) in Hns, Hvs.
  assert (Hln : length ns = length (resolved_keys opts kvs))
    by (apply Forall2_length in Hns; exact Hns).
  assert (Hlv : length vs = length (resolved_keys opts kvs))
    by (apply Forall2_length in Hvs; exact Hvs).
  assert (Hle : (length ns <= b)%nat).
  { rewrite Hln. pose proof (resolved_length opts kvs []) as H. cbn [length] in H.
    unfold resolved_keys. lia. }
  set (ini := mkIni (extra ++ w) [mkSection [mkRange 0 (Z.of_nat (length ns))]]
                    [Literal SIR_GLOBAL_SECTION_NAME] ns vs [] (Z.of_nat 1)
                    (Z.of_nat (length ns)) opts esz 0).
  assert (Hload : sir_load_from_str (key_lines kvs ++ w) opts = Ok ini).
  { unfold sir_load_from_str. rewrite Hstrip. cbn [bind].
    assert (Hwarn : (if has_option opts SIR_OPTION_DISABLE_WARNINGS then Ok tt
                     else check_warnings (S (length (key_lines kvs ++ w))) opts
                                         (key_lines kvs ++ w) 0) = Ok tt).
    { destruct (has_option opts SIR_OPTION_DISABLE_WARNINGS) eqn:Hopt; [reflexivity|].
      destruct Hwarnings as [->|Hdis]; [|discriminate]. exact Hcheck. }
    rewrite Hwarn. cbn [bind].
    unfold initial_ini. replace (Z.to_nat (1 + Z.of_nat a)) with (S a) by lia.
    replace (Z.to_nat (0 + Z.of_nat b)) with b by lia.
    cbn [repeat]. rewrite aget_head. cbn [bind ranges]. rewrite aget_head. cbn [bind].
    rewrite aset_head. cbn [bind]. rewrite aset_head. cbn [bind]. rewrite aset_head.
    cbn [bind]. fold esz. fold secs0. fold snames0.
    pose proof (key_lines_length kvs) as Hkl.
    replace (S (length (key_lines kvs ++ w)))
      with (length kvs + (S (length (key_lines kvs ++ w)) - length kvs))%nat
      by (rewrite length_app; lia).
    rewrite Hrun.
    rewrite load_loop_end; [|exact Hw|rewrite length_app; lia].
    cbn [bind l_ini sections prev_index key_index section_index].
    apply (load_finish (extra ++ w) [] (set_start fresh_range 0) a
             [mkSection [mkRange 0 (Z.of_nat (length ns))]]
             [Literal SIR_GLOBAL_SECTION_NAME] (repeat NullPtr a)
             ns (skipn (length ns) (repeat NullPtr b))
             vs (skipn (length ns) (repeat NullPtr b)) a b opts esz).
    - reflexivity.
    - reflexivity.
    - lia.
    - cbn [length]. lia.
    - apply repeat_length.
    - rewrite length_skipn, repeat_length. lia.
    - reflexivity. }
  assert (Hns' : Forall2 (fun p kv => string_at (extra ++ w) p = Some (trimmed (fst kv)))
                         ns (resolved_keys opts kvs)).
  { eapply Forall2_impl; [|exact Hns]. intros p kv H. apply H. }
  assert (Hvs' : Forall2 (fun p kv => string_at (extra ++ w) p = Some (trimmed (snd kv)))
                         vs (resolved_keys opts kvs)).
  { eapply Forall2_impl; [|exact Hvs]. intros p kv H. apply H. }
  exists ini. split; [exact Hload|].
  split; [unfold sir_has_error; cbn [error ini]; apply andb_false_r|].
  split; [cbn [key_count ini]; rewrite Hln; reflexivity|].
  split; [apply (Forall2_map_eq (string_at (extra ++ w))
                                (fun kv => Some (trimmed (fst kv)))); exact Hns'|].
  split; [apply (Forall2_map_eq (string_at (extra ++ w))
                                (fun kv => Some (trimmed (snd kv)))); exact Hvs'|].
  split; [cbn [sections ini]; rewrite Hln; reflexivity|].
  intros k v Hin.
  destruct (sir_load_from_str_well_formed _ _ _ Hload) as [Hwf _].
  apply (global_round_trip ini (resolved_keys opts kvs) k v Hwf Hns' Hvs'); [|exact Hin].
  apply (resolved_distinct opts kvs []). reflexivity.
Qed.

Lemma X23_witness :
  (exists ini,
      sir_load_from_str (lines ["key=foo"; "other = 1"; "key = bar"]) SIR_OPTION_NONE
      = Ok ini /\
      key_count ini = 2 /\
      exists p, sir_section_str ini None (arg "key") = Ok (p, sir__clear_error_str ini) /\
                string_at (data ini) p = Some (list_ascii_of_string "foo")) /\
  (exists ini,
      sir_load_from_str (lines ["key=foo"; "other = 1"; "key = bar"])
                        SIR_OPTION_OVERRIDE_DUPLICATE_KEYS = Ok ini /\
      key_count ini = 2 /\
      exists p, sir_section_str ini None (arg "key") = Ok (p, sir__clear_error_str ini) /\
                string_at (data ini) p = Some (list_ascii_of_string "bar")).
Proof.
  split.
  - destruct (X23_repeated_names_resolved SIR_OPTION_NONE
                [(list_ascii_of_string "key", list_ascii_of_string "foo");
                 (list_ascii_of_string "other ", list_ascii_of_string " 1");
                 (list_ascii_of_string "key ", list_ascii_of_string " bar")] [])
      as (ini & Hload & _ & Hcount & _ & _ & _ & Hlook);
      [vm_compute; reflexivity|constructor|left; reflexivity|].
    exists ini. split; [exact Hload|]. split; [exact Hcount|].
    destruct (Hlook (list_ascii_of_string "key") (list_ascii_of_string "foo"))
      as (p & Hp & _ & Hs); [left; reflexivity|].
    exists p. split; [exact Hp|exact Hs].
  - destruct (X23_repeated_names_resolved SIR_OPTION_OVERRIDE_DUPLICATE_KEYS
                [(list_ascii_of_string "key", list_ascii_of_string "foo");
                 (list_ascii_of_string "other ", list_ascii_of_string " 1");
                 (list_ascii_of_string "key ", list_ascii_of_string " bar")] [])
      as (ini & Hload & _ & Hcount & _ & _ & _ & Hlook);
      [vm_compute; reflexivity|constructor|left; reflexivity|].
    exists ini. split; [exact Hload|]. split; [exact Hcount|].
    destruct (Hlook (list_ascii_of_string "key") (list_ascii_of_string " bar"))
      as (p & Hp & _ & Hs); [left; reflexivity|].
    exists p. split; [exact Hp|exact Hs].
Defined.

(** ** Quoted values *)

Lemma quote_on_line_found (pad rest : list ascii) :
  nul_free pad -> ~ In LF pad -> quote_on_line (pad ++ DQUOTE :: rest) = true.
Proof.
  intros Hn Hl. induction pad as [|c pad IH]; cbn [app quote_on_line]; [reflexivity|].
  assert (is_nul c = false) as -> by (apply is_nul_false, Hn; left; reflexivity).
  assert (Ascii.eqb c SIR__KEY_END_CHAR = false) as ->.
  { apply Ascii.eqb_neq. intros ->. apply Hl. left. reflexivity. }
  cbn [negb andb]. destruct (Ascii.eqb c DQUOTE); [reflexivity|].
  apply IH; [intros y Hy; apply Hn; right; exact Hy|intros Hy; apply Hl; right; exact Hy].
Qed.

(** One key line with a quoted value and a name that is not yet in the
    open section: the value stored is what stands between the quotes, and
    the reader goes on behind the closing quote. *)
Lemma load_key_line_quoted (opts : SirOptions)
      (done w t : list ascii) (x : ascii) (ws pad q R : list ascii)
      (secs : list SirSection) (snames : list cptr)
      (ns : list cptr) (n0 : cptr) (nrest : list cptr)
      (vs : list cptr) (v0 : cptr) (vrest : list cptr)
      (err : list ascii) (sc kc esz ew : Z) (r0 : SirSectionRange)
      (pi si : Z) (old cur : list cptr) :
  whitespace w -> nul_free t -> x <> NUL -> le_space x = false ->
  le_space (hd x (t ++ [x])) = false -> whitespace ws ->
  (forall c, In c ((t ++ [x]) ++ ws) -> sir__is_assignment_char opts c = false) ->
  has_option opts SIR_OPTION_DISABLE_QUOTES = false ->
  nul_free pad -> ~ In LF pad -> ~ In DQUOTE pad ->
  nul_free q -> ~ In DQUOTE q ->
  (q = [] -> has_option opts SIR_OPTION_IGNORE_EMPTY_VALUES = false) ->
  0 <= si -> nth_error secs (Z.to_nat si) = Some (mkSection [r0]) ->
  ns = old ++ cur -> start r0 = Z.of_nat (length old) ->
  length vs = length ns ->
  Forall (fun p => forall post,
              sir__str_equal opts (string_at (done ++ post) p) (Some (t ++ [x])) = false) cur ->
  exists z,
    length z = S (length ws) /\ hd NUL z = NUL /\
    load_key
      (mkLoader (mkIni (done ++ w ++ (t ++ [x]) ++ ws ++
                          SIR_KEY_ASSIGNMENT_CHAR :: pad ++ DQUOTE :: q ++ DQUOTE :: R)
                       secs snames (ns ++ n0 :: nrest) (vs ++ v0 :: vrest)
                       err sc kc opts esz ew)
                (Z.of_nat (length (done ++ w))) pi si (Z.of_nat (length ns))) =
    Ok (Continue
          (mkLoader (mkIni (done ++ w ++ (t ++ [x]) ++ z ++ pad ++ DQUOTE :: q ++ NUL :: R)
                           secs snames
                           (ns ++ InData (Z.of_nat (length (done ++ w))) :: nrest)
                           (vs ++ InData (Z.of_nat (length (done ++ w ++ (t ++ [x]) ++ z ++
                                                              pad ++ [DQUOTE])))
                               :: vrest)
                           err sc kc opts esz ew)
                    (Z.of_nat (length (done ++ w ++ (t ++ [x]) ++ z ++
                                         pad ++ DQUOTE :: q ++ [NUL])))
                    pi si (Z.of_nat (length ns) + 1))).
Proof.
  intros Hw Htn Hxn Hx Hhd Hws Hna Hquotes Hpn Hpl Hpq Hqn Hqq Hqe Hsi Hsec Hns Hstart Hlen
         Hdup.
  set (V := pad ++ DQUOTE :: q ++ DQUOTE :: R).
  destruct (nul_written ws V) as (z & Hzl & Hzh & Hz).
  exists z. split; [exact Hzl|]. split; [exact Hzh|].
  assert (Hnn : nul_free (t ++ [x])).
  { intros y Hy. apply in_app_or in Hy. destruct Hy as [Hy|[<-|[]]]; [apply Htn, Hy|exact Hxn]. }
  assert (Hnf : nul_free ((t ++ [x]) ++ ws)).
  { intros y Hy. apply in_app_or in Hy. destruct Hy; [apply Hnn|apply (whitespace_nul_free ws Hws)];
      assumption. }
  unfold load_key. cbn [l_ini l_str options data key_index prev_index section_index].
  (* the name *)
  replace (done ++ w ++ (t ++ [x]) ++ ws ++ SIR_KEY_ASSIGNMENT_CHAR :: V)
    with ((done ++ w) ++ ((t ++ [x]) ++ ws) ++ SIR_KEY_ASSIGNMENT_CHAR :: V) by reassoc.
  rewrite (sir__parse_to_assignment_char_found opts (done ++ w) ((t ++ [x]) ++ ws) V Hnf Hna).
  replace ((done ++ w) ++ ((t ++ [x]) ++ ws) ++ NUL :: V)
    with ((done ++ w) ++ [] ++ (t ++ [x]) ++ ws ++ NUL :: V) by reassoc.
  destruct (sir__trim_whitespace_app (done ++ w) [] t ws (NUL :: V) x) as [Htrim Hname];
    try assumption; [constructor|reflexivity|].
  rewrite Htrim. cbn [bind]. rewrite Hz in *.
  set (buf2 := (done ++ w) ++ [] ++ (t ++ [x]) ++ z ++ V) in *.
  (* no duplicate *)
  assert (Hfind : find_duplicate_key
                    (mkLoader (mkIni (done ++ w ++ (t ++ [x]) ++ ws ++
                                        SIR_KEY_ASSIGNMENT_CHAR :: V)
                                     secs snames (ns ++ n0 :: nrest) (vs ++ v0 :: vrest)
                                     err sc kc opts esz ew)
                              (Z.of_nat (length (done ++ w))) pi si (Z.of_nat (length ns)))
                    buf2 (Z.of_nat (length ((done ++ w) ++ []))) = Ok (-1)).
  { unfold find_duplicate_key.
    cbn [l_ini sections section_index options key_names key_index].
    assert (aget secs si = Ok (mkSection [r0])) as ->
        by (apply aget_nth_error; split; [exact Hsi|exact Hsec]).
    cbn [bind ranges scan_ranges]. rewrite Hstart.
    replace (Z.to_nat (Z.of_nat (length ns) - Z.of_nat (length old))) with (length cur)
      by (rewrite Hns; lengths).
    rewrite scan_keys_none; [reflexivity| |rewrite Hns; lengths].
    intros i p Hi Hp. rewrite nth_error_app1 in Hp by (rewrite Hns; lengths).
    rewrite Hns, nth_error_app2 in Hp by lia.
    apply nth_error_In in Hp. rewrite Forall_forall in Hdup.
    cbn [string_at]. rewrite Hname.
    unfold buf2. rewrite <- app_assoc. apply Hdup. exact Hp. }
  match goal with
  | |- context [find_duplicate_key ?st ?b ?k] =>
      replace (find_duplicate_key st b k) with (@Ok Z (-1))
  end.
  cbn [bind].
  (* the value *)
  set (P := done ++ w ++ (t ++ [x]) ++ z).
  assert (Hb2 : buf2 = P ++ pad ++ DQUOTE :: q ++ DQUOTE :: R)
    by (unfold buf2, P, V; reassoc).
  assert (HP : Z.of_nat (length (done ++ w)) + (Z.of_nat (length ((t ++ [x]) ++ ws)) + 1) =
               Z.of_nat (length P)) by (unfold P; lengths).
  assert (Hval : read_value opts buf2 (Z.of_nat (length (done ++ w)))
                            (Z.of_nat (length ((t ++ [x]) ++ ws))) =
                 Ok ((P ++ pad ++ [DQUOTE]) ++ q ++ NUL :: R,
                     Z.of_nat (length (P ++ pad ++ [DQUOTE])) + (Z.of_nat (length q) + 1),
                     InData (Z.of_nat (length (P ++ pad ++ [DQUOTE]))))).
  { unfold read_value.
    destruct (Z.eqb_spec (Z.of_nat (length ((t ++ [x]) ++ ws))) (-1)) as [Hm|_]; [lia|].
    cbn [negb]. rewrite HP. rewrite Hquotes. cbn [negb andb].
    rewrite Hb2. rewrite tail_at_length by reflexivity.
    rewrite (quote_on_line_found pad _ Hpn Hpl).
    unfold sir__skip_to_char. rewrite tail_at_length by reflexivity.
    rewrite (skip_to_char_app_stop pad _ DQUOTE Hpn Hpq)
      by (cbn [hd]; rewrite Ascii.eqb_refl; apply orb_true_r).
    replace (Z.of_nat (length P) + (Z.of_nat (length pad) + 1))
      with (Z.of_nat (length (P ++ pad ++ [DQUOTE]))) by lengths.
    replace (P ++ pad ++ DQUOTE :: q ++ DQUOTE :: R)
      with ((P ++ pad ++ [DQUOTE]) ++ q ++ DQUOTE :: R) by reassoc.
    rewrite (sir__parse_to_char_found (P ++ pad ++ [DQUOTE]) q R DQUOTE);
      [reflexivity|discriminate|exact Hqn|exact Hqq]. }
  rewrite Hval. cbn [bind].
  (* stored *)
  assert (Hvalue : c_string (tail_at ((P ++ pad ++ [DQUOTE]) ++ q ++ NUL :: R)
                                     (Z.of_nat (length (P ++ pad ++ [DQUOTE])))) = q).
  { rewrite tail_at_length by reflexivity. apply c_string_app_end; [exact Hqn|reflexivity]. }
  unfold apply_value. cbn [string_at options]. rewrite Hvalue.
  match goal with
  | |- context [negb (?e && has_option opts SIR_OPTION_IGNORE_EMPTY_VALUES)] =>
      replace (negb (e && has_option opts SIR_OPTION_IGNORE_EMPTY_VALUES)) with true
        by (destruct q; [rewrite (Hqe eq_refl)|]; reflexivity)
  end.
  change (-1 =? -1) with true. cbn [negb].
  cbn [key_names key_values].
  rewrite aset_middle. cbn [bind]. rewrite <- Hlen, aset_middle. cbn [bind].
  destruct (Z.eqb_spec (Z.of_nat (length ((t ++ [x]) ++ ws))) (-1)) as [Hm|_]; [lia|].
  unfold with_key_values, with_key_names, with_data.
  cbn [data sections section_names key_names key_values error section_count key_count
       options error_size error_writes].
  rewrite Hlen.
  replace (Z.of_nat (length ((done ++ w) ++ []))) with (Z.of_nat (length (done ++ w)))
    by lengths.
  f_equal. f_equal. f_equal; [f_equal|].
  - unfold P. reassoc.
  - f_equal. f_equal. f_equal. unfold P. lengths.
  - unfold P. lengths.
Qed.

Lemma quoted_field_spec (opts : SirOptions) (pad q tail : list ascii) :
  source_field opts (Quoted pad q tail) = true ->
  has_option opts SIR_OPTION_DISABLE_QUOTES = false /\
  raw_value opts (pad ++ q ++ tail) = true /\
  ~ In DQUOTE pad /\ ~ In DQUOTE q /\ whitespace tail /\
  (q = [] -> has_option opts SIR_OPTION_IGNORE_EMPTY_VALUES = false).
Proof.
  cbn [source_field]. intros H.
  apply andb_prop in H. destruct H as [H He].
  apply andb_prop in H. destruct H as [H Ht].
  apply andb_prop in H. destruct H as [H Hq].
  apply andb_prop in H. destruct H as [Hopt Hraw].
  split; [destruct (has_option opts SIR_OPTION_DISABLE_QUOTES); [discriminate|reflexivity]|].
  split; [exact Hraw|].
  rewrite forallb_forall in Hq.
  assert (Hnq : forall c, In c (pad ++ q) -> c <> DQUOTE).
  { intros c Hc ->. specialize (Hq _ Hc). discriminate. }
  split; [intros Hin; apply (Hnq DQUOTE); [apply in_or_app; left; exact Hin|reflexivity]|].
  split; [intros Hin; apply (Hnq DQUOTE); [apply in_or_app; right; exact Hin|reflexivity]|].
  split.
  - apply raw_value_spec in Hraw. destruct Hraw as (Hn & _).
    rewrite forallb_forall in Ht. apply Forall_forall. intros c Hc. split.
    + apply is_nul_false, Hn. apply in_or_app. right. apply in_or_app. right. exact Hc.
    + apply Ht. exact Hc.
  - intros ->. destruct (has_option opts SIR_OPTION_IGNORE_EMPTY_VALUES);
      [discriminate|reflexivity].
Qed.

Lemma source_fields_cons (opts : SirOptions) (k : list ascii) (s : value_source)
      (rest : list (list ascii * value_source)) :
  source_fields opts ((k, s) :: rest) = true ->
  name_field opts k = true /\ source_field opts s = true /\ source_fields opts rest = true.
Proof.
  unfold source_fields. cbn [forallb fst snd]. intros H.
  apply andb_prop in H. destruct H as [H Hr]. apply andb_prop in H. destruct H as [Hk Hv].
  auto.
Qed.

Lemma source_field_raw (opts : SirOptions) (s : value_source) :
  source_field opts s = true -> raw_value opts (value_text s) = true.
Proof.
  destruct s as [v|pad q tail]; intros H; [apply value_field_raw; exact H|].
  apply quoted_field_spec in H. destruct H as (_ & Hraw & _).
  unfold raw_value in *. cbn [value_text].
  assert (Hdq : negb (is_nul DQUOTE) && negb (sir__is_comment_char opts DQUOTE) &&
                negb (Ascii.eqb DQUOTE LF) = true).
  { unfold sir__is_comment_char.
    destruct (has_option opts SIR_OPTION_DISABLE_HASH_COMMENTS); reflexivity. }
  rewrite !forallb_app in Hraw. apply andb_prop in Hraw. destruct Hraw as [Hp Hr].
  apply andb_prop in Hr. destruct Hr as [Hq Ht].
  rewrite forallb_app. cbn [forallb]. rewrite forallb_app. cbn [forallb].
  rewrite Hp, Hq, Ht, Hdq. reflexivity.
Qed.

Lemma source_fields_lines (opts : SirOptions) (kss : list (list ascii * value_source)) :
  source_fields opts kss = true ->
  line_fields opts (map (fun ks => (fst ks, value_text (snd ks))) kss) = true.
Proof.
  induction kss as [|[k s] rest IH]; intros H; [reflexivity|].
  apply source_fields_cons in H. destruct H as (Hk & Hs & Hr).
  cbn [map fst snd]. unfold line_fields. cbn [forallb fst snd].
  rewrite Hk, (source_field_raw opts s Hs). apply (IH Hr).
Qed.

Lemma source_lines_cons (k : list ascii) (s : value_source)
      (rest : list (list ascii * value_source)) :
  length (source_lines ((k, s) :: rest)) =
  (length k + 1 + length (value_text s) + 1 + length (source_lines rest))%nat.
Proof. unfold source_lines. cbn [map key_lines fst snd]. lengths. Qed.

(** The parsing loop on key lines with plain and quoted values.  [ws0] is
    the whitespace the reader has not yet passed: what follows the closing
    quote of the line before. *)
Lemma load_loop_source_lines (opts : SirOptions) (secs : list SirSection)
      (snames : list cptr) (err : list ascii) (sc kc esz ew : Z) (r0 : SirSectionRange)
      (pi si : Z) (old : list cptr) (R : list ascii) :
  0 <= si -> nth_error secs (Z.to_nat si) = Some (mkSection [r0]) ->
  start r0 = Z.of_nat (length old) ->
  forall (rest : list (list ascii * value_source)) (done ws0 : list ascii)
         (prev : list (list ascii * value_source)) (cur vs nrest vrest : list cptr),
    source_fields opts rest = true -> whitespace ws0 ->
    (length rest <= length nrest)%nat -> (length rest <= length vrest)%nat ->
    length vs = length (old ++ cur) ->
    Forall2 (fun p ks => forall post,
                 string_at (done ++ post) p = Some (trimmed (fst ks))) cur prev ->
    distinct_names opts (map (fun ks => trimmed (fst ks)) (prev ++ rest)) = true ->
    exists (extra ws1 : list ascii) (newn newv : list cptr),
      whitespace ws1 /\
      (forall fuel : nat,
          load_loop (length rest + fuel)
            (mkLoader (mkIni (done ++ ws0 ++ source_lines rest ++ R) secs snames
                             ((old ++ cur) ++ nrest) (vs ++ vrest) err sc kc opts esz ew)
                      (Z.of_nat (length done)) pi si (Z.of_nat (length (old ++ cur)))) =
          load_loop fuel
            (mkLoader (mkIni ((done ++ extra) ++ ws1 ++ R) secs snames
                             ((old ++ cur ++ newn) ++ skipn (length rest) nrest)
                             ((vs ++ newv) ++ skipn (length rest) vrest)
                             err sc kc opts esz ew)
                      (Z.of_nat (length (done ++ extra))) pi si
                      (Z.of_nat (length (old ++ cur ++ newn))))) /\
      Forall2 (fun p ks => forall post,
                   string_at ((done ++ extra) ++ post) p = Some (trimmed (fst ks))) newn rest /\
      Forall2 (fun p ks => forall post,
                   string_at ((done ++ extra) ++ post) p = Some (value_read (snd ks)))
              newv rest /\
      (length rest + length ws1 <= length ws0 + length (source_lines rest))%nat.
Proof.
  intros Hsi Hsec Hstart.
  induction rest as [|[k s] rest IH];
    intros done ws0 prev cur vs nrest vrest Hf Hws0 Hnr Hvr Hlen Hns Hd.
  - exists [], ws0, [], []. unfold source_lines. cbn [map key_lines length Nat.add skipn app].
    rewrite !app_nil_r. split; [exact Hws0|].
    split; [intros fuel; reflexivity|]. split; [constructor|]. split; [constructor|].
    cbn [length]. lia.
  - apply source_fields_cons in Hf. destruct Hf as (Hk & Hs & Hr).
    apply name_field_spec in Hk. destruct Hk as (Hkn & _ & Hka & Hkt & Hko).
    destruct (field_split k Hkn Hkt)
      as (w & t & x & ws & Hks & Hw & Hws & Htn & Hxn & Hx & Hhd & Htr).
    rewrite Htr in Hko.
    destruct nrest as [|n0 nrest]; [cbn [length] in Hnr; lia|].
    destruct vrest as [|v0 vrest]; [cbn [length] in Hvr; lia|].
    set (R1 := source_lines rest ++ R).
    set (W := ws0 ++ w).
    assert (HW : whitespace W) by (apply Forall_app; split; assumption).
    assert (Hna : forall c, In c ((t ++ [x]) ++ ws) -> sir__is_assignment_char opts c = false).
    { intros c Hc. apply Hka. rewrite Hks. apply in_or_app. right. exact Hc. }
    assert (Hdup : Forall (fun p => forall post,
                               sir__str_equal opts (string_at (done ++ post) p)
                                              (Some (t ++ [x])) = false) cur).
    { rewrite map_app in Hd. cbn [map fst] in Hd.
      apply distinct_names_earlier in Hd. rewrite Htr in Hd.
      clear - Hns Hd. induction Hns as [|p kv ns prev Hp Hns IHn]; [constructor|].
      cbn [map] in Hd. inversion Hd as [|? ? Hd1 Hd2]; subst.
      constructor; [|apply IHn; exact Hd2].
      intros post. rewrite Hp. exact Hd1. }
    set (text := done ++ W ++ (t ++ [x]) ++ ws ++
                   SIR_KEY_ASSIGNMENT_CHAR :: value_text s ++ LF :: R1).
    assert (Hb : done ++ ws0 ++ source_lines ((k, s) :: rest) ++ R = text).
    { unfold text, R1, W, source_lines. cbn [map key_lines fst snd]. rewrite Hks. reassoc. }
    rewrite Hb.
    assert (Hcons : exists c r, t ++ [x] = c :: r /\ c <> NUL /\
                                Ascii.eqb c SIR__SECTION_NAME_OPEN_CHAR = false /\
                                le_space c = false).
    { destruct t as [|c t]; [exists x, []|exists c, (t ++ [x])]; cbn [app hd] in *.
      - repeat split; assumption.
      - repeat split; try assumption. apply Htn. left. reflexivity. }
    destruct Hcons as (c & r & Hcr & Hcn & Hco & Hcs).
    assert (Hload0 : is_nul (load text (Z.of_nat (length done))) = false).
    { unfold text. rewrite load_at_length by reflexivity.
      destruct W as [|a W']; cbn [app hd].
      - rewrite Hcr. cbn [app hd]. apply is_nul_false. exact Hcn.
      - apply is_nul_false. apply (whitespace_nul_free _ HW). left. reflexivity. }
    assert (Hskip : sir__skip_whitespace text (Z.of_nat (length done)) = Z.of_nat (length W)).
    { unfold sir__skip_whitespace, text. rewrite tail_at_length by reflexivity.
      apply skip_whitespace_app_stop; [exact HW|].
      rewrite Hcr. cbn [app hd]. rewrite Hcs. apply andb_false_r. }
    assert (Hload1 : load text (Z.of_nat (length (done ++ W))) = c).
    { unfold text.
      replace (done ++ W ++ (t ++ [x]) ++ ws ++
                 SIR_KEY_ASSIGNMENT_CHAR :: value_text s ++ LF :: R1)
        with ((done ++ W) ++ (t ++ [x]) ++ ws ++
                 SIR_KEY_ASSIGNMENT_CHAR :: value_text s ++ LF :: R1) by reassoc.
      rewrite load_at_length by reflexivity. rewrite Hcr. reflexivity. }
    assert (Hround : forall (fuel : nat) (names values : list cptr),
               load_loop (S fuel)
                 (mkLoader (mkIni text secs snames names values err sc kc opts esz ew)
                           (Z.of_nat (length done)) pi si (Z.of_nat (length (old ++ cur)))) =
               do r <- load_key
                         (mkLoader (mkIni text secs snames names values err sc kc opts esz ew)
                                   (Z.of_nat (length (done ++ W))) pi si
                                   (Z.of_nat (length (old ++ cur))));
               match r with
               | Continue st2 => load_loop fuel st2
               | Break st2 => Ok st2
               end).
    { intros fuel names values.
      cbn [load_loop l_ini data l_str prev_index section_index key_index].
      rewrite Hload0, Hskip.
      replace (Z.of_nat (length done) + Z.of_nat (length W))
        with (Z.of_nat (length (done ++ W))) by lengths.
      rewrite Hload1, Hco.
      assert (is_nul c = false) as -> by (apply is_nul_false; exact Hcn).
      reflexivity. }
    set (no := InData (Z.of_nat (length (done ++ W)))).
    assert (Hnames : forall (extra : list ascii) (z tl : list ascii),
               length z = S (length ws) -> hd NUL z = NUL ->
               extra = W ++ (t ++ [x]) ++ z ++ tl ->
               forall post, string_at ((done ++ extra) ++ post) no = Some (trimmed k)).
    { intros extra z tl Hzl Hzh -> post. unfold no. cbn [string_at]. f_equal. rewrite Htr.
      replace ((done ++ W ++ (t ++ [x]) ++ z ++ tl) ++ post)
        with ((done ++ W) ++ (t ++ [x]) ++ z ++ tl ++ post) by reassoc.
      rewrite tail_at_length by reflexivity. apply c_string_app_end.
      - intros y Hy. apply in_app_or in Hy.
        destruct Hy as [Hy|[<-|[]]]; [apply Htn, Hy|exact Hxn].
      - unfold ends_string. destruct z; [discriminate Hzl|exact Hzh]. }
    destruct s as [v|pad q tail].
    + (* a plain value *)
      cbn [source_field] in Hs.
      apply value_field_spec in Hs. destruct Hs as (Hvn & _ & Hvl & Hvq & Hvt).
      destruct (field_split v Hvn Hvt)
        as (w3 & t' & x' & w4 & Hvs' & Hw3 & Hw4 & Htn' & Hxn' & Hx' & Hhd' & Htr').
      destruct (load_key_line opts done W t x ws w3 t' x' w4 R1 secs snames (old ++ cur)
                              n0 nrest vs v0 vrest err sc kc esz ew r0 pi si old cur)
        as (z & z' & Hzl & Hzh & Hzl' & Hzh' & Hstep); try assumption; try reflexivity.
      { rewrite <- Hvs'. exact Hvl. }
      { rewrite <- Hvs'. exact Hvq. }
      set (extra := W ++ (t ++ [x]) ++ z ++ w3 ++ (t' ++ [x']) ++ z').
      set (vo := InData (Z.of_nat (length (done ++ W ++ (t ++ [x]) ++ z ++ w3)))) in *.
      assert (Hno : forall post, string_at ((done ++ extra) ++ post) no = Some (trimmed k))
        by (apply (Hnames extra z (w3 ++ (t' ++ [x']) ++ z') Hzl Hzh); reflexivity).
      assert (Hvo : forall post,
                 string_at ((done ++ extra) ++ post) vo = Some (value_read (Plain v))).
      { intros post. unfold vo. cbn [string_at value_read]. f_equal. rewrite Htr'.
        unfold extra.
        replace ((done ++ W ++ (t ++ [x]) ++ z ++ w3 ++ (t' ++ [x']) ++ z') ++ post)
          with ((done ++ W ++ (t ++ [x]) ++ z ++ w3) ++ (t' ++ [x']) ++ z' ++ post) by reassoc.
        rewrite tail_at_length by reflexivity. apply c_string_app_end.
        - intros y Hy. apply in_app_or in Hy.
          destruct Hy as [Hy|[<-|[]]]; [apply Htn', Hy|exact Hxn'].
        - unfold ends_string. destruct z'; [discriminate Hzl'|exact Hzh']. }
      destruct (IH (done ++ extra) [] (prev ++ [(k, Plain v)]) (cur ++ [no]) (vs ++ [vo])
                   nrest vrest)
        as (extra2 & ws1 & newn & newv & Hws1 & Hrun & Hnewn & Hnewv & Hbound).
      * exact Hr.
      * constructor.
      * cbn [length] in Hnr. lia.
      * cbn [length] in Hvr. lia.
      * repeat rewrite length_app in *. cbn [length]. lia.
      * apply Forall2_app.
        -- eapply Forall2_impl; [|exact Hns]. intros p kv H post.
           rewrite <- app_assoc. apply H.
        -- constructor; [|constructor]. exact Hno.
      * rewrite <- app_assoc. exact Hd.
      * exists (extra ++ extra2), ws1, (no :: newn), (vo :: newv).
        split; [exact Hws1|]. split; [|split; [|split]].
        -- intros fuel. cbn [length Nat.add skipn]. rewrite Hround.
           unfold text. cbn [value_text]. rewrite Hvs'.
           replace (done ++ W ++ (t ++ [x]) ++ ws ++
                      SIR_KEY_ASSIGNMENT_CHAR :: (w3 ++ (t' ++ [x']) ++ w4) ++ LF :: R1)
             with (done ++ W ++ (t ++ [x]) ++ ws ++
                     SIR_KEY_ASSIGNMENT_CHAR :: w3 ++ (t' ++ [x']) ++ w4 ++ LF :: R1)
             by reassoc.
           rewrite Hstep. cbn [bind].
           etransitivity; [|etransitivity; [exact (Hrun fuel)|]].
           ++ f_equal. f_equal; [f_equal|..];
                first [unfold extra, R1, no, vo; reassoc | unfold extra, no; lengths].
           ++ f_equal. f_equal; [f_equal|..];
                first [reassoc | f_equal; f_equal; reassoc].
        -- constructor.
           ++ intros post. replace ((done ++ extra ++ extra2) ++ post)
                with ((done ++ extra) ++ extra2 ++ post) by reassoc. apply Hno.
           ++ eapply Forall2_impl; [|exact Hnewn]. intros p kv H post.
              replace ((done ++ extra ++ extra2) ++ post)
                with (((done ++ extra) ++ extra2) ++ post) by reassoc. apply H.
        -- constructor.
           ++ intros post. replace ((done ++ extra ++ extra2) ++ post)
                with ((done ++ extra) ++ extra2 ++ post) by reassoc. apply Hvo.
           ++ eapply Forall2_impl; [|exact Hnewv]. intros p kv H post.
              replace ((done ++ extra ++ extra2) ++ post)
                with (((done ++ extra) ++ extra2) ++ post) by reassoc. apply H.
        -- rewrite source_lines_cons. cbn [length] in *. lia.
    + (* a quoted value *)
      apply quoted_field_spec in Hs. destruct Hs as (Hquotes & Hraw & Hpq & Hqq & Htail & Hqe).
      apply raw_value_spec in Hraw. destruct Hraw as (Hrn & _ & Hrl).
      assert (Hpn : nul_free pad) by (intros y Hy; apply Hrn, in_or_app; left; exact Hy).
      assert (Hqn : nul_free q).
      { intros y Hy. apply Hrn, in_or_app. right. apply in_or_app. left. exact Hy. }
      assert (Hpl : ~ In LF pad) by (intros Hy; apply Hrl, in_or_app; left; exact Hy).
      destruct (load_key_line_quoted opts done W t x ws pad q (tail ++ LF :: R1) secs snames
                  (old ++ cur) n0 nrest vs v0 vrest err sc kc esz ew r0 pi si old cur)
        as (z & Hzl & Hzh & Hstep); try assumption; try reflexivity.
      set (extra := W ++ (t ++ [x]) ++ z ++ pad ++ DQUOTE :: q ++ [NUL]).
      set (vo := InData (Z.of_nat (length (done ++ W ++ (t ++ [x]) ++ z ++
                                             pad ++ [DQUOTE])))) in *.
      assert (Hno : forall post, string_at ((done ++ extra) ++ post) no = Some (trimmed k))
        by (apply (Hnames extra z (pad ++ DQUOTE :: q ++ [NUL]) Hzl Hzh); reflexivity).
      assert (Hvo : forall post,
                 string_at ((done ++ extra) ++ post) vo =
                 Some (value_read (Quoted pad q tail))).
      { intros post. unfold vo. cbn [string_at value_read]. f_equal. unfold extra.
        replace ((done ++ W ++ (t ++ [x]) ++ z ++ pad ++ DQUOTE :: q ++ [NUL]) ++ post)
          with ((done ++ W ++ (t ++ [x]) ++ z ++ pad ++ [DQUOTE]) ++ q ++ NUL :: post)
          by reassoc.
        rewrite tail_at_length by reflexivity. apply c_string_app_end; [exact Hqn|reflexivity]. }
      assert (Hpending : whitespace (tail ++ [LF])).
      { apply Forall_app. split; [exact Htail|]. constructor; [split; reflexivity|constructor]. }
      destruct (IH (done ++ extra) (tail ++ [LF]) (prev ++ [(k, Quoted pad q tail)])
                   (cur ++ [no]) (vs ++ [vo]) nrest vrest)
        as (extra2 & ws1 & newn & newv & Hws1 & Hrun & Hnewn & Hnewv & Hbound).
      * exact Hr.
      * exact Hpending.
      * cbn [length] in Hnr. lia.
      * cbn [length] in Hvr. lia.
      * repeat rewrite length_app in *. cbn [length]. lia.
      * apply Forall2_app.
        -- eapply Forall2_impl; [|exact Hns]. intros p kv H post.
           rewrite <- app_assoc. apply H.
        -- constructor; [|constructor]. exact Hno.
      * rewrite <- app_assoc. exact Hd.
      * exists (extra ++ extra2), ws1, (no :: newn), (vo :: newv).
        split; [exact Hws1|]. split; [|split; [|split]].
        -- intros fuel. cbn [length Nat.add skipn]. rewrite Hround.
           unfold text. cbn [value_text].
           replace (done ++ W ++ (t ++ [x]) ++ ws ++
                      SIR_KEY_ASSIGNMENT_CHAR ::
                      (pad ++ DQUOTE :: q ++ DQUOTE :: tail) ++ LF :: R1)
             with (done ++ W ++ (t ++ [x]) ++ ws ++
                     SIR_KEY_ASSIGNMENT_CHAR ::
                     pad ++ DQUOTE :: q ++ DQUOTE :: tail ++ LF :: R1)
             by reassoc.
           rewrite Hstep. cbn [bind].
           etransitivity; [|etransitivity; [exact (Hrun fuel)|]].
           ++ f_equal. f_equal; [f_equal|..];
                first [unfold extra, R1, no, vo; reassoc | unfold extra, no; lengths].
           ++ f_equal. f_equal; [f_equal|..];
                first [reassoc | f_equal; f_equal; reassoc].
        -- constructor.
           ++ intros post. replace ((done ++ extra ++ extra2) ++ post)
                with ((done ++ extra) ++ extra2 ++ post) by reassoc. apply Hno.
           ++ eapply Forall2_impl; [|exact Hnewn]. intros p kv H post.
              replace ((done ++ extra ++ extra2) ++ post)
                with (((done ++ extra) ++ extra2) ++ post) by reassoc. apply H.
        -- constructor.
           ++ intros post. replace ((done ++ extra ++ extra2) ++ post)
                with ((done ++ extra) ++ extra2 ++ post) by reassoc. apply Hvo.
           ++ eapply Forall2_impl; [|exact Hnewv]. intros p kv H post.
              replace ((done ++ extra ++ extra2) ++ post)
                with (((done ++ extra) ++ extra2) ++ post) by reassoc. apply H.
        -- rewrite source_lines_cons. cbn [value_text].
           assert (length tail < length (pad ++ DQUOTE :: q ++ DQUOTE :: tail))%nat
             by lengths.
           rewrite length_app in Hbound. cbn [length] in *. lia.
Qed.

(** X24 (sir_load_from_str, key branch): quoted values.  In a text of key
    lines with names that differ, a value written between double quotes
    (quoting enabled, the quotes on the line of the name, whitespace only
    behind the closing quote) is stored as it stands between the quotes:
    the whitespace inside is kept, what precedes the opening quote is
    dropped, and an empty pair of quotes gives the empty value.  Plain
    values beside it are stored without the whitespace around them.  The
    lookup without a section returns these values. *)
Theorem X24_quoted_values
        (opts : SirOptions) (kss : list (list ascii * value_source)) (w : list ascii) :
  source_fields opts kss = true ->
  distinct_names opts (map (fun ks => trimmed (fst ks)) kss) = true ->
  whitespace w -> w = [] \/ has_option opts SIR_OPTION_DISABLE_WARNINGS = true ->
  exists ini,
    sir_load_from_str (source_lines kss ++ w) opts = Ok ini /\
    sir_has_error ini = false /\
    key_count ini = Z.of_nat (length kss) /\
    map (string_at (data ini)) (key_names ini) =
    map (fun ks => Some (trimmed (fst ks))) kss /\
    map (string_at (data ini)) (key_values ini) =
    map (fun ks => Some (value_read (snd ks))) kss /\
    sections ini = [mkSection [mkRange 0 (Z.of_nat (length kss))]] /\
    forall k s, In (k, s) kss ->
                exists p, sir_section_str ini None (Some (trimmed k)) =
                          Ok (p, sir__clear_error_str ini) /\
                          sir_has_error (sir__clear_error_str ini) = false /\
                          string_at (data ini) p = Some (value_read s).
Proof.
  intros Hg Hd Hw Hwarnings.
  set (esz := if has_option opts SIR_OPTION_DISABLE_ERRORS then 0 else SIR_ERROR_STRING_SIZE).
  set (kvs := map (fun ks => (fst ks, value_text (snd ks))) kss).
  assert (Hlines : line_fields opts kvs = true) by (apply source_fields_lines; exact Hg).
  assert (Hlk : length kvs = length kss) by apply length_map.
  set (text := source_lines kss ++ w).
  set (a := length (filter (fun c => Ascii.eqb c SIR__SECTION_NAME_OPEN_CHAR) text)).
  set (b := length (filter (sir__is_assignment_char opts) text)).
  assert (Hb : (length kss <= b)%nat).
  { unfold b, text, source_lines. fold kvs. rewrite filter_app, length_app.
    pose proof (key_lines_assignments opts kvs). lia. }
  assert (Hstrip : strip_and_count (S (S (length text))) opts text 0 1 0 =
                   Ok (text, 1 + Z.of_nat a, 0 + Z.of_nat b)).
  { apply (strip_and_count_plain opts text (S (S (length text))) [] 1 0).
    - intros y Hy. apply in_app_or in Hy. destruct Hy as [Hy|Hy];
        [apply (lines_nul_free opts kvs Hlines), Hy|apply (whitespace_nul_free w Hw), Hy].
    - apply Forall_app. split; [apply lines_comment_free; exact Hlines|].
      apply whitespace_comment_free. exact Hw.
    - lia. }
  pose proof (key_lines_length kvs) as Hkl.
  assert (Hlt : (length kss <= length text)%nat).
  { unfold text, source_lines. fold kvs. rewrite length_app. lia. }
  assert (Hwarn : (if has_option opts SIR_OPTION_DISABLE_WARNINGS then Ok tt
                   else check_warnings (S (length text)) opts text 0) = Ok tt).
  { destruct (has_option opts SIR_OPTION_DISABLE_WARNINGS) eqn:Hopt; [reflexivity|].
    destruct Hwarnings as [->|Hdis]; [|discriminate].
    replace (S (length text)) with (length kvs + S (length text - length kss))%nat by lia.
    pose proof (check_warnings_lines opts kvs (S (length text - length kss)) [] [] Hlines)
      as Hrun.
    cbn [app length] in Hrun. change (Z.of_nat 0) with 0 in Hrun.
    change (check_warnings (length kvs + S (length text - length kss)) opts
                           (key_lines kvs ++ []) 0 = Ok tt).
    rewrite Hrun.
    apply (check_warnings_end opts _ (key_lines kvs) []). constructor. }
  set (secs0 := mkSection [set_start fresh_range 0] :: repeat (mkSection [fresh_range]) a).
  set (snames0 := Literal SIR_GLOBAL_SECTION_NAME :: repeat NullPtr a).
  destruct (load_loop_source_lines opts secs0 snames0 [] (1 + Z.of_nat a)
              (0 + Z.of_nat b) esz 0 (set_start fresh_range 0) 0 0 [] w
              (Z.le_refl 0) eq_refl eq_refl
              kss [] [] [] [] [] (repeat NullPtr b) (repeat NullPtr b))
    as (extra & ws1 & ns & vs & Hws1 & Hrun & Hns & Hvs & Hbound).
  { exact Hg. }
  { constructor. }
  { rewrite repeat_length. exact Hb. }
  { rewrite repeat_length. exact Hb. }
  { reflexivity. }
  { constructor. }
  { exact Hd. }
  cbn [app length] in Hrun, Hns, Hvs, Hbound. change (Z.of_nat 0) with 0 in Hrun.
  assert (Hln : length ns = length kss) by (apply Forall2_length in Hns; exact Hns).
  assert (Hlv : length vs = length kss) by (apply Forall2_length in Hvs; exact Hvs).
  assert (Hfinal : whitespace (ws1 ++ w)) by (apply Forall_app; split; assumption).
  set (ini := mkIni (extra ++ ws1 ++ w) [mkSection [mkRange 0 (Z.of_nat (length ns))]]
                    [Literal SIR_GLOBAL_SECTION_NAME] ns vs [] (Z.of_nat 1)
                    (Z.of_nat (length ns)) opts esz 0).
  assert (Hload : sir_load_from_str text opts = Ok ini).
  { unfold sir_load_from_str. rewrite Hstrip. cbn [bind]. rewrite Hwarn. cbn [bind].
    unfold initial_ini. replace (Z.to_nat (1 + Z.of_nat a)) with (S a) by lia.
    replace (Z.to_nat (0 + Z.of_nat b)) with b by lia.
    cbn [repeat]. rewrite aget_head. cbn [bind ranges]. rewrite aget_head. cbn [bind].
    rewrite aset_head. cbn [bind]. rewrite aset_head. cbn [bind]. rewrite aset_head.
    cbn [bind]. fold esz. fold secs0. fold snames0.
    replace (S (length text)) with (length kss + (S (length text) - length kss))%nat by lia.
    unfold text at 1. rewrite Hrun.
    assert (Hlen : (length (ws1 ++ w) < S (length text) - length kss)%nat).
    { unfold text. rewrite !length_app. cbn [length] in Hbound. lia. }
    rewrite load_loop_end; [|exact Hfinal|exact Hlen].
    cbn [bind l_ini sections prev_index key_index section_index].
    apply (load_finish (extra ++ ws1 ++ w) [] (set_start fresh_range 0) a
             [mkSection [mkRange 0 (Z.of_nat (length ns))]]
             [Literal SIR_GLOBAL_SECTION_NAME] (repeat NullPtr a)
             ns (skipn (length kss) (repeat NullPtr b))
             vs (skipn (length kss) (repeat NullPtr b)) a b opts esz).
    - reflexivity.
    - reflexivity.
    - lia.
    - cbn [length]. lia.
    - apply repeat_length.
    - rewrite length_skipn, repeat_length. lia.
    - reflexivity. }
  assert (Hns' : Forall2 (fun p ks => string_at (extra ++ ws1 ++ w) p =
                                      Some (trimmed (fst ks))) ns kss).
  { eapply Forall2_impl; [|exact Hns]. intros p kv H. apply H. }
  assert (Hvs' : Forall2 (fun p ks => string_at (extra ++ ws1 ++ w) p =
                                      Some (value_read (snd ks))) vs kss).
  { eapply Forall2_impl; [|exact Hvs]. intros p kv H. apply H. }
  exists ini. split; [exact Hload|].
  split; [unfold sir_has_error; cbn [error ini]; apply andb_false_r|].
  split; [cbn [key_count ini]; rewrite Hln; reflexivity|].
  split; [apply (Forall2_map_eq (string_at (extra ++ ws1 ++ w))
                                (fun ks => Some (trimmed (fst ks)))); exact Hns'|].
  split; [apply (Forall2_map_eq (string_at (extra ++ ws1 ++ w))
                                (fun ks => Some (value_read (snd ks)))); exact Hvs'|].
  split; [cbn [sections ini]; rewrite Hln; reflexivity|].
  intros k s Hin.
  destruct (sir_load_from_str_well_formed _ _ _ Hload) as [Hwf _].
  apply (global_round_trip_of (fun ks => trimmed (fst ks)) (fun ks => value_read (snd ks))
                              ini kss (k, s) Hwf Hns' Hvs' Hd Hin).
Qed.

Lemma X24_witness :
  exists ini,
    sir_load_from_str
      (source_lines [(list_ascii_of_string "name ",
                      Quoted [" "%char] (list_ascii_of_string "  John Smith  ") []);
                     (list_ascii_of_string "path",
                      Quoted (list_ascii_of_string "see ") (list_ascii_of_string "a=b [x]")
                             [" "%char]);
                     (list_ascii_of_string "empty", Quoted [] [] []);
                     (list_ascii_of_string "plain ", Plain (list_ascii_of_string "  x y  "))])
      SIR_OPTION_NONE = Ok ini /\
    key_count ini = 4 /\
    map (string_at (data ini)) (key_values ini) =
    [Some (list_ascii_of_string "  John Smith  "); Some (list_ascii_of_string "a=b [x]");
     Some []; Some (list_ascii_of_string "x y")] /\
    exists p, sir_section_str ini None (arg "name") = Ok (p, sir__clear_error_str ini) /\
              string_at (data ini) p = Some (list_ascii_of_string "  John Smith  ").
Proof.
  destruct (X24_quoted_values SIR_OPTION_NONE
              [(list_ascii_of_string "name ",
                Quoted [" "%char] (list_ascii_of_string "  John Smith  ") []);
               (list_ascii_of_string "path",
                Quoted (list_ascii_of_string "see ") (list_ascii_of_string "a=b [x]")
                       [" "%char]);
               (list_ascii_of_string "empty", Quoted [] [] []);
               (list_ascii_of_string "plain ", Plain (list_ascii_of_string "  x y  "))] [])
    as (ini & Hload & _ & Hcount & _ & Hvalues & _ & Hlook);
    [vm_compute; reflexivity|vm_compute; reflexivity|constructor|left; reflexivity|].
  exists ini. rewrite app_nil_r in Hload. split; [exact Hload|]. split; [exact Hcount|].
  split; [exact Hvalues|].
  destruct (Hlook (list_ascii_of_string "name ")
                  (Quoted [" "%char] (list_ascii_of_string "  John Smith  ") []))
    as (p & Hp & _ & Hs); [left; reflexivity|].
  exists p. split; [exact Hp|exact Hs].
Defined.
